(* ===== verification/_CoqProject ===== *)
-Q . S2P
Prelude.v
Nt.v
Sink.v
Serial.v
Recovery7b.v
ListEntry.v
IrpTracker.v
Crc32c.v
Frame.v
Kernel.v
Net.v
Overlay.v
Cache.v
Disk.v
PnpDisk.v
WdmDisk.v
Bus.v
BusPnp.v
Blk.v
CcMmSync.v
Storport.v
Dispatch.v
BusServe.v
Registry.v
BootEnv.v
BootChecks.v
BootMain.v
Text.v
Stats.v
Files.v
WalEntry.v
Wal.v
TinyLfu.v
Caches.v
NetSm.v
Packed.v
Codec.v
AgentEnv.v
BootMeta.v
Protocol.v
BlackBox.v
Dhcp.v
DhcpPacket.v
BootAgent.v
Ids.v
Replay.v
ReplayTool.v
BootTrace.v
HttpBoot.v
ImageService.v
ServerMain.v
HdTools.v
