(* ===== verification/Prelude.v ===== *)
(** * HyperDisk X: drivers, boot tools, client and server code

    A shallow embedding of the C and C++ code of HyperDisk X, a diskless-boot
    system: Windows kernel drivers that present a network disk (src/driver), a
    boot agent and a client runtime (src/client), an image server
    (src/server), and command line tools (src/tools). Each function is a Rocq
    function on explicit state; machine integers are [Z] with the wrap-around
    written where the code has it; an access outside a buffer, through a freed
    block, a division by zero or an uncaught exception is the value [Fault]; a
    loop that the code does not bound takes fuel and gives [NoFuel] when it
    runs out.

    ** The drivers

    - common: hd_serial.c is a COM1 channel with a 4096-byte ring ([Serial]);
      its clients use it through the class [DebugSink] ([Sink]), whose laws
      [Serial] proves. hd_registry.c, hd_memory.c, hd_lock.c are [Registry].
    - blk/blk_irp_tracker.c keeps the requests in flight on a doubly linked list
      and times them out from a timer ([IrpTracker], on the heap of list nodes
      of [ListEntry], which models LIST_ENTRY and its macros).
    - blk/blk_7b_recovery.c retries, falls back and finally halts when the boot
      device is missing ([Recovery7b]). What other code does during its sleeps
      is a function from the time to the flags.
    - net: the connection table and frame identifiers ([Net]) and the wire
      format ([Frame]).
    - overlay and cache: two file system filters ([Overlay], [Cache]).
    - blk/pnp_disk_driver.c and blk/wdm_disk_driver.c: two drivers for the same
      disk; what they share is [Disk], the rest [PnpDisk] and [WdmDisk].
    - bus: the bus driver with its list of children ([Bus]) and its PnP and
      identifier code ([BusPnp]); the whole driver from DriverEntry on
      ([BusServe]).
    - blk/blk_driver.c, blk_io.c, blk_request.c, blk_ioctl.c, blk_fastio.c,
      blk_pool.c: the block driver ([Blk]); blk_cc_mm_sync.c: the locks taken for
      the cache and memory managers ([CcMmSync]); storport_driver.c: a StorPort
      miniport ([Storport]).
    - the dispatch tables DriverEntry fills, and the drivers as the I/O manager
      sees them through these tables ([Dispatch]).

    ** The boot diagnostic and the small tools

    - tools/bootdiag: the checksum ([Crc32c]), the data and output ([BootEnv]),
      the seven checks ([BootChecks]), the text of a GUID ([Ids]), options,
      retries, tally and exit code ([BootMain]).
    - tools/hd_dl.c and tools/hd_ld.c, a downloader and a driver loader
      ([HdTools], a Module each).

    ** Client, server and analysis tools

    - client/overlay_mgr/wal_enhanced.cpp: the write-ahead log, its entries
      ([WalEntry]) and its segments, checkpoint and replay ([Wal]), over the
      file system interface of [Files].
    - client/smart_cache/w_tinylfu.cpp ([TinyLfu]); l1_ram_cache.cpp,
      overlay_mgr/ram_overlay.cpp and server/cache_engine/l3_ssd_cache.cpp
      ([Caches], a Module each).
    - client/disk_runtime/network_state_machine.cpp: the connection state
      machine with back-off and failover ([NetSm]).
    - client/common/hd_frame_codec.cpp ([Codec]) and hd_boot_trace.cpp
      ([BootTrace]); the messages, and the header declared three times, in
      hd_frame_codec.h, include/hd_protocol.h and the network driver
      ([Protocol]).
    - client/boot_agent: metadata ([BootMeta]), DHCP client and COM1 logger
      ([Dhcp], with the packet as declared in [DhcpPacket]), the agent's main
      sequence ([BootAgent]; what its identifiers tell apart: [Ids]), the HTTP client
      ([HttpBoot]); client/blackbox and tools/blackbox_analyzer ([BlackBox]).
      The machine they run on is the class [AgentOs] of [AgentEnv].
    - tools/replay_recorder: the recorder ([Replay]) and the analyzer
      ([ReplayTool]).
    - server/image_server/image_service.cpp ([ImageService]) and the two server
      programs ([ServerMain]).
    - [Packed], [Text], [Stats] have the packed structures, the string and
      number conversions and the percentiles that several of these use.

    Operating system and libraries are not modelled beyond what the sources use
    of them: [Nt] has the status codes, IRPs and events, [Kernel] a ledger of the
    devices, links, pool blocks, handles and filters a driver holds; answers of
    the kernel (an allocation that fails, a lower driver's status) are
    arguments. User-mode systems are classes: [Win32] for the diagnostic tool,
    [Posix] and [BlockFiles] for log and image service, [AgentOs] and [ReplayOs]
    for agent and recorder, [WinInet] and [NativeApi] for the two small tools,
    [IoManager] for the dispatch tables. Their laws are separate classes that
    say what these systems document (handles are counted, a read delivers
    bytes, no more than asked for); each has a concrete instance on which the
    witnesses run.

    ** What the theorems show

    - Refinement: the serial ring is a bounded log; tracker completion and
      watchdog act on the list in the heap as removal and filtering act on a
      list of entries, freeing exactly what they remove; a redirected write
      refines a log of pages; the write-ahead log is an append-only list across
      its segment files; the image service is a map from identifiers to
      contents; the table-driven CRC-32C is the bit-by-bit one.
    - Invariants over every sequence of operations: tracker, connection
      counter, dirty pages, child identifiers, PnP life cycle, W-TinyLFU queues
      and counters, L3 cache, connection machine.
    - Round trips: driver and client frames, log entries, boot metadata, DHCP
      options, black box and replay files, URLs, identifier lists, and every
      message of the protocol; different machine and boot identifiers have
      different texts.
    - Agreement of declarations: the three frame headers lay out the same bytes;
      the frame the diagnostic writes by hand, read by the codec, asks for no
      blocks.
    - Errors: damaged log entries, metadata and black box files are detected,
      with the window of damage the checksums cover; every packet sent through
      a dispatch table is completed once, handed on once, or (reads and writes
      of the block driver) left pending.
    - Ordering: under any interleaving of the cache and memory manager callbacks
      no deadlock is reachable; concurrent recording into the boot trace loses
      nothing, concurrent recording into the replay ring stays in bounds but
      loses events; two callers can pass the pool quota together.
    - Termination and its failure: recovery returns, halts or loops for ever
      according to the flags; the bus device's PnP dispatch never returns, and
      no packet the bus driver answers creates a child; the image server never
      exits in order; the diagnostic, the boot agent and the downloader end on every machine and
      give back every handle, block and socket; the block driver never finds
      the network driver ready.
    - Programs as wholes: the diagnostic's exit code and what a PASS of V1
      guarantees; the boot agent's exit codes and fallbacks; what the analyzers
      report.

    ** Plan

    All components with logic of their own are modelled. What would come next
    is the timing of lock acquisition in the client classes (their public
    operations are taken as atomic, as their mutexes make them).

    ** Fuel

    A loop over a linked list takes fuel; the theorems give it the length of
    the list plus one, which they prove enough. The serial polling loop has the
    bound of the C code. The retry loop of the diagnostic is proved to need at
    most the retry count plus one. The scan of a log segment and the option
    parser of the DHCP client take the length of their input, since each pass
    consumes at least one byte; the eviction and demotion loops of the caches
    take the number of entries plus one; receive loops take more passes than
    the peer sends pieces. Recovery and PnP recursion take arbitrary fuel and
    the theorems say for which inputs none is enough.

    ** Not modelled

    IRQLs and the scheduling of processors (spin lock sections are atomic),
    weak memory orderings beyond the interleavings of atomic steps, the bytes of
    structures the system defines where only their size matters, hd_debug.c and
    hd_log.cpp (one call each), floating point (latencies are kept in
    microseconds, hit rates are left out), the POSIX branches of the diagnostic
    (they use O_BINARY and SOCKET, which POSIX does not have, so they are not a
    program), the files that return a constant (configuration, IPC, disk
    runtime, QoS, update agent, AI engine, gateway), and scripts and deployment.
    Of the tests, those of the frame codec are examples in [Protocol].

    This file is the prelude: machine integers, partial computations, bytes and
    blocks of memory, and the tactics and lemmas the other files share. *)

From stdpp Require Export base tactics list numbers gmap strings.
From Stdlib Require Export ZArith Lia Bool Btauto.
#[global] Open Scope Z_scope.

(** ** Machine integers

    A C integer of [w] bits is a [Z]; the wrap-around is written where the C
    expression is evaluated at that width. *)

Definition wrap (w z : Z) : Z := z mod 2 ^ w.
Definition u8 (z : Z) : Z := wrap 8 z.
Definition u16 (z : Z) : Z := wrap 16 z.
Definition u32 (z : Z) : Z := wrap 32 z.
Definition u64 (z : Z) : Z := wrap 64 z.

(** Two's complement reading of the low [w] bits. *)
Definition sgn (w z : Z) : Z :=
  let y := wrap w z in if y <? 2 ^ (w - 1) then y else y - 2 ^ w.
Definition s32 (z : Z) : Z := sgn 32 z.
Definition s64 (z : Z) : Z := sgn 64 z.

(** ** Partial, fuelled computations

    [Fault] is an access the C program must not make (a null or freed pointer,
    an index outside an array, a division by zero); [NoFuel] is a loop that was
    cut short by the fuel argument of the model. *)

Inductive res (A : Type) : Type :=
| Ok (a : A)
| Fault
| NoFuel.
Arguments Ok {A} a.
Arguments Fault {A}.
Arguments NoFuel {A}.

Definition res_bind {A B : Type} (c : res A) (k : A -> res B) : res B :=
  match c with
  | Ok a => k a
  | Fault => Fault
  | NoFuel => NoFuel
  end.

Definition of_opt {A : Type} (o : option A) : res A :=
  match o with
  | Some a => Ok a
  | None => Fault
  end.

Declare Scope hd_scope.
Delimit Scope hd_scope with hd.
Notation "'let*' x ':=' c 'in' k" := (res_bind c (fun x => k))
  (at level 10, x pattern, c at level 100, k at level 200) : hd_scope.
#[global] Open Scope hd_scope.

Lemma res_bind_ok {A B} (c : res A) (k : A -> res B) b :
  (let* x := c in k x) = Ok b -> exists a, c = Ok a /\ k a = Ok b.
Proof. destruct c; [eauto|done..]. Qed.

(** ** Bytes *)

Definition is_byte (b : Z) : Prop := 0 <= b < 256.

(** Little-endian image of the low [8 * n] bits of [z], and back. *)
Fixpoint le_bytes (n : nat) (z : Z) : list Z :=
  match n with
  | O => []
  | S m => z mod 256 :: le_bytes m (z / 256)
  end.

Fixpoint le_val (bs : list Z) : Z :=
  match bs with
  | [] => 0
  | b :: r => b + 256 * le_val r
  end.

(** The bytes of a C string literal, without its NUL, and the line end the
    drivers print. *)
Fixpoint zstr (s : string) : list Z :=
  match s with
  | EmptyString => []
  | String c r => Z.of_nat (Ascii.nat_of_ascii c) :: zstr r
  end.
Definition crlf : list Z := [13; 10].

(** The characters of a C string held in memory: everything before the first
    NUL, each read as an unsigned char. *)
Fixpoint c_chars (Str : list Z) : list Z :=
  match Str with
  | [] => []
  | c :: r => if c =? 0 then [] else u8 c :: c_chars r
  end.

(** [RtlCopyMemory (dst + off, src, length src)] on a buffer long enough. *)
Definition copy_at (dst : list Z) (off : nat) (src : list Z) : list Z :=
  take off dst ++ src ++ drop (off + length src) dst.

(** Memory accesses on a block of bytes: reading [n] bytes at [off], reading a
    little-endian integer of [n] bytes, storing [src] at [off]. An access that
    leaves the block is a [Fault]. *)
Definition in_block (m : list Z) (off n : Z) : bool :=
  (0 <=? off) && (0 <=? n) && (off + n <=? Z.of_nat (length m)).
Definition rd_bytes (m : list Z) (off n : Z) : res (list Z) :=
  if in_block m off n then Ok (take (Z.to_nat n) (drop (Z.to_nat off) m)) else Fault.
Definition rd (n : Z) (m : list Z) (off : Z) : res Z :=
  let* bs := rd_bytes m off n in Ok (le_val bs).
Definition wr (m : list Z) (off : Z) (src : list Z) : res (list Z) :=
  if in_block m off (Z.of_nat (length src)) then Ok (copy_at m (Z.to_nat off) src) else Fault.

(** The last [n] elements of a list. *)
Definition lastn {A : Type} (n : nat) (l : list A) : list A :=
  drop (length l - n) l.

(** ** Automation *)

Create HintDb hd.
Create Rewrite HintDb hd_rw.

(** Split every boolean test of the goal and turn the tests into propositions
    [lia] can use. *)
Ltac bool_props :=
  repeat match goal with
  | H : (_ && _)%bool = true |- _ => apply andb_true_iff in H as [? ?]
  | H : (_ || _)%bool = false |- _ => apply orb_false_iff in H as [? ?]
  | H : negb _ = true |- _ => apply negb_true_iff in H
  | H : negb _ = false |- _ => apply negb_false_iff in H
  | H : (_ =? _) = true |- _ => apply Z.eqb_eq in H
  | H : (_ =? _) = false |- _ => apply Z.eqb_neq in H
  | H : (_ <? _) = true |- _ => apply Z.ltb_lt in H
  | H : (_ <? _) = false |- _ => apply Z.ltb_ge in H
  | H : (_ <=? _) = true |- _ => apply Z.leb_le in H
  | H : (_ <=? _) = false |- _ => apply Z.leb_gt in H
  end.

Ltac split_ifs :=
  repeat (match goal with
  | |- context [ if ?b then _ else _ ] => let E := fresh "E" in destruct b eqn:E
  | H : context [ if ?b then _ else _ ] |- _ => let E := fresh "E" in destruct b eqn:E
  end; simplify_eq; try done); bool_props.

(** Arithmetic on wrapped integers: unfold the widths and let [lia] see the
    defining equations of [mod]. *)
Ltac mach_unfold :=
  unfold u8, u16, u32, u64, s32, s64, sgn, wrap in *; cbv zeta in *;
  repeat match goal with
  | |- context [2 ^ ?n] => let v := eval vm_compute in (2 ^ n) in change (2 ^ n) with v
  | H : context [2 ^ ?n] |- _ => let v := eval vm_compute in (2 ^ n) in change (2 ^ n) with v in H
  end.

Ltac mach := mach_unfold; split_ifs; Z.div_mod_to_equations; lia.

(** Equations between exclusive ors, bit by bit. *)
Ltac lxor_solve :=
  apply Z.bits_inj'; let n := fresh "n" in intros n _;
  repeat rewrite ?Z.lxor_spec, ?Z.bits_0; btauto.

(** ** Lemmas on integers *)

Lemma wrap_range w z : 0 <= w -> 0 <= wrap w z < 2 ^ w.
Proof. intros. unfold wrap. apply Z.mod_pos_bound, Z.pow_pos_nonneg; lia. Qed.

Lemma wrap_small w z : 0 <= z < 2 ^ w -> wrap w z = z.
Proof. intros. by apply Z.mod_small. Qed.

Lemma wrap_idemp w z : 0 <= w -> wrap w (wrap w z) = wrap w z.
Proof. intros. by apply wrap_small, wrap_range. Qed.

Lemma wrap_add_l w a b : wrap w (wrap w a + b) = wrap w (a + b).
Proof. unfold wrap. by rewrite Zplus_mod_idemp_l. Qed.

Lemma wrap_sub_l w a b : wrap w (wrap w a - b) = wrap w (a - b).
Proof. unfold wrap. by rewrite Zminus_mod_idemp_l. Qed.

Lemma sgn_small w z : 0 < w -> 0 <= z < 2 ^ (w - 1) -> sgn w z = z.
Proof.
  intros Hw Hz. unfold sgn, wrap.
  assert (2 ^ w = 2 * 2 ^ (w - 1)) by (rewrite <- Z.pow_succ_r by lia; f_equal; lia).
  rewrite Z.mod_small by lia. by destruct (Z.ltb_spec z (2 ^ (w - 1))); [|lia].
Qed.

(** Numbers closer than [s] are in different classes modulo [s]. *)
Lemma mod_apart s i j : 0 < s -> i < j -> j < i + s -> i mod s <> j mod s.
Proof.
  intros Hs H1 H2 E. assert ((j - i) mod s = 0) as Hz by (rewrite Zminus_mod, E, Z.sub_diag; by apply Z.mod_0_l; lia).
  rewrite Z.mod_small in Hz by lia. lia.
Qed.

(** ** Lemmas on byte strings *)

(** Checking concrete byte strings by evaluation. *)
Definition bytesb (l : list Z) : bool := forallb (fun b => (0 <=? b) && (b <? 256)) l.

Lemma bytesb_ok l : bytesb l = true -> Forall is_byte l.
Proof.
  unfold bytesb, is_byte. rewrite forallb_forall. intros Hl. apply Forall_forall. intros b Hb.
  apply list_elem_of_In, Hl in Hb. bool_props. lia.
Qed.

Lemma le_bytes_length n z : length (le_bytes n z) = n.
Proof. revert z; induction n as [|n IH]; intros z; simpl; [done | by rewrite IH]. Qed.

Lemma le_bytes_bytes n z : Forall is_byte (le_bytes n z).
Proof.
  revert z; induction n as [|n IH]; intros z; simpl; constructor; [|apply IH].
  unfold is_byte. apply Z.mod_pos_bound. lia.
Qed.

Lemma le_val_le_bytes n z : le_val (le_bytes n z) = z mod 2 ^ (8 * Z.of_nat n).
Proof.
  revert z; induction n as [|n IH]; intros z.
  { simpl. by rewrite Z.mod_1_r. }
  cbn [le_bytes le_val]. rewrite IH.
  replace (8 * Z.of_nat (S n)) with (8 + 8 * Z.of_nat n) by lia.
  rewrite Z.pow_add_r by lia. change (2 ^ 8) with 256.
  assert (0 < 2 ^ (8 * Z.of_nat n)) by (apply Z.pow_pos_nonneg; lia).
  rewrite Z.rem_mul_r by lia. lia.
Qed.

Lemma le_val_bound bs : Forall is_byte bs -> 0 <= le_val bs < 2 ^ (8 * Z.of_nat (length bs)).
Proof.
  induction 1 as [|b bs Hb _ IH]; [simpl; lia|].
  cbn [le_val length]. replace (8 * Z.of_nat (S (length bs))) with (8 + 8 * Z.of_nat (length bs)) by lia.
  rewrite Z.pow_add_r by lia. change (2 ^ 8) with 256. unfold is_byte in Hb. lia.
Qed.

Lemma le_bytes_le_val bs : Forall is_byte bs -> le_bytes (length bs) (le_val bs) = bs.
Proof.
  induction 1 as [|b bs Hb _ IH]; [done|]. cbn [length le_val le_bytes].
  unfold is_byte in Hb.
  replace ((b + 256 * le_val bs) mod 256) with b.
  - replace ((b + 256 * le_val bs) / 256) with (le_val bs); [by rewrite IH|].
    rewrite Z.mul_comm, Z.div_add by lia. rewrite Z.div_small by lia. lia.
  - rewrite Z.mul_comm, Z.mod_add by lia. by rewrite Z.mod_small by lia.
Qed.

Lemma copy_at_length dst off src :
  (off + length src <= length dst)%nat -> length (copy_at dst off src) = length dst.
Proof. intros. unfold copy_at. rewrite !length_app, length_take, length_drop. lia. Qed.

Lemma copy_at_lookup_in dst off src i :
  (off <= length dst)%nat -> (i < length src)%nat -> copy_at dst off src !! (off + i)%nat = src !! i.
Proof.
  intros. unfold copy_at. rewrite lookup_app_r by (rewrite length_take; lia).
  rewrite length_take, Nat.min_l by lia. rewrite lookup_app_l by lia. f_equal. lia.
Qed.

Lemma copy_at_lookup_out dst off src i :
  (off <= length dst)%nat ->
  (i < off)%nat \/ (off + length src <= i)%nat -> copy_at dst off src !! i = dst !! i.
Proof.
  intros Hle [Hi|Hi]; unfold copy_at.
  - rewrite lookup_app_l by (rewrite length_take; lia). by rewrite lookup_take_lt.
  - rewrite lookup_app_r by (rewrite length_take; lia). rewrite length_take, Nat.min_l by lia.
    rewrite lookup_app_r by lia. rewrite lookup_drop. f_equal. lia.
Qed.

(** Reading back what was stored, and reading before it. *)
Lemma copy_at_read dst off src :
  (off <= length dst)%nat -> take (length src) (drop off (copy_at dst off src)) = src.
Proof.
  intros. unfold copy_at. rewrite drop_app_length' by (rewrite length_take; lia). by apply take_app_length'.
Qed.

Lemma copy_at_read_before dst off src j k :
  (j + k <= off)%nat -> (off <= length dst)%nat ->
  take k (drop j (copy_at dst off src)) = take k (drop j dst).
Proof.
  intros H1 H2. unfold copy_at. rewrite drop_app_le by (rewrite length_take; lia).
  rewrite take_app_le by (rewrite length_drop, length_take; lia).
  rewrite skipn_firstn_comm, take_take. f_equal. lia.
Qed.

Lemma in_block_true m off n :
  in_block m off n = true <-> 0 <= off /\ 0 <= n /\ off + n <= Z.of_nat (length m).
Proof. unfold in_block. rewrite !andb_true_iff, !Z.leb_le. tauto. Qed.

Lemma rd_bytes_ok m off n :
  0 <= off -> 0 <= n -> off + n <= Z.of_nat (length m) ->
  rd_bytes m off n = Ok (take (Z.to_nat n) (drop (Z.to_nat off) m)).
Proof. intros. unfold rd_bytes. by rewrite (proj2 (in_block_true _ _ _)). Qed.

Lemma rd_ok n m off :
  0 <= off -> 0 <= n -> off + n <= Z.of_nat (length m) ->
  rd n m off = Ok (le_val (take (Z.to_nat n) (drop (Z.to_nat off) m))).
Proof. intros. unfold rd. by rewrite rd_bytes_ok. Qed.

Lemma wr_ok m off src :
  0 <= off -> off + Z.of_nat (length src) <= Z.of_nat (length m) ->
  wr m off src = Ok (copy_at m (Z.to_nat off) src).
Proof. intros. unfold wr. rewrite (proj2 (in_block_true _ _ _)); [done|lia]. Qed.

Lemma wr_length m off src m' : wr m off src = Ok m' -> length m' = length m.
Proof.
  unfold wr. destruct (in_block _ _ _) eqn:E; [|done]. apply in_block_true in E. intros [= <-].
  apply copy_at_length. lia.
Qed.

(** Blocks given as concatenations: reading a middle piece, and filling a
    zeroed buffer from the left. *)
Lemma rd_bytes_app a b c : rd_bytes (a ++ b ++ c) (Z.of_nat (length a)) (Z.of_nat (length b)) = Ok b.
Proof.
  rewrite rd_bytes_ok by (rewrite ?length_app; lia). rewrite !Nat2Z.id, drop_app_length.
  by rewrite take_app_length.
Qed.

Lemma rd_app a b c : rd (Z.of_nat (length b)) (a ++ b ++ c) (Z.of_nat (length a)) = Ok (le_val b).
Proof. unfold rd. by rewrite rd_bytes_app. Qed.

Lemma wr_fill pre src n :
  (length src <= n)%nat ->
  wr (pre ++ replicate n 0) (Z.of_nat (length pre)) src = Ok ((pre ++ src) ++ replicate (n - length src) 0).
Proof.
  intros Hn. rewrite wr_ok by (rewrite ?length_app, ?length_replicate; lia). unfold copy_at.
  rewrite Nat2Z.id, take_app_length, drop_app. rewrite drop_ge by lia.
  replace (length pre + length src - length pre)%nat with (length src) by lia.
  by rewrite drop_replicate, app_assoc.
Qed.

Lemma rd_bytes_fuel m off n : rd_bytes m off n <> NoFuel.
Proof. unfold rd_bytes. by destruct (in_block _ _ _). Qed.

(** Reading what was stored, and reading beside it. *)
Lemma rd_wr_same m off src m' :
  wr m off src = Ok m' -> rd_bytes m' off (Z.of_nat (length src)) = Ok src.
Proof.
  intros E. pose proof (wr_length _ _ _ _ E) as Hl. unfold wr in E. destruct (in_block _ _ _) eqn:Eb; [|done].
  apply in_block_true in Eb. injection E as <-. rewrite rd_bytes_ok by lia. rewrite Nat2Z.id.
  by rewrite copy_at_read by lia.
Qed.

Lemma rd_wr_other m off src m' j n :
  wr m off src = Ok m' -> j + n <= off \/ off + Z.of_nat (length src) <= j -> rd_bytes m' j n = rd_bytes m j n.
Proof.
  intros E Hd. pose proof (wr_length _ _ _ _ E) as Hl. unfold wr in E. destruct (in_block m off _) eqn:Eb; [|done].
  apply in_block_true in Eb. injection E as <-. unfold rd_bytes, in_block. rewrite Hl.
  destruct ((0 <=? j) && (0 <=? n) && (j + n <=? Z.of_nat (length m))) eqn:Ej; [|done]. bool_props. f_equal.
  apply list_eq. intros i. destruct (decide (i < Z.to_nat n)%nat); [|by rewrite !lookup_take_ge by lia].
  rewrite !lookup_take_lt, !lookup_drop by done. apply copy_at_lookup_out; lia.
Qed.

Lemma Forall_sub {A} (P : A -> Prop) n k (l : list A) : Forall P l -> Forall P (take n (drop k l)).
Proof. intros. by apply Forall_take, Forall_drop. Qed.

(** Counting after one element was replaced. *)
Lemma filter_insert {A} (f : A -> bool) (l : list A) i x y :
  l !! i = Some x ->
  (length (filter f (<[i := y]> l)) + (if f x then 1 else 0) = length (filter f l) + (if f y then 1 else 0))%nat.
Proof.
  revert i. induction l as [|z l IH]; intros [|i] Hi; [done|done| |].
  - injection Hi as ->. change (<[0%nat := y]> (x :: l)) with (y :: l). rewrite !filter_cons.
    destruct (f x) eqn:Ex, (f y) eqn:Ey; repeat first [rewrite decide_True by done|rewrite decide_False by (by intros [])]; cbn [length]; lia.
  - change (<[S i := y]> (z :: l)) with (z :: <[i := y]> l). rewrite !filter_cons. specialize (IH i Hi).
    destruct (decide (f z)); cbn [length]; lia.
Qed.

Lemma lastn_all {A} n (l : list A) : (length l <= n)%nat -> lastn n l = l.
Proof. intros. unfold lastn. by replace (length l - n)%nat with O by lia. Qed.

Lemma lastn_length {A} n (l : list A) : length (lastn n l) = Nat.min n (length l).
Proof. unfold lastn. rewrite length_drop. lia. Qed.

Lemma lastn_app_lastn {A} n (l k : list A) : lastn n (lastn n l ++ k) = lastn n (l ++ k).
Proof.
  unfold lastn. rewrite !length_app, length_drop.
  destruct (decide (length l <= n)%nat) as [Hl|Hl].
  { replace (length l - n)%nat with O by lia. by rewrite drop_0, Nat.sub_0_r. }
  rewrite !drop_app, drop_drop, length_drop. f_equal; f_equal; lia.
Qed.
