(* ===== verification/Nt.v ===== *)
(** * The kernel interface the drivers are written against

    NTSTATUS values, the part of an IRP the dispatch routines read and write,
    and the conversions the C compiler performs on them. The numeric values are
    the documented ones of the platform headers (ntstatus.h, wdm.h). *)

From S2P Require Import Prelude.

(** ** NTSTATUS *)

Definition STATUS_SUCCESS : Z := 0.
Definition STATUS_PENDING : Z := 0x103.
Definition STATUS_BUFFER_OVERFLOW : Z := 0x80000005.
Definition STATUS_NOT_IMPLEMENTED : Z := 0xC0000002.
Definition STATUS_INVALID_PARAMETER : Z := 0xC000000D.
Definition STATUS_NO_SUCH_DEVICE : Z := 0xC000000E.
Definition STATUS_INVALID_DEVICE_REQUEST : Z := 0xC0000010.
Definition STATUS_BUFFER_TOO_SMALL : Z := 0xC0000023.
Definition STATUS_REVISION_MISMATCH : Z := 0xC0000059.
Definition STATUS_INSUFFICIENT_RESOURCES : Z := 0xC000009A.
Definition STATUS_DEVICE_NOT_READY : Z := 0xC00000A3.
Definition STATUS_NOT_SUPPORTED : Z := 0xC00000BB.
Definition STATUS_NOT_FOUND : Z := 0xC0000225.
Definition STATUS_DATA_NOT_ACCEPTED : Z := 0xC000021B.

(** [NT_SUCCESS]: the status read as a signed 32-bit integer is not negative. *)
Definition NT_SUCCESS (status : Z) : bool := 0 <=? s32 status.

(** ** Plug-and-play minor functions the drivers distinguish *)
Inductive pnp_minor : Type :=
| IRP_MN_START_DEVICE | IRP_MN_QUERY_STOP_DEVICE | IRP_MN_QUERY_REMOVE_DEVICE | IRP_MN_CANCEL_STOP_DEVICE
| IRP_MN_CANCEL_REMOVE_DEVICE | IRP_MN_REMOVE_DEVICE | IRP_MN_SURPRISE_REMOVAL | IRP_MN_QUERY_DEVICE_RELATIONS
| IRP_MN_QUERY_ID | IRP_MN_QUERY_CAPABILITIES | IRP_MN_QUERY_DEVICE_TEXT | IRP_MN_other (code : Z).

#[export] Instance pnp_minor_eq : EqDecision pnp_minor.
Proof. solve_decision. Defined.

(** ** I/O request packets

    [irp_completed] counts the calls of [IoCompleteRequest] on the packet: the
    I/O manager requires exactly one, by the driver that owns the packet. *)

Record IRP : Type := mkIRP {
  irp_status : Z;
  irp_information : Z;
  irp_completed : nat;
}.

Definition set_status (status : Z) (i : IRP) : IRP :=
  mkIRP status (irp_information i) (irp_completed i).
Definition set_information (information : Z) (i : IRP) : IRP :=
  mkIRP (irp_status i) information (irp_completed i).
Definition IoCompleteRequest (i : IRP) : IRP :=
  mkIRP (irp_status i) (irp_information i) (S (irp_completed i)).

(** The tail of almost every dispatch routine: store status and information and
    complete the packet. *)
Definition complete_with (status information : Z) (i : IRP) : IRP :=
  IoCompleteRequest (set_information information (set_status status i)).

(** A packet as the I/O manager hands it over. *)
Definition fresh_irp : IRP := mkIRP 0 0 0.

(** Events: type 0 is a notification event, type 1 a synchronisation event; the
    state is the signalled flag. Waiting on an event that is not signalled does
    not return by itself. *)
Record KEVENT : Type := mkEvent { ev_type : Z; ev_state : bool }.
Definition KeSetEvent (e : KEVENT) : KEVENT := mkEvent (ev_type e) true.
Definition KeWaitForSingleObject (e : KEVENT) : res KEVENT :=
  if ev_state e then Ok (mkEvent (ev_type e) (negb (ev_type e =? 1))) else NoFuel.

(** A wide string literal as bytes, without its terminator; the [Length] of a
    UNICODE_STRING made from it is the number of these bytes. *)
Definition wide (s : string) : list Z := flat_map (fun c => [c; 0]) (zstr s).
Definition wide_len (s : string) : Z := u16 (Z.of_nat (length (wide s))).

(** ** Lemmas *)

Lemma NT_SUCCESS_spec status : NT_SUCCESS status = true <-> 0 <= s32 status.
Proof. unfold NT_SUCCESS. apply Z.leb_le. Qed.

Lemma complete_with_completed status information i :
  irp_completed (complete_with status information i) = S (irp_completed i).
Proof. done. Qed.
#[export] Hint Rewrite complete_with_completed : hd_rw.
