(* ===== verification/Sink.v ===== *)
(** * The debug channel as its clients see it

    The recovery code, the drivers' entry points and the two filters only call
    [HdSerialWriteString] and [HdSerialWriteFormat]. This class states what the
    channel promises them: a bounded log of the characters written, on which
    formatted messages leave no trace. Serial.v proves that the COM1 channel
    keeps the promise; the clients are verified against the class. *)

From S2P Require Import Prelude.

Class DebugSink (W : Type) : Type := {
  puts : list Z -> W -> W;
  putf : list Z -> W -> W;
  retained : W -> list Z;
  sink_cap : nat;
  sink_ok : W -> Prop;
  puts_ok : forall s w, sink_ok w -> sink_ok (puts s w);
  putf_ok : forall s w, sink_ok w -> sink_ok (putf s w);
  puts_retained : forall s w, sink_ok w ->
    retained (puts s w) = lastn sink_cap (retained w ++ c_chars s);
  putf_retained : forall s w, retained (putf s w) = retained w;
}.

#[export] Hint Resolve puts_ok putf_ok : hd.
#[export] Hint Rewrite @putf_retained : hd_rw.

(** Several strings in a row. *)
Definition puts_all {W : Type} `{DebugSink W} (ls : list (list Z)) (w : W) : W :=
  foldl (fun w s => puts s w) w ls.

Lemma puts_all_ok {W} `{DebugSink W} ls w : sink_ok w -> sink_ok (puts_all ls w).
Proof. revert w; induction ls; intros w Hw; simpl; [done|]. eauto with hd. Qed.

(** A text shorter than the channel's capacity is retained whole. *)
Lemma puts_suffix {W} `{DebugSink W} s w :
  sink_ok w -> (length (c_chars s) <= sink_cap)%nat ->
  exists before, retained (puts s w) = before ++ c_chars s.
Proof.
  intros Hw Hl. rewrite puts_retained by done. unfold lastn.
  rewrite length_app, drop_app.
  replace (length (retained w) + length (c_chars s) - sink_cap - length (retained w))%nat with O by lia.
  rewrite drop_0. eauto.
Qed.
