(* ===== verification/Serial.v ===== *)
(** * COM1 debug channel (src/driver/common/hd_serial.c, hd_serial.h)

    Every driver of the project reports its progress over the first serial
    port and keeps the last bytes in a ring buffer that can be dumped later.
    The UART is outside the program: its line status register is a stream of
    values [lsr], one per read, and every port write is appended to a list. *)

From S2P Require Import Prelude Sink.

Definition HD_COM1_BASE : Z := 0x3F8.
Definition HD_SERIAL_BUF_SIZE : Z := 4096.

(** The struct of hd_serial.h; the spin lock is not represented, every
    operation below runs its critical section to the end. *)
Record HD_SERIAL_DEBUG : Type := mkSerial {
  ComBase : Z;
  Initialized : bool;
  RingBuffer : list Z;
  RingHead : Z;
  RingTail : Z;
}.

(** The hardware as the driver sees it: reads of the line status register so
    far, port writes so far (oldest first), and the text handed to the kernel
    debugger by [vDbgPrintExWithPrefix] (format strings, oldest first). *)
Record Uart : Type := mkUart {
  lsr_reads : nat;
  port_writes : list (Z * Z);
  dbg_prints : list (list Z);
}.

Definition WRITE_PORT_UCHAR (port v : Z) (u : Uart) : Uart :=
  mkUart (lsr_reads u) (port_writes u ++ [(port, v)]) (dbg_prints u).

Section Serial.
(** What the n-th read of the line status register returns. *)
Context (lsr : nat -> Z).

(** Transmit holding register empty. *)
Definition thr_empty (v : Z) : bool := negb (Z.land v 0x20 =? 0).

(** The wait loop of [HdSerialWriteByte]: the remaining timeout and the number
    of register reads when it ends. *)
Fixpoint wait_thr (timeout : nat) (reads : nat) : nat * nat :=
  if thr_empty (lsr reads) then (timeout, S reads)
  else match timeout with
       | O => (O, S reads)
       | S t => wait_thr t (S reads)
       end.

Definition serial_timeout : nat := Z.to_nat 100000.

Definition HdSerialWriteByte (base b : Z) (u : Uart) : Uart :=
  let '(timeout, reads) := wait_thr serial_timeout (lsr_reads u) in
  let u1 := mkUart reads (port_writes u) (dbg_prints u) in
  match timeout with
  | O => u1
  | S _ => WRITE_PORT_UCHAR base b u1
  end.

Definition HdSerialWriteChar (Ch : Z) (s : HD_SERIAL_DEBUG) (u : Uart) : HD_SERIAL_DEBUG * Uart :=
  if negb (Initialized s) then (s, u)
  else
    let u1 := HdSerialWriteByte (ComBase s) Ch u in
    let buf := <[Z.to_nat (RingHead s) := Ch]> (RingBuffer s) in
    let head := u32 (RingHead s + 1) mod HD_SERIAL_BUF_SIZE in
    let tail := if head =? RingTail s then u32 (RingTail s + 1) mod HD_SERIAL_BUF_SIZE
                else RingTail s in
    (mkSerial (ComBase s) (Initialized s) buf head tail, u1).

(** The loop of [HdSerialWriteString] stops at the terminating NUL. *)
Fixpoint write_chars (Str : list Z) (s : HD_SERIAL_DEBUG) (u : Uart) : HD_SERIAL_DEBUG * Uart :=
  match Str with
  | [] => (s, u)
  | c :: r =>
      if c =? 0 then (s, u)
      else let '(s1, u1) := HdSerialWriteChar (u8 c) s u in write_chars r s1 u1
  end.

Definition HdSerialWriteString (Str : list Z) (s : HD_SERIAL_DEBUG) (u : Uart) : HD_SERIAL_DEBUG * Uart :=
  if negb (Initialized s) then (s, u) else write_chars Str s u.

(** Formatted output goes to the kernel debugger only. *)
Definition HdSerialWriteFormat (Fmt : list Z) (s : HD_SERIAL_DEBUG) (u : Uart) : HD_SERIAL_DEBUG * Uart :=
  if negb (Initialized s) then (s, u)
  else (s, mkUart (lsr_reads u) (port_writes u) (dbg_prints u ++ [Fmt])).

Definition init_banner : list Z :=
  zstr "[HyperDisk] COM1 serial debug initialized" ++ crlf.

Definition HdSerialInitialize (s : HD_SERIAL_DEBUG) (u : Uart) : HD_SERIAL_DEBUG * Uart :=
  let base := HD_COM1_BASE in
  let u := WRITE_PORT_UCHAR (base + 1) 0x00 u in
  let u := WRITE_PORT_UCHAR (base + 3) 0x80 u in
  let u := WRITE_PORT_UCHAR (base + 0) 0x01 u in
  let u := WRITE_PORT_UCHAR (base + 1) 0x00 u in
  let u := WRITE_PORT_UCHAR (base + 3) 0x03 u in
  let u := WRITE_PORT_UCHAR (base + 2) 0xC7 u in
  let u := WRITE_PORT_UCHAR (base + 4) 0x0B u in
  let s := mkSerial base true (RingBuffer s) 0 0 in
  HdSerialWriteString init_banner s u.

(** The dump loop, on the head and tail read under the lock. *)
Fixpoint dump_loop (fuel : nat) (s : HD_SERIAL_DEBUG) (tail head : Z) (u : Uart) : res Uart :=
  match fuel with
  | O => NoFuel
  | S f =>
      if tail =? head then Ok u
      else
        let* b := of_opt (RingBuffer s !! Z.to_nat tail) in
        dump_loop f s (u32 (tail + 1) mod HD_SERIAL_BUF_SIZE) head (HdSerialWriteByte (ComBase s) b u)
  end.

Definition HdSerialDumpRingBuffer (fuel : nat) (s : HD_SERIAL_DEBUG) (u : Uart) : res Uart :=
  if negb (Initialized s) then Ok u else dump_loop fuel s (RingTail s) (RingHead s) u.

(** ** Specification

    What the ring buffer stands for: the bytes from tail to head. *)
Definition ring_len (s : HD_SERIAL_DEBUG) : nat :=
  Z.to_nat ((RingHead s - RingTail s) mod HD_SERIAL_BUF_SIZE).

Definition ring_contents (s : HD_SERIAL_DEBUG) : list Z :=
  (fun i => RingBuffer s !!! Z.to_nat ((RingTail s + Z.of_nat i) mod HD_SERIAL_BUF_SIZE))
    <$> seq 0 (ring_len s).

Definition ring_cap : nat := Z.to_nat (HD_SERIAL_BUF_SIZE - 1).

Definition serial_wf (s : HD_SERIAL_DEBUG) : Prop :=
  length (RingBuffer s) = Z.to_nat HD_SERIAL_BUF_SIZE /\
  0 <= RingHead s < HD_SERIAL_BUF_SIZE /\
  0 <= RingTail s < HD_SERIAL_BUF_SIZE.

(** ** Lemmas: the ring buffer *)

Ltac ring_arith := unfold HD_SERIAL_BUF_SIZE in *; mach_unfold; Z.div_mod_to_equations; lia.

Lemma ring_len_bound s : (ring_len s <= ring_cap)%nat.
Proof. unfold ring_len, ring_cap. ring_arith. Qed.

Lemma ring_contents_length s : length (ring_contents s) = ring_len s.
Proof. unfold ring_contents. by rewrite length_fmap, length_seq. Qed.

Lemma ring_contents_lookup s i :
  (i < ring_len s)%nat ->
  ring_contents s !! i =
    Some (RingBuffer s !!! Z.to_nat ((RingTail s + Z.of_nat i) mod HD_SERIAL_BUF_SIZE)).
Proof. intros Hi. unfold ring_contents. by rewrite list_lookup_fmap, lookup_seq_lt. Qed.

Lemma ring_contents_ge s i : (ring_len s <= i)%nat -> ring_contents s !! i = None.
Proof. intros. apply lookup_ge_None_2. by rewrite ring_contents_length. Qed.

Lemma HdSerialWriteChar_wf Ch s u :
  serial_wf s -> serial_wf (HdSerialWriteChar Ch s u).1.
Proof.
  intros (Hl & Hh & Ht). unfold HdSerialWriteChar, serial_wf.
  destruct (Initialized s); simpl; [|done].
  rewrite length_insert. split; [done|]. split; [ring_arith|].
  destruct (_ =? _); [ring_arith|done].
Qed.

(** Room left in the ring: the new byte is appended. *)
Lemma WriteChar_room Ch s u :
  serial_wf s -> Initialized s = true -> (ring_len s < ring_cap)%nat ->
  ring_contents (HdSerialWriteChar Ch s u).1 = ring_contents s ++ [Ch].
Proof.
  intros (Hl & Hh & Ht) Hi Hn. unfold HdSerialWriteChar. rewrite Hi. simpl negb. cbv iota.
  assert ((u32 (RingHead s + 1) mod HD_SERIAL_BUF_SIZE =? RingTail s) = false) as ->.
  { apply Z.eqb_neq. unfold ring_len, ring_cap in Hn. ring_arith. }
  cbn [fst]. apply list_eq. intros i.
  set (s' := mkSerial _ _ _ _ _).
  assert (ring_len s' = S (ring_len s)) as Hlen.
  { unfold ring_len, ring_cap in *. simpl. ring_arith. }
  destruct (decide (i < ring_len s')%nat) as [Hlt|Hge].
  2:{ rewrite ring_contents_ge by lia. symmetry. apply lookup_ge_None_2.
      rewrite length_app, ring_contents_length. simpl. lia. }
  rewrite ring_contents_lookup by done. simpl RingBuffer. simpl RingTail.
  destruct (decide (i = ring_len s)) as [->|Hne].
  - rewrite lookup_app_r by (by rewrite ring_contents_length).
    rewrite ring_contents_length, Nat.sub_diag. simpl. f_equal.
    replace ((RingTail s + Z.of_nat (ring_len s)) mod HD_SERIAL_BUF_SIZE) with (RingHead s)
      by (unfold ring_len; ring_arith).
    apply list_lookup_total_insert_eq. rewrite Hl. ring_arith.
  - rewrite lookup_app_l by (rewrite ring_contents_length; lia).
    rewrite ring_contents_lookup by lia. f_equal.
    apply list_lookup_total_insert_ne. unfold ring_len, ring_cap in *. ring_arith.
Qed.

(** Ring full: the oldest byte gives way to the new one. *)
Lemma WriteChar_full Ch s u :
  serial_wf s -> Initialized s = true -> ring_len s = ring_cap ->
  ring_contents (HdSerialWriteChar Ch s u).1 = drop 1 (ring_contents s) ++ [Ch].
Proof.
  intros (Hl & Hh & Ht) Hi Hn. unfold HdSerialWriteChar. rewrite Hi. simpl negb. cbv iota.
  assert ((u32 (RingHead s + 1) mod HD_SERIAL_BUF_SIZE =? RingTail s) = true) as ->.
  { apply Z.eqb_eq. unfold ring_len, ring_cap in Hn. ring_arith. }
  cbn [fst]. apply list_eq. intros i.
  set (s' := mkSerial _ _ _ _ _).
  assert (ring_len s' = ring_cap) as Hlen.
  { unfold ring_len, ring_cap in *. simpl. ring_arith. }
  assert (length (drop 1 (ring_contents s)) = (ring_cap - 1)%nat) as Hd
    by (rewrite length_drop, ring_contents_length; lia).
  destruct (decide (i < ring_len s')%nat) as [Hlt|Hge].
  2:{ rewrite ring_contents_ge by lia. symmetry. apply lookup_ge_None_2.
      rewrite length_app, Hd. simpl. unfold ring_cap in *. ring_arith. }
  rewrite ring_contents_lookup by done. simpl RingBuffer. simpl RingTail.
  destruct (decide (i = ring_cap - 1)%nat) as [->|Hne].
  - rewrite lookup_app_r by lia. rewrite Hd, Nat.sub_diag. simpl. f_equal.
    replace (Z.to_nat _) with (Z.to_nat (RingHead s)).
    + apply list_lookup_total_insert_eq. rewrite Hl. ring_arith.
    + f_equal. unfold ring_len, ring_cap in *. ring_arith.
  - rewrite lookup_app_l by lia. rewrite lookup_drop, ring_contents_lookup by lia. f_equal.
    rewrite list_lookup_total_insert_ne.
    + f_equal. unfold ring_len, ring_cap in *. ring_arith.
    + unfold ring_len, ring_cap in *. ring_arith.
Qed.

Lemma WriteChar_contents Ch s u :
  serial_wf s -> Initialized s = true ->
  ring_contents (HdSerialWriteChar Ch s u).1 = lastn ring_cap (ring_contents s ++ [Ch]).
Proof.
  intros Hwf Hi. pose proof (ring_len_bound s).
  destruct (decide (ring_len s < ring_cap)%nat) as [Hr|Hf].
  - rewrite WriteChar_room by done. symmetry. apply lastn_all.
    rewrite length_app, ring_contents_length. simpl. lia.
  - rewrite WriteChar_full by (done || lia). unfold lastn.
    rewrite length_app, ring_contents_length. simpl.
    replace (ring_len s + 1 - ring_cap)%nat with 1%nat by lia.
    rewrite drop_app_le; [done|]. rewrite ring_contents_length. unfold ring_cap in *.
    ring_arith.
Qed.

Lemma WriteChar_Initialized Ch s u :
  Initialized (HdSerialWriteChar Ch s u).1 = Initialized s.
Proof. unfold HdSerialWriteChar. by destruct (Initialized s) eqn:E; simpl; rewrite ?E. Qed.

Lemma write_chars_spec Str s u :
  serial_wf s -> Initialized s = true ->
  serial_wf (write_chars Str s u).1 /\ Initialized (write_chars Str s u).1 = true /\
  ring_contents (write_chars Str s u).1 = lastn ring_cap (ring_contents s ++ c_chars Str).
Proof.
  revert s u; induction Str as [|c r IH]; intros s u Hwf Hi; simpl.
  - rewrite app_nil_r, lastn_all; [done|]. rewrite ring_contents_length. apply ring_len_bound.
  - destruct (c =? 0).
    + simpl. rewrite app_nil_r, lastn_all; [done|].
      rewrite ring_contents_length. apply ring_len_bound.
    + pose proof (HdSerialWriteChar_wf (u8 c) s u Hwf) as Hwf1.
      pose proof (WriteChar_Initialized (u8 c) s u) as Hi1.
      pose proof (WriteChar_contents (u8 c) s u Hwf Hi) as Hc1.
      destruct (HdSerialWriteChar (u8 c) s u) as [s1 u1]; simpl in *.
      destruct (IH s1 u1 Hwf1 ltac:(congruence)) as (H1 & H2 & H3).
      split; [done|]. split; [done|]. rewrite H3, Hc1, lastn_app_lastn.
      by rewrite <- app_assoc.
Qed.

(** ** Lemmas: the transmitter *)

Lemma wait_thr_reads timeout reads :
  ((wait_thr timeout reads).2 <= reads + timeout + 1)%nat.
Proof.
  revert reads; induction timeout as [|t IH]; intros reads; simpl; destruct (thr_empty _); simpl; try lia.
  specialize (IH (S reads)). lia.
Qed.

Lemma wait_thr_ready timeout reads :
  ((wait_thr timeout reads).1 <> 0)%nat <->
  exists i, (i < timeout)%nat /\ thr_empty (lsr (reads + i)) = true.
Proof.
  revert reads; induction timeout as [|t IH]; intros reads.
  - simpl. destruct (thr_empty _); simpl; split; [done| |done|]; intros (i & ? & _); lia.
  - simpl. destruct (thr_empty (lsr reads)) eqn:E; simpl.
    + split; [|done]. intros _. exists 0%nat. rewrite Nat.add_0_r. split; [lia|done].
    + rewrite IH. split; intros (i & Hi & Hr).
      * exists (S i). split; [lia|]. by rewrite Nat.add_succ_r.
      * destruct i as [|i]; [rewrite Nat.add_0_r in Hr; congruence|].
        exists i. split; [lia|]. by rewrite Nat.add_succ_r in Hr.
Qed.

(** ** Lemmas: the dump *)

Definition with_tail (t : Z) (s : HD_SERIAL_DEBUG) : HD_SERIAL_DEBUG :=
  mkSerial (ComBase s) (Initialized s) (RingBuffer s) (RingHead s) t.

Lemma ring_contents_uncons s :
  serial_wf s -> RingTail s <> RingHead s ->
  ring_contents s = (RingBuffer s !!! Z.to_nat (RingTail s)) ::
    ring_contents (with_tail (u32 (RingTail s + 1) mod HD_SERIAL_BUF_SIZE) s).
Proof.
  intros (Hl & Hh & Ht) Hne. set (s' := with_tail _ s).
  assert (ring_len s = S (ring_len s')) as Hlen by (unfold ring_len, s'; simpl; ring_arith).
  apply list_eq. intros [|i].
  - rewrite ring_contents_lookup by lia. simpl. do 3 f_equal. ring_arith.
  - simpl. destruct (decide (i < ring_len s')%nat) as [Hlt|Hge].
    + rewrite !ring_contents_lookup by lia. unfold s'; simpl. do 3 f_equal. ring_arith.
    + by rewrite !ring_contents_ge by lia.
Qed.

Definition send_all (base : Z) (bs : list Z) (u : Uart) : Uart :=
  foldl (fun u b => HdSerialWriteByte base b u) u bs.

Lemma dump_loop_with_tail fuel t s a b u :
  dump_loop fuel (with_tail t s) a b u = dump_loop fuel s a b u.
Proof.
  revert a u; induction fuel as [|f IH]; intros a u; simpl; [done|].
  destruct (a =? b); [done|]. destruct (RingBuffer s !! Z.to_nat a); simpl; [apply IH|done].
Qed.

Lemma dump_loop_spec fuel s u :
  serial_wf s -> (ring_len s < fuel)%nat ->
  dump_loop fuel s (RingTail s) (RingHead s) u = Ok (send_all (ComBase s) (ring_contents s) u).
Proof.
  revert s u; induction fuel as [|f IH]; intros s u Hwf Hf; [lia|]. simpl.
  destruct Hwf as (Hl & Hh & Ht).
  destruct (Z.eqb_spec (RingTail s) (RingHead s)) as [Heq|Hne].
  - replace (ring_contents s) with (@nil Z); [done|].
    symmetry. apply length_zero_iff_nil. rewrite ring_contents_length. unfold ring_len.
    rewrite Heq, Z.sub_diag. done.
  - rewrite (ring_contents_uncons s) by done.
    rewrite (list_lookup_lookup_total_lt (RingBuffer s)) by (rewrite Hl; ring_arith). simpl.
    specialize (IH (with_tail (u32 (RingTail s + 1) mod HD_SERIAL_BUF_SIZE) s)
                   (HdSerialWriteByte (ComBase s) (RingBuffer s !!! Z.to_nat (RingTail s)) u)).
    simpl in IH. rewrite dump_loop_with_tail in IH. apply IH.
    + split; [done|]. split; [done|]. simpl. ring_arith.
    + unfold ring_len in *. simpl. ring_arith.
Qed.

Lemma send_all_ready base bs u :
  (forall n, thr_empty (lsr n) = true) ->
  port_writes (send_all base bs u) = port_writes u ++ ((fun b => (base, b)) <$> bs).
Proof.
  intros Hr. revert u; induction bs as [|b bs IH]; intros u; simpl; [by rewrite app_nil_r|].
  rewrite IH. unfold HdSerialWriteByte, serial_timeout.
  destruct (Z.to_nat 100000) eqn:E; [lia|]. simpl. rewrite Hr. simpl. by rewrite <- app_assoc.
Qed.

(** ** Properties *)

(** C29. The ring buffer refines a bounded log: whatever string the driver
    writes, to an initialised channel, the ring afterwards holds exactly the
    last 4095 bytes of what it held before followed by the characters of the
    string up to its NUL, in order, and stays well formed. *)
Theorem serial_ring_refines_log Str s u :
  serial_wf s -> Initialized s = true ->
  serial_wf (HdSerialWriteString Str s u).1 /\
  ring_contents (HdSerialWriteString Str s u).1 = lastn ring_cap (ring_contents s ++ c_chars Str).
Proof.
  intros Hwf Hi. unfold HdSerialWriteString. rewrite Hi. simpl.
  destruct (write_chars_spec Str s u Hwf Hi) as (? & _ & ?). done.
Qed.

(** Dumping the ring terminates within 4096 iterations, never indexes
    outside the buffer, and, when the UART is ready, sends exactly the retained
    bytes, oldest first, to the data port. *)
Theorem serial_dump_sends_contents s u :
  serial_wf s -> Initialized s = true -> (forall n, thr_empty (lsr n) = true) ->
  exists u', HdSerialDumpRingBuffer (Z.to_nat HD_SERIAL_BUF_SIZE) s u = Ok u' /\
    port_writes u' = port_writes u ++ ((fun b => (ComBase s, b)) <$> ring_contents s).
Proof.
  intros Hwf Hi Hr. unfold HdSerialDumpRingBuffer. rewrite Hi. simpl negb. cbv iota.
  eexists. rewrite dump_loop_spec; [split; [done|]|done|].
  - by apply send_all_ready.
  - pose proof (ring_len_bound s). unfold ring_cap in *. ring_arith.
Qed.

(** Sending one byte polls the line status register at most 100001 times;
    the byte reaches the data port, once, exactly when the transmitter reports
    empty within the first 100000 polls, and is dropped otherwise. *)
Theorem serial_write_byte_bounded base b u :
  let u' := HdSerialWriteByte base b u in
  (lsr_reads u' <= lsr_reads u + serial_timeout + 1)%nat /\
  ((exists i, (i < serial_timeout)%nat /\ thr_empty (lsr (lsr_reads u + i)) = true) ->
     port_writes u' = port_writes u ++ [(base, b)]) /\
  ((forall i, (i < serial_timeout)%nat -> thr_empty (lsr (lsr_reads u + i)) = false) ->
     port_writes u' = port_writes u).
Proof.
  unfold HdSerialWriteByte.
  pose proof (wait_thr_reads serial_timeout (lsr_reads u)) as Hb.
  pose proof (wait_thr_ready serial_timeout (lsr_reads u)) as Hr.
  destruct (wait_thr serial_timeout (lsr_reads u)) as [[|t] reads]; simpl in *.
  - split; [lia|]. split; [|done]. intros He. by apply Hr in He.
  - split; [lia|]. split; [done|]. intros Hn.
    destruct (proj1 Hr ltac:(done)) as (i & Hi & Ht). by rewrite Hn in Ht.
Qed.
End Serial.

(** ** The channel keeps the promise of [DebugSink] *)

#[export] Program Instance serial_sink (lsr : nat -> Z) : DebugSink (HD_SERIAL_DEBUG * Uart) := {|
  puts s w := HdSerialWriteString lsr s w.1 w.2;
  putf s w := HdSerialWriteFormat s w.1 w.2;
  retained w := ring_contents w.1;
  sink_cap := ring_cap;
  sink_ok w := serial_wf w.1 /\ Initialized w.1 = true;
|}.
Next Obligation.
  intros lsr s [d u] [Hwf Hi]; simpl in *. unfold HdSerialWriteString. rewrite Hi. simpl.
  by destruct (write_chars_spec lsr s d u Hwf Hi) as (? & ? & _).
Qed.
Next Obligation. intros lsr s [d u] [Hwf Hi]; simpl in *. unfold HdSerialWriteFormat. by rewrite Hi. Qed.
Next Obligation.
  intros lsr s [d u] [Hwf Hi]; simpl in *. unfold HdSerialWriteString. rewrite Hi. simpl.
  by destruct (write_chars_spec lsr s d u Hwf Hi) as (_ & _ & ?).
Qed.
Next Obligation. intros lsr s [d u]; simpl. unfold HdSerialWriteFormat. by destruct (Initialized d). Qed.

(** ** Witnesses *)

Definition serial0 : HD_SERIAL_DEBUG := mkSerial HD_COM1_BASE true (replicate 4096 0) 4090 4094.
Definition uart0 : Uart := mkUart 0 [] [].
Definition always_ready (n : nat) : Z := 0x60.

Lemma serial_ring_refines_log_witness :
  serial_wf serial0 /\ Initialized serial0 = true /\
  serial_wf (HdSerialWriteString always_ready (zstr "0123456789") serial0 uart0).1 /\
  ring_contents (HdSerialWriteString always_ready (zstr "0123456789") serial0 uart0).1 =
    lastn ring_cap (ring_contents serial0 ++ c_chars (zstr "0123456789")).
Proof.
  assert (serial_wf serial0) as Hwf by (vm_compute; intuition congruence).
  split; [exact Hwf|]. split; [reflexivity|].
  apply serial_ring_refines_log; [exact Hwf | reflexivity].
Defined.

Lemma serial_dump_sends_contents_witness :
  serial_wf serial0 /\
  exists u', HdSerialDumpRingBuffer always_ready (Z.to_nat HD_SERIAL_BUF_SIZE) serial0 uart0 = Ok u' /\
    port_writes u' = port_writes uart0 ++ ((fun b => (ComBase serial0, b)) <$> ring_contents serial0).
Proof.
  assert (serial_wf serial0) as Hwf by (vm_compute; intuition congruence).
  split; [exact Hwf|].
  apply serial_dump_sends_contents; [exact Hwf | reflexivity | intros n; reflexivity].
Defined.
