(* ===== verification/Recovery7b.v ===== *)
(** * 0x7B boot recovery (src/driver/blk/blk_7b_recovery.c, .h)

    The three-stage recovery the block driver runs when the boot device is
    inaccessible: retry, fall back, halt. Three things come from outside the
    file and are parameters: the flags other code stores in the structure while
    the recovery thread sleeps ([poll n] is what they are after the n-th
    [KeDelayExecutionThread]), the system clock, and the debug channel, known
    through the [DebugSink] interface only. *)

From S2P Require Import Prelude Nt Sink Serial.

Definition HD_7B_MAX_RETRIES : Z := 3.

Inductive HD_7B_STATE : Set :=
| Hd7bNormal
| Hd7bRetrying
| Hd7bFallback
| Hd7bRecovery
| Hd7bHalted.

#[export] Instance HD_7B_STATE_eq_dec : EqDecision HD_7B_STATE.
Proof. solve_decision. Defined.

(** The four flags that other parts of the driver update. *)
Record Flags : Set := mkFlags {
  LocalMetaAvailable : bool;
  NetworkAvailable : bool;
  MetaServerReachable : bool;
  BlockDeviceReady : bool;
}.

Record HD_7B_RECOVERY : Set := mkRecovery {
  State : HD_7B_STATE;
  RetryCount : Z;
  FallbackStep : Z;
  StateEntryTime : Z;
  flags : Flags;
}.

Definition Hd7bStateName (st : HD_7B_STATE) : string :=
  match st with
  | Hd7bNormal => "Normal"
  | Hd7bRetrying => "Retrying"
  | Hd7bFallback => "Fallback"
  | Hd7bRecovery => "Recovery"
  | Hd7bHalted => "Halted"
  end.

Definition set_state (st : HD_7B_STATE) (r : HD_7B_RECOVERY) : HD_7B_RECOVERY :=
  mkRecovery st (RetryCount r) (FallbackStep r) (StateEntryTime r) (flags r).
Definition set_retry (n : Z) (r : HD_7B_RECOVERY) : HD_7B_RECOVERY :=
  mkRecovery (State r) n (FallbackStep r) (StateEntryTime r) (flags r).
Definition set_step (n : Z) (r : HD_7B_RECOVERY) : HD_7B_RECOVERY :=
  mkRecovery (State r) (RetryCount r) n (StateEntryTime r) (flags r).
Definition set_time (t : Z) (r : HD_7B_RECOVERY) : HD_7B_RECOVERY :=
  mkRecovery (State r) (RetryCount r) (FallbackStep r) t (flags r).
Definition set_flags (f : Flags) (r : HD_7B_RECOVERY) : HD_7B_RECOVERY :=
  mkRecovery (State r) (RetryCount r) (FallbackStep r) (StateEntryTime r) f.

Section Recovery.
Context {W : Type} `{DebugSink W}.
Context (poll : nat -> Flags) (systime : nat -> Z).

(** The structure, the debug channel and the number of sleeps so far. *)
Record World : Type := mkWorld {
  rc : HD_7B_RECOVERY;
  chan : W;
  sleeps : nat;
}.

Definition upd (f : HD_7B_RECOVERY -> HD_7B_RECOVERY) (w : World) : World :=
  mkWorld (f (rc w)) (chan w) (sleeps w).
Definition say (s : list Z) (w : World) : World := mkWorld (rc w) (puts s (chan w)) (sleeps w).
Definition sayf (s : list Z) (w : World) : World := mkWorld (rc w) (putf s (chan w)) (sleeps w).
Definition KeQuerySystemTime (w : World) : World := upd (set_time (systime (sleeps w))) w.
Definition KeDelayExecutionThread (w : World) : World :=
  mkWorld (set_flags (poll (sleeps w)) (rc w)) (chan w) (S (sleeps w)).

(** A call either returns a status or is still running when the fuel ends. *)
Inductive run : Type :=
| Returned (status : Z) (w : World)
| Running (w : World).

Definition Hd7bInitialize (w : World) : run :=
  Returned STATUS_SUCCESS
    (KeQuerySystemTime
       (upd (fun r => mkRecovery Hd7bNormal 0 0 (StateEntryTime r) (mkFlags false false false false)) w)).

(** [while (HD_7B_RECOVERY_HALT)], with [HD_7B_RECOVERY_HALT] defined as TRUE. *)
Fixpoint halt_loop (fuel : nat) (w : World) : run :=
  match fuel with
  | O => Running w
  | S f => halt_loop f (KeDelayExecutionThread w)
  end.

Definition msg_halted : list Z := crlf ++ zstr "[0x7B] === RECOVERY HALTED ===" ++ crlf.
Definition msg_diag : list Z := zstr "[0x7B] System cannot boot. Diagnostic info:" ++ crlf.
Definition msg_await : list Z := zstr "[0x7B] Awaiting manual intervention..." ++ crlf.

Definition Hd7bProcessRecovery (fuel : nat) (w : World) : run :=
  let w := upd (set_state Hd7bHalted) w in
  let w := say msg_halted w in
  let w := say msg_diag w in
  let w := sayf (zstr "[0x7B] Network: %d" ++ crlf) w in
  let w := sayf (zstr "[0x7B] MetaServer: %d" ++ crlf) w in
  let w := sayf (zstr "[0x7B] BlockDev: %d" ++ crlf) w in
  let w := sayf (zstr "[0x7B] LocalMeta: %d" ++ crlf) w in
  let w := say msg_await w in
  halt_loop fuel w.

Fixpoint Hd7bProcessRetry (fuel : nat) (w : World) {struct fuel} : run :=
  match fuel with
  | O => Running w
  | S f =>
      if HD_7B_MAX_RETRIES <=? RetryCount (rc w) then
        let w := upd (set_state Hd7bFallback) w in
        let w := upd (set_step 0) w in
        let w := KeQuerySystemTime w in
        let w := say (zstr "[0x7B] Retry exhausted, entering fallback" ++ crlf) w in
        Hd7bProcessFallback f w
      else
        let w := upd (fun r => set_retry (u32 (RetryCount r + 1)) r) w in
        let w := sayf (zstr "[0x7B] Retry %d/%d" ++ crlf) w in
        let w := KeDelayExecutionThread w in
        if BlockDeviceReady (flags (rc w)) && MetaServerReachable (flags (rc w)) then
          let w := upd (set_state Hd7bNormal) w in
          let w := say (zstr "[0x7B] Retry succeeded, resuming normal" ++ crlf) w in
          Returned STATUS_SUCCESS w
        else Hd7bProcessRetry f w
  end
with Hd7bProcessFallback (fuel : nat) (w : World) {struct fuel} : run :=
  match fuel with
  | O => Running w
  | S f =>
      let next w := upd (fun r => set_step (u32 (FallbackStep r + 1)) r) w in
      if FallbackStep (rc w) =? 0 then
        let w := say (zstr "[0x7B] Fallback step 0: Try secondary server" ++ crlf) w in
        Returned STATUS_DEVICE_NOT_READY (next w)
      else if FallbackStep (rc w) =? 1 then
        let w := say (zstr "[0x7B] Fallback step 1: Use local boot.meta cache" ++ crlf) w in
        if LocalMetaAvailable (flags (rc w)) then
          let w := say (zstr "[0x7B] Local meta available, attempting boot" ++ crlf) w in
          Returned STATUS_SUCCESS (upd (set_state Hd7bNormal) w)
        else Returned STATUS_DEVICE_NOT_READY (next w)
      else if FallbackStep (rc w) =? 2 then
        let w := say (zstr "[0x7B] Fallback step 2: Wait for network" ++ crlf) w in
        let w := KeDelayExecutionThread w in
        if NetworkAvailable (flags (rc w)) then
          let w := upd (set_state Hd7bRetrying) w in
          let w := upd (set_retry 0) w in
          Hd7bProcessRetry f w
        else Returned STATUS_DEVICE_NOT_READY (next w)
      else if FallbackStep (rc w) =? 3 then
        let w := say (zstr "[0x7B] Fallback step 3: Wait for block device" ++ crlf) w in
        Returned STATUS_DEVICE_NOT_READY (next w)
      else
        Hd7bProcessRecovery f (upd (set_state Hd7bRecovery) w)
  end.

Definition Hd7bEnterRecovery (fuel : nat) (w : World) : run :=
  let w := upd (set_state Hd7bRetrying) w in
  let w := upd (set_retry 0) w in
  let w := KeQuerySystemTime w in
  let w := say (zstr "[0x7B] Enter recovery: INACCESSIBLE_BOOT_DEVICE" ++ crlf) w in
  let w := sayf (zstr "[0x7B] Network=%d Meta=%d Block=%d" ++ crlf) w in
  Hd7bProcessRetry fuel w.

(** ** Specification *)

(** A caller that keeps asking until the recovery reports success: [k] further
    calls of [Hd7bProcessFallback], each with its own fuel. *)
Fixpoint recover_calls (k fuel : nat) (w : World) : run :=
  match k with
  | O => Returned STATUS_DEVICE_NOT_READY w
  | S k' =>
      match Hd7bProcessFallback fuel w with
      | Returned st w' => if NT_SUCCESS st then Returned st w' else recover_calls k' fuel w'
      | Running w' => Running w'
      end
  end.

Definition ready (f : Flags) : bool := BlockDeviceReady f && MetaServerReachable f.

(** How a retry phase that starts at sleep [n] with [r] retries done ends:
    success at the first sleep after which both flags are set, or the first
    step of the fallback. [f0] is what the flags were when the phase started. *)
Definition retry_outcome (n : nat) (r : Z) (f0 : Flags) (st : Z) (w : World) : Prop :=
  (st = STATUS_SUCCESS /\ State (rc w) = Hd7bNormal /\
     exists i, Z.of_nat i < HD_7B_MAX_RETRIES - r /\ ready (poll (n + i)) = true /\
       (forall j, (j < i)%nat -> ready (poll (n + j)) = false) /\
       RetryCount (rc w) = r + Z.of_nat i + 1 /\ sleeps w = (n + i + 1)%nat /\
       flags (rc w) = poll (n + i))
  \/
  (st = STATUS_DEVICE_NOT_READY /\ State (rc w) = Hd7bFallback /\ FallbackStep (rc w) = 1 /\
     RetryCount (rc w) = HD_7B_MAX_RETRIES /\
     (forall i, Z.of_nat i < HD_7B_MAX_RETRIES - r -> ready (poll (n + i)) = false) /\
     sleeps w = (n + Z.to_nat (HD_7B_MAX_RETRIES - r))%nat /\
     flags (rc w) = (if r =? HD_7B_MAX_RETRIES then f0
                     else poll (n + Z.to_nat (HD_7B_MAX_RETRIES - r) - 1))).

(** ** Lemmas *)

Lemma halt_loop_running fuel w :
  halt_loop fuel w = Running
    (mkWorld (if decide (fuel = 0%nat) then rc w
              else set_flags (poll (sleeps w + fuel - 1)) (rc w))
             (chan w) (sleeps w + fuel)).
Proof.
  revert w; induction fuel as [|f IH]; intros w; simpl.
  - destruct w as [r c n]; simpl. by rewrite Nat.add_0_r.
  - rewrite IH. simpl. rewrite Nat.add_succ_r. do 2 f_equal.
    destruct f as [|f]; simpl; unfold set_flags; simpl; do 2 f_equal; lia.
Qed.

Lemma retry_exhausted fuel w :
  RetryCount (rc w) = 3 -> (2 <= fuel)%nat ->
  exists st w', Hd7bProcessRetry fuel w = Returned st w' /\ retry_outcome (sleeps w) 3 (flags (rc w)) st w'.
Proof.
  intros Hr Hf. destruct fuel as [|[|f]]; try lia. cbn [Hd7bProcessRetry].
  rewrite Hr. cbn. eexists _, _. split; [reflexivity|].
  right. cbn. rewrite Hr. unfold HD_7B_MAX_RETRIES.
  split_and!; try done; try (intros; lia).
Qed.

(** One retry: sleep, look at the flags, stop or go on with the rest. *)
Lemma retry_step_outcome n r f0 st w :
  0 <= r < 3 -> ready (poll n) = false ->
  retry_outcome (S n) (r + 1) (poll n) st w -> retry_outcome n r f0 st w.
Proof.
  intros Hr Hn [(-> & Hs & i & Hi & Hp & Hj & Hc & Hsl & Hfl) | (-> & Hs & Hst & Hc & Ha & Hsl & Hfl)].
  - left. split; [done|]. split; [done|]. exists (S i).
    unfold HD_7B_MAX_RETRIES in *. rewrite Nat.add_succ_r. split_and!; try done; try lia.
    intros [|j] Hlt; [by rewrite Nat.add_0_r|]. rewrite Nat.add_succ_r. apply Hj. lia.
  - right. unfold HD_7B_MAX_RETRIES in *. split_and!; try done; [|lia|].
    + intros [|i] Hi; [by rewrite Nat.add_0_r|]. rewrite Nat.add_succ_r. apply Ha. lia.
    + rewrite Hfl. destruct (Z.eqb_spec r 3) as [?|_]; [lia|].
      destruct (Z.eqb_spec (r + 1) 3) as [?|_]; f_equal; lia.
Qed.

Lemma retry_spec k fuel w :
  RetryCount (rc w) = 3 - Z.of_nat k -> (k <= 3)%nat -> (k + 2 <= fuel)%nat ->
  exists st w', Hd7bProcessRetry fuel w = Returned st w' /\
    retry_outcome (sleeps w) (3 - Z.of_nat k) (flags (rc w)) st w'.
Proof.
  revert fuel w; induction k as [|k IH]; intros fuel w Hr Hk Hf.
  { apply retry_exhausted; [lia|done]. }
  destruct fuel as [|f]; [lia|]. cbn [Hd7bProcessRetry].
  rewrite Hr. destruct (Z.leb_spec HD_7B_MAX_RETRIES (3 - Z.of_nat (S k))) as [Hle|_];
    [unfold HD_7B_MAX_RETRIES in Hle; lia|].
  cbv zeta. set (w1 := KeDelayExecutionThread _).
  assert (RetryCount (rc w1) = 3 - Z.of_nat k) as Hr1.
  { unfold w1. cbn. rewrite Hr. unfold u32. rewrite wrap_small by lia. lia. }
  assert (sleeps w1 = S (sleeps w)) as Hs1 by done.
  assert (flags (rc w1) = poll (sleeps w)) as Hf1 by done.
  destruct (BlockDeviceReady (flags (rc w1)) && MetaServerReachable (flags (rc w1))) eqn:E.
  - eexists _, _. split; [reflexivity|]. left. cbn [rc upd say State set_state RetryCount sleeps flags].
    split; [done|]. split; [done|]. exists 0%nat. rewrite Nat.add_0_r.
    unfold HD_7B_MAX_RETRIES. split_and!; [lia | by rewrite <- Hf1 | lia | lia | lia | done].
  - destruct (IH f w1 Hr1 ltac:(lia) ltac:(lia)) as (st & w' & He & Ho).
    exists st, w'. split; [done|]. rewrite Hs1 in Ho.
    rewrite Hf1 in Ho. apply retry_step_outcome; [lia| |].
    + unfold ready. by rewrite <- Hf1.
    + replace (3 - Z.of_nat (S k) + 1) with (3 - Z.of_nat k) by lia. done.
Qed.

(** Every call of the fallback, branch by branch. *)
Lemma fallback_step0 f w :
  FallbackStep (rc w) = 0 ->
  exists w', Hd7bProcessFallback (S f) w = Returned STATUS_DEVICE_NOT_READY w' /\
    rc w' = set_step 1 (rc w) /\ sleeps w' = sleeps w.
Proof. intros Hs. cbn [Hd7bProcessFallback]. rewrite Hs. cbn.
  eexists; split; [reflexivity|]. cbn. by rewrite ?Hs. Qed.

Lemma fallback_step1 f w :
  FallbackStep (rc w) = 1 -> LocalMetaAvailable (flags (rc w)) = false ->
  exists w', Hd7bProcessFallback (S f) w = Returned STATUS_DEVICE_NOT_READY w' /\
    rc w' = set_step 2 (rc w) /\ sleeps w' = sleeps w.
Proof. intros Hs Hl. cbn [Hd7bProcessFallback]. rewrite Hs. cbn. rewrite Hl.
  eexists; split; [reflexivity|]. cbn. by rewrite ?Hs. Qed.

Lemma fallback_step2_down f w :
  FallbackStep (rc w) = 2 -> NetworkAvailable (poll (sleeps w)) = false ->
  exists w', Hd7bProcessFallback (S f) w = Returned STATUS_DEVICE_NOT_READY w' /\
    rc w' = set_step 3 (set_flags (poll (sleeps w)) (rc w)) /\ sleeps w' = S (sleeps w).
Proof. intros Hs Hl. cbn [Hd7bProcessFallback]. rewrite Hs. cbn. rewrite Hl.
  eexists; split; [reflexivity|]. cbn. by rewrite ?Hs. Qed.

Lemma fallback_step2_up f w :
  FallbackStep (rc w) = 2 -> NetworkAvailable (poll (sleeps w)) = true -> (5 <= f)%nat ->
  exists st w', Hd7bProcessFallback (S f) w = Returned st w' /\
    retry_outcome (S (sleeps w)) 0 (poll (sleeps w)) st w'.
Proof.
  intros Hs Hl Hf. cbn [Hd7bProcessFallback]. rewrite Hs. cbn -[Hd7bProcessRetry]. rewrite Hl.
  match goal with |- context [Hd7bProcessRetry f ?w1] =>
    destruct (retry_spec 3 f w1) as (st & w' & He & Ho); [reflexivity | lia | lia |] end.
  exists st, w'. split; [exact He | exact Ho].
Qed.

Lemma fallback_step3 f w :
  FallbackStep (rc w) = 3 ->
  exists w', Hd7bProcessFallback (S f) w = Returned STATUS_DEVICE_NOT_READY w' /\
    rc w' = set_step 4 (rc w) /\ sleeps w' = sleeps w.
Proof. intros Hs. cbn [Hd7bProcessFallback]. rewrite Hs. cbn.
  eexists; split; [reflexivity|]. cbn. by rewrite ?Hs. Qed.

(** What is on the channel once the recovery has halted. *)
Definition halt_text : list Z := msg_halted ++ msg_diag ++ msg_await.

Lemma c_chars_app_clean a b :
  Forall (fun c => 0 < c < 256) a -> c_chars (a ++ b) = a ++ c_chars b.
Proof.
  induction 1 as [|c a Hc _ IH]; simpl; [done|].
  destruct (Z.eqb_spec c 0); [lia|]. rewrite IH. f_equal. unfold u8. apply wrap_small. lia.
Qed.

Lemma puts_clean s c :
  sink_ok c -> Forall (fun c => 0 < c < 256) s ->
  retained (puts s c) = lastn sink_cap (retained c ++ s).
Proof.
  intros Hc Hs. rewrite puts_retained by done.
  rewrite <- (app_nil_r s) at 1. by rewrite c_chars_app_clean, app_nil_r by done.
Qed.

Lemma halt_msgs_clean :
  Forall (fun c => 0 < c < 256) msg_halted /\
  Forall (fun c => 0 < c < 256) msg_diag /\ Forall (fun c => 0 < c < 256) msg_await.
Proof. split_and!; apply Forall_forall; intros c Hc; vm_compute in Hc;
  repeat (apply elem_of_cons in Hc as [->|Hc]; [lia|]); by apply not_elem_of_nil in Hc. Qed.

Lemma process_recovery_spec fuel w :
  sink_ok (chan w) ->
  exists w', Hd7bProcessRecovery fuel w = Running w' /\ State (rc w') = Hd7bHalted /\
    retained (chan w') = lastn sink_cap (retained (chan w) ++ halt_text).
Proof.
  intros Hok. destruct halt_msgs_clean as (H1 & H2 & H3).
  unfold Hd7bProcessRecovery. rewrite halt_loop_running. eexists. split; [reflexivity|].
  split; [by cbn; destruct (decide _)|]. cbn [chan say sayf upd].
  rewrite puts_clean by eauto 10 with hd. rewrite !putf_retained.
  rewrite !puts_clean by eauto 10 with hd.
  unfold halt_text. rewrite lastn_app_lastn, <- !app_assoc, lastn_app_lastn. by rewrite <- app_assoc.
Qed.

Lemma fallback_last_state f w :
  4 <= FallbackStep (rc w) ->
  exists w', Hd7bProcessFallback (S f) w = Running w' /\ State (rc w') = Hd7bHalted.
Proof.
  intros Hs. cbn [Hd7bProcessFallback].
  repeat match goal with |- context [?a =? ?b] => destruct (Z.eqb_spec a b); [lia|] end.
  unfold Hd7bProcessRecovery. rewrite halt_loop_running. eexists. split; [reflexivity|].
  by cbn; destruct (decide _).
Qed.

(** ** Properties *)

(** Entering recovery always returns (five nested calls are enough) after
    at most three one-second sleeps: it reports success, in state Normal, at the
    first sleep after which the block device is ready and the metadata server
    reachable, and otherwise reports "not ready" with all three retries used,
    in state Fallback with the first fallback step already taken. *)
Theorem enter_recovery_outcome fuel w :
  (5 <= fuel)%nat ->
  exists st w', Hd7bEnterRecovery fuel w = Returned st w' /\
    retry_outcome (sleeps w) 0 (flags (rc w)) st w'.
Proof.
  intros Hf. unfold Hd7bEnterRecovery. cbv zeta.
  match goal with |- context [Hd7bProcessRetry fuel ?w1] =>
    destruct (retry_spec 3 fuel w1) as (st & w' & He & Ho); [reflexivity | lia | lia |] end.
  exists st, w'. split; [exact He | exact Ho].
Qed.

(** Once all fallback steps are used up the recovery never returns, for any
    amount of fuel: it stays in state Halted, and the debug channel ends with the
    three fixed lines of the halt banner. The four diagnostic values between
    them are absent from the channel, because they are formatted messages. *)
Theorem recovery_halts_forever fuel w :
  4 <= FallbackStep (rc w) -> sink_ok (chan w) ->
  exists w', Hd7bProcessFallback (S fuel) w = Running w' /\ State (rc w') = Hd7bHalted /\
    retained (chan w') = lastn sink_cap (retained (chan w) ++ halt_text).
Proof.
  intros Hs Hok. cbn [Hd7bProcessFallback].
  repeat match goal with |- context [?a =? ?b] => destruct (Z.eqb_spec a b); [lia|] end.
  by apply (process_recovery_spec fuel (upd (set_state Hd7bRecovery) w)).
Qed.

(** One round of the fallback while the network is up but the boot device stays
    away: steps 1 and 2, the retries, and step 0 again. *)
Definition hopeless (f : Flags) : Prop :=
  LocalMetaAvailable f = false /\ NetworkAvailable f = true /\ ready f = false.

Definition in_round (w : World) : Prop :=
  hopeless (flags (rc w)) /\ State (rc w) = Hd7bFallback /\
  (FallbackStep (rc w) = 1 \/ FallbackStep (rc w) = 2).

Lemma in_round_step f w :
  (forall n, hopeless (poll n)) -> in_round w -> (6 <= f)%nat ->
  exists w', Hd7bProcessFallback f w = Returned STATUS_DEVICE_NOT_READY w' /\ in_round w'.
Proof.
  intros Hp ((Hl & Hn & Hr) & Hst & Hs) Hf. destruct f as [|f]; [lia|]. destruct Hs as [Hs|Hs].
  - destruct (fallback_step1 f w Hs Hl) as (w' & He & Hrc & _). exists w'. split; [done|].
    unfold in_round. rewrite Hrc. simpl. split; [done|]. split; [done|]. by right.
  - destruct (fallback_step2_up f w Hs) as (st & w' & He & Ho); [by apply Hp | lia |].
    destruct Ho as [(_ & _ & i & _ & Hi & _) | (-> & Hst' & Hs' & _ & _ & _ & Hfl)].
    + destruct (Hp (S (sleeps w) + i)%nat) as (_ & _ & Hc). congruence.
    + exists w'. split; [done|]. split; [|split; [done|by left]]. rewrite Hfl. apply Hp.
Qed.

Lemma recover_calls_in_round k f w :
  (forall n, hopeless (poll n)) -> in_round w -> (6 <= f)%nat ->
  exists w', recover_calls k f w = Returned STATUS_DEVICE_NOT_READY w' /\ in_round w'.
Proof.
  intros Hp Hw Hf. revert w Hw; induction k as [|k IH]; intros w Hw; simpl; [eauto|].
  destruct (in_round_step f w Hp Hw Hf) as (w1 & -> & H1). simpl. by apply IH.
Qed.

(** C35. While the network stays up but the boot device does not come back and
    there is no cached boot.meta, the third stage is never reached: however
    often the caller asks again after entering recovery, the answer is "not
    ready" and the state is Fallback, cycling through steps 1 and 2. *)
Theorem recovery_livelock k f w :
  (forall n, hopeless (poll n)) -> (6 <= f)%nat ->
  exists w1 w2, Hd7bEnterRecovery f w = Returned STATUS_DEVICE_NOT_READY w1 /\
    recover_calls k f w1 = Returned STATUS_DEVICE_NOT_READY w2 /\
    State (rc w2) = Hd7bFallback /\ FallbackStep (rc w2) <= 2.
Proof.
  intros Hp Hf. unfold Hd7bEnterRecovery. cbv zeta.
  match goal with |- context [Hd7bProcessRetry f ?w1] =>
    destruct (retry_spec 3 f w1) as (st & w' & He & Ho); [reflexivity | lia | lia |] end.
  destruct Ho as [(_ & _ & i & _ & Hi & _) | (-> & Hst' & Hs' & _ & _ & _ & Hfl)].
  { match type of Hi with ready (poll ?j) = true => destruct (Hp j) as (_ & _ & Hc) end. congruence. }
  destruct (recover_calls_in_round k f w' Hp) as (w2 & Hc & _ & Hst & Hs); [|done|].
  { split; [|split; [done|by left]]. rewrite Hfl. apply Hp. }
  exists w', w2. split_and!; [exact He | done | done | lia].
Qed.

(** Without network, boot device and cached boot.meta the three stages run
    in order: entering recovery and asking four more times ends in the halted
    state, from which no amount of fuel returns. *)
Theorem recovery_reaches_halt f w :
  (forall n, LocalMetaAvailable (poll n) = false /\ NetworkAvailable (poll n) = false /\
             ready (poll n) = false) -> (6 <= f)%nat ->
  exists w1 w2, Hd7bEnterRecovery f w = Returned STATUS_DEVICE_NOT_READY w1 /\
    recover_calls 4 f w1 = Running w2 /\ State (rc w2) = Hd7bHalted.
Proof.
  intros Hp Hf. unfold Hd7bEnterRecovery. cbv zeta.
  match goal with |- context [Hd7bProcessRetry f ?w1] =>
    destruct (retry_spec 3 f w1) as (st & w1' & He & Ho); [reflexivity | lia | lia |] end.
  destruct Ho as [(_ & _ & i & _ & Hi & _) | (-> & _ & Hs1 & _ & _ & _ & Hfl)].
  { match type of Hi with ready (poll ?j) = true => destruct (Hp j) as (_ & _ & Hc) end. congruence. }
  exists w1'. destruct f as [|f]; [lia|]. cbn [recover_calls].
  destruct (fallback_step1 f w1' Hs1) as (w2 & -> & Hr2 & Hn2); [rewrite Hfl; apply Hp|].
  destruct (fallback_step2_down f w2) as (w3 & -> & Hr3 & Hn3); [by rewrite Hr2 | apply Hp |].
  destruct (fallback_step3 f w3) as (w4 & -> & Hr4 & Hn4); [by rewrite Hr3|].
  destruct (fallback_last_state f w4) as (w5 & -> & H5); [by rewrite Hr4|].
  exists w5. cbn. split; [exact He|done].
Qed.

End Recovery.

(** ** Witnesses, on the COM1 channel of Serial.v *)

#[local] Instance com1 : DebugSink (HD_SERIAL_DEBUG * Uart) := serial_sink always_ready.

Definition down (n : nat) : Flags := mkFlags false false false false.
Definition net_only (n : nat) : Flags := mkFlags false true false false.
Definition up_at_2 (n : nat) : Flags := mkFlags false true (Nat.leb 2 n) true.
Definition clock0 (n : nat) : Z := 0.
Definition world0 (step : Z) : World (W := HD_SERIAL_DEBUG * Uart) :=
  mkWorld (mkRecovery Hd7bNormal 0 step 0 (mkFlags false false false false)) (serial0, uart0) 0.

Lemma enter_recovery_outcome_witness :
  (5 <= 5)%nat /\
  exists st w', Hd7bEnterRecovery up_at_2 clock0 5 (world0 0) = Returned st w' /\
    retry_outcome up_at_2 0 0 (mkFlags false false false false) st w'.
Proof. split; [lia|]. apply (enter_recovery_outcome up_at_2 clock0 5 (world0 0)). lia. Defined.

Lemma recovery_halts_forever_witness :
  sink_ok (chan (world0 4)) /\
  exists w', Hd7bProcessFallback net_only clock0 1 (world0 4) = Running w' /\
    State (rc w') = Hd7bHalted /\
    retained (chan w') = lastn sink_cap (retained (chan (world0 4)) ++ halt_text).
Proof.
  assert (sink_ok (chan (world0 4))) as Hok by (vm_compute; intuition congruence).
  split; [exact Hok|].
  apply (recovery_halts_forever net_only clock0 0 (world0 4)); [simpl; lia | exact Hok].
Defined.

Lemma recovery_livelock_witness :
  exists w1 w2, Hd7bEnterRecovery net_only clock0 6 (world0 0) = Returned STATUS_DEVICE_NOT_READY w1 /\
    recover_calls net_only clock0 100 6 w1 = Returned STATUS_DEVICE_NOT_READY w2 /\
    State (rc w2) = Hd7bFallback /\ FallbackStep (rc w2) <= 2.
Proof. apply (recovery_livelock net_only clock0 100 6 (world0 0)); [intros n; repeat split | lia]. Defined.

Lemma recovery_reaches_halt_witness :
  exists w1 w2, Hd7bEnterRecovery down clock0 6 (world0 0) = Returned STATUS_DEVICE_NOT_READY w1 /\
    recover_calls down clock0 4 6 w1 = Running w2 /\ State (rc w2) = Hd7bHalted.
Proof. apply (recovery_reaches_halt down clock0 6 (world0 0)); [intros n; repeat split | lia]. Defined.
