(* ===== verification/ListEntry.v ===== *)
(** * Intrusive doubly linked lists

    The drivers keep their tracked IRPs, dirty pages and child devices on the
    kernel's LIST_ENTRY rings. The ring is modelled at pointer level: two maps
    from the address of a node to its [Flink] and [Blink] words. A node that
    has been freed is in neither map, so following or updating it is a [Fault];
    the list macros contain the consistency check of the kernel headers, whose
    failure stops the machine, also a [Fault].

    The lemmas relate a ring to the list of its nodes ([dlist]); the clients use
    only those. *)

From S2P Require Import Prelude.

Record Links : Type := mkLinks {
  fl : gmap Z Z;
  bl : gmap Z Z;
}.

Definition Flink (m : Links) (x : Z) : res Z := of_opt (fl m !! x).
Definition Blink (m : Links) (x : Z) : res Z := of_opt (bl m !! x).
Definition set_flink (x v : Z) (m : Links) : res Links :=
  match fl m !! x with
  | Some _ => Ok (mkLinks (<[x:=v]> (fl m)) (bl m))
  | None => Fault
  end.
Definition set_blink (x v : Z) (m : Links) : res Links :=
  match bl m !! x with
  | Some _ => Ok (mkLinks (fl m) (<[x:=v]> (bl m)))
  | None => Fault
  end.

(** Storage of a node, with arbitrary contents, appears and disappears with the
    pool block it lives in. *)
Definition alloc_node (x : Z) (m : Links) : Links := mkLinks (<[x:=0]> (fl m)) (<[x:=0]> (bl m)).
Definition free_node (x : Z) (m : Links) : Links := mkLinks (delete x (fl m)) (delete x (bl m)).

Definition InitializeListHead (head : Z) (m : Links) : Links :=
  mkLinks (<[head:=head]> (fl m)) (<[head:=head]> (bl m)).

Definition IsListEmpty (head : Z) (m : Links) : res bool :=
  let* f := Flink m head in Ok (f =? head).

Definition InsertTailList (head entry : Z) (m : Links) : res Links :=
  let* prev := Blink m head in
  let* pf := Flink m prev in
  if negb (pf =? head) then Fault
  else
    let* m := set_flink entry head m in
    let* m := set_blink entry prev m in
    let* m := set_flink prev entry m in
    set_blink head entry m.

Definition RemoveEntryList (entry : Z) (m : Links) : res Links :=
  let* next := Flink m entry in
  let* prev := Blink m entry in
  let* nb := Blink m next in
  let* pf := Flink m prev in
  if negb (nb =? entry) || negb (pf =? entry) then Fault
  else
    let* m := set_flink prev next m in
    set_blink next prev m.

Definition RemoveHeadList (head : Z) (m : Links) : res (Z * Links) :=
  let* entry := Flink m head in
  let* m := RemoveEntryList entry m in
  Ok (entry, m).

(** The search loop of the drivers: from [entry], follow [Flink] until the
    list head or until [test] holds of the record that contains the node. *)
Fixpoint find_entry (fuel : nat) (m : Links) (head : Z) (test : Z -> res bool) (entry : Z) : res (option Z) :=
  match fuel with
  | O => NoFuel
  | S f =>
      if entry =? head then Ok None
      else
        let* hit := test entry in
        if hit : bool then Ok (Some entry)
        else let* next := Flink m entry in find_entry f m head test next
  end.

(** ** Rings and lists *)

Fixpoint path (m : Links) (x : Z) (l : list Z) : Prop :=
  match l with
  | [] => True
  | y :: r => fl m !! x = Some y /\ bl m !! y = Some x /\ path m y r
  end.

Definition dlist (m : Links) (head : Z) (l : list Z) : Prop :=
  NoDup (head :: l) /\ path m head (l ++ [head]).

Lemma path_app m x l1 y l2 :
  path m x (l1 ++ y :: l2) <-> path m x (l1 ++ [y]) /\ path m y l2.
Proof.
  revert x; induction l1 as [|z l1 IH]; intros x; simpl; [tauto|]. rewrite IH. tauto.
Qed.

(** A path depends on the forward words of all its nodes but the last and on
    the backward words of all but the first. *)
Lemma path_agree m m' x l y :
  (forall a, a ∈ x :: l -> fl m' !! a = fl m !! a) ->
  (forall a, a ∈ l ++ [y] -> bl m' !! a = bl m !! a) ->
  path m x (l ++ [y]) -> path m' x (l ++ [y]).
Proof.
  revert x; induction l as [|z l IH]; intros x Hf Hb; simpl.
  - intros (H1 & H2 & _). rewrite Hf by set_solver. rewrite Hb by set_solver. done.
  - intros (H1 & H2 & H3). rewrite Hf by set_solver. rewrite Hb by set_solver.
    split; [done|]. split; [done|]. apply IH; [|intros; apply Hb; set_solver|done].
    intros a Ha. apply Hf. set_solver.
Qed.

Lemma path_link m x l y :
  path m x (l ++ [y]) ->
  (forall a, a ∈ x :: l -> is_Some (fl m !! a)) /\ (forall a, a ∈ l ++ [y] -> is_Some (bl m !! a)).
Proof.
  revert x; induction l as [|z l IH]; intros x; simpl.
  - intros (H1 & H2 & _). split; intros a Ha; apply list_elem_of_singleton in Ha; subst; eauto.
  - intros (H1 & H2 & H3). destruct (IH _ H3) as [IH1 IH2]. split; intros a Ha.
    + apply elem_of_cons in Ha as [->|Ha]; eauto.
    + apply elem_of_cons in Ha as [->|Ha]; eauto.
Qed.

Lemma dlist_agree m m' head l :
  (forall a, a ∈ head :: l -> fl m' !! a = fl m !! a /\ bl m' !! a = bl m !! a) ->
  dlist m head l -> dlist m' head l.
Proof.
  intros Ha [Hnd Hp]. split; [done|]. eapply path_agree; [..|done]; intros a Hin; apply Ha; set_solver.
Qed.

Lemma dlist_alloc m head l e : e ∉ head :: l -> dlist m head l -> dlist (alloc_node e m) head l.
Proof.
  intros He. apply dlist_agree. intros a Ha. simpl.
  rewrite !lookup_insert_ne by set_solver. done.
Qed.

Lemma dlist_free m head l e : e ∉ head :: l -> dlist m head l -> dlist (free_node e m) head l.
Proof.
  intros He. apply dlist_agree. intros a Ha. simpl.
  rewrite !lookup_delete_ne by set_solver. done.
Qed.

Lemma dlist_init m head : dlist (InitializeListHead head m) head [].
Proof. split; [repeat constructor; set_solver|]. simpl. by rewrite !lookup_insert_eq. Qed.

Lemma dlist_first m head l :
  dlist m head l -> Flink m head = Ok (default head (l !! 0%nat)).
Proof. intros [_ Hp]. unfold Flink. destruct l as [|y l]; simpl in *; by destruct Hp as (-> & _). Qed.

Lemma NoDup_ring_snoc (head e : Z) l : NoDup (head :: l) -> e ∉ head :: l -> NoDup (head :: l ++ [e]).
Proof.
  intros Hnd He. apply NoDup_cons in Hnd as [H1 H2]. constructor; [set_solver|].
  apply NoDup_app. split_and!; [done|set_solver|apply NoDup_singleton].
Qed.

Lemma InsertTailList_spec m head l e :
  dlist m head l -> e ∉ head :: l -> is_Some (fl m !! e) -> is_Some (bl m !! e) ->
  exists m', InsertTailList head e m = Ok m' /\ dlist m' head (l ++ [e]) /\
    (forall a, a ∉ e :: head :: l -> fl m' !! a = fl m !! a /\ bl m' !! a = bl m !! a).
Proof.
  intros [Hnd Hp] He [fe Hfe] [be Hbe]. pose proof (NoDup_ring_snoc _ _ _ Hnd He) as Hnd'. destruct l as [|b l _] using rev_ind.
  - simpl in Hp. destruct Hp as (Hf & Hb & _). assert (e <> head) by set_solver.
    unfold InsertTailList, Blink, Flink, set_flink, set_blink.
    rewrite Hb. simpl. rewrite Hf. simpl. rewrite Z.eqb_refl. simpl. rewrite Hfe. simpl.
    rewrite Hbe. simpl. rewrite lookup_insert_ne, Hf by done. simpl.
    rewrite lookup_insert_ne, Hb by done. eexists. split; [reflexivity|]. split.
    + split; [done|]. simpl.
      rewrite lookup_insert_eq, lookup_insert_ne, lookup_insert_eq by done.
      rewrite lookup_insert_ne, !lookup_insert_eq by done. done.
    + intros a Ha. simpl. split; rewrite !lookup_insert_ne by set_solver; done.
  - rewrite <- app_assoc in Hp. simpl in Hp. apply path_app in Hp as [Hp1 (Hf & Hb & _)].
    apply NoDup_cons in Hnd as [Hd1 (Hd2 & Hd3 & _)%NoDup_app].
    assert (e <> head /\ e <> b /\ b <> head) as (? & ? & ?) by set_solver.
    unfold InsertTailList, Blink, Flink, set_flink, set_blink.
    rewrite Hb. simpl. rewrite Hf. simpl. rewrite Z.eqb_refl. simpl. rewrite Hfe. simpl.
    rewrite Hbe. simpl. rewrite lookup_insert_ne, Hf by done. simpl.
    rewrite lookup_insert_ne, Hb by done. eexists. split; [reflexivity|]. split.
    + split; [done|]. rewrite <- !app_assoc. simpl. apply path_app. split.
      * eapply path_agree; [..|exact Hp1]; intros a Ha; simpl;
          rewrite !lookup_insert_ne; try done; set_solver.
      * simpl. rewrite lookup_insert_eq. rewrite (lookup_insert_ne _ b e) by done.
        rewrite lookup_insert_eq. rewrite (lookup_insert_ne _ head e) by done.
        rewrite !lookup_insert_eq. done.
    + intros a Ha. simpl. split; rewrite !lookup_insert_ne by set_solver; done.
Qed.

Lemma RemoveEntryList_run m e p n :
  fl m !! e = Some n -> bl m !! e = Some p -> bl m !! n = Some e -> fl m !! p = Some e ->
  RemoveEntryList e m = Ok (mkLinks (<[p:=n]> (fl m)) (<[n:=p]> (bl m))).
Proof.
  intros H1 H2 H3 H4. unfold RemoveEntryList, Flink, Blink, set_flink, set_blink.
  rewrite H1. simpl. rewrite H2. simpl. rewrite H3. simpl. rewrite H4. simpl.
  rewrite Z.eqb_refl. simpl. by rewrite H3.
Qed.

(** Unlinking splits the path at [e]; the four cases are an empty or non-empty
    part before and behind it. *)
Lemma RemoveEntryList_path m head l1 e l2 :
  NoDup (head :: l1 ++ e :: l2) -> path m head ((l1 ++ e :: l2) ++ [head]) ->
  exists p n, RemoveEntryList e m = Ok (mkLinks (<[p:=n]> (fl m)) (<[n:=p]> (bl m))) /\
    p ∈ head :: l1 ++ l2 /\ n ∈ head :: l1 ++ l2 /\
    path (mkLinks (<[p:=n]> (fl m)) (<[n:=p]> (bl m))) head ((l1 ++ l2) ++ [head]).
Proof.
  intros Hnd Hp. apply NoDup_cons in Hnd as [Hd1 (Hd2 & Hd3 & (Hd4 & Hd5)%NoDup_cons)%NoDup_app].
  rewrite <- app_assoc in Hp. simpl in Hp. apply path_app in Hp as [Hp1 Hp2].
  destruct l1 as [|p l1 _] using rev_ind; [|rewrite <- app_assoc in Hp1; simpl in Hp1; apply path_app in Hp1 as [Hp0 Hp1];
    apply NoDup_app in Hd2 as (_ & Hd2 & _)];
    (destruct l2 as [|n l2]; [|apply NoDup_cons in Hd5 as [Hd5 Hd6]]);
    destruct Hp1 as (Hf1 & Hb1 & _); destruct Hp2 as (Hf2 & Hb2 & Hp2);
    do 2 eexists; (split; [by apply RemoveEntryList_run|]); (split; [set_solver|]); (split; [set_solver|]).
  - simpl. by rewrite !lookup_insert_eq.
  - simpl. rewrite !lookup_insert_eq. split; [done|]. split; [done|].
    eapply path_agree; [..|exact Hp2]; intros a Ha; simpl; rewrite lookup_insert_ne; try done; set_solver.
  - rewrite app_nil_r, <- app_assoc. simpl. apply path_app. split.
    + eapply path_agree; [..|exact Hp0]; intros a Ha; simpl; rewrite lookup_insert_ne; try done; set_solver.
    + simpl. by rewrite !lookup_insert_eq.
  - rewrite <- !app_assoc. simpl. apply path_app. split; [|simpl; rewrite !lookup_insert_eq; split; [done|split; [done|]]].
    + eapply path_agree; [..|exact Hp0]; intros a Ha; simpl; rewrite lookup_insert_ne; try done; set_solver.
    + eapply path_agree; [..|exact Hp2]; intros a Ha; simpl; rewrite lookup_insert_ne; try done; set_solver.
Qed.

Lemma RemoveEntryList_spec m head l1 e l2 :
  dlist m head (l1 ++ e :: l2) ->
  exists m', RemoveEntryList e m = Ok m' /\ dlist m' head (l1 ++ l2) /\
    (forall a, a ∉ head :: l1 ++ l2 -> fl m' !! a = fl m !! a /\ bl m' !! a = bl m !! a).
Proof.
  intros [Hnd Hp]. destruct (RemoveEntryList_path _ _ _ _ _ Hnd Hp) as (p & n & He & Hpi & Hni & Hp').
  eexists. split; [exact He|]. split; [split; [|exact Hp']|].
  - apply NoDup_cons in Hnd as [Hd1 (Hd2 & Hd3 & (_ & Hd5)%NoDup_cons)%NoDup_app].
    constructor; [set_solver|]. apply NoDup_app. split_and!; [done|set_solver|done].
  - intros a Ha. simpl. rewrite !lookup_insert_ne by (intros ->; done). done.
Qed.

Lemma RemoveHeadList_spec m head e l :
  dlist m head (e :: l) ->
  exists m', RemoveHeadList head m = Ok (e, m') /\ dlist m' head l.
Proof.
  intros Hd. unfold RemoveHeadList. rewrite (dlist_first _ _ _ Hd). simpl.
  destruct (RemoveEntryList_spec m head [] e l Hd) as (m' & -> & Hd' & _). simpl. eauto.
Qed.

Lemma IsListEmpty_spec m head l :
  dlist m head l -> IsListEmpty head m = Ok (bool_decide (l = [])).
Proof.
  intros Hd. unfold IsListEmpty. rewrite (dlist_first _ _ _ Hd). simpl. f_equal.
  destruct l as [|y l]; simpl.
  - by rewrite Z.eqb_refl.
  - destruct Hd as [Hnd _]. apply NoDup_cons in Hnd as [Hnin _].
    apply Z.eqb_neq. set_solver.
Qed.

Lemma dlist_next m head l1 e l2 :
  dlist m head (l1 ++ e :: l2) -> Flink m e = Ok (default head (l2 !! 0%nat)).
Proof.
  intros [_ Hp]. rewrite <- app_assoc in Hp. simpl in Hp. apply path_app in Hp as [_ Hp].
  unfold Flink. destruct l2 as [|y l2]; simpl in *; by destruct Hp as (-> & _).
Qed.

Lemma dlist_not_head m head l e : dlist m head l -> e ∈ l -> (e =? head) = false.
Proof. intros [Hnd _] He. apply NoDup_cons in Hnd as [Hnin _]. apply Z.eqb_neq. set_solver. Qed.

(** The search loop on a ring finds the first node that passes the test. *)
Lemma find_entry_spec m head (P : Z -> bool) test pre l fuel :
  dlist m head (pre ++ l) -> (forall a, a ∈ l -> test a = Ok (P a)) -> (length l < fuel)%nat ->
  find_entry fuel m head test (default head (l !! 0%nat)) = Ok (List.find P l).
Proof.
  intros Hd. revert pre fuel Hd; induction l as [|e l IH]; intros pre fuel Hd Ht Hf.
  - destruct fuel as [|f]; [simpl in Hf; lia|]. simpl. by rewrite Z.eqb_refl.
  - destruct fuel as [|f]; [simpl in Hf; lia|]. cbn [lookup list_lookup default find_entry].
    simpl. rewrite (dlist_not_head _ _ _ e Hd), Ht by set_solver. simpl. destruct (P e); [done|].
    rewrite (dlist_next _ _ _ _ _ Hd). simpl.
    apply (IH (pre ++ [e])); [by rewrite <- app_assoc| |simpl in Hf; lia].
    intros a Ha. apply Ht. set_solver.
Qed.

#[export] Hint Resolve dlist_init dlist_alloc dlist_free : hd.

(** ** Rings of pool blocks

    The drivers link records that live in pool blocks. [holds] says that the
    ring at [head] links exactly the live blocks of [heap], in the order of
    [l]. *)
Section Blocks.
Context {B : Type}.

Definition holds (m : Links) (heap : gmap Z B) (head : Z) (l : list (Z * B)) : Prop :=
  dlist m head l.*1 /\ (forall a e, heap !! a = Some e <-> (a, e) ∈ l).

Lemma holds_nodup m heap head l : holds m heap head l -> NoDup (head :: l.*1).
Proof. by intros [[? _] _]. Qed.

Lemma holds_key (l : list (Z * B)) a e : (a, e) ∈ l -> a ∈ l.*1.
Proof. intros Hin. apply list_elem_of_fmap. by exists (a, e). Qed.

(** A heap listed without repeated addresses has as many blocks as the list. *)
Lemma heap_size (heap : gmap Z B) (l : list (Z * B)) :
  (forall a e, heap !! a = Some e <-> (a, e) ∈ l) -> NoDup l.*1 -> size heap = length l.
Proof.
  intros Hpool Hnd. rewrite <- length_map_to_list. apply Permutation_length, NoDup_Permutation.
  - apply NoDup_map_to_list.
  - by apply NoDup_fmap_1 in Hnd.
  - intros [a e]. rewrite <- (Hpool a e). apply elem_of_map_to_list.
Qed.

(** Addresses are unique, so a block is recorded once. *)
Lemma keys_unique (l1 l2 : list (Z * B)) a e e' :
  NoDup (l1 ++ (a, e) :: l2).*1 -> (a, e') ∉ l1 ++ l2.
Proof.
  rewrite fmap_app, fmap_cons. simpl. intros (Hd2 & Hd3 & (Hd4 & _)%NoDup_cons)%NoDup_app Hin.
  apply holds_key in Hin. rewrite fmap_app in Hin. set_solver.
Qed.

(** Unlinking a block and freeing it. *)
Lemma holds_drop m heap head l1 a e l2 :
  holds m heap head (l1 ++ (a, e) :: l2) ->
  exists m', RemoveEntryList a m = Ok m' /\
    holds (free_node a m') (delete a heap) head (l1 ++ l2).
Proof.
  intros Ht. pose proof (holds_nodup _ _ _ _ Ht) as Hnd. destruct Ht as (Hd & Hpool).
  rewrite fmap_app, fmap_cons in Hd. simpl in Hd.
  destruct (RemoveEntryList_spec _ _ _ _ _ Hd) as (m' & Hrem & Hd' & _).
  exists m'. split; [done|]. split.
  - rewrite fmap_app. apply dlist_free; [|done]. destruct Hd as [Hr _].
    apply NoDup_cons in Hr as [Hr1 (Hr2 & Hr3 & (Hr4 & _)%NoDup_cons)%NoDup_app]. set_solver.
  - apply NoDup_cons in Hnd as [_ Hnd]. intros b x. destruct (decide (b = a)) as [->|Hne].
    + rewrite lookup_delete_eq. split; [done|]. intros Hin. by destruct (keys_unique _ _ _ _ x Hnd Hin).
    + rewrite lookup_delete_ne by done. rewrite Hpool. set_solver.
Qed.

(** Allocating a block at a fresh address and linking it at the tail. *)
Lemma holds_add m heap head l a e :
  holds m heap head l -> a ∉ head :: l.*1 ->
  exists m', InsertTailList head a (alloc_node a m) = Ok m' /\
    holds m' (<[a:=e]> heap) head (l ++ [(a, e)]).
Proof.
  intros (Hd & Hpool) Ha.
  destruct (InsertTailList_spec (alloc_node a m) head l.*1 a) as (m' & Hi & Hd' & _);
    [by apply dlist_alloc | done | simpl; rewrite lookup_insert_eq; eauto
    | simpl; rewrite lookup_insert_eq; eauto |].
  exists m'. split; [done|]. split; [by rewrite fmap_app|].
  intros b x. destruct (decide (b = a)) as [->|Hne].
  - rewrite lookup_insert_eq. split.
    + intros [= ->]. set_solver.
    + rewrite elem_of_app, list_elem_of_singleton. intros [Hin|[= ->]]; [|done].
      destruct Ha. apply elem_of_cons. right. by apply (holds_key _ _ x).
  - rewrite lookup_insert_ne by done. rewrite Hpool. set_solver.
Qed.

Lemma holds_lookup m heap head l1 a e l2 :
  holds m heap head (l1 ++ (a, e) :: l2) -> heap !! a = Some e.
Proof. intros [_ Hp]. apply Hp. set_solver. Qed.

Lemma holds_init m head : holds (InitializeListHead head m) ∅ head [].
Proof. split; [apply dlist_init|]. intros a e. rewrite lookup_empty. set_solver. Qed.

(** The search loop of the drivers on such a ring: the first block that passes
    the test. *)
Lemma find_block_spec m heap head l (P : B -> bool) fuel first :
  holds m heap head l -> (length l < fuel)%nat -> Flink m head = Ok first ->
  find_entry fuel m head (fun a => let* e := of_opt (heap !! a) in Ok (P e)) first =
  Ok (fst <$> List.find (fun x => P x.2) l).
Proof.
  intros Hh Hf Hfirst. pose proof Hh as [Hd Hpool].
  assert (first = default head (l.*1 !! 0%nat)) as ->.
  { rewrite (dlist_first _ _ _ Hd) in Hfirst. injection Hfirst as <-. by destruct l. }
  rewrite (find_entry_spec m head (fun a => match heap !! a with Some e => P e | None => false end) _ [] l.*1);
    [|done| |by rewrite length_fmap].
  - clear Hd Hfirst Hf. assert (forall x, x ∈ l -> heap !! x.1 = Some x.2) as Hl by (intros [a e] Hx; by apply Hpool).
    clear Hh Hpool. induction l as [|[a e] l IH]; [done|]. cbn [fmap list_fmap List.find fst snd].
    pose proof (Hl (a, e) ltac:(set_solver)) as Ha. cbn [fst snd] in Ha. rewrite Ha. destruct (P e); [done|]. apply IH. intros. apply Hl. set_solver.
  - intros a Ha. apply list_elem_of_fmap in Ha as ([b e] & -> & Hin). simpl. apply Hpool in Hin. by rewrite Hin.
Qed.
End Blocks.
