(* ===== verification/IrpTracker.v ===== *)
(** * Outstanding-IRP tracker (src/driver/blk/blk_irp_tracker.c)

    The tracker keeps one pool block per outstanding IRP on a LIST_ENTRY ring;
    a watchdog timer completes the packets that have been outstanding for more
    than a minute. The ring is the pointer-level one of ListEntry.v, so the
    theorems include that no freed block is touched.

    Outside the file: the pool allocator (the address it returns is an argument,
    [None] when it fails), the performance counter (an argument too), and the
    object reference counts of the packets, kept as the difference to what they
    were before the tracker started. *)

From S2P Require Import Prelude Nt ListEntry.

Definition HD_IRP_TIMEOUT_SEC : Z := 60.
Definition HD_IRP_SCAN_INTERVAL_SEC : Z := 30.

(** A pool block, without the list links it contains. *)
Record HD_IRP_TRACK_ENTRY : Type := mkEntry {
  Irp : Z;
  SubmitTimestamp : Z;
  MajorFunction : Z;
  MinorFunction : Z;
  IoSize : Z;
}.

Record HD_IRP_TRACKER : Type := mkTracker {
  links : Links;
  pool : gmap Z HD_IRP_TRACK_ENTRY;
  ActiveCount : Z;
  TimerRunning : bool;
  WatchdogTimer : option (Z * Z);
  irp_refs : gmap Z Z;
  timed_out : list (Z * Z);
}.

(** A reading of the performance counter and its frequency. *)
Record Qpc : Set := mkQpc { qpc_count : Z; qpc_freq : Z }.

Definition HdQueryTickCountMs (q : Qpc) : Z := u64 (Z.quot (s64 (qpc_count q * 1000)) (qpc_freq q)).

Section Tracker.
(** The address of [Tracker->ActiveListHead]. *)
Context (head : Z).

Definition set_links (m : Links) (t : HD_IRP_TRACKER) : HD_IRP_TRACKER :=
  mkTracker m (pool t) (ActiveCount t) (TimerRunning t) (WatchdogTimer t) (irp_refs t) (timed_out t).
Definition set_count (n : Z) (t : HD_IRP_TRACKER) : HD_IRP_TRACKER :=
  mkTracker (links t) (pool t) n (TimerRunning t) (WatchdogTimer t) (irp_refs t) (timed_out t).
Definition set_timer (r : bool) (w : option (Z * Z)) (t : HD_IRP_TRACKER) : HD_IRP_TRACKER :=
  mkTracker (links t) (pool t) (ActiveCount t) r w (irp_refs t) (timed_out t).
Definition set_refs (r : gmap Z Z) (t : HD_IRP_TRACKER) : HD_IRP_TRACKER :=
  mkTracker (links t) (pool t) (ActiveCount t) (TimerRunning t) (WatchdogTimer t) r (timed_out t).
Definition add_timed_out (x : Z * Z) (t : HD_IRP_TRACKER) : HD_IRP_TRACKER :=
  mkTracker (links t) (pool t) (ActiveCount t) (TimerRunning t) (WatchdogTimer t) (irp_refs t)
    (timed_out t ++ [x]).

Definition ref_of (t : HD_IRP_TRACKER) (irp : Z) : Z := default 0 (irp_refs t !! irp).
Definition ObReferenceObject (irp : Z) (t : HD_IRP_TRACKER) : HD_IRP_TRACKER :=
  set_refs (<[irp := ref_of t irp + 1]> (irp_refs t)) t.
Definition ObDereferenceObject (irp : Z) (t : HD_IRP_TRACKER) : HD_IRP_TRACKER :=
  set_refs (<[irp := ref_of t irp - 1]> (irp_refs t)) t.

Definition alloc_block (a : Z) (e : HD_IRP_TRACK_ENTRY) (t : HD_IRP_TRACKER) : HD_IRP_TRACKER :=
  mkTracker (alloc_node a (links t)) (<[a:=e]> (pool t)) (ActiveCount t) (TimerRunning t)
    (WatchdogTimer t) (irp_refs t) (timed_out t).
(** [ExFreePoolWithTag]; freeing a block twice is a fault. *)
Definition free_block (a : Z) (t : HD_IRP_TRACKER) : res HD_IRP_TRACKER :=
  match pool t !! a with
  | Some _ => Ok (mkTracker (free_node a (links t)) (delete a (pool t)) (ActiveCount t)
                    (TimerRunning t) (WatchdogTimer t) (irp_refs t) (timed_out t))
  | None => Fault
  end.

(** [KeSetTimerEx (timer, -10 * 1000 * 1000 * 30, 30 * 1000, dpc)]. *)
Definition scan_timer : option (Z * Z) :=
  Some (-10 * 1000 * 1000 * HD_IRP_SCAN_INTERVAL_SEC, HD_IRP_SCAN_INTERVAL_SEC * 1000).

Definition HdIrpTrackerInit (t : HD_IRP_TRACKER) : HD_IRP_TRACKER :=
  set_timer false None (set_count 0 (set_links (InitializeListHead head (links t)) t)).

Definition HdIrpTrackerDestroy (t : HD_IRP_TRACKER) : HD_IRP_TRACKER :=
  if TimerRunning t then set_timer false None t else t.

(** The three operations are made of the steps they take on the shared tracker,
    so that the same steps can be interleaved: what stands between acquiring
    and releasing the spin lock is one step; the timer, its flag and the test of
    [ActiveCount] are outside the lock and are steps of their own. *)

Definition arm_timer (t : HD_IRP_TRACKER) : HD_IRP_TRACKER := set_timer (TimerRunning t) scan_timer t.
Definition set_running (r : bool) (t : HD_IRP_TRACKER) : HD_IRP_TRACKER := set_timer r (WatchdogTimer t) t.

(** The new block, filled in, and the reference on the packet. *)
Definition submit_entry (q : Qpc) (irp major minor : Z) : HD_IRP_TRACK_ENTRY :=
  mkEntry irp (HdQueryTickCountMs q) major minor 0.
Definition submit_prepare (entry : Z) (e : HD_IRP_TRACK_ENTRY) (t : HD_IRP_TRACKER) : HD_IRP_TRACKER :=
  ObReferenceObject (Irp e) (alloc_block entry e t).
Definition submit_locked (entry : Z) (t : HD_IRP_TRACKER) : res HD_IRP_TRACKER :=
  let* m := InsertTailList head entry (links t) in
  Ok (set_count (u32 (ActiveCount t + 1)) (set_links m t)).

Definition HdIrpTrackerSubmit (alloc : option Z) (q : Qpc) (irp major minor : Z)
    (t : HD_IRP_TRACKER) : res HD_IRP_TRACKER :=
  match alloc with
  | None => Ok t
  | Some entry =>
      let t := submit_prepare entry (submit_entry q irp major minor) t in
      let* t := submit_locked entry t in
      if TimerRunning t then Ok t else Ok (set_running true (arm_timer t))
  end.

(** The search and the unlinking; the result is [found]. *)
Definition complete_locked (fuel : nat) (irp : Z) (t : HD_IRP_TRACKER) : res (option Z * HD_IRP_TRACKER) :=
  let* first := Flink (links t) head in
  let* found := find_entry fuel (links t) head
                  (fun a => let* e := of_opt (pool t !! a) in Ok (Irp e =? irp)) first in
  match found with
  | None => Ok (None, t)
  | Some a =>
      let* m := RemoveEntryList a (links t) in
      Ok (Some a, set_count (u32 (ActiveCount t - 1)) (set_links m t))
  end.

Definition HdIrpTrackerComplete (fuel : nat) (irp : Z) (t : HD_IRP_TRACKER) : res HD_IRP_TRACKER :=
  let* (found, t) := complete_locked fuel irp t in
  match found with
  | None => Ok t
  | Some a =>
      let t := ObDereferenceObject irp t in
      free_block a t
  end.

(** The unsigned age test of the watchdog. *)
Definition expired (now : Z) (e : HD_IRP_TRACK_ENTRY) : bool :=
  HD_IRP_TIMEOUT_SEC * 1000 <? u64 (now - SubmitTimestamp e).

(** The body of the scan loop for the node [entry]. *)
Definition watchdog_entry (now entry : Z) (t : HD_IRP_TRACKER) : res HD_IRP_TRACKER :=
  let* e := of_opt (pool t !! entry) in
  if expired now e then
    let* m := RemoveEntryList entry (links t) in
    let t := set_count (u32 (ActiveCount t - 1)) (set_links m t) in
    let t := if Irp e =? 0 then t else add_timed_out (Irp e, STATUS_DEVICE_NOT_READY) t in
    free_block entry t
  else Ok t.

(** [for (...; entry != head; entry = next, next = entry->Flink)]. *)
Fixpoint watchdog_scan (fuel : nat) (now entry next : Z) (t : HD_IRP_TRACKER) : res HD_IRP_TRACKER :=
  match fuel with
  | O => NoFuel
  | S f =>
      if entry =? head then Ok t
      else
        let* t := watchdog_entry now entry t in
        let entry := next in
        let* next := Flink (links t) entry in
        watchdog_scan f now entry next t
  end.

Definition watchdog_locked (fuel : nat) (now : Z) (t : HD_IRP_TRACKER) : res HD_IRP_TRACKER :=
  let* entry := Flink (links t) head in
  let* next := Flink (links t) entry in
  watchdog_scan fuel now entry next t.

Definition HdIrpTrackerWatchdog (fuel : nat) (q : Qpc) (t : HD_IRP_TRACKER) : res HD_IRP_TRACKER :=
  let now := HdQueryTickCountMs q in
  let* t := watchdog_locked fuel now t in
  if 0 <? ActiveCount t then Ok (arm_timer t) else Ok (set_running false t).

(** ** Specification: a list of tracked packets *)

Definition tracked : Type := Z * HD_IRP_TRACK_ENTRY.

(** The tracker [t] holds exactly the blocks of [l], in ring order. *)
Definition tracks (t : HD_IRP_TRACKER) (l : list tracked) : Prop :=
  dlist (links t) head l.*1 /\
  (forall a e, pool t !! a = Some e <-> (a, e) ∈ l) /\
  ActiveCount t = u32 (Z.of_nat (length l)).

Fixpoint remove_first (P : tracked -> bool) (l : list tracked) : list tracked :=
  match l with
  | [] => []
  | x :: r => if P x then r else x :: remove_first P r
  end.

Definition for_irp (irp : Z) (x : tracked) : bool := Irp x.2 =? irp.
Definition alive (now : Z) (x : tracked) : bool := negb (expired now x.2).

(** What the scan reports to the I/O manager for the expired packets. *)
Definition reports (now : Z) (l : list tracked) : list (Z * Z) :=
  (fun x => (Irp x.2, STATUS_DEVICE_NOT_READY)) <$>
    List.filter (fun x => negb (Irp x.2 =? 0)) (List.filter (fun x => expired now x.2) l).

(** ** Lemmas *)

(** The blocks [l] are on the ring, the blocks [h] are off it, each with an owner
    of its own. *)
Record held (t : HD_IRP_TRACKER) (l h : list tracked) : Prop := {
  hd_ring : dlist (links t) head l.*1;
  hd_nodes : NoDup (head :: (l ++ h).*1);
  hd_pool : forall a e, pool t !! a = Some e <-> (a, e) ∈ l ++ h;
  hd_store : forall a, a ∈ h.*1 -> is_Some (fl (links t) !! a) /\ is_Some (bl (links t) !! a);
  hd_count : ActiveCount t = u32 (Z.of_nat (length l));
}.

Lemma tracks_held t l : tracks t l <-> held t l [].
Proof.
  split.
  - intros (Hd & Hp & Hc). split; rewrite ?app_nil_r; try done; [apply Hd|]. intros a Ha. by apply elem_of_nil in Ha.
  - intros [H1 _ H2 _ H3]. rewrite app_nil_r in H2. by split.
Qed.

(** Only three fields matter, and the order of the owners does not. *)
Lemma held_frame t t' l h h' :
  held t l h -> links t' = links t -> pool t' = pool t -> ActiveCount t' = ActiveCount t -> h ≡ₚ h' -> held t' l h'.
Proof.
  intros [H1 H2 H3 H4 H5] E1 E2 E3 Hh. split; rewrite ?E1, ?E2, ?E3; try done.
  - by rewrite <- Hh.
  - intros a e. by rewrite <- Hh.
  - intros a. rewrite <- Hh. apply H4.
Qed.

Lemma held_alloc t l h a e :
  held t l h -> pool t !! a = None -> a <> head -> held (alloc_block a e t) l ((a, e) :: h).
Proof.
  intros [H1 H2 H3 H4 H5] Ha Hh. assert (a ∉ (l ++ h).*1) as Hnot.
  { intros ([b x] & -> & Hin)%list_elem_of_fmap. apply H3 in Hin. cbn in Ha. congruence. }
  rewrite fmap_app in Hnot. split; cbn [alloc_block links pool ActiveCount]; [apply dlist_alloc; [set_solver|done]| | | |done].
  - rewrite <- Permutation_middle, fmap_cons. cbn [fst]. rewrite fmap_app in *. apply NoDup_cons in H2 as [? ?].
    apply NoDup_cons. split; [set_solver|]. apply NoDup_cons. split; [set_solver|done].
  - intros b x. rewrite <- Permutation_middle, elem_of_cons, <- H3, lookup_insert. case_decide as Hb.
    + subst b. rewrite Ha. naive_solver.
    + naive_solver.
  - intros b Hb. cbn [alloc_node fl bl]. rewrite !lookup_insert. case_decide; [done|].
    rewrite fmap_cons in Hb. apply elem_of_cons in Hb as [?|?]; [done|by apply H4].
Qed.

Lemma held_insert t l h a e :
  held t l ((a, e) :: h) ->
  exists m, InsertTailList head a (links t) = Ok m /\
    held (set_count (u32 (ActiveCount t + 1)) (set_links m t)) (l ++ [(a, e)]) h.
Proof.
  intros [H1 H2 H3 H4 H5]. pose proof H2 as Hnd. rewrite fmap_app, fmap_cons in Hnd. cbn [fst] in Hnd.
  apply NoDup_cons in Hnd as [Hh (_ & Hd & [Ha _]%NoDup_cons)%NoDup_app].
  assert (a ∉ l.*1) as Hal by (intros Hin; apply (Hd a Hin); by left).
  destruct (H4 a) as [Hf Hb]; [rewrite fmap_cons; by left|].
  destruct (InsertTailList_spec (links t) head l.*1 a H1 ltac:(set_solver) Hf Hb) as (m & E & Hm & Hsame).
  exists m. split; [done|]. split; cbn [set_count set_links links pool ActiveCount].
  - by rewrite fmap_app.
  - by rewrite <- app_assoc.
  - intros b x. by rewrite <- app_assoc.
  - intros b Hin. destruct (Hsame b) as [-> ->]; [|apply H4; rewrite fmap_cons; by right].
    intros Hbad. apply elem_of_cons in Hbad as [->|[->|Hbl]%elem_of_cons]; [done|set_solver|].
    apply (Hd b Hbl). by right.
  - rewrite H5, length_app. unfold u32. rewrite wrap_add_l. f_equal. cbn. lia.
Qed.

Lemma held_remove t l1 a e l2 h :
  held t (l1 ++ (a, e) :: l2) h ->
  exists m, RemoveEntryList a (links t) = Ok m /\
    held (set_count (u32 (ActiveCount t - 1)) (set_links m t)) (l1 ++ l2) ((a, e) :: h).
Proof.
  intros [H1 H2 H3 H4 H5]. pose proof H1 as H1'. rewrite fmap_app, fmap_cons in H1'. cbn [fst] in H1'.
  destruct (RemoveEntryList_spec _ _ _ _ _ H1') as (m & E & Hm & Hsame). exists m. split; [done|].
  assert ((l1 ++ (a, e) :: l2) ++ h ≡ₚ (l1 ++ l2) ++ (a, e) :: h) as Hp.
  { rewrite <- !app_assoc. apply Permutation_app_head. cbn [app]. by rewrite Permutation_middle. }
  assert (NoDup (head :: a :: (l1 ++ l2).*1 ++ h.*1)) as Hnd.
  { rewrite Hp, <- Permutation_middle, fmap_cons, fmap_app in H2. done. }
  apply NoDup_cons in Hnd as [Hh Hnd]. apply NoDup_cons in Hnd as [Ha Hnd].
  split; cbn [set_count set_links links pool ActiveCount].
  - by rewrite fmap_app.
  - by rewrite <- Hp.
  - intros b x. by rewrite <- Hp.
  - intros b Hin. rewrite <- fmap_app in Hsame. destruct (Hsame b) as [-> ->].
    { rewrite fmap_cons in Hin. apply elem_of_cons in Hin as [->|Hin]; [set_solver|].
      apply NoDup_app in Hnd as (_ & Hd & _). intros [->|Hb]%elem_of_cons; [set_solver|by apply (Hd b)]. }
    rewrite fmap_cons in Hin. apply elem_of_cons in Hin as [->|Hin]; [|by apply H4].
    destruct H1' as [_ Hpath]. apply path_link in Hpath as [Hf Hb]. cbn [fst]. split; [apply Hf|apply Hb]; set_solver.
  - rewrite H5, !length_app. cbn [length]. unfold u32. rewrite wrap_sub_l. f_equal. lia.
Qed.

Lemma held_free t l a e h :
  held t l ((a, e) :: h) ->
  exists t', free_block a t = Ok t' /\ held t' l h /\ irp_refs t' = irp_refs t /\ timed_out t' = timed_out t /\
    TimerRunning t' = TimerRunning t /\ WatchdogTimer t' = WatchdogTimer t.
Proof.
  intros [H1 H2 H3 H4 H5]. unfold free_block. rewrite (proj2 (H3 a e)) by set_solver. eexists. split; [reflexivity|]. split; [|done].
  rewrite <- Permutation_middle, fmap_cons in H2. cbn [fst] in H2. apply NoDup_cons in H2 as [Hh Hnd].
  apply NoDup_cons in Hnd as [Ha Hnd]. rewrite fmap_app in *. split; cbn [links pool ActiveCount]; [apply dlist_free; [set_solver|done]| | | |done].
  - rewrite fmap_app. apply NoDup_cons. split; [set_solver|done].
  - intros b x. rewrite lookup_delete. case_decide as Hb.
    + subst b. split; [done|]. intros Hin%holds_key. by rewrite fmap_app in Hin.
    + rewrite H3, <- Permutation_middle, elem_of_cons. naive_solver.
  - intros b Hin. cbn [free_node fl bl]. rewrite !lookup_delete_ne by (intros ->; set_solver). apply H4. rewrite fmap_cons. by right.
Qed.

(** The search loop sees the first entry of a packet. *)
Lemma find_first irp (l : list tracked) (P : Z -> bool) :
  (forall a e, (a, e) ∈ l -> P a = (Irp e =? irp)) ->
  match List.find P l.*1 with
  | None => remove_first (for_irp irp) l = l /\ Forall (fun x => Irp x.2 <> irp) l
  | Some a => exists l1 e l2, l = l1 ++ (a, e) :: l2 /\ Irp e = irp /\
                Forall (fun x => Irp x.2 <> irp) l1 /\ remove_first (for_irp irp) l = l1 ++ l2
  end.
Proof.
  induction l as [|[a e] l IH]; intros HP; [done|]. rewrite fmap_cons.
  cbn [List.find remove_first fst]. change (for_irp irp (a, e)) with (Irp e =? irp).
  rewrite (HP a e) by set_solver.
  destruct (Z.eqb_spec (Irp e) irp) as [He|He].
  - exists [], e, l. done.
  - specialize (IH ltac:(intros; apply HP; set_solver)).
    destruct (List.find P l.*1) as [b|].
    + destruct IH as (l1 & x & l2 & -> & Hx & Hf & ->). exists ((a, e) :: l1), x, l2. auto.
    + destruct IH as [-> Hf]. auto.
Qed.

Lemma complete_locked_spec fuel irp t l h :
  held t l h -> (length l < fuel)%nat ->
  exists found t', complete_locked fuel irp t = Ok (found, t') /\
    irp_refs t' = irp_refs t /\ timed_out t' = timed_out t /\
    TimerRunning t' = TimerRunning t /\ WatchdogTimer t' = WatchdogTimer t /\
    match found with
    | None => t' = t /\ remove_first (for_irp irp) l = l /\ Forall (fun x => Irp x.2 <> irp) l
    | Some a => exists e, held t' (remove_first (for_irp irp) l) ((a, e) :: h) /\ Exists (fun x => Irp x.2 = irp) l
    end.
Proof.
  intros Ht Hf. unfold complete_locked. pose proof Ht as [Hd _ Hpool _ _].
  assert (forall a e, (a, e) ∈ l -> pool t !! a = Some e) as Hp by (intros a e Hin; apply Hpool; set_solver).
  rewrite (dlist_first _ _ _ Hd). cbn [res_bind].
  set (P := fun a => match pool t !! a with Some e => Irp e =? irp | None => false end).
  rewrite (find_entry_spec _ _ P _ []); [|done| |by rewrite length_fmap].
  2:{ intros a Ha. apply list_elem_of_fmap in Ha as ([b e] & -> & Hin). unfold P. cbn [fst]. by rewrite (Hp b e Hin). }
  pose proof (find_first irp l P ltac:(intros a' e' Hin; unfold P; by rewrite (Hp a' e' Hin))) as Hfind. cbn [res_bind].
  destruct (List.find P l.*1) as [a|].
  - destruct Hfind as (l1 & e & l2 & -> & He & Hn & Hrm). destruct (held_remove _ _ _ _ _ _ Ht) as (m & -> & Hrem).
    cbn [res_bind]. eexists (Some a), _. split; [reflexivity|]. split_and!; try done. exists e. rewrite Hrm. split; [done|].
    apply Exists_app. right. by constructor.
  - destruct Hfind as [Hrm Hall]. by exists None, t.
Qed.

Lemma complete_spec fuel irp t l :
  tracks t l -> (length l < fuel)%nat ->
  exists t', HdIrpTrackerComplete fuel irp t = Ok t' /\ tracks t' (remove_first (for_irp irp) l) /\
    timed_out t' = timed_out t /\ TimerRunning t' = TimerRunning t /\
    ((Forall (fun x => Irp x.2 <> irp) l /\ t' = t) \/
     (Exists (fun x => Irp x.2 = irp) l /\
      irp_refs t' = <[irp := ref_of t irp - 1]> (irp_refs t))).
Proof.
  intros Ht Hf. unfold HdIrpTrackerComplete. pose proof (proj1 (tracks_held _ _) Ht) as Hh.
  destruct (complete_locked_spec fuel irp t l [] Hh Hf) as (found & t1 & -> & Hr & Ho & Hti & _ & Hcase). cbn [res_bind].
  destruct found as [a|].
  - destruct Hcase as (e & Hh1 & Hex). destruct (held_free (ObDereferenceObject irp t1) (remove_first (for_irp irp) l) a e []) as (t2 & -> & Hh2 & Hr2 & Ho2 & Hti2 & _).
    { by apply (held_frame t1 _ _ _ _ Hh1). }
    exists t2. split; [done|]. split; [by apply tracks_held|]. split_and!; [by rewrite Ho2|by rewrite Hti2|]. right. split; [done|].
    rewrite Hr2. cbn [ObDereferenceObject set_refs irp_refs]. unfold ref_of. by rewrite Hr.
  - destruct Hcase as (-> & -> & Hall). exists t. split_and!; auto.
Qed.

Lemma submit_spec a q irp major minor t l :
  tracks t l -> a ∉ head :: l.*1 ->
  exists t', HdIrpTrackerSubmit (Some a) q irp major minor t = Ok t' /\
    tracks t' (l ++ [(a, mkEntry irp (HdQueryTickCountMs q) major minor 0)]) /\
    TimerRunning t' = true /\ timed_out t' = timed_out t /\
    irp_refs t' = <[irp := ref_of t irp + 1]> (irp_refs t).
Proof.
  intros Ht Ha. unfold HdIrpTrackerSubmit. cbv zeta. set (e := submit_entry q irp major minor).
  apply tracks_held in Ht as Hh. assert (pool t !! a = None) as Hnone.
  { destruct (pool t !! a) eqn:E; [|done]. apply (hd_pool _ _ _ Hh) in E. rewrite app_nil_r in E. apply holds_key in E. set_solver. }
  pose proof (held_alloc t l [] a e Hh Hnone ltac:(set_solver)) as H1.
  destruct (held_insert (submit_prepare a e t) l [] a e) as (m & E & H2); [by apply (held_frame _ _ _ _ _ H1)|].
  unfold submit_locked. rewrite E. cbn [res_bind]. apply tracks_held in H2. case_match; eexists; (split; [reflexivity|]); done.
Qed.

Lemma watchdog_entry_spec now t k a e r h :
  held t (k ++ (a, e) :: r) h ->
  exists t', watchdog_entry now a t = Ok t' /\
    held t' ((if expired now e then k else k ++ [(a, e)]) ++ r) h /\
    timed_out t' = timed_out t ++ reports now [(a, e)] /\
    irp_refs t' = irp_refs t /\ TimerRunning t' = TimerRunning t /\ WatchdogTimer t' = WatchdogTimer t.
Proof.
  intros Ht. unfold watchdog_entry. rewrite (proj2 (hd_pool _ _ _ Ht a e)) by set_solver. cbn [of_opt res_bind].
  unfold reports. cbn [List.filter fst snd]. destruct (expired now e).
  - destruct (held_remove _ _ _ _ _ _ Ht) as (m & -> & Hrem). cbn [res_bind List.filter snd].
    set (t1 := set_count _ _) in *.
    destruct (held_free (if Irp e =? 0 then t1 else add_timed_out (Irp e, STATUS_DEVICE_NOT_READY) t1) (k ++ r) a e h)
      as (t2 & -> & Ht2 & Hr & Ho & Hti & Hw).
    { apply (held_frame t1 _ _ _ _ Hrem); by destruct (Irp e =? 0). }
    exists t2. split; [done|]. split; [done|]. rewrite Ho, Hr, Hti, Hw.
    destruct (Irp e =? 0); cbn [negb]; split_and!; try done. by rewrite app_nil_r.
  - exists t. rewrite <- app_assoc. split_and!; try done. by rewrite app_nil_r.
Qed.

Lemma reports_app now l1 l2 : reports now (l1 ++ l2) = reports now l1 ++ reports now l2.
Proof. unfold reports. by rewrite !List.filter_app, fmap_app. Qed.

(** The scan, with the part of the ring already passed in [k] and the part
    still ahead in [r]. *)
Lemma watchdog_scan_spec now h r : forall fuel k t next,
  held t (k ++ r) h -> (length r < fuel)%nat ->
  (r <> [] -> next = default head (r.*1 !! 1%nat)) ->
  exists t', watchdog_scan fuel now (default head (r.*1 !! 0%nat)) next t = Ok t' /\
    held t' (k ++ List.filter (alive now) r) h /\
    timed_out t' = timed_out t ++ reports now r /\
    irp_refs t' = irp_refs t /\ TimerRunning t' = TimerRunning t /\ WatchdogTimer t' = WatchdogTimer t.
Proof.
  induction r as [|[a e] r IH]; intros fuel k t next Ht Hf Hn;
    (destruct fuel as [|f]; [simpl in Hf; lia|]).
  - simpl. rewrite Z.eqb_refl. exists t. unfold reports. simpl. rewrite !app_nil_r in *. done.
  - rewrite fmap_cons. cbn [lookup list_lookup default watchdog_scan fst].
    pose proof (hd_ring _ _ _ Ht) as Hd. cbn [from_option id].
    rewrite (dlist_not_head _ _ _ a Hd) by (rewrite fmap_app; set_solver).
    destruct (watchdog_entry_spec now t k a e r h Ht) as (t1 & -> & Ht1 & Ho1 & Hr1 & Hti1 & Hw1).
    cbn [res_bind]. rewrite (Hn ltac:(done)). rewrite fmap_cons.
    change (((a, e).1 :: r.*1) !! 1%nat) with (r.*1 !! 0%nat).
    set (k1 := if expired now e then k else k ++ [(a, e)]) in *.
    assert (exists next', Flink (links t1) (default head (r.*1 !! 0%nat)) = Ok next' /\
              (r <> [] -> next' = default head (r.*1 !! 1%nat))) as (next' & -> & Hn').
    { pose proof (hd_ring _ _ _ Ht1) as Hd1. destruct r as [|[b x] r].
      - exists (default head (k1.*1 !! 0%nat)). split; [|done]. simpl.
        rewrite app_nil_r in Hd1. by apply dlist_first.
      - exists (default head (r.*1 !! 0%nat)). split; [|done].
        rewrite fmap_app, fmap_cons in Hd1. by apply (dlist_next _ _ _ _ _ Hd1). }
    cbn [res_bind]. destruct (IH f k1 t1 next' Ht1 ltac:(simpl in Hf; lia) Hn')
      as (t' & -> & Ht' & Ho' & Hr' & Hti' & Hw').
    exists t'. split; [done|]. split_and!; [| |congruence..].
    + unfold k1 in Ht'. cbn [List.filter]. unfold alive at 1. cbn [snd].
      destruct (expired now e); [done|]. by rewrite <- app_assoc in Ht'.
    + rewrite Ho', Ho1, <- app_assoc, <- reports_app. done.
Qed.

Lemma watchdog_locked_spec fuel now t l h :
  held t l h -> (length l < fuel)%nat ->
  exists t', watchdog_locked fuel now t = Ok t' /\ held t' (List.filter (alive now) l) h /\
    timed_out t' = timed_out t ++ reports now l /\ irp_refs t' = irp_refs t /\
    TimerRunning t' = TimerRunning t /\ WatchdogTimer t' = WatchdogTimer t.
Proof.
  intros Ht Hf. unfold watchdog_locked. pose proof (hd_ring _ _ _ Ht) as Hd. rewrite (dlist_first _ _ _ Hd). cbn [res_bind].
  assert (exists next, Flink (links t) (default head (l.*1 !! 0%nat)) = Ok next /\
            (l <> [] -> next = default head (l.*1 !! 1%nat))) as (next & -> & Hn).
  { destruct l as [|[b x] r].
    - exists head. split; [|done]. by apply (dlist_first _ _ _ Hd).
    - exists (default head (r.*1 !! 0%nat)). split; [|done].
      rewrite fmap_cons in Hd. by apply (dlist_next _ _ [] _ _ Hd). }
  cbn [res_bind]. by apply (watchdog_scan_spec now h l fuel [] t next Ht Hf Hn).
Qed.

Lemma watchdog_spec fuel q t l :
  tracks t l -> (length l < fuel)%nat ->
  let now := HdQueryTickCountMs q in
  exists t', HdIrpTrackerWatchdog fuel q t = Ok t' /\
    tracks t' (List.filter (alive now) l) /\
    timed_out t' = timed_out t ++ reports now l /\ irp_refs t' = irp_refs t /\
    TimerRunning t' = (if 0 <? ActiveCount t' then TimerRunning t else false) /\
    (0 < ActiveCount t' -> WatchdogTimer t' = scan_timer).
Proof.
  intros Ht Hf now. unfold HdIrpTrackerWatchdog. fold now. apply tracks_held in Ht.
  destruct (watchdog_locked_spec fuel now t l [] Ht Hf) as (t1 & -> & Ht1 & Ho1 & Hr1 & Hti1 & _). cbn [res_bind].
  apply tracks_held in Ht1.
  destruct (0 <? ActiveCount t1) eqn:E; eexists; (split; [reflexivity|]);
    cbn [ActiveCount TimerRunning WatchdogTimer arm_timer set_running set_timer timed_out irp_refs]; rewrite ?E.
  - split_and!; try done.
  - split_and!; try done. intros ?. apply Z.ltb_ge in E. lia.
Qed.

(** ** Reference counts *)

Definition count_irp (irp : Z) (l : list tracked) : nat := length (List.filter (for_irp irp) l).
Definition count_reports (irp : Z) (o : list (Z * Z)) : nat :=
  length (List.filter (fun x => x.1 =? irp) o).

Lemma count_remove_same irp l :
  Exists (fun x => Irp x.2 = irp) l ->
  count_irp irp l = S (count_irp irp (remove_first (for_irp irp) l)).
Proof.
  induction 1 as [x l Hx|x l Hx IH]; unfold count_irp in *; simpl.
  - assert (for_irp irp x = true) as -> by (unfold for_irp; rewrite Hx; apply Z.eqb_refl). done.
  - destruct (for_irp irp x) eqn:E; simpl; [done|]. by rewrite E.
Qed.

Lemma count_remove_other irp irp' l :
  irp <> irp' -> count_irp irp' (remove_first (for_irp irp) l) = count_irp irp' l.
Proof.
  intros Hne. unfold count_irp. induction l as [|x l IH]; simpl; [done|].
  destruct (for_irp irp x) eqn:E.
  - replace (for_irp irp' x) with false; [done|]. unfold for_irp in *.
    symmetry. apply Z.eqb_neq. apply Z.eqb_eq in E. congruence.
  - simpl. destruct (for_irp irp' x); simpl; by rewrite IH.
Qed.

Lemma count_watchdog now irp l :
  irp <> 0 ->
  (count_irp irp (List.filter (alive now) l) + count_reports irp (reports now l))%nat = count_irp irp l.
Proof.
  intros Hne. induction l as [|x l IH]; [done|].
  change (x :: l) with ([x] ++ l). rewrite reports_app, List.filter_app.
  unfold count_irp, count_reports in *. rewrite !List.filter_app, !length_app.
  enough (length (List.filter (for_irp irp) (List.filter (alive now) [x])) +
          length (List.filter (fun y : Z * Z => (y.1 =? irp)%Z) (reports now [x])) =
          length (List.filter (for_irp irp) [x]))%nat by lia.
  unfold reports, alive. simpl. destruct (expired now x.2); simpl; [|lia].
  unfold for_irp. destruct (Z.eqb_spec (Irp x.2) 0) as [E|E]; simpl.
  - destruct (Z.eqb_spec (Irp x.2) irp); [congruence|done].
  - destruct (Irp x.2 =? irp); done.
Qed.

(** ** The tracker as a transition system

    Any number of calls of the three operations, on several processors: a
    thread is a call at the step it takes next. The allocator returns a block
    that is not in use and never more than 2^32 - 1 of them; the loops get more
    fuel than there are blocks. A thread that has taken a block off the ring, or
    not yet put it there, carries the block, which no other thread can see.
    The test of [ActiveCount] reads it while another thread may be inside its
    locked section; whether the value read is positive is the same as before or
    after that section. *)
Inductive thread : Type :=
| SubmitCall (irp major minor : Z)
| SubmitInsert (x : tracked)
| SubmitTest
| SubmitArm
| SubmitMark
| CompleteCall (irp : Z)
| CompleteDeref (irp : Z) (x : tracked)
| CompleteFree (x : tracked)
| WatchCall
| WatchScan (now : Z)
| WatchTest
| WatchArm
| WatchClear
| Returned.

Definition thread_step (alloc : option Z) (q : Qpc) (p : thread) (t : HD_IRP_TRACKER) : res (HD_IRP_TRACKER * thread) :=
  match p with
  | SubmitCall irp major minor =>
      match alloc with
      | None => Ok (t, Returned)
      | Some entry => let e := submit_entry q irp major minor in Ok (submit_prepare entry e t, SubmitInsert (entry, e))
      end
  | SubmitInsert x => let* t := submit_locked x.1 t in Ok (t, SubmitTest)
  | SubmitTest => Ok (t, if TimerRunning t then Returned else SubmitArm)
  | SubmitArm => Ok (arm_timer t, SubmitMark)
  | SubmitMark => Ok (set_running true t, Returned)
  | CompleteCall irp =>
      let* (found, t) := complete_locked (S (size (pool t))) irp t in
      match found with
      | None => Ok (t, Returned)
      | Some a => let* e := of_opt (pool t !! a) in Ok (t, CompleteDeref irp (a, e))
      end
  | CompleteDeref irp x => Ok (ObDereferenceObject irp t, CompleteFree x)
  | CompleteFree x => let* t := free_block x.1 t in Ok (t, Returned)
  | WatchCall => Ok (t, WatchScan (HdQueryTickCountMs q))
  | WatchScan now => let* t := watchdog_locked (S (size (pool t))) now t in Ok (t, WatchTest)
  | WatchTest => Ok (t, if 0 <? ActiveCount t then WatchArm else WatchClear)
  | WatchArm => Ok (arm_timer t, Returned)
  | WatchClear => Ok (set_running false t, Returned)
  | Returned => Ok (t, Returned)
  end.

Definition is_call (p : thread) : bool :=
  match p with SubmitCall _ _ _ | CompleteCall _ | WatchCall => true | _ => false end.
Definition fresh_block (alloc : option Z) (t : HD_IRP_TRACKER) : Prop :=
  match alloc with
  | Some a => pool t !! a = None /\ a <> head /\ Z.of_nat (size (pool t)) + 1 < 2 ^ 32
  | None => True
  end.

Inductive tracker_step : HD_IRP_TRACKER * list thread -> HD_IRP_TRACKER * list thread -> Prop :=
| step_call t ps p : is_call p = true -> tracker_step (t, ps) (t, ps ++ [p])
| step_thread t ps1 p ps2 alloc q t' p' :
    fresh_block alloc t -> thread_step alloc q p t = Ok (t', p') ->
    tracker_step (t, ps1 ++ p :: ps2) (t', ps1 ++ p' :: ps2).

(** The block a thread carries, and the packet it holds a reference on. *)
Definition carries (p : thread) : list tracked :=
  match p with SubmitInsert x | CompleteDeref _ x | CompleteFree x => [x] | _ => [] end.
Definition pins (p : thread) : list Z :=
  match p with SubmitInsert x => [Irp x.2] | CompleteDeref irp _ => [irp] | _ => [] end.
Definition about_to_arm (p : thread) : Prop := p = SubmitTest \/ p = SubmitArm.

Definition pinned (irp : Z) (p : thread) : nat := length (List.filter (Z.eqb irp) (pins p)).
Definition count_pins (irp : Z) (ps : list thread) : nat := length (List.filter (Z.eqb irp) (ps ≫= pins)).

(** What holds between the steps. *)
Record tracker_inv (t : HD_IRP_TRACKER) (ps : list thread) (l : list tracked) : Prop := {
  ti_held : held t l (ps ≫= carries);
  ti_size : Z.of_nat (size (pool t)) < 2 ^ 32;
  ti_refs : forall irp, irp <> 0 ->
    ref_of t irp = Z.of_nat (count_irp irp l + count_pins irp ps + count_reports irp (timed_out t));
  ti_running : TimerRunning t = true -> WatchdogTimer t = scan_timer;
  ti_mark : SubmitMark ∈ ps -> WatchdogTimer t = scan_timer;
  ti_watched : l <> [] -> WatchdogTimer t = scan_timer \/ Exists about_to_arm ps;
}.

Lemma held_size t l h : held t l h -> size (pool t) = (length l + length h)%nat.
Proof.
  intros [_ H1 H2 _ _]. rewrite <- length_app. apply (heap_size _ _ H2). by apply NoDup_cons in H1 as [_ ?].
Qed.

Lemma count_snoc irp l x :
  count_irp irp (l ++ [x]) = (count_irp irp l + if for_irp irp x then 1 else 0)%nat.
Proof.
  unfold count_irp. rewrite List.filter_app, length_app. simpl. by destruct (for_irp irp x).
Qed.

Lemma count_pins_at irp ps1 p ps2 :
  count_pins irp (ps1 ++ p :: ps2) = (count_pins irp (ps1 ++ ps2) + pinned irp p)%nat.
Proof. unfold count_pins, pinned. rewrite !bind_app, bind_cons, !List.filter_app, !length_app. lia. Qed.

Lemma carries_at ps1 p ps2 : (ps1 ++ p :: ps2) ≫= carries ≡ₚ carries p ++ ((ps1 ++ ps2) ≫= carries).
Proof. rewrite !bind_app, bind_cons, !app_assoc. apply Permutation_app_tail, Permutation_app_comm. Qed.

Lemma ref_of_insert t irp irp' v r :
  irp_refs t = <[irp := v]> r -> ref_of t irp' = if decide (irp = irp') then v else default 0 (r !! irp').
Proof. intros E. unfold ref_of. rewrite E, lookup_insert. by case_decide. Qed.

Lemma inv_call t ps l p : is_call p = true -> tracker_inv t ps l -> tracker_inv t (ps ++ [p]) l.
Proof.
  intros Hp [H1 H2 H3 H4 H5 H6]. assert (carries p = [] /\ pins p = [] /\ p <> SubmitMark) as (Ec & Ep & Hm) by (by destruct p).
  split; try done.
  - rewrite bind_app, bind_singleton, Ec, app_nil_r. done.
  - intros irp Hi. rewrite (H3 irp Hi). unfold count_pins. rewrite bind_app, bind_singleton, Ep, app_nil_r. done.
  - set_solver.
  - intros Hl. destruct (H6 Hl); [by left|right]. apply Exists_app. by left.
Qed.

(** A step of one thread, when it changes at most what the new invariant allows. *)
Lemma inv_thread t t' ps1 p p' ps2 l l' :
  tracker_inv t (ps1 ++ p :: ps2) l ->
  held t' l' (carries p' ++ ((ps1 ++ ps2) ≫= carries)) ->
  Z.of_nat (size (pool t')) < 2 ^ 32 ->
  (forall irp, irp <> 0 ->
     ref_of t' irp - Z.of_nat (count_irp irp l' + pinned irp p' + count_reports irp (timed_out t')) =
     ref_of t irp - Z.of_nat (count_irp irp l + pinned irp p + count_reports irp (timed_out t))) ->
  (WatchdogTimer t = scan_timer -> WatchdogTimer t' = scan_timer) ->
  (TimerRunning t' = true -> TimerRunning t = true \/ WatchdogTimer t' = scan_timer) ->
  (p' = SubmitMark -> WatchdogTimer t' = scan_timer) ->
  (l' <> [] -> WatchdogTimer t' = scan_timer \/ about_to_arm p' \/ l <> [] /\ ~ about_to_arm p) ->
  tracker_inv t' (ps1 ++ p' :: ps2) l'.
Proof.
  intros [H1 H2 H3 H4 H5 H6] Hh Hs Hr Hw Ht Hm Ha. split; try done.
  - eapply held_frame; [exact Hh|done..|]. symmetry. apply carries_at.
  - intros irp Hi. specialize (H3 irp Hi). specialize (Hr irp Hi). rewrite count_pins_at in *. lia.
  - intros E. destruct (Ht E); auto.
  - intros Hin. rewrite elem_of_app, elem_of_cons in Hin. destruct Hin as [?|[E|?]]; [|by apply Hm|]; apply Hw, H5; set_solver.
  - intros Hl. destruct (Ha Hl) as [?|[?|[Hl0 Hn]]]; [by left|right; rewrite Exists_app, Exists_cons; tauto|].
    destruct (H6 Hl0) as [?|He]; [left; auto|right]. rewrite Exists_app, Exists_cons in *. tauto.
Qed.

(** The ring part of the invariant, seen from one thread. *)
Lemma inv_held t ps1 p ps2 l : tracker_inv t (ps1 ++ p :: ps2) l -> held t l (carries p ++ ((ps1 ++ ps2) ≫= carries)).
Proof. intros [H _ _ _ _ _]. eapply held_frame; [exact H|done..|apply carries_at]. Qed.

Lemma inv_fuel t ps l : tracker_inv t ps l -> (length l < S (size (pool t)))%nat.
Proof. intros [H _ _ _ _ _]. rewrite (held_size _ _ _ H). lia. Qed.

(** A schedule, run: the threads in the order given. *)
Inductive act : Type :=
| Call (p : thread)
| Run (i : nat) (alloc : option Z) (q : Qpc).

Definition fresh_blockb (alloc : option Z) (t : HD_IRP_TRACKER) : bool :=
  match alloc with
  | Some a => bool_decide (pool t !! a = None) && negb (a =? head) && (Z.of_nat (size (pool t)) + 1 <? 2 ^ 32)
  | None => true
  end.
Definition run_act (c : act) (s : HD_IRP_TRACKER * list thread) : option (HD_IRP_TRACKER * list thread) :=
  match c with
  | Call p => if is_call p then Some (s.1, s.2 ++ [p]) else None
  | Run i alloc q =>
      match s.2 !! i with
      | Some p => if fresh_blockb alloc s.1 then
                    match thread_step alloc q p s.1 with Ok (t, p') => Some (t, <[i:=p']> s.2) | _ => None end
                  else None
      | None => None
      end
  end.
Fixpoint run_acts (cs : list act) (s : HD_IRP_TRACKER * list thread) : option (HD_IRP_TRACKER * list thread) :=
  match cs with
  | [] => Some s
  | c :: r => match run_act c s with Some s' => run_acts r s' | None => None end
  end.

Lemma run_acts_reach cs s s' : run_acts cs s = Some s' -> rtc tracker_step s s'.
Proof.
  revert s. induction cs as [|c cs IH]; intros s; cbn [run_acts]; [intros [= <-]; apply rtc_refl|].
  destruct (run_act c s) as [s1|] eqn:E; [|done]. intros H. eapply rtc_l; [|by apply IH]. destruct s as [t ps].
  destruct c as [p|i alloc q]; cbn [run_act fst snd] in E.
  - destruct (is_call p) eqn:Ec; [|done]. injection E as <-. by constructor.
  - destruct (ps !! i) as [p|] eqn:Ei; [|done]. destruct (fresh_blockb alloc t) eqn:Ef; [|done].
    destruct (thread_step alloc q p t) as [[t' p']| |] eqn:Es; try done. injection E as <-.
    rewrite <- (take_drop_middle _ _ _ Ei) at 1. rewrite insert_take_drop by (by apply lookup_lt_Some in Ei).
    econstructor; [|exact Es]. destruct alloc as [a|]; [|done]. cbn in *.
    apply andb_true_iff in Ef as [[Ef1 Ef2]%andb_true_iff Ef3]. apply bool_decide_eq_true in Ef1. apply negb_true_iff, Z.eqb_neq in Ef2.
    apply Z.ltb_lt in Ef3. done.
Qed.

(** The steps that leave the ring alone. *)
Definition is_local (p : thread) : bool :=
  match p with SubmitCall _ _ _ | SubmitInsert _ | CompleteCall _ | CompleteFree _ | WatchScan _ => false | _ => true end.

Lemma local_step t ps1 p ps2 l alloc q :
  is_local p = true -> tracker_inv t (ps1 ++ p :: ps2) l ->
  exists t' p', thread_step alloc q p t = Ok (t', p') /\ tracker_inv t' (ps1 ++ p' :: ps2) l.
Proof.
  intros Hp Hi. pose proof (inv_held _ _ _ _ _ Hi) as Hh. pose proof (ti_size _ _ _ Hi) as Hs.
  destruct p; try done; cbn [thread_step]; eexists _, _; (split; [reflexivity|]).
  - destruct (TimerRunning t) eqn:E; (eapply inv_thread; [exact Hi|eapply held_frame; [exact Hh|done..]|done|done|done|auto|done|]).
    + intros _. left. by apply (ti_running _ _ _ Hi).
    + intros _. right. left. by right.
  - eapply inv_thread; [exact Hi|eapply held_frame; [exact Hh|done..]|done|done|done|by right|done|by left].
  - eapply inv_thread; [exact Hi|eapply held_frame; [exact Hh|done..]|done|done|done| |done|].
    + intros _. right. apply (ti_mark _ _ _ Hi). set_solver.
    + intros Hl. right. right. split; [done|]. by intros [].
  - eapply inv_thread; [exact Hi|eapply held_frame; [exact Hh|done..]|done| |done|auto|done|].
    + intros i Hn. rewrite (ref_of_insert (ObDereferenceObject irp t) irp i (ref_of t irp - 1) (irp_refs t) eq_refl). unfold pinned. cbn [timed_out ObDereferenceObject set_refs pins List.filter].
      fold (ref_of t i). destruct (Z.eqb_spec i irp) as [->|]; [rewrite decide_True by done|rewrite decide_False by done]; cbn [length]; lia.
    + intros Hl. right. right. split; [done|]. by intros [].
  - eapply inv_thread; [exact Hi|eapply held_frame; [exact Hh|done..]|done|done|done|auto|done|].
    intros Hl. right. right. split; [done|]. by intros [].
  - destruct (0 <? ActiveCount t); (eapply inv_thread; [exact Hi|eapply held_frame; [exact Hh|done..]|done|done|done|auto|done|]);
      (intros Hl; right; right; split; [done|]; by intros []).
  - eapply inv_thread; [exact Hi|eapply held_frame; [exact Hh|done..]|done|done|done|auto|done|by left].
  - eapply inv_thread; [exact Hi|eapply held_frame; [exact Hh|done..]|done|done|done|done|done|].
    intros Hl. right. right. split; [done|]. by intros [].
  - eapply inv_thread; [exact Hi|eapply held_frame; [exact Hh|done..]|done|done|done|auto|done|].
    intros Hl. right. right. split; [done|]. by intros [].
Qed.

Lemma prepare_step t ps1 irp major minor ps2 l alloc q :
  fresh_block alloc t -> tracker_inv t (ps1 ++ SubmitCall irp major minor :: ps2) l ->
  exists t' p', thread_step alloc q (SubmitCall irp major minor) t = Ok (t', p') /\ tracker_inv t' (ps1 ++ p' :: ps2) l.
Proof.
  intros Hf Hi. pose proof (inv_held _ _ _ _ _ Hi) as Hh. cbn [thread_step carries app] in *.
  destruct alloc as [a|]; eexists _, _; (split; [reflexivity|]).
  - destruct Hf as (Hn & Ha & Hs). set (e := submit_entry q irp major minor).
    eapply inv_thread; [exact Hi|eapply held_frame; [exact (held_alloc _ _ _ a e Hh Hn Ha)|done..]| | |done|auto|done|].
    + cbn. rewrite map_size_insert_None by done. lia.
    + intros i Hi0. rewrite (ref_of_insert (submit_prepare a e t) irp i (ref_of t irp + 1) (irp_refs t) eq_refl). fold (ref_of t i). unfold pinned.
      cbn [timed_out submit_prepare ObReferenceObject alloc_block set_refs pins List.filter].
      change (Irp (a, e).2) with irp. destruct (Z.eqb_spec i irp) as [->|]; [rewrite decide_True by done|rewrite decide_False by done]; cbn [length]; lia.
    + intros Hl. right. right. split; [done|]. by intros [].
  - eapply inv_thread; [exact Hi|exact Hh|apply (ti_size _ _ _ Hi)|done|done|auto|done|].
    intros Hl. right. right. split; [done|]. by intros [].
Qed.

Lemma insert_step t ps1 x ps2 l alloc q :
  tracker_inv t (ps1 ++ SubmitInsert x :: ps2) l ->
  exists t' p', thread_step alloc q (SubmitInsert x) t = Ok (t', p') /\ tracker_inv t' (ps1 ++ p' :: ps2) (l ++ [x]).
Proof.
  intros Hi. pose proof (inv_held _ _ _ _ _ Hi) as Hh. destruct x as [a e]. cbn [thread_step carries app fst] in *.
  destruct (held_insert _ _ _ _ _ Hh) as (m & E & Hm). unfold submit_locked. rewrite E. cbn [res_bind]. eexists _, _.
  split; [reflexivity|]. eapply inv_thread; [exact Hi|exact Hm|apply (ti_size _ _ _ Hi)| |done|auto|done|].
  - intros i _. rewrite count_snoc. unfold for_irp, pinned. cbn [pins snd List.filter timed_out set_count set_links].
    change (ref_of (set_count _ _) i) with (ref_of t i). rewrite (Z.eqb_sym (Irp e) i). destruct (i =? Irp e); cbn; lia.
  - intros _. right. left. by left.
Qed.

Lemma count_remove_length irp l :
  Exists (fun x => Irp x.2 = irp) l -> length l = S (length (remove_first (for_irp irp) l)).
Proof.
  induction 1 as [x l Hx|x l Hx IH]; cbn [remove_first].
  - by rewrite (proj2 (Z.eqb_eq _ _) Hx : for_irp irp x = true).
  - destruct (for_irp irp x); cbn [length]; [done|by rewrite IH].
Qed.

Lemma complete_step t ps1 irp ps2 l alloc q :
  tracker_inv t (ps1 ++ CompleteCall irp :: ps2) l ->
  exists t' p' l', thread_step alloc q (CompleteCall irp) t = Ok (t', p') /\ tracker_inv t' (ps1 ++ p' :: ps2) l'.
Proof.
  intros Hi. pose proof (inv_held _ _ _ _ _ Hi) as Hh. cbn [thread_step carries app] in *.
  destruct (complete_locked_spec (S (size (pool t))) irp t l _ Hh (inv_fuel _ _ _ Hi)) as (found & t1 & E & Hr & Ho & Hti & Hw & Hcase).
  rewrite E. cbn [res_bind]. destruct found as [a|].
  - destruct Hcase as (e & Hh1 & Hex). rewrite (proj2 (hd_pool _ _ _ Hh1 a e)) by set_solver. cbn [of_opt res_bind].
    eexists _, _, _. split; [reflexivity|].
    eapply (inv_thread t t1 _ _ (CompleteDeref irp (a, e))); [exact Hi|exact Hh1| | |by rewrite Hw|rewrite Hti; auto|done|].
    + rewrite (held_size _ _ _ Hh1). pose proof (held_size _ _ _ Hh). pose proof (ti_size _ _ _ Hi).
      pose proof (count_remove_length irp l Hex). cbn [length] in *. unfold tracked in *. lia.
    + intros i Hn. unfold ref_of. rewrite Hr, Ho. unfold pinned. cbn [pins List.filter].
      destruct (Z.eqb_spec i irp) as [->|Hne]; cbn [length].
      * rewrite (count_remove_same irp l Hex). lia.
      * rewrite count_remove_other by done. lia.
    + intros Hl. right. right. split; [|by intros []]. intros ->. by cbn in Hl.
  - destruct Hcase as (-> & _ & _). eexists _, _, l. split; [reflexivity|].
    eapply inv_thread; [exact Hi|exact Hh|apply (ti_size _ _ _ Hi)|done|done|auto|done|].
    intros Hl. right. right. split; [done|]. by intros [].
Qed.

Lemma free_step t ps1 x ps2 l alloc q :
  tracker_inv t (ps1 ++ CompleteFree x :: ps2) l ->
  exists t' p', thread_step alloc q (CompleteFree x) t = Ok (t', p') /\ tracker_inv t' (ps1 ++ p' :: ps2) l.
Proof.
  intros Hi. pose proof (inv_held _ _ _ _ _ Hi) as Hh. destruct x as [a e]. cbn [thread_step carries app fst] in *.
  destruct (held_free _ _ _ _ _ Hh) as (t1 & E & Hh1 & Hr & Ho & Hti & Hw). rewrite E. cbn [res_bind]. eexists _, _.
  split; [reflexivity|]. eapply inv_thread; [exact Hi|exact Hh1| | |by rewrite Hw|rewrite Hti; auto|done|].
  - rewrite (held_size _ _ _ Hh1). pose proof (held_size _ _ _ Hh). pose proof (ti_size _ _ _ Hi). cbn [length] in *. lia.
  - intros i _. unfold ref_of. by rewrite Hr, Ho.
  - intros Hl. right. right. split; [done|]. by intros [].
Qed.

Lemma scan_step t ps1 now ps2 l alloc q :
  tracker_inv t (ps1 ++ WatchScan now :: ps2) l ->
  exists t' p', thread_step alloc q (WatchScan now) t = Ok (t', p') /\
    tracker_inv t' (ps1 ++ p' :: ps2) (List.filter (alive now) l).
Proof.
  intros Hi. pose proof (inv_held _ _ _ _ _ Hi) as Hh. cbn [thread_step carries app] in *.
  destruct (watchdog_locked_spec (S (size (pool t))) now t l _ Hh (inv_fuel _ _ _ Hi)) as (t1 & E & Hh1 & Ho & Hr & Hti & Hw).
  rewrite E. cbn [res_bind]. eexists _, _. split; [reflexivity|].
  eapply inv_thread; [exact Hi|exact Hh1| | |by rewrite Hw|rewrite Hti; auto|done|].
  - rewrite (held_size _ _ _ Hh1). pose proof (held_size _ _ _ Hh). pose proof (ti_size _ _ _ Hi).
    pose proof (List.filter_length_le (alive now) l). unfold tracked in *. lia.
  - intros i Hn. unfold ref_of. rewrite Hr, Ho. pose proof (count_watchdog now i l Hn) as Hc.
    unfold count_reports in *. rewrite List.filter_app, length_app. change (pinned i (WatchScan now)) with 0%nat.
    change (pinned i WatchTest) with 0%nat. lia.
  - intros Hl. right. right. split; [|by intros []]. intros ->. by cbn in Hl.
Qed.

Lemma thread_ok t ps1 p ps2 l alloc q :
  fresh_block alloc t -> tracker_inv t (ps1 ++ p :: ps2) l ->
  exists t' p' l', thread_step alloc q p t = Ok (t', p') /\ tracker_inv t' (ps1 ++ p' :: ps2) l'.
Proof.
  intros Hf Hi. destruct (is_local p) eqn:Hp.
  - destruct (local_step t ps1 p ps2 l alloc q Hp Hi) as (t' & p' & H). by exists t', p', l.
  - destruct p; try done.
    + destruct (prepare_step _ _ _ _ _ _ _ _ q Hf Hi) as (t' & p' & H). by exists t', p', l.
    + destruct (insert_step _ _ _ _ _ alloc q Hi) as (t' & p' & H). by eexists t', p', _.
    + by eapply complete_step.
    + destruct (free_step _ _ _ _ _ alloc q Hi) as (t' & p' & H). by exists t', p', l.
    + destruct (scan_step _ _ _ _ _ alloc q Hi) as (t' & p' & H). by eexists t', p', _.
Qed.

Lemma reachable_inv t0 t ps :
  pool t0 = ∅ -> irp_refs t0 = ∅ -> timed_out t0 = [] ->
  rtc tracker_step (HdIrpTrackerInit t0, []) (t, ps) -> exists l, tracker_inv t ps l.
Proof.
  intros Hp Hr Ho Hs. change (exists l, tracker_inv (t, ps).1 (t, ps).2 l). revert Hs. generalize (t, ps). clear t ps.
  apply (rtc_ind_r (fun s => exists l, tracker_inv s.1 s.2 l)).
  - exists []. cbn [fst snd]. split; try done.
    + split; cbn; try done; [apply dlist_init|repeat constructor; set_solver| |].
      * intros a e. rewrite Hp, lookup_empty. set_solver.
      * intros a Ha. by apply elem_of_nil in Ha.
    + cbn. by rewrite Hp, map_size_empty.
    + intros irp _. unfold ref_of. cbn. by rewrite Hr, Ho, lookup_empty.
    + intros Hin. by apply elem_of_nil in Hin.
  - intros s s' _ Hstep [l Hl]. destruct Hstep as [t1 ps1 p Hc|t1 ps1 p ps2 alloc q t2 p2 Hf E]; cbn [fst snd] in *.
    + exists l. by apply inv_call.
    + destruct (thread_ok _ _ _ _ _ alloc q Hf Hl) as (t' & p' & l' & E' & Hi'). rewrite E in E'. injection E' as <- <-. by exists l'.
Qed.

(** ** Properties *)

(** C12. Completing a tracked packet never touches freed memory, needs one more
    loop iteration than there are tracked packets, and removes exactly the
    oldest entry of that packet, freeing its block and dropping one reference;
    an unknown packet leaves the tracker as it was. *)
Theorem tracker_complete_refines fuel irp t l :
  tracks t l -> (length l < fuel)%nat ->
  exists t', HdIrpTrackerComplete fuel irp t = Ok t' /\ tracks t' (remove_first (for_irp irp) l) /\
    ((Forall (fun x => Irp x.2 <> irp) l /\ t' = t) \/
     (Exists (fun x => Irp x.2 = irp) l /\ ref_of t' irp = ref_of t irp - 1)).
Proof.
  intros Ht Hf. destruct (complete_spec fuel irp t l Ht Hf) as (t' & He & Ht' & _ & _ & Hc).
  exists t'. split; [done|]. split; [done|]. destruct Hc as [Hc|[Hex Hr]]; [by left|right].
  split; [done|]. rewrite (ref_of_insert _ _ irp _ _ Hr). by rewrite decide_True.
Qed.

(** C1. One watchdog scan, although it frees blocks while walking the ring,
    never follows a freed node: it removes exactly the entries whose unsigned age
    exceeds a minute, keeps the others in order, reports every removed packet
    once as "device not ready", and re-arms the timer when anything is left. *)
Theorem tracker_watchdog_refines fuel q t l :
  tracks t l -> (length l < fuel)%nat ->
  let now := HdQueryTickCountMs q in
  exists t', HdIrpTrackerWatchdog fuel q t = Ok t' /\
    tracks t' (List.filter (alive now) l) /\
    timed_out t' = timed_out t ++ reports now l /\
    TimerRunning t' = (if 0 <? ActiveCount t' then TimerRunning t else false) /\
    (0 < ActiveCount t' -> WatchdogTimer t' = scan_timer).
Proof.
  intros Ht Hf now. destruct (watchdog_spec fuel q t l Ht Hf) as (t' & He & Ht' & Ho & _ & Hr & Hw).
  exists t'. split_and!; done.
Qed.

(** C16. Any number of submissions, completions and watchdog calls running at the
    same time, interleaved at every access they make outside the spin lock: no
    call touches a freed block; the blocks in use are the ring and the blocks the
    calls carry; [ActiveCount] is the length of the ring; the references
    on a packet are one per tracked entry, one per call that has taken and not
    yet returned its own, and one per time-out, which never gives its
    reference back; and while a packet is tracked the watchdog timer is set, or a
    submission is still on its way to set it. The flag [TimerRunning] promises
    less: it is true only when the timer is set, but a watchdog that found the ring
    empty may clear it after the next submission has read it, and the timer, which is
    periodic, stays set while the flag is false. *)
Theorem tracker_reachable_inv t0 t ps :
  pool t0 = ∅ -> irp_refs t0 = ∅ -> timed_out t0 = [] ->
  rtc tracker_step (HdIrpTrackerInit t0, []) (t, ps) ->
  (exists l, held t l (ps ≫= carries) /\ ActiveCount t = Z.of_nat (length l) /\
    (forall irp, irp <> 0 ->
       ref_of t irp = Z.of_nat (count_irp irp l + count_pins irp ps + count_reports irp (timed_out t))) /\
    (l <> [] -> WatchdogTimer t = scan_timer \/ Exists about_to_arm ps) /\
    (TimerRunning t = true -> WatchdogTimer t = scan_timer)) /\
  (forall p alloc q, p ∈ ps -> fresh_block alloc t -> exists t' p', thread_step alloc q p t = Ok (t', p')).
Proof.
  intros Hp Hr Ho Hs. destruct (reachable_inv t0 t ps Hp Hr Ho Hs) as [l Hi]. split.
  - exists l. pose proof Hi as [H1 H2 H3 H4 H5 H6]. split_and!; try done. rewrite (hd_count _ _ _ H1). unfold u32. apply wrap_small.
    pose proof (held_size _ _ _ H1). lia.
  - intros p alloc q Hin Hf. apply list_elem_of_split in Hin as (ps1 & ps2 & ->).
    destruct (thread_ok _ _ _ _ _ alloc q Hf Hi) as (t' & p' & _ & E & _). by exists t', p'.
Qed.

(** The age test is the intended one for packets submitted before the
    watchdog read the clock; a packet submitted later (the clock is read before
    the lock is taken) has a wrapped age and is always expired at once. *)
Theorem watchdog_clock_race now e :
  0 <= now < 2 ^ 64 -> 0 <= SubmitTimestamp e < 2 ^ 64 ->
  (SubmitTimestamp e <= now -> expired now e = (60000 <? now - SubmitTimestamp e)) /\
  (now < SubmitTimestamp e < now + 2 ^ 64 - 60000 -> expired now e = true).
Proof.
  intros Hn Hs. unfold expired, HD_IRP_TIMEOUT_SEC. split.
  - intros Hle. unfold u64. by rewrite wrap_small by lia.
  - intros Hlt. apply Z.ltb_lt. mach.
Qed.
End Tracker.

(** ** Witnesses *)

Definition tracker0 : HD_IRP_TRACKER := mkTracker (mkLinks ∅ ∅) ∅ 0 false None ∅ [].

(** Two packets tracked at addresses 10 and 20, at 1 and 5 seconds. *)
Definition ok_or (t0 : HD_IRP_TRACKER) (r : res HD_IRP_TRACKER) : HD_IRP_TRACKER :=
  match r with
  | Ok t => t
  | _ => t0
  end.
Definition tracker1 : HD_IRP_TRACKER :=
  ok_or tracker0 (HdIrpTrackerSubmit 8 (Some 10) (mkQpc 1000 1000) 100 3 0 (HdIrpTrackerInit 8 tracker0)).
Definition tracker2 : HD_IRP_TRACKER :=
  ok_or tracker0 (HdIrpTrackerSubmit 8 (Some 20) (mkQpc 5000 1000) 200 4 0 tracker1).

Definition entries2 : list tracked := [(10, mkEntry 100 1000 3 0 0); (20, mkEntry 200 5000 4 0 0)].

Lemma tracks_tracker2 : tracks 8 tracker2 entries2.
Proof.
  destruct (submit_spec 8 10 (mkQpc 1000 1000) 100 3 0 (HdIrpTrackerInit 8 tracker0) [])
    as (t1 & H1 & Ht1 & _).
  { split; [apply dlist_init|]. split; [|done]. intros a e. simpl. rewrite lookup_empty. set_solver. }
  { set_solver. }
  destruct (submit_spec 8 20 (mkQpc 5000 1000) 200 4 0 t1 _ Ht1) as (t2 & H2 & Ht2 & _).
  { set_solver. }
  unfold tracker2, tracker1. rewrite H1. cbn [ok_or]. rewrite H2. exact Ht2.
Qed.

Lemma tracker_complete_refines_witness :
  exists t', HdIrpTrackerComplete 8 3 200 tracker2 = Ok t' /\
    tracks 8 t' (remove_first (for_irp 200) entries2) /\
    ((Forall (fun x => Irp x.2 <> 200) entries2 /\ t' = tracker2) \/
     (Exists (fun x => Irp x.2 = 200) entries2 /\ ref_of t' 200 = ref_of tracker2 200 - 1)).
Proof. apply tracker_complete_refines; [apply tracks_tracker2 | simpl; lia]. Defined.

Lemma tracker_watchdog_refines_witness :
  let now := HdQueryTickCountMs (mkQpc 62000 1000) in
  exists t', HdIrpTrackerWatchdog 8 3 (mkQpc 62000 1000) tracker2 = Ok t' /\
    tracks 8 t' (List.filter (alive now) entries2) /\
    timed_out t' = timed_out tracker2 ++ reports now entries2 /\
    TimerRunning t' = (if 0 <? ActiveCount t' then TimerRunning tracker2 else false) /\
    (0 < ActiveCount t' -> WatchdogTimer t' = scan_timer).
Proof. apply tracker_watchdog_refines; [apply tracks_tracker2 | simpl; lia]. Defined.

(** The race on the flag: packet 100 is submitted and completed, a watchdog finds
    the ring empty and is about to clear the flag, packet 200 is submitted and
    sees the flag still set, and then the flag is cleared. *)
Definition race : list act :=
  let q := mkQpc 1000 1000 in
  [Call (SubmitCall 100 3 0); Run 0 (Some 10) q; Run 0 None q; Run 0 None q; Run 0 None q; Run 0 None q;
   Call (CompleteCall 100); Run 1 None q; Run 1 None q; Run 1 None q;
   Call WatchCall; Run 2 None q; Run 2 None q; Run 2 None q;
   Call (SubmitCall 200 4 0); Run 3 (Some 20) q; Run 3 None q; Run 3 None q; Run 2 None q].
Definition raced : HD_IRP_TRACKER * list thread :=
  default (tracker0, []) (run_acts 8 race (HdIrpTrackerInit 8 tracker0, [])).

(** All four calls have returned, a packet is tracked, the flag is false and the
    timer is set. *)
Lemma tracker_reachable_inv_witness :
  raced.2 = [Returned; Returned; Returned; Returned] /\ TimerRunning raced.1 = false /\ WatchdogTimer raced.1 = scan_timer /\
  exists l, held 8 raced.1 l [] /\ length l = 1%nat.
Proof.
  split; [vm_compute; reflexivity|]. split; [vm_compute; reflexivity|]. split; [vm_compute; reflexivity|].
  destruct (tracker_reachable_inv 8 tracker0 raced.1 raced.2) as [(l & Hh & Hc & _) _]; [reflexivity..| |].
  - apply (run_acts_reach 8 race). vm_compute. reflexivity.
  - exists l. split; [exact Hh|]. apply Nat2Z.inj. rewrite <- Hc. vm_compute. reflexivity.
Defined.

Lemma watchdog_clock_race_witness :
  (60999 <= 61000 -> expired 61000 (mkEntry 1 60999 3 0 0) = (60000 <? 61000 - 60999)) /\
  (60999 < 61000 < 60999 + 2 ^ 64 - 60000 -> expired 60999 (mkEntry 1 61000 3 0 0) = true).
Proof.
  split.
  - apply (watchdog_clock_race 61000 (mkEntry 1 60999 3 0 0)); simpl; lia.
  - apply (watchdog_clock_race 60999 (mkEntry 1 61000 3 0 0)); simpl; lia.
Defined.
