(* ===== verification/Crc32c.v ===== *)
(** * CRC-32C of the boot diagnostic tool (src/tools/bootdiag/main.c)

    The table-driven checksum that guards the partition table check and the
    probe frames, its static table included, against a bit-by-bit reference. *)

From S2P Require Import Prelude.

Definition POLY : Z := 0x82F63B78.

(** One turn of the inner loop of [crc32c_init_table]. *)
Definition crc_bit (crc : Z) : Z :=
  if negb (Z.land crc 1 =? 0) then Z.lxor (Z.shiftr crc 1) POLY else Z.shiftr crc 1.

Definition table_entry (i : Z) : Z := Nat.iter 8 crc_bit i.

(** The two static variables of main.c. *)
Record CrcStatic : Type := mkCrcStatic {
  crc32c_table : list Z;
  crc32c_table_init : bool;
}.

Definition full_table : list Z := table_entry <$> seqZ 0 256.

Definition crc32c_init_table (st : CrcStatic) : CrcStatic :=
  if crc32c_table_init st then st else mkCrcStatic full_table true.

Definition crc_step (table : list Z) (crc b : Z) : Z :=
  Z.lxor (Z.shiftr crc 8) (table !!! Z.to_nat (Z.land (Z.lxor crc b) 0xFF)).

Definition bootdiag_compute_crc32c (data : list Z) (st : CrcStatic) : Z * CrcStatic :=
  let st := crc32c_init_table st in
  let crc := foldl (crc_step (crc32c_table st)) 0xFFFFFFFF data in
  (Z.lxor crc 0xFFFFFFFF, st).

(** Static storage at program start. *)
Definition crc_cold : CrcStatic := mkCrcStatic (replicate 256 0) false.

(** What every reachable state of the statics satisfies. *)
Definition crc_static_ok (st : CrcStatic) : Prop :=
  crc32c_table_init st = true -> crc32c_table st = full_table.

(** ** Reference definition

    The reflected CRC-32C shift register, one message bit at a time. *)
Definition ref_byte (crc b : Z) : Z := Nat.iter 8 crc_bit (Z.lxor crc b).
Definition crc32c_ref (data : list Z) : Z :=
  Z.lxor (foldl ref_byte 0xFFFFFFFF data) 0xFFFFFFFF.

(** ** Lemmas: the shift register is linear *)

Lemma land_1_odd z : negb (Z.land z 1 =? 0) = Z.odd z.
Proof.
  change 1 with (Z.ones 1). rewrite Z.land_ones by lia. change (2 ^ 1) with 2.
  rewrite Zmod_odd. by destruct (Z.odd z).
Qed.

Lemma crc_bit_alt x : crc_bit x = Z.lxor (Z.shiftr x 1) (if Z.odd x then POLY else 0).
Proof. unfold crc_bit. rewrite land_1_odd. destruct (Z.odd x); [done|]. by rewrite Z.lxor_0_r. Qed.

Lemma odd_lxor x y : Z.odd (Z.lxor x y) = xorb (Z.odd x) (Z.odd y).
Proof. rewrite <- !Z.bit0_odd. apply Z.lxor_spec. Qed.

Lemma crc_bit_lxor x y : crc_bit (Z.lxor x y) = Z.lxor (crc_bit x) (crc_bit y).
Proof.
  rewrite !crc_bit_alt, odd_lxor, Z.shiftr_lxor.
  destruct (Z.odd x), (Z.odd y); cbn [xorb]; lxor_solve.
Qed.

Lemma iter_lxor n x y : Nat.iter n crc_bit (Z.lxor x y) = Z.lxor (Nat.iter n crc_bit x) (Nat.iter n crc_bit y).
Proof. induction n as [|n IH]; simpl; [done|]. by rewrite IH, crc_bit_lxor. Qed.

Lemma crc_bit_shiftl y n : 0 <= n -> crc_bit (Z.shiftl y (n + 1)) = Z.shiftl y n.
Proof.
  intros Hn. rewrite crc_bit_alt. rewrite <- Z.bit0_odd, Z.shiftl_spec_low by lia.
  rewrite Z.lxor_0_r, Z.shiftr_shiftl_l by lia. f_equal. lia.
Qed.

Lemma iter_shiftl n y : Nat.iter n crc_bit (Z.shiftl y (Z.of_nat n)) = y.
Proof.
  induction n as [|n IH]; [apply Z.shiftl_0_r|].
  rewrite Nat.iter_succ_r. replace (Z.of_nat (S n)) with (Z.of_nat n + 1) by lia.
  by rewrite crc_bit_shiftl by lia.
Qed.

Lemma split_low8 x : x = Z.lxor (Z.shiftl (Z.shiftr x 8) 8) (Z.land x 255).
Proof.
  apply Z.bits_inj'. intros n Hn. rewrite Z.lxor_spec, Z.land_spec. change 255 with (Z.ones 8).
  destruct (Z.ltb_spec n 8).
  - rewrite Z.shiftl_spec_low, Z.ones_spec_low by lia. btauto.
  - rewrite Z.shiftl_spec_high, Z.shiftr_spec, Z.ones_spec_high by lia.
    replace (n - 8 + 8) with n by lia. btauto.
Qed.

(** Eight steps of the register, split into the high part and the table. *)
Lemma iter8_split x : Nat.iter 8 crc_bit x = Z.lxor (Z.shiftr x 8) (table_entry (Z.land x 255)).
Proof.
  unfold table_entry. rewrite (split_low8 x) at 1. rewrite iter_lxor. f_equal.
  apply (iter_shiftl 8).
Qed.

Lemma full_table_lookup i : 0 <= i < 256 -> full_table !!! Z.to_nat i = table_entry i.
Proof.
  intros Hi. unfold full_table. apply list_lookup_total_correct.
  rewrite list_lookup_fmap, lookup_seqZ_lt by lia. simpl. f_equal. f_equal. lia.
Qed.

Lemma land_255_range x : 0 <= Z.land x 255 < 256.
Proof. change 255 with (Z.ones 8). rewrite Z.land_ones by lia. apply Z.mod_pos_bound. lia. Qed.

Lemma shiftr_byte b : is_byte b -> Z.shiftr b 8 = 0.
Proof. intros Hb. rewrite Z.shiftr_div_pow2 by lia. apply Z.div_small. unfold is_byte in Hb. lia. Qed.

Lemma crc_step_ref crc b : is_byte b -> crc_step full_table crc b = ref_byte crc b.
Proof.
  intros Hb. unfold crc_step, ref_byte. rewrite full_table_lookup by apply land_255_range.
  rewrite (iter8_split (Z.lxor crc b)). change 0xFF with 255. by rewrite Z.shiftr_lxor, (shiftr_byte b Hb), Z.lxor_0_r.
Qed.

Lemma foldl_step_ref data crc :
  Forall is_byte data -> foldl (crc_step full_table) crc data = foldl ref_byte crc data.
Proof.
  intros Hd. revert crc; induction Hd as [|b data Hb _ IH]; intros crc; simpl; [done|].
  by rewrite crc_step_ref, IH.
Qed.

(** ** Lemmas: the register is injective *)

Lemma crc_bit_range x : 0 <= x < 2 ^ 32 -> 0 <= crc_bit x < 2 ^ 32.
Proof.
  intros Hx. rewrite crc_bit_alt, Z.shiftr_div_pow2 by lia. change (2 ^ 1) with 2.
  assert (0 <= x / 2 < 2 ^ 31) by (Z.div_mod_to_equations; lia).
  split; [apply Z.lxor_nonneg; destruct (Z.odd x); unfold POLY; lia|].
  assert (Z.lxor (x / 2) (if Z.odd x then POLY else 0) = 0 \/
          0 < Z.lxor (x / 2) (if Z.odd x then POLY else 0)) as [->|Hpos].
  { assert (0 <= Z.lxor (x / 2) (if Z.odd x then POLY else 0)); [|lia].
    apply Z.lxor_nonneg. destruct (Z.odd x); unfold POLY; lia. }
  { lia. }
  apply Z.log2_lt_pow2; [done|].
  pose proof (Z.log2_lxor (x / 2) (if Z.odd x then POLY else 0) ltac:(lia)
                ltac:(destruct (Z.odd x); unfold POLY; lia)) as Hl.
  assert (Z.log2 (x / 2) < 32) by (destruct (decide (x / 2 = 0)) as [->|]; [done|apply Z.log2_lt_pow2; lia]).
  assert (Z.log2 (if Z.odd x then POLY else 0) < 32) by (by destruct (Z.odd x)).
  lia.
Qed.

(** Bit 31 of the result is bit 0 of the argument, since POLY has it set. *)
Lemma crc_bit_top x : 0 <= x < 2 ^ 32 -> Z.testbit (crc_bit x) 31 = Z.odd x.
Proof.
  intros Hx. rewrite crc_bit_alt, Z.lxor_spec, Z.shiftr_spec by lia. simpl Z.add.
  rewrite <- (Z.mod_small x (2 ^ 32)) at 1 by lia. rewrite Z.mod_pow2_bits_high by lia.
  by destruct (Z.odd x).
Qed.

Lemma crc_bit_inj x y :
  0 <= x < 2 ^ 32 -> 0 <= y < 2 ^ 32 -> crc_bit x = crc_bit y -> x = y.
Proof.
  intros Hx Hy He. pose proof (crc_bit_top x Hx) as Hox. pose proof (crc_bit_top y Hy) as Hoy.
  rewrite He, Hoy in Hox. rewrite !crc_bit_alt, Hox in He.
  assert (Z.shiftr x 1 = Z.shiftr y 1) as Hs.
  { set (p := if Z.odd x then POLY else 0) in He.
    apply (f_equal (fun z => Z.lxor z p)) in He. rewrite !Z.lxor_assoc, !Z.lxor_nilpotent, !Z.lxor_0_r in He.
    done. }
  rewrite !Z.shiftr_div_pow2 in Hs by lia. change (2 ^ 1) with 2 in Hs.
  rewrite (Z.div_mod x 2), (Z.div_mod y 2), !Zmod_odd, Hs, Hox by lia. done.
Qed.

Lemma iter_range n x : 0 <= x < 2 ^ 32 -> 0 <= Nat.iter n crc_bit x < 2 ^ 32.
Proof. induction n as [|n IH]; simpl; [done|]. intros. by apply crc_bit_range, IH. Qed.

Lemma iter_inj n x y :
  0 <= x < 2 ^ 32 -> 0 <= y < 2 ^ 32 -> Nat.iter n crc_bit x = Nat.iter n crc_bit y -> x = y.
Proof.
  intros Hx Hy. induction n as [|n IH]; simpl; [done|]. intros He.
  apply IH. by apply crc_bit_inj in He; [|apply iter_range..].
Qed.

Lemma lxor_range x y : 0 <= x < 2 ^ 32 -> 0 <= y < 2 ^ 32 -> 0 <= Z.lxor x y < 2 ^ 32.
Proof.
  intros Hx Hy. split; [apply Z.lxor_nonneg; lia|].
  rewrite <- (Z.mod_small x (2 ^ 32)), <- (Z.mod_small y (2 ^ 32)), <- !Z.land_ones by lia.
  assert (Z.lxor (Z.land x (Z.ones 32)) (Z.land y (Z.ones 32)) = Z.land (Z.lxor x y) (Z.ones 32)) as ->.
  { apply Z.bits_inj'. intros n Hn. rewrite !Z.lxor_spec, !Z.land_spec, Z.lxor_spec. btauto. }
  rewrite Z.land_ones by lia. apply Z.mod_pos_bound. lia.
Qed.

Lemma lxor_inj c x y : Z.lxor c x = Z.lxor c y -> x = y.
Proof.
  intros He. apply (f_equal (Z.lxor c)) in He.
  by rewrite <- !Z.lxor_assoc, Z.lxor_nilpotent, !Z.lxor_0_l in He.
Qed.

(** ** Lemmas: several bytes at once *)

Lemma byte_plus b v : is_byte b -> b + 256 * v = Z.lxor b (Z.shiftl v 8).
Proof.
  intros Hb. unfold is_byte in Hb. rewrite Z.shiftl_mul_pow2 by lia. change (2 ^ 8) with 256.
  rewrite (Z.mul_comm v). apply Z.add_nocarry_lxor.
  apply Z.bits_inj'. intros n Hn. rewrite Z.land_spec, Z.bits_0.
  replace (256 * v) with (Z.shiftl v 8) by (rewrite Z.shiftl_mul_pow2 by lia; lia).
  destruct (Z.ltb_spec n 8).
  - rewrite Z.shiftl_spec_low by lia. btauto.
  - rewrite <- (Z.mod_small b (2 ^ 8)) by lia. rewrite Z.mod_pow2_bits_high by lia. done.
Qed.

Lemma feed_spec m c :
  Forall is_byte m ->
  foldl ref_byte c m = Nat.iter (8 * length m) crc_bit (Z.lxor c (le_val m)).
Proof.
  intros Hm. revert c; induction Hm as [|b m Hb _ IH]; intros c.
  { simpl. by rewrite Z.lxor_0_r. }
  cbn [foldl length le_val]. rewrite IH.
  assert (Z.lxor (ref_byte c b) (le_val m) = Nat.iter 8 crc_bit (Z.lxor c (b + 256 * le_val m))) as ->.
  { rewrite byte_plus, <- Z.lxor_assoc, (iter_lxor 8) by done. unfold ref_byte.
    pose proof (iter_shiftl 8 (le_val m)) as Hs. change (Z.of_nat 8) with 8 in Hs. by rewrite Hs. }
  rewrite <- Nat.iter_add. by replace (8 * length m + 8)%nat with (8 * S (length m))%nat by lia.
Qed.

Lemma feed_range m c :
  Forall is_byte m -> 0 <= c < 2 ^ 32 -> 0 <= foldl ref_byte c m < 2 ^ 32.
Proof.
  intros Hm. revert c; induction Hm as [|b m Hb _ IH]; intros c Hc; simpl; [done|].
  apply IH. unfold ref_byte. apply iter_range, lxor_range; [done|]. unfold is_byte in Hb. lia.
Qed.

Lemma feed_inj s c1 c2 :
  Forall is_byte s -> 0 <= c1 < 2 ^ 32 -> 0 <= c2 < 2 ^ 32 ->
  foldl ref_byte c1 s = foldl ref_byte c2 s -> c1 = c2.
Proof.
  intros Hs. revert c1 c2; induction Hs as [|b s Hb _ IH]; intros c1 c2 H1 H2; simpl; [done|].
  assert (0 <= b < 2 ^ 32) by (unfold is_byte in Hb; lia). intros He.
  apply IH in He; [|apply iter_range, lxor_range; done..].
  apply iter_inj in He; [|apply lxor_range; done..].
  rewrite !(Z.lxor_comm _ b) in He. by apply lxor_inj in He.
Qed.

Lemma le_val_inj m1 m2 :
  Forall is_byte m1 -> Forall is_byte m2 -> length m1 = length m2 -> le_val m1 = le_val m2 -> m1 = m2.
Proof.
  intros H1 H2 Hl He. rewrite <- (le_bytes_le_val m1), <- (le_bytes_le_val m2) by done. by rewrite Hl, He.
Qed.

(** Any change within a window of four bytes changes the reference value. *)
Lemma crc32c_ref_burst p m1 m2 s :
  Forall is_byte p -> Forall is_byte m1 -> Forall is_byte m2 -> Forall is_byte s ->
  length m1 = length m2 -> (length m1 <= 4)%nat -> m1 <> m2 ->
  crc32c_ref (p ++ m1 ++ s) <> crc32c_ref (p ++ m2 ++ s).
Proof.
  intros Hp H1 H2 Hs Hl Hle Hne He. apply Hne. clear Hne. unfold crc32c_ref in He.
  rewrite !(Z.lxor_comm _ 0xFFFFFFFF) in He. apply lxor_inj in He. rewrite !foldl_app in He.
  assert (0 <= foldl ref_byte 0xFFFFFFFF p < 2 ^ 32) as Hc by (apply feed_range; [done|lia]).
  set (c := foldl ref_byte 0xFFFFFFFF p) in *. clearbody c.
  apply feed_inj in He; [|done|by apply feed_range..].
  rewrite !feed_spec, <- Hl in He by done.
  assert (forall m, Forall is_byte m -> (length m <= 4)%nat -> 0 <= le_val m < 2 ^ 32) as Hr.
  { intros m Hm Hml. pose proof (le_val_bound m Hm).
    assert (2 ^ (8 * Z.of_nat (length m)) <= 2 ^ 32) by (apply Z.pow_le_mono_r; lia). lia. }
  apply iter_inj in He; [|apply lxor_range; [done|apply Hr; [done|lia]]..].
  apply le_val_inj; try done. by apply lxor_inj in He.
Qed.

Lemma crc32c_ref_range data : Forall is_byte data -> 0 <= crc32c_ref data < 2 ^ 32.
Proof. intros. unfold crc32c_ref. apply lxor_range; [by apply feed_range|lia]. Qed.

(** The bit-by-bit loops of the other components, whatever way they write the
    step of the shift register, are the reference. *)
Lemma bitwise_crc_ref (bit : Z -> Z) data :
  (forall x, bit x = crc_bit x) ->
  Z.lxor (foldl (fun crc b => Nat.iter 8 bit (Z.lxor crc b)) 0xFFFFFFFF data) 0xFFFFFFFF = crc32c_ref data.
Proof.
  intros Hb. assert (forall n x, Nat.iter n bit x = Nat.iter n crc_bit x) as Hi.
  { induction n as [|n IH]; intros x; simpl; [done|]. by rewrite IH, Hb. }
  unfold crc32c_ref. f_equal. generalize 0xFFFFFFFF.
  induction data as [|b data IH]; intros c; [done|]. cbn [foldl]. rewrite IH. unfold ref_byte. by rewrite Hi.
Qed.

Lemma crc_cold_ok : crc_static_ok crc_cold.
Proof. by intros [=]. Qed.

(** ** Properties *)

Lemma crc32c_correct data st :
  Forall is_byte data -> crc_static_ok st ->
  (bootdiag_compute_crc32c data st).1 = crc32c_ref data /\
  crc_static_ok (bootdiag_compute_crc32c data st).2.
Proof.
  intros Hd Hst. unfold bootdiag_compute_crc32c, crc32c_init_table, crc_static_ok in *.
  destruct (crc32c_table_init st) eqn:E; cbn [crc32c_table crc32c_table_init fst snd].
  - rewrite (Hst eq_refl). split; [|done]. unfold crc32c_ref. by rewrite foldl_step_ref.
  - split; [|done]. unfold crc32c_ref. by rewrite foldl_step_ref.
Qed.

(** C17. The table-driven checksum equals the bit-by-bit reference on every
    message, from any reachable state of its static table, which stays
    reachable; in particular the table is right however often it is used. *)
Theorem crc32c_table_correct data st :
  Forall is_byte data -> crc_static_ok st ->
  (bootdiag_compute_crc32c data st).1 = crc32c_ref data /\
  crc_static_ok (bootdiag_compute_crc32c data st).2.
Proof. apply crc32c_correct. Qed.

(** C25. The checksum detects every error burst of up to four bytes: messages
    that differ in such a window only, anywhere in a message of any length, have
    different checksums. *)
Theorem crc32c_detects_bursts p m1 m2 s :
  Forall is_byte p -> Forall is_byte m1 -> Forall is_byte m2 -> Forall is_byte s ->
  length m1 = length m2 -> (length m1 <= 4)%nat -> m1 <> m2 ->
  (bootdiag_compute_crc32c (p ++ m1 ++ s) crc_cold).1 <>
  (bootdiag_compute_crc32c (p ++ m2 ++ s) crc_cold).1.
Proof.
  intros. assert (forall m, Forall is_byte m -> (bootdiag_compute_crc32c (p ++ m ++ s) crc_cold).1 =
    crc32c_ref (p ++ m ++ s)) as Hc.
  { intros m Hm. apply crc32c_correct; [by rewrite !Forall_app|apply crc_cold_ok]. }
  rewrite !Hc by done. by apply crc32c_ref_burst.
Qed.

(** ** Witnesses *)

Lemma crc32c_table_correct_witness :
  (bootdiag_compute_crc32c (zstr "123456789") crc_cold).1 = crc32c_ref (zstr "123456789") /\
  crc_static_ok (bootdiag_compute_crc32c (zstr "123456789") crc_cold).2.
Proof.
  apply crc32c_table_correct; [apply bytesb_ok; vm_compute; reflexivity | intros E; discriminate E].
Defined.

(** The published check value of CRC-32C. *)
Example crc32c_check_value :
  (bootdiag_compute_crc32c (zstr "123456789") crc_cold).1 = 0xE3069283.
Proof. vm_compute. reflexivity. Qed.

Lemma crc32c_detects_bursts_witness :
  (bootdiag_compute_crc32c ([1; 2] ++ [3; 4; 5; 6] ++ [7]) crc_cold).1 <>
  (bootdiag_compute_crc32c ([1; 2] ++ [3; 4; 5; 0] ++ [7]) crc_cold).1.
Proof.
  apply (crc32c_detects_bursts [1; 2] [3; 4; 5; 6] [3; 4; 5; 0] [7]);
    [apply bytesb_ok; reflexivity.. | reflexivity | simpl; lia | intros E; discriminate E].
Defined.
