(* ===== verification/Frame.v ===== *)
(** * Network frames (driver/net/net_frame.c)

    A frame header is the 40-byte structure of net_driver.h, kept here both as a
    record and as its memory image ([header_bytes], little-endian fields without
    padding). Serialising and parsing work on the memory image, as the C code
    does with [RtlCopyMemory] and a pointer cast. *)

From S2P Require Import Prelude Nt.

Definition HD_MAGIC : Z := 0x48444B31.
Definition HD_VERSION : Z := 0x0001.
Definition HD_NET_FRAME_HDR_SIZE : Z := 32.

Record HD_NET_FRAME_HEADER : Type := mkHeader {
  Magic : Z;
  Version : Z;
  FrameType : Z;
  Flags : Z;
  FrameId : Z;
  PayloadLen : Z;
  ImageId : Z;
  BlockOffset : Z;
  BlockCount : Z;
  LayerId : Z;
  Reserved : list Z;
}.

(** ** Memory image: the first 32 bytes, then the last 8 *)

Definition head_bytes (h : HD_NET_FRAME_HEADER) : list Z :=
  le_bytes 4 (Magic h) ++ le_bytes 2 (Version h) ++ le_bytes 1 (FrameType h) ++ le_bytes 1 (Flags h) ++
  le_bytes 4 (FrameId h) ++ le_bytes 4 (PayloadLen h) ++ le_bytes 8 (ImageId h) ++ le_bytes 8 (BlockOffset h).
Definition tail_bytes (h : HD_NET_FRAME_HEADER) : list Z :=
  le_bytes 4 (BlockCount h) ++ le_bytes 1 (LayerId h) ++ Reserved h.
Definition header_bytes (h : HD_NET_FRAME_HEADER) : list Z := head_bytes h ++ tail_bytes h.

Definition fld (off n : nat) (m : list Z) : Z := le_val (take n (drop off m)).
Definition header_of (m : list Z) : HD_NET_FRAME_HEADER :=
  mkHeader (fld 0 4 m) (fld 4 2 m) (fld 6 1 m) (fld 7 1 m) (fld 8 4 m) (fld 12 4 m)
           (fld 16 8 m) (fld 24 8 m) (fld 32 4 m) (fld 36 1 m) (take 3 (drop 37 m)).

Record header_wf (h : HD_NET_FRAME_HEADER) : Prop := mk_header_wf {
  wf_Magic : 0 <= Magic h < 2 ^ 32;
  wf_Version : 0 <= Version h < 2 ^ 16;
  wf_FrameType : 0 <= FrameType h < 2 ^ 8;
  wf_Flags : 0 <= Flags h < 2 ^ 8;
  wf_FrameId : 0 <= FrameId h < 2 ^ 32;
  wf_PayloadLen : 0 <= PayloadLen h < 2 ^ 32;
  wf_ImageId : 0 <= ImageId h < 2 ^ 64;
  wf_BlockOffset : 0 <= BlockOffset h < 2 ^ 64;
  wf_BlockCount : 0 <= BlockCount h < 2 ^ 32;
  wf_LayerId : 0 <= LayerId h < 2 ^ 8;
  wf_Reserved : length (Reserved h) = 3%nat;
}.

(** ** Operations

    A pointer argument is an [option]; [None] is NULL. The result carries the
    status and the new contents of the output arguments. *)

(** Status, output frame, output length ([None]: [*OutLen] not assigned). *)
Definition HdNetSerializeFrame (Header : option HD_NET_FRAME_HEADER) (Payload : option (list Z))
    (OutFrame : option (list Z)) (OutLen : option Z) : res (Z * option (list Z) * option Z) :=
  match Header, OutFrame, OutLen with
  | Some h, Some out, Some _ =>
      let totalLen := u32 (HD_NET_FRAME_HDR_SIZE + PayloadLen h) in
      let* hdr := rd_bytes (header_bytes h) 0 HD_NET_FRAME_HDR_SIZE in
      let* out := wr out 0 hdr in
      let* out :=
        match Payload with
        | Some p =>
            if 0 <? PayloadLen h then
              let* src := rd_bytes p 0 (PayloadLen h) in
              wr out HD_NET_FRAME_HDR_SIZE src
            else Ok out
        | None => Ok out
        end in
      Ok (STATUS_SUCCESS, Some out, Some totalLen)
  | _, _, _ => Ok (STATUS_INVALID_PARAMETER, OutFrame, OutLen)
  end.

Definition HdNetDeserializeFrame (Frame : option (list Z)) (FrameLen : Z)
    (Header : option HD_NET_FRAME_HEADER) (Payload : option (list Z)) (PayloadLen : option Z)
    : res (Z * option HD_NET_FRAME_HEADER * option (list Z) * option Z) :=
  match Frame, Header with
  | Some frame, Some header =>
      if FrameLen <? HD_NET_FRAME_HDR_SIZE then
        Ok (STATUS_INVALID_PARAMETER, Header, Payload, PayloadLen)
      else
        let* magic := rd 4 frame 0 in
        if negb (magic =? HD_MAGIC) then Ok (STATUS_DATA_NOT_ACCEPTED, Header, Payload, PayloadLen)
        else
          let* version := rd 2 frame 4 in
          if negb (version =? HD_VERSION) then Ok (STATUS_REVISION_MISMATCH, Header, Payload, PayloadLen)
          else
            let* src := rd_bytes frame 0 HD_NET_FRAME_HDR_SIZE in
            let* image := wr (header_bytes header) 0 src in
            let header := header_of image in
            let* plen := rd 4 frame 12 in
            match Payload, PayloadLen with
            | Some p, Some _ =>
                if 0 <? plen then
                  let copyLen :=
                    if u32 (FrameLen - HD_NET_FRAME_HDR_SIZE) <? plen
                    then u32 (FrameLen - HD_NET_FRAME_HDR_SIZE) else plen in
                  let* data := rd_bytes frame HD_NET_FRAME_HDR_SIZE copyLen in
                  let* p := wr p 0 data in
                  Ok (STATUS_SUCCESS, Some header, Some p, Some copyLen)
                else Ok (STATUS_SUCCESS, Some header, Payload, PayloadLen)
            | _, _ => Ok (STATUS_SUCCESS, Some header, Payload, PayloadLen)
            end
  | _, _ => Ok (STATUS_INVALID_PARAMETER, Header, Payload, PayloadLen)
  end.

(** ** Lemmas on the memory image *)

Lemma head_bytes_length h : length (head_bytes h) = 32%nat.
Proof. unfold head_bytes. by rewrite !length_app, !le_bytes_length. Qed.

Lemma tail_bytes_length h : header_wf h -> length (tail_bytes h) = 8%nat.
Proof. intros H. unfold tail_bytes. by rewrite !length_app, !le_bytes_length, (wf_Reserved _ H). Qed.

Lemma rd_fld n m off :
  (off + n <= length m)%nat -> rd (Z.of_nat n) m (Z.of_nat off) = Ok (fld off n m).
Proof. intros. rewrite rd_ok by lia. by rewrite !Nat2Z.id. Qed.

Lemma fld_le_bytes n z r : fld 0 n (le_bytes n z ++ r) = z mod 2 ^ (8 * Z.of_nat n).
Proof.
  unfold fld. rewrite drop_0, take_app_length' by by rewrite le_bytes_length. apply le_val_le_bytes.
Qed.

Lemma fld_le_bytes_end n z : fld 0 n (le_bytes n z) = z mod 2 ^ (8 * Z.of_nat n).
Proof. rewrite <- (app_nil_r (le_bytes n z)). apply fld_le_bytes. Qed.

Lemma fld_skip k n z r off : (k <= off)%nat -> fld off n (le_bytes k z ++ r) = fld (off - k) n r.
Proof. intros. unfold fld. by rewrite drop_app_ge, le_bytes_length by (rewrite le_bytes_length; lia). Qed.

Lemma drop_skip k z r off : (k <= off)%nat -> drop off (le_bytes k z ++ r) = drop (off - k) r.
Proof. intros. by rewrite drop_app_ge, le_bytes_length by (rewrite le_bytes_length; lia). Qed.

(** Walk every field access to the field it reads. *)
Ltac walk_fields :=
  repeat match goal with
  | |- context [fld ?o ?n (le_bytes ?k ?z ++ ?r)] => rewrite (fld_skip k n z r o) by lia; cbn [Nat.sub]
  | |- context [drop ?o (le_bytes ?k ?z ++ ?r)] => rewrite (drop_skip k z r o) by lia; cbn [Nat.sub]
  end.

(** What a header becomes when only its first 32 bytes are overwritten. *)
Definition keep_tail (h h0 : HD_NET_FRAME_HEADER) : HD_NET_FRAME_HEADER :=
  mkHeader (Magic h) (Version h) (FrameType h) (Flags h) (FrameId h) (PayloadLen h) (ImageId h)
           (BlockOffset h) (BlockCount h0) (LayerId h0) (Reserved h0).

Lemma header_of_split h h0 :
  header_wf h -> header_wf h0 -> header_of (head_bytes h ++ tail_bytes h0) = keep_tail h h0.
Proof.
  intros [] []. unfold header_of, head_bytes, tail_bytes, keep_tail. rewrite <- !(assoc_L (++)).
  walk_fields.
  rewrite !fld_le_bytes, drop_0, take_ge by lia. cbn [Z.of_nat Z.mul Pos.of_succ_nat].
  f_equal; apply Z.mod_small; lia.
Qed.

Lemma head_take h r : take 32 (head_bytes h ++ r) = head_bytes h.
Proof. by rewrite take_app_length' by by rewrite head_bytes_length. Qed.

Lemma frame_fields h r :
  header_wf h ->
  rd 4 (head_bytes h ++ r) 0 = Ok (Magic h) /\ rd 2 (head_bytes h ++ r) 4 = Ok (Version h) /\
  rd 4 (head_bytes h ++ r) 12 = Ok (PayloadLen h).
Proof.
  intros []. assert (length (head_bytes h ++ r) = 32 + length r)%nat as Hl by by rewrite length_app, head_bytes_length.
  rewrite (rd_fld 4 _ 0), (rd_fld 2 _ 4), (rd_fld 4 _ 12) by lia.
  unfold head_bytes. rewrite <- !(assoc_L (++)). walk_fields.
  rewrite !fld_le_bytes. cbn [Z.of_nat Z.mul Pos.of_succ_nat]. rewrite !Z.mod_small by lia. done.
Qed.

Lemma copy_at_0 dst src : copy_at dst 0 src = src ++ drop (length src) dst.
Proof. done. Qed.

Lemma copy_header h h0 : copy_at (header_bytes h0) 0 (head_bytes h) = head_bytes h ++ tail_bytes h0.
Proof.
  unfold header_bytes. rewrite copy_at_0, head_bytes_length.
  by rewrite drop_app_length' by by rewrite head_bytes_length.
Qed.

(** The frame produced for [h] and [payload] in the buffer [out]. *)
Definition frame_image (h : HD_NET_FRAME_HEADER) (payload out : list Z) : list Z :=
  head_bytes h ++ payload ++ drop (32 + length payload) out.

Lemma serialize_spec h payload out n :
  header_wf h -> PayloadLen h = Z.of_nat (length payload) -> 32 + PayloadLen h < 2 ^ 32 ->
  (32 + length payload <= length out)%nat ->
  HdNetSerializeFrame (Some h) (Some payload) (Some out) (Some n) =
  Ok (STATUS_SUCCESS, Some (frame_image h payload out), Some (32 + PayloadLen h)).
Proof.
  intros Hwf Hlen Hov Hout. unfold HdNetSerializeFrame, HD_NET_FRAME_HDR_SIZE.
  unfold u32 at 1. rewrite wrap_small by lia.
  rewrite rd_bytes_ok; [|lia..|unfold header_bytes; rewrite length_app, head_bytes_length; lia].
  cbn [res_bind]. change (Z.to_nat 0) with 0%nat. rewrite drop_0. change (Z.to_nat 32) with 32%nat.
  unfold header_bytes. rewrite head_take. rewrite wr_ok; [|lia|rewrite head_bytes_length; lia].
  cbn [res_bind]. change (Z.to_nat 0) with 0%nat. rewrite copy_at_0, head_bytes_length.
  destruct (Z.ltb_spec 0 (PayloadLen h)) as [Hp|Hp].
  - rewrite rd_bytes_ok by lia. cbn [res_bind]. change (Z.to_nat 0) with 0%nat. rewrite drop_0.
    rewrite take_ge by lia. rewrite wr_ok; [|lia|rewrite length_app, head_bytes_length, length_drop; lia].
    cbn [res_bind]. unfold copy_at, frame_image. change (Z.to_nat 32) with 32%nat.
    rewrite head_take. rewrite drop_app_ge by (rewrite head_bytes_length; lia).
    rewrite head_bytes_length, drop_drop. repeat f_equal. lia.
  - assert (payload = []) as -> by (destruct payload; [done|simpl in Hlen; lia]). done.
Qed.

Lemma frame_image_length h payload out :
  (32 + length payload <= length out)%nat -> length (frame_image h payload out) = length out.
Proof. intros. unfold frame_image. rewrite !length_app, length_drop, head_bytes_length. lia. Qed.

Lemma frame_image_payload h payload out :
  take (length payload) (drop 32 (frame_image h payload out)) = payload.
Proof.
  unfold frame_image. rewrite drop_app_length' by by rewrite head_bytes_length.
  by rewrite take_app_length' by done.
Qed.

Lemma deserialize_spec h h0 payload out pbuf n :
  header_wf h -> header_wf h0 -> Magic h = HD_MAGIC -> Version h = HD_VERSION ->
  PayloadLen h = Z.of_nat (length payload) -> 32 + PayloadLen h < 2 ^ 32 ->
  (32 + length payload <= length out)%nat -> (length payload <= length pbuf)%nat ->
  HdNetDeserializeFrame (Some (frame_image h payload out)) (32 + PayloadLen h) (Some h0) (Some pbuf) (Some n) =
  Ok (STATUS_SUCCESS, Some (keep_tail h h0), Some (copy_at pbuf 0 payload),
      Some (if 0 <? PayloadLen h then PayloadLen h else n)).
Proof.
  intros Hwf Hwf0 HM HV Hlen Hov Hout Hp. unfold HdNetDeserializeFrame, HD_NET_FRAME_HDR_SIZE.
  destruct (Z.ltb_spec (32 + PayloadLen h) 32); [lia|].
  pose proof (frame_image_length h payload out Hout) as Hfl.
  destruct (frame_fields h (payload ++ drop (32 + length payload) out) Hwf) as (Em & Ev & Ep).
  fold (frame_image h payload out) in Em, Ev, Ep. rewrite Em, Ev, Ep.
  cbn [res_bind]. rewrite HM, HV. cbn [negb Z.eqb Pos.eqb].
  rewrite rd_bytes_ok by lia. cbn [res_bind].
  change (Z.to_nat 0) with 0%nat. rewrite drop_0. change (Z.to_nat 32) with 32%nat.
  unfold frame_image at 1. rewrite head_take.
  rewrite wr_ok; [|lia|unfold header_bytes; rewrite length_app, !head_bytes_length; lia].
  cbn [res_bind]. change (Z.to_nat 0) with 0%nat. rewrite copy_header, header_of_split by done.
  destruct (Z.ltb_spec 0 (PayloadLen h)) as [Hpos|Hpos].
  - replace (32 + PayloadLen h - 32) with (PayloadLen h) by lia. unfold u32. rewrite wrap_small by lia.
    rewrite Z.ltb_irrefl. rewrite rd_bytes_ok by lia. cbn [res_bind].
    replace (Z.to_nat (PayloadLen h)) with (length payload) by lia. change (Z.to_nat 32) with 32%nat.
    rewrite frame_image_payload, wr_ok by lia. done.
  - assert (payload = []) as -> by (destruct payload; [done|simpl in Hlen; lia]). done.
Qed.

(** Overwriting the first 32 bytes of a header with those of any frame. *)
Lemma fld_take32 off n f r :
  (off + n <= 32)%nat -> (32 <= length f)%nat -> fld off n (take 32 f ++ r) = fld off n f.
Proof.
  intros H1 H2. unfold fld. rewrite drop_app_le by (rewrite length_take; lia).
  rewrite take_app_le by (rewrite length_drop, length_take; lia).
  rewrite skipn_firstn_comm, take_take. do 2 f_equal. lia.
Qed.

Lemma copy_any_header f h0 :
  (32 <= length f)%nat -> header_wf h0 ->
  header_of (copy_at (header_bytes h0) 0 (take 32 f)) = keep_tail (header_of f) h0.
Proof.
  intros Hf Hwf. rewrite copy_at_0. assert (length (take 32 f) = 32)%nat as Ht by (rewrite length_take; lia).
  rewrite Ht. unfold header_bytes. rewrite drop_app_length' by by rewrite head_bytes_length.
  unfold header_of, keep_tail. cbn [Magic Version FrameType Flags FrameId PayloadLen ImageId BlockOffset].
  rewrite !fld_take32 by lia. unfold fld at 9 10. rewrite !(drop_app_ge (take 32 f)) by lia. rewrite Ht. cbn [Nat.sub].
  fold (fld 0 4 (tail_bytes h0)) (fld 4 1 (tail_bytes h0)). unfold tail_bytes. destruct Hwf.
  walk_fields. rewrite drop_0, take_ge by lia. rewrite !fld_le_bytes. cbn [Z.of_nat Z.mul Pos.of_succ_nat].
  f_equal; apply Z.mod_small; lia.
Qed.

Lemma fld_range off n f : Forall is_byte f -> (off + n <= length f)%nat -> 0 <= fld off n f < 2 ^ (8 * Z.of_nat n).
Proof.
  intros Hf Hl. unfold fld. pose proof (le_val_bound (take n (drop off f)) (Forall_sub _ _ _ _ Hf)) as H.
  by rewrite length_take, length_drop, Nat.min_l in H by lia.
Qed.

(** ** Properties *)

(** C21. A frame that is serialised and parsed back gives the payload and the
    first eight header fields unchanged. The block count, layer and reserved
    bytes of the header are not transported: the copies stop after 32 of the 40
    bytes, so the receiver keeps whatever its header held before. *)
Theorem frame_round_trip h h0 payload out pbuf n :
  header_wf h -> header_wf h0 -> Magic h = HD_MAGIC -> Version h = HD_VERSION ->
  PayloadLen h = Z.of_nat (length payload) -> 32 + PayloadLen h < 2 ^ 32 ->
  (32 + length payload <= length out)%nat -> (length payload <= length pbuf)%nat ->
  exists frame,
    HdNetSerializeFrame (Some h) (Some payload) (Some out) (Some n) =
      Ok (STATUS_SUCCESS, Some frame, Some (32 + PayloadLen h)) /\
    HdNetDeserializeFrame (Some frame) (32 + PayloadLen h) (Some h0) (Some pbuf) (Some n) =
      Ok (STATUS_SUCCESS, Some (keep_tail h h0), Some (payload ++ drop (length payload) pbuf),
          Some (if 0 <? PayloadLen h then PayloadLen h else n)).
Proof.
  intros. exists (frame_image h payload out). split; [by apply serialize_spec|].
  rewrite <- copy_at_0. by apply deserialize_spec.
Qed.

Definition sample_header : HD_NET_FRAME_HEADER :=
  mkHeader HD_MAGIC HD_VERSION 3 0 2 4 77 4096 16 5 [0; 0; 0].
Definition blank_header : HD_NET_FRAME_HEADER := mkHeader 0 0 0 0 0 0 0 0 0 0 [0; 0; 0].

Lemma frame_round_trip_witness :
  exists frame,
    HdNetSerializeFrame (Some sample_header) (Some [9; 8; 7; 6]) (Some (replicate 64 0)) (Some 0) =
      Ok (STATUS_SUCCESS, Some frame, Some 36) /\
    HdNetDeserializeFrame (Some frame) 36 (Some blank_header) (Some (replicate 6 1)) (Some 0) =
      Ok (STATUS_SUCCESS, Some (mkHeader HD_MAGIC HD_VERSION 3 0 2 4 77 4096 0 0 [0; 0; 0]),
          Some [9; 8; 7; 6; 1; 1], Some 4).
Proof.
  apply (frame_round_trip sample_header blank_header [9; 8; 7; 6] (replicate 64 0) (replicate 6 1) 0);
    first [reflexivity | by apply Nat.leb_le | constructor; cbn; unfold HD_MAGIC, HD_VERSION; lia].
Defined.

(** A frame the parser accepts, and the number of payload bytes it copies. *)
Definition frame_accepted (frame : list Z) : bool :=
  (32 <=? Z.of_nat (length frame)) && (fld 0 4 frame =? HD_MAGIC) && (fld 4 2 frame =? HD_VERSION).
Definition frame_payload (frame : list Z) : list Z :=
  take (Z.to_nat (Z.min (fld 12 4 frame) (Z.of_nat (length frame) - 32))) (drop 32 frame).

(** Parsing an arbitrary byte string never reads outside it, whatever its
    length field says: a frame shorter than a header, of a foreign magic or of
    another version is refused with every output untouched, and an accepted one
    delivers its payload cut to the bytes that are there. The one unsafe case
    is a payload buffer smaller than that, because its size is not an argument. *)
Theorem deserialize_safe frame h0 pbuf n :
  header_wf h0 -> Z.of_nat (length frame) < 2 ^ 32 -> Forall is_byte frame ->
  HdNetDeserializeFrame (Some frame) (Z.of_nat (length frame)) (Some h0) (Some pbuf) (Some n) =
  if frame_accepted frame then
    if (length (frame_payload frame) <=? length pbuf)%nat then
      Ok (STATUS_SUCCESS, Some (keep_tail (header_of frame) h0), Some (copy_at pbuf 0 (frame_payload frame)),
          Some (if 0 <? fld 12 4 frame then Z.of_nat (length (frame_payload frame)) else n))
    else Fault
  else Ok (if Z.of_nat (length frame) <? 32 then STATUS_INVALID_PARAMETER
           else if fld 0 4 frame =? HD_MAGIC then STATUS_REVISION_MISMATCH else STATUS_DATA_NOT_ACCEPTED,
           Some h0, Some pbuf, Some n).
Proof.
  intros Hwf Hlen Hb. unfold frame_accepted, HdNetDeserializeFrame, HD_NET_FRAME_HDR_SIZE.
  destruct (Z.ltb_spec (Z.of_nat (length frame)) 32) as [Hs|Hs].
  { by destruct (Z.leb_spec 32 (Z.of_nat (length frame))); [lia|]. }
  destruct (Z.leb_spec 32 (Z.of_nat (length frame))) as [_|]; [|lia]. cbn [andb].
  rewrite (rd_fld 4 _ 0), (rd_fld 2 _ 4), (rd_fld 4 _ 12) by lia. cbn [res_bind].
  destruct (fld 0 4 frame =? HD_MAGIC); [|done]. cbn [negb andb].
  destruct (fld 4 2 frame =? HD_VERSION); [|done]. cbn [negb].
  rewrite rd_bytes_ok by lia. cbn [res_bind]. rewrite drop_0. change (Z.to_nat 32) with 32%nat.
  rewrite wr_ok; [|lia|unfold header_bytes; rewrite length_app, head_bytes_length, length_take; lia].
  cbn [res_bind]. rewrite copy_any_header by (done || lia).
  pose proof (fld_range 12 4 frame Hb ltac:(lia)) as Hp. change (8 * Z.of_nat 4) with 32 in Hp.
  unfold frame_payload. unfold u32. rewrite wrap_small by lia.
  destruct (Z.ltb_spec 0 (fld 12 4 frame)) as [Hpos|Hpos].
  - replace (if Z.of_nat (length frame) - 32 <? fld 12 4 frame then Z.of_nat (length frame) - 32 else fld 12 4 frame)
      with (Z.min (fld 12 4 frame) (Z.of_nat (length frame) - 32)) by (destruct (Z.ltb_spec (Z.of_nat (length frame) - 32) (fld 12 4 frame)); lia).
    rewrite rd_bytes_ok by lia. cbn [res_bind]. change (Z.to_nat 32) with 32%nat.
    set (p := take _ _). assert (length p = Z.to_nat (Z.min (fld 12 4 frame) (Z.of_nat (length frame) - 32)))%nat as Hlp
      by (unfold p; rewrite length_take, length_drop; lia).
    destruct (Nat.leb_spec (length p) (length pbuf)) as [Hfit|Hfit].
    + rewrite wr_ok by lia. cbn [res_bind]. by replace (Z.of_nat (length p)) with (Z.min (fld 12 4 frame) (Z.of_nat (length frame) - 32)) by lia.
    + unfold wr. destruct (in_block pbuf 0 _) eqn:E; [|done]. apply in_block_true in E. lia.
  - replace (Z.min (fld 12 4 frame) (Z.of_nat (length frame) - 32)) with 0 by lia. done.
Qed.

Lemma deserialize_safe_witness :
  HdNetDeserializeFrame (Some (replicate 40 7)) 40 (Some blank_header) (Some []) (Some 5) =
  Ok (STATUS_DATA_NOT_ACCEPTED, Some blank_header, Some [], Some 5).
Proof.
  change 40 with (Z.of_nat (length (replicate 40 7))).
  rewrite (deserialize_safe (replicate 40 7) blank_header [] 5);
    [reflexivity | constructor; simpl; lia | simpl; lia | apply bytesb_ok; reflexivity].
Defined.
