(* ===== verification/Kernel.v ===== *)
(** * Kernel objects the drivers create and must give back

    A ledger of the live objects a driver owns: device objects, symbolic links,
    pool blocks, handles, registered filters, object references, device
    interfaces and the links of device stacks. The kernel decides whether a creation succeeds and at which
    address, so that outcome is an argument of the operations; releasing an
    object that is not live is a [Fault]. *)

From S2P Require Import Prelude Nt.

Record Kernel : Type := mkKernel {
  k_devices : gset Z;
  k_links : gset string;
  k_pool : gset Z;
  k_handles : gset Z;
  k_filters : gset Z;
  k_refs : gmap Z Z;
  k_ifaces : gmap Z bool;
  k_attached : gmap Z Z;
}.

Definition set_devices (s : gset Z) (k : Kernel) : Kernel :=
  mkKernel s (k_links k) (k_pool k) (k_handles k) (k_filters k) (k_refs k) (k_ifaces k) (k_attached k).
Definition set_klinks (s : gset string) (k : Kernel) : Kernel :=
  mkKernel (k_devices k) s (k_pool k) (k_handles k) (k_filters k) (k_refs k) (k_ifaces k) (k_attached k).
Definition set_pool (s : gset Z) (k : Kernel) : Kernel :=
  mkKernel (k_devices k) (k_links k) s (k_handles k) (k_filters k) (k_refs k) (k_ifaces k) (k_attached k).
Definition set_handles (s : gset Z) (k : Kernel) : Kernel :=
  mkKernel (k_devices k) (k_links k) (k_pool k) s (k_filters k) (k_refs k) (k_ifaces k) (k_attached k).
Definition set_filters (s : gset Z) (k : Kernel) : Kernel :=
  mkKernel (k_devices k) (k_links k) (k_pool k) (k_handles k) s (k_refs k) (k_ifaces k) (k_attached k).
Definition set_krefs (m : gmap Z Z) (k : Kernel) : Kernel :=
  mkKernel (k_devices k) (k_links k) (k_pool k) (k_handles k) (k_filters k) m (k_ifaces k) (k_attached k).
Definition set_ifaces (m : gmap Z bool) (k : Kernel) : Kernel :=
  mkKernel (k_devices k) (k_links k) (k_pool k) (k_handles k) (k_filters k) (k_refs k) m (k_attached k).

(** [k_attached] maps a device to the one attached on top of it. *)
Definition set_attached (m : gmap Z Z) (k : Kernel) : Kernel :=
  mkKernel (k_devices k) (k_links k) (k_pool k) (k_handles k) (k_filters k) (k_refs k) (k_ifaces k) m.

(** Creations: [status] and the new address [a] are chosen by the kernel. *)
Definition IoCreateDevice (status a : Z) (k : Kernel) : Kernel :=
  if NT_SUCCESS status then set_devices ({[a]} ∪ k_devices k) k else k.
Definition IoCreateSymbolicLink (status : Z) (name : string) (k : Kernel) : Kernel :=
  if NT_SUCCESS status then set_klinks ({[name]} ∪ k_links k) k else k.
Definition ZwOpenKey (status h : Z) (k : Kernel) : Kernel :=
  if NT_SUCCESS status then set_handles ({[h]} ∪ k_handles k) k else k.
Definition FltRegisterFilter (status f : Z) (k : Kernel) : Kernel :=
  if NT_SUCCESS status then set_filters ({[f]} ∪ k_filters k) k else k.
(** A registered interface starts disabled; [i] is the buffer of its name, which
    the caller has to free. *)
Definition IoRegisterDeviceInterface (status i : Z) (k : Kernel) : Kernel :=
  if NT_SUCCESS status then set_pool ({[i]} ∪ k_pool k) (set_ifaces (<[i:=false]> (k_ifaces k)) k) else k.
(** The kernel finds the device on top of the stack, [lower]. *)
Definition IoAttachDeviceToDeviceStackSafe (status upper lower : Z) (k : Kernel) : Kernel :=
  if NT_SUCCESS status then set_attached (<[lower:=upper]> (k_attached k)) k else k.
Definition ExAllocatePool (a : option Z) (k : Kernel) : Kernel :=
  match a with
  | Some a => set_pool ({[a]} ∪ k_pool k) k
  | None => k
  end.

(** Releases. *)
Definition IoDeleteDevice (a : Z) (k : Kernel) : res Kernel :=
  if decide (a ∈ k_devices k) then Ok (set_devices (k_devices k ∖ {[a]}) k) else Fault.
Definition IoDetachDevice (lower : Z) (k : Kernel) : res Kernel :=
  match k_attached k !! lower with
  | Some _ => Ok (set_attached (delete lower (k_attached k)) k)
  | None => Fault
  end.
Definition IoDeleteSymbolicLink (name : string) (k : Kernel) : Kernel :=
  set_klinks (k_links k ∖ {[name]}) k.
Definition ExFreePool (a : Z) (k : Kernel) : res Kernel :=
  if decide (a ∈ k_pool k) then Ok (set_pool (k_pool k ∖ {[a]}) k) else Fault.
Definition ZwClose (h : Z) (k : Kernel) : res Kernel :=
  if decide (h ∈ k_handles k) then Ok (set_handles (k_handles k ∖ {[h]}) k) else Fault.
Definition FltUnregisterFilter (f : Z) (k : Kernel) : res Kernel :=
  if decide (f ∈ k_filters k) then Ok (set_filters (k_filters k ∖ {[f]}) k) else Fault.

(** References: the count of references the driver holds on an object. *)
Definition ObRef (o : Z) (k : Kernel) : Kernel :=
  set_krefs (<[o := default 0 (k_refs k !! o) + 1]> (k_refs k)) k.
Definition ObDeref (o : Z) (k : Kernel) : Kernel :=
  set_krefs (<[o := default 0 (k_refs k !! o) - 1]> (k_refs k)) k.
Definition refs_of (o : Z) (k : Kernel) : Z := default 0 (k_refs k !! o).

(** The name must not have been freed. *)
Definition IoSetDeviceInterfaceState (i : Z) (enable : bool) (k : Kernel) : res Kernel :=
  if decide (i ∈ k_pool k) then Ok (set_ifaces (<[i:=enable]> (k_ifaces k)) k) else Fault.

(** What a filter callback answers to the filter manager. *)
Inductive FLT_PREOP : Type := FLT_PREOP_SUCCESS_WITH_CALLBACK | FLT_PREOP_SUCCESS_NO_CALLBACK | FLT_PREOP_COMPLETE.
Inductive FLT_POSTOP : Type := FLT_POSTOP_FINISHED_PROCESSING.

(** ** Lemmas *)

Lemma set_devices_id k s : s = k_devices k -> set_devices s k = k.
Proof. intros ->. by destruct k. Qed.
Lemma set_pool_id k s : s = k_pool k -> set_pool s k = k.
Proof. intros ->. by destruct k. Qed.
Lemma set_handles_id k s : s = k_handles k -> set_handles s k = k.
Proof. intros ->. by destruct k. Qed.
Lemma set_filters_id k s : s = k_filters k -> set_filters s k = k.
Proof. intros ->. by destruct k. Qed.

Lemma union_difference_new (X : gset Z) a : a ∉ X -> ({[a]} ∪ X) ∖ {[a]} = X.
Proof. set_solver. Qed.

(** Deleting the device just created restores the ledger. *)
Lemma create_delete_device k status a :
  NT_SUCCESS status = true -> a ∉ k_devices k -> IoDeleteDevice a (IoCreateDevice status a k) = Ok k.
Proof.
  intros Hs Ha. unfold IoDeleteDevice, IoCreateDevice. rewrite Hs.
  rewrite decide_True by (simpl; set_solver). simpl. rewrite union_difference_new by done.
  by destruct k.
Qed.

Lemma alloc_free_pool k a : a ∉ k_pool k -> ExFreePool a (ExAllocatePool (Some a) k) = Ok k.
Proof.
  intros Ha. unfold ExFreePool, ExAllocatePool. rewrite decide_True by (simpl; set_solver). simpl.
  rewrite union_difference_new by done. by destruct k.
Qed.

Lemma open_close k status h :
  NT_SUCCESS status = true -> h ∉ k_handles k -> ZwClose h (ZwOpenKey status h k) = Ok k.
Proof.
  intros Hs Ha. unfold ZwClose, ZwOpenKey. rewrite Hs. rewrite decide_True by (simpl; set_solver). simpl.
  rewrite union_difference_new by done. by destruct k.
Qed.

(** Closing a key commutes with an allocation made in between. *)
Lemma open_alloc_close k status h a :
  NT_SUCCESS status = true -> h ∉ k_handles k ->
  ZwClose h (ExAllocatePool a (ZwOpenKey status h k)) = Ok (ExAllocatePool a k).
Proof.
  intros Hs Hh. unfold ZwClose, ZwOpenKey. rewrite Hs.
  destruct a; simpl; rewrite decide_True by set_solver; simpl; rewrite union_difference_new by done; by destruct k.
Qed.

Lemma register_unregister k status f :
  NT_SUCCESS status = true -> f ∉ k_filters k ->
  FltUnregisterFilter f (FltRegisterFilter status f k) = Ok k.
Proof.
  intros Hs Ha. unfold FltUnregisterFilter, FltRegisterFilter. rewrite Hs.
  rewrite decide_True by (simpl; set_solver). simpl.
  rewrite union_difference_new by done. by destruct k.
Qed.

(** Deallocations and creations of other kinds of objects do not interfere. *)
Lemma refs_ref_deref o o' k : refs_of o' (ObDeref o (ObRef o k)) = refs_of o' k.
Proof.
  unfold refs_of, ObDeref, ObRef. simpl. rewrite lookup_insert_eq. simpl.
  destruct (decide (o = o')) as [->|Hne].
  - rewrite lookup_insert_eq. simpl. lia.
  - by rewrite !lookup_insert_ne.
Qed.

Definition kernel0 : Kernel := mkKernel ∅ ∅ ∅ ∅ ∅ ∅ ∅ ∅.
