(* ===== verification/Net.v ===== *)
(** * The network driver (driver/net)

    The connection table of net_connect.c, the frame builders of net_wsk.c and
    net_heartbeat.c, and the entry point and life cycle of net_driver.c. Each
    routine is one step on the extension, as when the calls follow one another:
    connecting and disconnecting change the table under the connection lock, but
    the heartbeat, the block request and response and the cleanup test
    [IsActive] without it. *)

From S2P Require Import Prelude Nt Kernel Serial Frame.

Definition HD_NET_MAX_CONNECTIONS : Z := 64.
Definition AF_INET : Z := 2.

Record SOCKADDR_IN : Type := mkSockaddr { sin_family : Z; sin_port : Z; sin_addr : Z }.

Record HD_NET_CONNECTION : Type := mkConn {
  IsActive : bool;
  ServerAddr : SOCKADDR_IN;
  RetryCount : Z;
  ConnectEvent : KEVENT;
  SendEvent : KEVENT;
  RecvEvent : KEVENT;
}.

Record HD_NET_EXTENSION : Type := mkNet {
  ConnectionCount : Z;
  Connections : list HD_NET_CONNECTION;
  NextFrameId : Z;
}.

Record HD_BLOCK_REQUEST : Type := mkRequest {
  rq_ImageId : Z;
  rq_BlockOffset : Z;
  rq_BlockCount : Z;
  rq_LayerId : Z;
  rq_IsWrite : Z;
}.

Definition zero_event : KEVENT := mkEvent 0 false.
Definition zero_conn : HD_NET_CONNECTION :=
  mkConn false (mkSockaddr 0 0 0) 0 zero_event zero_event zero_event.

Definition set_active (b : bool) (c : HD_NET_CONNECTION) : HD_NET_CONNECTION :=
  mkConn b (ServerAddr c) (RetryCount c) (ConnectEvent c) (SendEvent c) (RecvEvent c).

(** ** Operations *)

Definition HdNetInitialize (n : HD_NET_EXTENSION) : Z * HD_NET_EXTENSION :=
  (STATUS_SUCCESS, mkNet 0 (replicate 64 zero_conn) 1).

Definition RtlUshortByteSwap (p : Z) : Z :=
  Z.lor (Z.shiftl (Z.land p 0xFF) 8) (Z.shiftr (u16 p) 8).

(** What the loop body stores in the slot it takes. *)
Definition open_conn (Port : Z) : HD_NET_CONNECTION :=
  mkConn true (mkSockaddr AF_INET (RtlUshortByteSwap Port) 0) 0 zero_event zero_event zero_event.

(** The scan for a free slot from index [i]; [todo] counts the slots left. *)
Fixpoint free_slot (todo : nat) (i : nat) (cs : list HD_NET_CONNECTION) : res (option nat) :=
  match todo with
  | O => Ok None
  | S t =>
      let* c := of_opt (cs !! i) in
      if negb (IsActive c) then Ok (Some i) else free_slot t (S i) cs
  end.

(** Status, index written to [*ConnIdx] if any, new extension. The address
    string is not used by the code. *)
Definition HdNetConnect (addr : list Z) (Port : Z) (n : HD_NET_EXTENSION)
    : res (Z * option Z * HD_NET_EXTENSION) :=
  let* slot := free_slot (Z.to_nat HD_NET_MAX_CONNECTIONS) 0 (Connections n) in
  match slot with
  | Some i =>
      Ok (STATUS_SUCCESS, Some (Z.of_nat i),
          mkNet (u32 (ConnectionCount n + 1)) (<[i := open_conn Port]> (Connections n)) (NextFrameId n))
  | None => Ok (STATUS_INSUFFICIENT_RESOURCES, None, n)
  end.

Definition HdNetDisconnect (ConnIdx : Z) (n : HD_NET_EXTENSION) : res (Z * HD_NET_EXTENSION) :=
  if HD_NET_MAX_CONNECTIONS <=? ConnIdx then Ok (STATUS_INVALID_PARAMETER, n)
  else
    let* c := of_opt (Connections n !! Z.to_nat ConnIdx) in
    Ok (STATUS_SUCCESS,
        mkNet (u32 (ConnectionCount n - 1))
              (<[Z.to_nat ConnIdx := set_active false c]> (Connections n)) (NextFrameId n)).

Fixpoint cleanup_loop (todo : nat) (i : Z) (n : HD_NET_EXTENSION) : res HD_NET_EXTENSION :=
  match todo with
  | O => Ok n
  | S t =>
      let* c := of_opt (Connections n !! Z.to_nat i) in
      let* n := (if IsActive c then let* r := HdNetDisconnect i n in Ok r.2 else Ok n) in
      cleanup_loop t (i + 1) n
  end.
Definition HdNetCleanup (n : HD_NET_EXTENSION) : res HD_NET_EXTENSION :=
  cleanup_loop (Z.to_nat HD_NET_MAX_CONNECTIONS) 0 n.

(** The guard shared by the three routines that use a connection. *)
Definition conn_usable (ConnIdx : Z) (n : HD_NET_EXTENSION) : res bool :=
  if HD_NET_MAX_CONNECTIONS <=? ConnIdx then Ok false
  else let* c := of_opt (Connections n !! Z.to_nat ConnIdx) in Ok (IsActive c).

(** [InterlockedIncrement] on the frame counter: new value and new extension. *)
Definition next_frame_id (n : HD_NET_EXTENSION) : Z * HD_NET_EXTENSION :=
  let id := u32 (NextFrameId n + 1) in (id, mkNet (ConnectionCount n) (Connections n) id).

(** The frame builders return the header they leave in their local variable:
    the code drops it and sends nothing. *)
Definition HdNetSendHeartbeat (ConnIdx TerminalId : Z) (n : HD_NET_EXTENSION)
    : res (Z * option HD_NET_FRAME_HEADER * HD_NET_EXTENSION) :=
  let* ok := conn_usable ConnIdx n in
  if negb ok then Ok (STATUS_INVALID_PARAMETER, None, n)
  else
    let (frameId, n) := next_frame_id n in
    Ok (STATUS_SUCCESS, Some (mkHeader HD_MAGIC HD_VERSION 0x10 0 frameId 0 TerminalId 0 0 0 [0; 0; 0]), n).

Definition HdNetSendBlockRequest (ConnIdx : Z) (Request : HD_BLOCK_REQUEST) (DataLen : Z)
    (n : HD_NET_EXTENSION) : res (Z * option HD_NET_FRAME_HEADER * HD_NET_EXTENSION) :=
  let* ok := conn_usable ConnIdx n in
  if negb ok then Ok (STATUS_INVALID_PARAMETER, None, n)
  else
    let (frameId, n) := next_frame_id n in
    Ok (STATUS_SUCCESS,
        Some (mkHeader HD_MAGIC HD_VERSION (if rq_IsWrite Request =? 0 then 0x01 else 0x03) 0 frameId DataLen
                       (rq_ImageId Request) (rq_BlockOffset Request) (rq_BlockCount Request)
                       (rq_LayerId Request) [0; 0; 0]), n).

(** Response, buffer and length are left untouched. *)
Definition HdNetRecvBlockResponse (ConnIdx : Z) (n : HD_NET_EXTENSION) : res Z :=
  let* ok := conn_usable ConnIdx n in
  Ok (if negb ok then STATUS_INVALID_PARAMETER else STATUS_SUCCESS).

(** ** Entry point

    [create_st], [dev] and [link_st] are what the kernel answers. The result
    has the status, the channel, the ledger and the three dispatch slots the
    routine assigns ([false]: NULL). *)
Record NetDispatch : Type := mkNetDispatch { has_create : bool; has_close : bool; has_control : bool; has_unload : bool }.

Definition net_link : string := "\DosDevices\HyperDiskNet".

Definition NetDriverEntry (lsr : nat -> Z) (create_st dev link_st : Z) (s : HD_SERIAL_DEBUG) (u : Uart) (k : Kernel)
    : res (Z * (HD_SERIAL_DEBUG * Uart) * Kernel * option NetDispatch) :=
  let '(s, u) := HdSerialInitialize lsr s u in
  let '(s, u) := HdSerialWriteString lsr (zstr "[HDx:NET_LOADED] HDNet DriverEntry" ++ crlf) s u in
  let k := IoCreateDevice create_st dev k in
  if negb (NT_SUCCESS create_st) then
    let w := HdSerialWriteString lsr (zstr "[HDx:NET_LOADED] IoCreateDevice failed" ++ crlf) s u in
    Ok (create_st, w, k, None)
  else
    let k := IoCreateSymbolicLink link_st net_link k in
    if negb (NT_SUCCESS link_st) then
      let* k := IoDeleteDevice dev k in
      Ok (link_st, (s, u), k, None)
    else
      let w := HdSerialWriteString lsr (zstr "[HDx:NET_LOADED] HDNet device created, ready for HDBlk" ++ crlf) s u in
      Ok (STATUS_SUCCESS, w, k, Some (mkNetDispatch false false false false)).

(** ** The table as a set of active slots *)

Fixpoint active_count (cs : list HD_NET_CONNECTION) : Z :=
  match cs with
  | [] => 0
  | c :: r => (if IsActive c then 1 else 0) + active_count r
  end.

Definition net_wf (n : HD_NET_EXTENSION) : Prop := length (Connections n) = 64%nat.

Lemma active_count_nonneg cs : 0 <= active_count cs <= Z.of_nat (length cs).
Proof. induction cs as [|c cs IH]; simpl; [lia|]. destruct (IsActive c); lia. Qed.

Lemma active_count_insert cs i c c' :
  cs !! i = Some c ->
  active_count (<[i:=c']> cs) =
  active_count cs - (if IsActive c then 1 else 0) + (if IsActive c' then 1 else 0).
Proof.
  revert i; induction cs as [|d cs IH]; intros i Hi; [done|].
  destruct i as [|i]; simpl in *; [simplify_eq; lia|]. rewrite (IH i Hi). lia.
Qed.

Lemma slot_lookup n i : net_wf n -> 0 <= i < 64 -> exists c, Connections n !! Z.to_nat i = Some c.
Proof. intros Hwf Hi. apply lookup_lt_is_Some. unfold net_wf in Hwf. lia. Qed.

(** The scan finds the lowest inactive slot. *)
Lemma free_slot_spec cs : forall todo i,
  (i + todo = length cs)%nat ->
  (forall j c, (j < i)%nat -> cs !! j = Some c -> IsActive c = true) ->
  (exists k c, free_slot todo i cs = Ok (Some k) /\ cs !! k = Some c /\ IsActive c = false /\
     (forall j c, (j < k)%nat -> cs !! j = Some c -> IsActive c = true)) \/
  (free_slot todo i cs = Ok None /\ forall j c, cs !! j = Some c -> IsActive c = true).
Proof.
  induction todo as [|t IH]; intros i Hlen Hlow; simpl.
  - right. split; [done|]. intros j c Hj. apply (Hlow j c); [|done]. apply lookup_lt_Some in Hj. lia.
  - destruct (lookup_lt_is_Some_2 cs i ltac:(lia)) as [c Hc]. rewrite Hc. simpl.
    destruct (IsActive c) eqn:Ea; simpl; [|left; eauto 10].
    apply IH; [lia|]. intros j d Hj Hd. destruct (decide (j = i)) as [->|]; [by simplify_eq|].
    apply (Hlow j d); [lia|done].
Qed.

Lemma connect_spec addr Port n :
  net_wf n ->
  (exists i c, Connections n !! i = Some c /\ IsActive c = false /\
     (forall j c, (j < i)%nat -> Connections n !! j = Some c -> IsActive c = true) /\
     HdNetConnect addr Port n =
       Ok (STATUS_SUCCESS, Some (Z.of_nat i),
           mkNet (u32 (ConnectionCount n + 1)) (<[i := open_conn Port]> (Connections n)) (NextFrameId n))) \/
  ((forall j c, Connections n !! j = Some c -> IsActive c = true) /\
   HdNetConnect addr Port n = Ok (STATUS_INSUFFICIENT_RESOURCES, None, n)).
Proof.
  intros Hwf. unfold HdNetConnect, HD_NET_MAX_CONNECTIONS.
  destruct (free_slot_spec (Connections n) (Z.to_nat 64) 0) as [(k & c & -> & Hk & Hi & Hlow)|[-> Hall]];
    [unfold net_wf in Hwf; lia | intros; lia | left; eauto 10 | right; eauto].
Qed.

Lemma disconnect_spec i n :
  net_wf n -> 0 <= i < 64 ->
  exists c, Connections n !! Z.to_nat i = Some c /\
    HdNetDisconnect i n =
      Ok (STATUS_SUCCESS, mkNet (u32 (ConnectionCount n - 1))
            (<[Z.to_nat i := set_active false c]> (Connections n)) (NextFrameId n)).
Proof.
  intros Hwf Hi. destruct (slot_lookup n i Hwf Hi) as [c Hc]. exists c. split; [done|].
  unfold HdNetDisconnect, HD_NET_MAX_CONNECTIONS. destruct (Z.leb_spec 64 i); [lia|]. by rewrite Hc.
Qed.

Lemma insert_wf n i c k f : net_wf n -> net_wf (mkNet k (<[i:=c]> (Connections n)) f).
Proof. unfold net_wf. simpl. by rewrite length_insert. Qed.

Lemma connect_count addr Port n :
  net_wf n ->
  exists st r n', HdNetConnect addr Port n = Ok (st, r, n') /\ net_wf n' /\ NextFrameId n' = NextFrameId n /\
    u32 (ConnectionCount n' - active_count (Connections n')) = u32 (ConnectionCount n - active_count (Connections n)).
Proof.
  intros Hwf. destruct (connect_spec addr Port n Hwf) as [(i & c & Hi & Hc & _ & ->)|[_ ->]].
  - do 3 eexists. split; [done|]. split; [by apply insert_wf|]. split; [done|]. simpl.
    rewrite (active_count_insert _ _ _ _ Hi), Hc. unfold u32. rewrite wrap_sub_l. f_equal. simpl. lia.
  - do 3 eexists. done.
Qed.

(** Disconnecting keeps the difference between counter and active slots when
    the slot was active, and lowers it by one when it was not. *)
Lemma disconnect_count i c n :
  net_wf n -> 0 <= i < 64 -> Connections n !! Z.to_nat i = Some c ->
  exists n', HdNetDisconnect i n = Ok (STATUS_SUCCESS, n') /\ net_wf n' /\ NextFrameId n' = NextFrameId n /\
    Connections n' = <[Z.to_nat i := set_active false c]> (Connections n) /\
    u32 (ConnectionCount n' - active_count (Connections n')) =
      u32 (ConnectionCount n - active_count (Connections n) - (if IsActive c then 0 else 1)).
Proof.
  intros Hwf Hi Hc. destruct (disconnect_spec i n Hwf Hi) as (d & Hd & ->). simplify_eq.
  eexists. split; [done|]. split; [by apply insert_wf|]. do 2 (split; [done|]). simpl.
  rewrite (active_count_insert _ _ _ _ Hc). unfold u32. rewrite wrap_sub_l. f_equal. simpl.
  destruct (IsActive c); lia.
Qed.

Lemma cleanup_loop_spec : forall todo i n,
  net_wf n -> 0 <= i -> (Z.to_nat i + todo = 64)%nat ->
  (forall j c, (j < Z.to_nat i)%nat -> Connections n !! j = Some c -> IsActive c = false) ->
  exists n', cleanup_loop todo i n = Ok n' /\ net_wf n' /\ NextFrameId n' = NextFrameId n /\
    (forall j c, Connections n' !! j = Some c -> IsActive c = false) /\
    u32 (ConnectionCount n' - active_count (Connections n')) =
      u32 (ConnectionCount n - active_count (Connections n)).
Proof.
  induction todo as [|t IH]; intros i n Hwf Hi Hlen Hlow; simpl.
  - exists n. do 3 (split; [done|]). split; [|done]. intros j c Hj. apply (Hlow j c); [|done].
    apply lookup_lt_Some in Hj. unfold net_wf in Hwf. lia.
  - destruct (slot_lookup n i Hwf ltac:(lia)) as [c Hc]. rewrite Hc. simpl.
    assert (forall m d, Connections m !! Z.to_nat i = Some d -> IsActive d = false ->
      (forall j, j <> Z.to_nat i -> Connections m !! j = Connections n !! j) ->
      forall j e, (j < Z.to_nat (i + 1))%nat -> Connections m !! j = Some e -> IsActive e = false) as Hext.
    { intros m d Hd Hf Ho j e Hj He. destruct (decide (j = Z.to_nat i)) as [->|Hne]; [by simplify_eq|].
      apply (Hlow j e); [lia|]. by rewrite <- Ho. }
    destruct (IsActive c) eqn:Ea; simpl.
    + destruct (disconnect_count i c n Hwf ltac:(lia) Hc) as (n1 & -> & Hwf1 & Hid & Hcs & Hcnt). simpl.
      destruct (IH (i + 1) n1) as (n' & -> & ? & Hid' & ? & Hcnt'); [done|lia|lia| |].
      { apply (Hext n1 (set_active false c)); [|done|].
        - rewrite Hcs. apply list_lookup_insert_eq. apply lookup_lt_Some in Hc. done.
        - intros j Hj. rewrite Hcs. by apply list_lookup_insert_ne. }
      exists n'. do 2 (split; [done|]). split; [congruence|]. split; [done|]. rewrite Hcnt', Hcnt, Ea. f_equal. lia.
    + destruct (IH (i + 1) n) as (n' & -> & ? & ? & ? & ?); [done|lia|lia| |eauto 10].
      by apply (Hext n c).
Qed.

(** The counter stays a 32-bit value. *)
Lemma cleanup_loop_u32 todo : forall i n n',
  u32 (ConnectionCount n) = ConnectionCount n -> cleanup_loop todo i n = Ok n' ->
  u32 (ConnectionCount n') = ConnectionCount n'.
Proof.
  induction todo as [|t IH]; intros i n n' Hr E; simpl in E; [by simplify_eq|].
  destruct (Connections n !! Z.to_nat i) as [c|] eqn:Hc; [|done]. simpl in E.
  destruct (IsActive c); simpl in E; [|by apply (IH _ _ _ Hr E)].
  unfold HdNetDisconnect in E. destruct (_ <=? _); simpl in E; [by apply (IH _ _ _ Hr E)|].
  rewrite Hc in E. simpl in E. apply IH in E; [done|]. apply wrap_idemp. lia.
Qed.

(** ** Sequences of calls *)

Inductive net_op : Type :=
| OpConnect (Port : Z)
| OpDisconnect (ConnIdx : Z)
| OpCleanup
| OpHeartbeat (ConnIdx TerminalId : Z)
| OpSend (ConnIdx : Z) (Request : HD_BLOCK_REQUEST) (DataLen : Z).

(** One call, with the number of disconnections of idle slots so far and the
    frame ids handed out so far. *)
Definition net_do (o : net_op) (x : HD_NET_EXTENSION * Z * list Z) : res (HD_NET_EXTENSION * Z * list Z) :=
  let '(n, idle, ids) := x in
  match o with
  | OpConnect Port => let* r := HdNetConnect [] Port n in Ok (r.2, idle, ids)
  | OpDisconnect i =>
      let* r := HdNetDisconnect i n in
      Ok (r.2, idle + (match Connections n !! Z.to_nat i with
                       | Some c => if (i <? 64) && negb (IsActive c) then 1 else 0
                       | None => 0 end), ids)
  | OpCleanup => let* n' := HdNetCleanup n in Ok (n', idle, ids)
  | OpHeartbeat i t =>
      let* r := HdNetSendHeartbeat i t n in
      Ok (r.2, idle, ids ++ match r.1.2 with Some h => [FrameId h] | None => [] end)
  | OpSend i q l =>
      let* r := HdNetSendBlockRequest i q l n in
      Ok (r.2, idle, ids ++ match r.1.2 with Some h => [FrameId h] | None => [] end)
  end.

Fixpoint net_run (os : list net_op) (x : HD_NET_EXTENSION * Z * list Z) : res (HD_NET_EXTENSION * Z * list Z) :=
  match os with
  | [] => Ok x
  | o :: r => let* x := net_do o x in net_run r x
  end.

(** Slot indices are unsigned. *)
Definition op_ok (o : net_op) : bool :=
  match o with
  | OpDisconnect i | OpHeartbeat i _ | OpSend i _ _ => 0 <=? i
  | _ => true
  end.

Definition net_inv (x : HD_NET_EXTENSION * Z * list Z) : Prop :=
  let '(n, idle, ids) := x in
  net_wf n /\ u32 (ConnectionCount n) = ConnectionCount n /\
  u32 (ConnectionCount n - active_count (Connections n)) = u32 (- idle) /\
  NextFrameId n = u32 (1 + Z.of_nat (length ids)) /\
  (forall j id, ids !! j = Some id -> id = u32 (2 + Z.of_nat j)).

Lemma conn_usable_total i n : net_wf n -> 0 <= i -> exists b, conn_usable i n = Ok b.
Proof.
  intros Hwf Hi. unfold conn_usable, HD_NET_MAX_CONNECTIONS. destruct (Z.leb_spec 64 i); [eauto|].
  destruct (slot_lookup n i Hwf ltac:(lia)) as [c ->]. simpl. eauto.
Qed.

(** A frame id taken by either builder keeps the invariant. *)
Lemma inv_next_id n idle ids :
  net_inv (n, idle, ids) -> net_inv ((next_frame_id n).2, idle, ids ++ [(next_frame_id n).1]).
Proof.
  unfold net_inv, next_frame_id, net_wf; simpl. intros (Hwf & Hr & Hc & Hn & Hids).
  do 3 (split; [done|]). rewrite Hn, length_app. simpl. unfold u32. rewrite wrap_add_l. split; [f_equal; lia|].
  intros j id Hj. destruct (decide (j < length ids)%nat) as [Hlt|Hge].
  - rewrite lookup_app_l in Hj by done. by apply Hids.
  - rewrite lookup_app_r in Hj by lia. destruct (j - length ids)%nat eqn:E; [|done]. simpl in Hj. simplify_eq.
    f_equal. lia.
Qed.

Lemma net_do_inv o x :
  op_ok o = true -> net_inv x -> exists x', net_do o x = Ok x' /\ net_inv x'.
Proof.
  destruct x as [[n idle] ids]. intros Ho Hinv. pose proof Hinv as (Hwf & Hr & Hc & Hn & Hids).
  destruct o as [Port|i| |i t|i q l]; simpl in *.
  - destruct (connect_spec [] Port n Hwf) as [(i & c & Hi & Hcf & _ & E)|[_ E]]; rewrite E; simpl; [|eauto].
    eexists. split; [done|]. destruct (connect_count [] Port n Hwf) as (st & r & n' & E' & Hwf' & Hid & Hcnt).
    rewrite E in E'. injection E' as <- <- <-. split; [done|]. split; [apply wrap_idemp; lia|].
    split; [by rewrite Hcnt|]. done.
  - destruct (Z.leb_spec 64 i) as [Hge|Hlt].
    + unfold HdNetDisconnect, HD_NET_MAX_CONNECTIONS. destruct (Z.leb_spec 64 i); [|lia]. simpl.
      destruct (Z.ltb_spec i 64); [lia|]. eexists. split; [done|].
      by destruct (Connections n !! Z.to_nat i); simpl; rewrite Z.add_0_r.
    + bool_props. destruct (slot_lookup n i Hwf ltac:(lia)) as [c Hci].
      destruct (disconnect_spec i n Hwf ltac:(lia)) as (d & Hd & E). assert (d = c) as -> by congruence.
      destruct (disconnect_count i c n Hwf ltac:(lia) Hci) as (n' & E' & Hwf' & Hid & _ & Hcnt).
      rewrite E in E'. injection E' as <-. rewrite E. simpl. eexists. split; [done|]. rewrite Hci.
      destruct (Z.ltb_spec i 64); [|lia]. simpl. split; [done|]. split; [apply wrap_idemp; lia|].
      split; [|done]. simpl in Hcnt. rewrite Hcnt. unfold u32 in Hc |- *.
      rewrite <- wrap_sub_l, Hc, wrap_sub_l. f_equal. destruct (IsActive c); simpl; lia.
  - unfold HdNetCleanup, HD_NET_MAX_CONNECTIONS.
    destruct (cleanup_loop_spec (Z.to_nat 64) 0 n Hwf) as (n' & E & Hwf' & Hid & _ & Hcnt); [lia|lia|intros; lia|].
    rewrite E. simpl. eexists. split; [done|]. split; [done|]. rewrite Hcnt, Hid. split; [|done].
    by apply (cleanup_loop_u32 _ _ _ _ Hr E).
  - unfold HdNetSendHeartbeat. bool_props. destruct (conn_usable_total i n Hwf Ho) as [[] ->]; simpl.
    + eexists. split; [done|]. by apply inv_next_id.
    + rewrite app_nil_r. eauto.
  - unfold HdNetSendBlockRequest. bool_props. destruct (conn_usable_total i n Hwf Ho) as [[] ->]; simpl.
    + eexists. split; [done|]. by apply inv_next_id.
    + rewrite app_nil_r. eauto.
Qed.

Lemma net_run_inv os : forall x,
  forallb op_ok os = true -> net_inv x -> exists x', net_run os x = Ok x' /\ net_inv x'.
Proof.
  induction os as [|o os IH]; intros x Hos Hx; simpl in *; [eauto|]. apply andb_true_iff in Hos as [Ho Hos].
  destruct (net_do_inv o x Ho Hx) as (x1 & -> & Hx1). simpl. by apply IH.
Qed.

Lemma init_inv n : net_inv ((HdNetInitialize n).2, 0, []).
Proof. unfold net_inv, HdNetInitialize, net_wf. simpl. by repeat split. Qed.

(** ** Properties *)

(** C24. Any sequence of connects, disconnects, cleanups, heartbeats and block
    requests after initialisation runs without an access outside the table, and
    at its end the connection counter is the number of active slots minus the
    number of times an idle slot was disconnected (modulo 2^32): it counts the
    connections exactly when every disconnect hits an active slot. *)
Theorem net_counter_law os n0 :
  forallb op_ok os = true ->
  exists n idle ids, net_run os ((HdNetInitialize n0).2, 0, []) = Ok (n, idle, ids) /\
    ConnectionCount n = u32 (active_count (Connections n) - idle).
Proof.
  intros Hos. destruct (net_run_inv os _ Hos (init_inv n0)) as ([[n idle] ids] & -> & Hwf & Hr & Hc & _).
  exists n, idle, ids. split; [done|]. rewrite <- Hr. unfold u32 in *.
  replace (ConnectionCount n) with (ConnectionCount n - active_count (Connections n) + active_count (Connections n)) by lia.
  rewrite <- wrap_add_l, Hc, wrap_add_l. f_equal. lia.
Qed.

Lemma net_counter_law_witness :
  exists n idle ids, net_run [OpConnect 9527; OpHeartbeat 0 7; OpDisconnect 0; OpDisconnect 0]
      ((HdNetInitialize (mkNet 0 [] 0)).2, 0, []) = Ok (n, idle, ids) /\
    ConnectionCount n = u32 (active_count (Connections n) - idle).
Proof. apply net_counter_law. reflexivity. Defined.

(** The bookkeeping really drifts: connect, then disconnect twice. *)
Example net_counter_drift :
  match net_run [OpConnect 9527; OpDisconnect 0; OpDisconnect 0] ((HdNetInitialize (mkNet 0 [] 0)).2, 0, []) with
  | Ok (n, _, _) => ConnectionCount n = 4294967295 /\ active_count (Connections n) = 0
  | _ => False
  end.
Proof. vm_compute. split; reflexivity. Qed.

(** The frame ids handed out by any sequence of calls after initialisation
    start at 2 and are pairwise different as long as fewer than 2^32 frames have
    been built. *)
Theorem net_frame_ids_unique os n0 n idle ids :
  forallb op_ok os = true ->
  net_run os ((HdNetInitialize n0).2, 0, []) = Ok (n, idle, ids) ->
  Z.of_nat (length ids) <= 2 ^ 32 ->
  NoDup ids /\ (forall id, ids !! 0%nat = Some id -> id = 2).
Proof.
  intros Hos Hrun Hlen. destruct (net_run_inv os _ Hos (init_inv n0)) as (x & E & Hinv).
  assert (x = (n, idle, ids)) as -> by congruence. destruct Hinv as (_ & _ & _ & _ & Hids).
  split; [|intros id Hid; by rewrite (Hids _ _ Hid)].
  apply NoDup_alt. intros i j id Hi Hj. pose proof (lookup_lt_Some _ _ _ Hi). pose proof (lookup_lt_Some _ _ _ Hj).
  pose proof (Hids _ _ Hi) as E1. pose proof (Hids _ _ Hj) as E2. rewrite E2 in E1. clear -E1 H H0 Hlen.
  mach.
Qed.

Definition sample_ops : list net_op := [OpConnect 9527; OpHeartbeat 0 7; OpHeartbeat 5 7; OpHeartbeat 0 8].
Definition net_result (os : list net_op) : HD_NET_EXTENSION * Z * list Z :=
  match net_run os ((HdNetInitialize (mkNet 0 [] 0)).2, 0, []) with
  | Ok x => x
  | _ => (mkNet 0 [] 0, 0, [])
  end.

Lemma net_frame_ids_unique_witness : NoDup [2; 3] /\ (forall id, [2; 3] !! 0%nat = Some id -> id = 2).
Proof.
  apply (net_frame_ids_unique sample_ops (mkNet 0 [] 0) (net_result sample_ops).1.1 0 [2; 3]);
    [reflexivity | vm_compute; reflexivity | simpl; lia].
Defined.

(** Connecting takes the lowest free slot and touches no other one; it fails
    exactly when all 64 slots are active. The slot is then usable until it is
    disconnected, which puts the counter back. Nothing of the server address
    reaches the slot: the address field is zero whatever the caller passed. *)
Theorem net_connect_lowest addr Port n :
  net_wf n -> u32 (ConnectionCount n) = ConnectionCount n ->
  (exists i n', HdNetConnect addr Port n = Ok (STATUS_SUCCESS, Some (Z.of_nat i), n') /\ (i < 64)%nat /\
     (forall j c, (j < i)%nat -> Connections n !! j = Some c -> IsActive c = true) /\
     (forall j, j <> i -> Connections n' !! j = Connections n !! j) /\
     Connections n' !! i = Some (open_conn Port) /\ sin_addr (ServerAddr (open_conn Port)) = 0 /\
     conn_usable (Z.of_nat i) n = Ok false /\ conn_usable (Z.of_nat i) n' = Ok true /\
     exists n'', HdNetDisconnect (Z.of_nat i) n' = Ok (STATUS_SUCCESS, n'') /\
       conn_usable (Z.of_nat i) n'' = Ok false /\ ConnectionCount n'' = ConnectionCount n) \/
  (HdNetConnect addr Port n = Ok (STATUS_INSUFFICIENT_RESOURCES, None, n) /\
   forall j c, Connections n !! j = Some c -> IsActive c = true).
Proof.
  intros Hwf Hr. destruct (connect_spec addr Port n Hwf) as [(i & c & Hi & Hc & Hlow & ->)|[Hall ->]]; [left|by right].
  pose proof (lookup_lt_Some _ _ _ Hi) as Hlt. unfold net_wf in Hwf.
  eexists i, _. split; [done|]. split; [lia|]. split; [done|].
  split; [intros j Hj; simpl; by apply list_lookup_insert_ne|].
  split; [simpl; by apply list_lookup_insert_eq|]. split; [done|].
  unfold HdNetDisconnect, conn_usable, HD_NET_MAX_CONNECTIONS. simpl. rewrite !Nat2Z.id, Hi.
  destruct (Z.leb_spec 64 (Z.of_nat i)); [lia|]. rewrite list_lookup_insert_eq by done. simpl.
  split; [by rewrite Hc|]. split; [done|]. eexists. split; [done|]. simpl.
  rewrite list_lookup_insert_eq by (by rewrite length_insert). split; [done|].
  rewrite <- Hr at 2. unfold u32. rewrite wrap_sub_l. f_equal. lia.
Qed.

Lemma net_connect_lowest_witness :
  exists i n', HdNetConnect (zstr "10.0.0.1") 9527 (HdNetInitialize (mkNet 0 [] 0)).2 = Ok (STATUS_SUCCESS, Some (Z.of_nat i), n') /\
    (i < 64)%nat.
Proof.
  destruct (net_connect_lowest (zstr "10.0.0.1") 9527 (HdNetInitialize (mkNet 0 [] 0)).2) as [(i & n' & E & Hi & _)|[E _]];
    [reflexivity | reflexivity | eauto |]. vm_compute in E. discriminate E.
Defined.

(** The driver's entry point either succeeds, leaving one device and its
    link, or fails with the kernel's status and leaves the ledger as it was. *)
Theorem net_entry_no_leak lsr create_st dev link_st s u k :
  dev ∉ k_devices k ->
  exists w k' d,
    NetDriverEntry lsr create_st dev link_st s u k =
      Ok (if negb (NT_SUCCESS create_st) then create_st
          else if negb (NT_SUCCESS link_st) then link_st else STATUS_SUCCESS, w, k', d) /\
    (if NT_SUCCESS create_st && NT_SUCCESS link_st
     then k' = set_klinks ({[net_link]} ∪ k_links k) (set_devices ({[dev]} ∪ k_devices k) k) /\ is_Some d
     else k' = k /\ d = None).
Proof.
  intros Hdev. unfold NetDriverEntry.
  destruct (HdSerialInitialize lsr s u) as [s1 u1]. destruct (HdSerialWriteString lsr _ s1 u1) as [s2 u2].
  destruct (NT_SUCCESS create_st) eqn:E1; simpl.
  - unfold IoCreateSymbolicLink. destruct (NT_SUCCESS link_st) eqn:E2; simpl.
    + do 3 eexists. split; [done|]. unfold IoCreateDevice. rewrite E1. eauto.
    + rewrite create_delete_device by done. simpl. do 3 eexists. done.
  - unfold IoCreateDevice. rewrite E1. do 3 eexists. done.
Qed.

Lemma net_entry_no_leak_witness :
  exists w k' d,
    NetDriverEntry always_ready 0 5 STATUS_INSUFFICIENT_RESOURCES serial0 uart0 kernel0 =
      Ok (STATUS_INSUFFICIENT_RESOURCES, w, k', d) /\ k' = kernel0 /\ d = None.
Proof. apply (net_entry_no_leak always_ready 0 5 STATUS_INSUFFICIENT_RESOURCES serial0 uart0 kernel0). set_solver. Defined.
