(* ===== verification/Overlay.v ===== *)
(** * The write overlay filter (driver/overlay)

    Redirected writes are kept as dirty pages, each a pool block with its own
    data block, on a LIST_ENTRY ring. The pool is two heaps (page records and
    data blocks); allocation outcomes are arguments. *)

From S2P Require Import Prelude Nt ListEntry Kernel Serial.

Definition HD_OVERLAY_RAM_SIZE_DEFAULT_MB : Z := 4096.
Definition HD_OVERLAY_BLOCK_SIZE : Z := 4096.
Definition HD_OVERLAY_MAX_DIRTY_PAGES : Z := 1048576.

(** A dirty page, without the links it contains; [Data] is an address. *)
Record HD_OVERLAY_DIRTY_PAGE : Type := mkPage {
  BlockOffset : Z;
  Data : Z;
  Size : Z;
  IsDirty : bool;
}.

(** The extension and the pool behind it. *)
Record HD_OVERLAY_EXTENSION : Type := mkOverlay {
  RamOverlayBase : Z;
  RamOverlaySize : Z;
  BlockSize : Z;
  DirtyPageCount : Z;
  WalEnabled : bool;
  IsStarted : bool;
  o_links : Links;
  o_pages : gmap Z HD_OVERLAY_DIRTY_PAGE;
  o_data : gmap Z (list Z);
}.

Section Overlay.
(** The address of [DirtyListHead] in the extension. *)
Context (head : Z).

(** Updates of the list part of the extension. *)
Definition set_store (n : Z) (m : Links) (p : gmap Z HD_OVERLAY_DIRTY_PAGE) (d : gmap Z (list Z))
    (x : HD_OVERLAY_EXTENSION) : HD_OVERLAY_EXTENSION :=
  mkOverlay (RamOverlayBase x) (RamOverlaySize x) (BlockSize x) n (WalEnabled x) (IsStarted x) m p d.

(** One turn of the synchronisation loop. *)
Definition sync_one (x : HD_OVERLAY_EXTENSION) : res HD_OVERLAY_EXTENSION :=
  let* r := RemoveHeadList head (o_links x) in
  let (entry, m) := (r : Z * Links) in
  let* page := of_opt (o_pages x !! entry) in
  let* data :=
    (if negb (Data page =? 0) then
       let* _ := of_opt (o_data x !! Data page) in Ok (delete (Data page) (o_data x))
     else Ok (o_data x)) in
  Ok (set_store (u32 (DirtyPageCount x - 1)) (free_node entry m) (delete entry (o_pages x)) data x).

Fixpoint sync_loop (fuel : nat) (x : HD_OVERLAY_EXTENSION) : res HD_OVERLAY_EXTENSION :=
  match fuel with
  | O => NoFuel
  | S f =>
      let* empty := IsListEmpty head (o_links x) in
      if empty : bool then Ok x else let* x := sync_one x in sync_loop f x
  end.

Definition HdOverlaySyncDirtyPages (fuel : nat) (x : HD_OVERLAY_EXTENSION) : res (Z * HD_OVERLAY_EXTENSION) :=
  let* x := sync_loop fuel x in Ok (STATUS_SUCCESS, x).

Definition HdOverlayInvalidateAll (fuel : nat) (x : HD_OVERLAY_EXTENSION) : res HD_OVERLAY_EXTENSION :=
  let* r := HdOverlaySyncDirtyPages fuel x in Ok r.2.

(** [page_a] and [data_a] are the addresses the two allocations return. *)
Definition HdOverlayWriteRedirect (fuel : nat) (page_a data_a : option Z) (offset : Z) (src : list Z) (size : Z)
    (x : HD_OVERLAY_EXTENSION) : res (Z * HD_OVERLAY_EXTENSION) :=
  if RamOverlayBase x =? 0 then Ok (STATUS_INSUFFICIENT_RESOURCES, x)
  else
    let* x :=
      (if HD_OVERLAY_MAX_DIRTY_PAGES <=? DirtyPageCount x
       then let* r := HdOverlaySyncDirtyPages fuel x in Ok r.2 else Ok x) in
    match page_a with
    | None => Ok (STATUS_INSUFFICIENT_RESOURCES, x)
    | Some page =>
        let m := alloc_node page (o_links x) in
        match data_a with
        | None => Ok (STATUS_INSUFFICIENT_RESOURCES, set_store (DirtyPageCount x) (free_node page m) (delete page (o_pages x)) (o_data x) x)
        | Some data =>
            let* bytes := rd_bytes src 0 size in
            let pages := <[page := mkPage offset data size true]> (o_pages x) in
            let* m := InsertTailList head page m in
            Ok (STATUS_SUCCESS,
                set_store (u32 (DirtyPageCount x + 1)) m pages (<[data := bytes]> (o_data x)) x)
        end
    end.

Definition HdOverlayPreWrite (x : HD_OVERLAY_EXTENSION) : FLT_PREOP :=
  if negb (IsStarted x) then FLT_PREOP_SUCCESS_NO_CALLBACK else FLT_PREOP_SUCCESS_WITH_CALLBACK.
Definition HdOverlayPostWrite (x : HD_OVERLAY_EXTENSION) : FLT_POSTOP := FLT_POSTOP_FINISHED_PROCESSING.

(** ** Life cycle

    [base] is the outcome of the large allocation, [reg_st], [filter] and
    [start_st] those of the filter manager. [ov_filter] is [g_FilterHandle]. *)
Record OverlayState : Type := mkOvState {
  ov_ext : HD_OVERLAY_EXTENSION;
  ov_filter : Z;
  ov_kernel : Kernel;
  ov_serial : HD_SERIAL_DEBUG * Uart;
}.

Definition HdOverlayFilterSetup (lsr : nat -> Z) (base : option Z) (reg_st filter start_st : Z) (g : OverlayState)
    : res (Z * OverlayState) :=
  let x := ov_ext g in
  let w := ov_serial g in
  let ram := default 0 base in
  let x := mkOverlay ram (HD_OVERLAY_RAM_SIZE_DEFAULT_MB * 1024 * 1024) HD_OVERLAY_BLOCK_SIZE 0 false false
                     (InitializeListHead head (o_links x)) (o_pages x) (o_data x) in
  let k := ExAllocatePool base (ov_kernel g) in
  let k := FltRegisterFilter reg_st filter k in
  if negb (NT_SUCCESS reg_st) then
    let w := HdSerialWriteString lsr (zstr "[HDx:OVERLAY_LOADED] FltRegisterFilter failed" ++ crlf) w.1 w.2 in
    Ok (reg_st, mkOvState x (ov_filter g) k w)
  else if negb (NT_SUCCESS start_st) then
    let w := HdSerialWriteString lsr (zstr "[HDx:OVERLAY_LOADED] FltStartFiltering failed" ++ crlf) w.1 w.2 in
    let* k := FltUnregisterFilter filter k in
    Ok (start_st, mkOvState x 0 k w)
  else
    let x := mkOverlay (RamOverlayBase x) (RamOverlaySize x) (BlockSize x) (DirtyPageCount x) (WalEnabled x) true
                       (o_links x) (o_pages x) (o_data x) in
    let w := HdSerialWriteString lsr (zstr "[HDx:OVERLAY_LOADED] HyperOverlay MiniFilter started" ++ crlf) w.1 w.2 in
    Ok (STATUS_SUCCESS, mkOvState x filter k w).

Definition HdOverlayFilterUnload (lsr : nat -> Z) (g : OverlayState) : res OverlayState :=
  let* k := (if negb (ov_filter g =? 0) then FltUnregisterFilter (ov_filter g) (ov_kernel g) else Ok (ov_kernel g)) in
  let x := ov_ext g in
  let* k := (if negb (RamOverlayBase x =? 0) then ExFreePool (RamOverlayBase x) k else Ok k) in
  let x := mkOverlay 0 (RamOverlaySize x) (BlockSize x) (DirtyPageCount x) (WalEnabled x) false
                     (o_links x) (o_pages x) (o_data x) in
  let w := HdSerialWriteString lsr (zstr "[HDx:OVERLAY_LOADED] HyperOverlay unloaded" ++ crlf) (ov_serial g).1 (ov_serial g).2 in
  Ok (mkOvState x 0 k w).

Definition OverlayDriverEntry (lsr : nat -> Z) (base : option Z) (reg_st filter start_st : Z) (g : OverlayState)
    : res (Z * OverlayState) :=
  let w := HdSerialInitialize lsr (ov_serial g).1 (ov_serial g).2 in
  HdOverlayFilterSetup lsr base reg_st filter start_st (mkOvState (ov_ext g) (ov_filter g) (ov_kernel g) w).

(** ** Specification: a log of redirected writes *)

(** The extension holds the pages [l] with the data blocks [dl], one each. *)
Definition overlay_repr (x : HD_OVERLAY_EXTENSION) (l : list (Z * HD_OVERLAY_DIRTY_PAGE)) (dl : list (Z * list Z)) : Prop :=
  holds (o_links x) (o_pages x) head l /\
  (forall d b, o_data x !! d = Some b <-> (d, b) ∈ dl) /\ NoDup (0 :: dl.*1) /\
  Data <$> l.*2 = dl.*1 /\
  DirtyPageCount x = u32 (Z.of_nat (length l)).

Definition write_log (l : list (Z * HD_OVERLAY_DIRTY_PAGE)) (dl : list (Z * list Z)) : list (Z * list Z) :=
  zip (BlockOffset <$> l.*2) dl.*2.

Lemma sync_one_spec x a p l d b dl :
  overlay_repr x ((a, p) :: l) ((d, b) :: dl) ->
  exists x', sync_one x = Ok x' /\ overlay_repr x' l dl /\
    RamOverlayBase x' = RamOverlayBase x /\ IsStarted x' = IsStarted x.
Proof.
  intros (Hh & Hdata & Hnd & Hmatch & Hc). unfold sync_one.
  destruct (holds_drop _ _ _ [] _ _ _ Hh) as (m & Hrem & Hh'). pose proof Hh as [Hd Hp].
  unfold RemoveHeadList. rewrite (dlist_first _ _ _ Hd). simpl. rewrite Hrem. simpl.
  rewrite (holds_lookup _ _ _ [] _ _ _ Hh). simpl.
  simpl in Hmatch. injection Hmatch as Hpd Hmatch. simpl in Hnd.
  apply NoDup_cons in Hnd as [H0 Hnd]. pose proof Hnd as [Hdn Hnd']%NoDup_cons.
  assert (o_data x !! d = Some b) as Hdb by (apply Hdata; set_solver).
  rewrite Hpd. destruct (Z.eqb_spec d 0) as [->|_]; [set_solver|]. rewrite Hdb. simpl.
  eexists. split; [done|]. split; [|done]. split; [done|]. simpl. split_and!.
  - intros d' b'. destruct (decide (d' = d)) as [->|Hne].
    + rewrite lookup_delete_eq. split; [done|]. intros Hin. by apply holds_key in Hin.
    + rewrite lookup_delete_ne by done. rewrite Hdata. set_solver.
  - constructor; [set_solver|done].
  - done.
  - rewrite Hc. unfold u32. rewrite wrap_sub_l. f_equal. simpl. lia.
Qed.

(** The loop empties the ring and both heaps. *)
Lemma sync_loop_spec : forall l dl fuel x,
  overlay_repr x l dl -> (length l < fuel)%nat ->
  exists x', sync_loop fuel x = Ok x' /\ overlay_repr x' [] [] /\
    RamOverlayBase x' = RamOverlayBase x /\ IsStarted x' = IsStarted x.
Proof.
  induction l as [|[a p] l IH]; intros dl fuel x Hr Hf; (destruct fuel as [|f]; [simpl in Hf; lia|]); simpl;
    pose proof Hr as ((Hd & _) & _ & _ & Hm & _); rewrite (IsListEmpty_spec _ _ _ Hd); simpl.
  - destruct dl as [|[d b] dl]; [|done]. eauto 10.
  - destruct dl as [|[d b] dl]; [done|].
    destruct (sync_one_spec x a p l d b dl Hr) as (x1 & -> & Hr1 & Hb1 & Hs1). simpl.
    destruct (IH dl f x1 Hr1) as (x' & -> & ? & ? & ?); [simpl in Hf; lia|]. exists x'. split_and!; congruence.
Qed.

Lemma repr_empty x : overlay_repr x [] [] -> o_pages x = ∅ /\ o_data x = ∅ /\ DirtyPageCount x = 0.
Proof.
  intros ((_ & Hp) & Hd & _ & _ & Hc). split_and!; [| |done]; apply map_empty; intros a.
  - destruct (o_pages x !! a) as [e|] eqn:E; [|done]. apply Hp in E. set_solver.
  - destruct (o_data x !! a) as [e|] eqn:E; [|done]. apply Hd in E. set_solver.
Qed.

(** What is left, of the pages or of anything that goes with them, when a write
    has made room: nothing when the counter had reached its bound. The two
    allocations come after that, so they may return blocks just freed. *)
Definition kept {A} (x : HD_OVERLAY_EXTENSION) (l : list A) : list A :=
  if HD_OVERLAY_MAX_DIRTY_PAGES <=? DirtyPageCount x then [] else l.

(** The state just before the allocations. *)
Lemma make_room x l dl fuel :
  overlay_repr x l dl -> (length l < fuel)%nat ->
  exists x1,
    (if HD_OVERLAY_MAX_DIRTY_PAGES <=? DirtyPageCount x
     then let* r := HdOverlaySyncDirtyPages fuel x in Ok r.2 else Ok x) = Ok x1 /\
    overlay_repr x1 (kept x l) (kept x dl) /\ write_log (kept x l) (kept x dl) = kept x (write_log l dl) /\
    RamOverlayBase x1 = RamOverlayBase x /\ (length (kept x l) <= length l)%nat /\
    (Z.of_nat (length l) <= HD_OVERLAY_MAX_DIRTY_PAGES -> Z.of_nat (length (kept x l)) < HD_OVERLAY_MAX_DIRTY_PAGES).
Proof.
  intros Hr Hf. unfold kept. destruct (Z.leb_spec HD_OVERLAY_MAX_DIRTY_PAGES (DirtyPageCount x)) as [Hge|Hlt].
  - destruct (sync_loop_spec l dl fuel x Hr Hf) as (x1 & E & Hr1 & Hb & _).
    unfold HdOverlaySyncDirtyPages. rewrite E. simpl. exists x1. split_and!; try done. simpl. lia.
  - exists x. split_and!; try done. intros Hl. destruct Hr as (_ & _ & _ & _ & Hc).
    unfold u32, HD_OVERLAY_MAX_DIRTY_PAGES in *. rewrite wrap_small in Hc by lia. lia.
Qed.

Lemma insert_page_spec x l dl page data offset size bytes :
  overlay_repr x l dl -> page ∉ head :: l.*1 -> data <> 0 -> data ∉ dl.*1 ->
  exists m, InsertTailList head page (alloc_node page (o_links x)) = Ok m /\
    overlay_repr (set_store (u32 (DirtyPageCount x + 1)) m (<[page := mkPage offset data size true]> (o_pages x))
                    (<[data := bytes]> (o_data x)) x)
                 (l ++ [(page, mkPage offset data size true)]) (dl ++ [(data, bytes)]).
Proof.
  intros (Hh & Hdata & Hnd & Hm & Hc) Hpage Hz Hd.
  destruct (holds_add _ _ _ _ page (mkPage offset data size true) Hh Hpage) as (m & -> & Hh'). exists m. split; [done|].
  split; [done|]. simpl. rewrite !fmap_app, Hm. simpl. split_and!.
  - intros d b. destruct (decide (d = data)) as [->|Hne].
    + rewrite lookup_insert_eq. split; [intros [= ->]; set_solver|].
      rewrite elem_of_app, list_elem_of_singleton. intros [Hin|[= ->]]; [|done]. by apply holds_key in Hin.
    + rewrite lookup_insert_ne by done. rewrite Hdata. set_solver.
  - apply NoDup_cons in Hnd as [Hn0 Hnd]. constructor; [set_solver|]. apply NoDup_app. split_and!; [done|set_solver|].
    apply NoDup_singleton.
  - done.
  - rewrite Hc, length_app. unfold u32. rewrite wrap_add_l. f_equal. simpl. lia.
Qed.

Lemma log_snoc l dl page data offset size bytes :
  length l = length dl ->
  write_log (l ++ [(page, mkPage offset data size true)]) (dl ++ [(data, bytes)]) =
  write_log l dl ++ [(offset, bytes)].
Proof.
  intros Hl. unfold write_log. rewrite !fmap_app. simpl.
  rewrite zip_with_app by (by rewrite !length_fmap). done.
Qed.

Lemma repr_lengths x l dl : overlay_repr x l dl -> length l = length dl.
Proof.
  intros (_ & _ & _ & Hm & _). apply (f_equal length) in Hm. by rewrite !length_fmap in Hm.
Qed.

(** A write whose two allocations succeed, in terms of the representation. *)
Lemma write_spec fuel page data offset src size x l dl :
  overlay_repr x l dl -> (length l < fuel)%nat -> RamOverlayBase x <> 0 ->
  page ∉ head :: (kept x l).*1 -> data <> 0 -> data ∉ (kept x dl).*1 -> 0 <= size <= Z.of_nat (length src) ->
  exists x' l' dl',
    HdOverlayWriteRedirect fuel (Some page) (Some data) offset src size x = Ok (STATUS_SUCCESS, x') /\
    overlay_repr x' l' dl' /\ RamOverlayBase x' = RamOverlayBase x /\
    write_log l' dl' = kept x (write_log l dl) ++ [(offset, take (Z.to_nat size) src)] /\
    (Z.of_nat (length l) <= HD_OVERLAY_MAX_DIRTY_PAGES -> Z.of_nat (length l') <= HD_OVERLAY_MAX_DIRTY_PAGES).
Proof.
  intros Hr Hf Hb Hpage Hz Hd Hs. unfold HdOverlayWriteRedirect.
  destruct (Z.eqb_spec (RamOverlayBase x) 0); [done|].
  destruct (make_room x l dl fuel Hr Hf) as (x1 & -> & Hr1 & Hlog & Hb1 & _ & Hmax). simpl.
  rewrite rd_bytes_ok by lia. rewrite drop_0. cbn [res_bind].
  destruct (insert_page_spec x1 _ _ page data offset size (take (Z.to_nat size) src) Hr1 Hpage Hz Hd) as (m & -> & Hr'). simpl.
  do 3 eexists. split; [done|]. split; [exact Hr'|]. split; [done|].
  rewrite log_snoc by (by apply (repr_lengths x1)). rewrite Hlog. split; [done|].
  intros Hl. specialize (Hmax Hl). rewrite length_app. simpl. lia.
Qed.

Lemma alloc_free_repr x l dl page n :
  overlay_repr x l dl -> page ∉ head :: l.*1 -> n = DirtyPageCount x ->
  overlay_repr (set_store n (free_node page (alloc_node page (o_links x))) (delete page (o_pages x)) (o_data x) x) l dl.
Proof.
  intros ((Hd & Hp) & Hrest) Hpage ->. split; [|done]. split.
  - simpl. apply dlist_free; [|by apply dlist_alloc]. set_solver.
  - simpl. intros a e. rewrite <- Hp. destruct (decide (a = page)) as [->|Hne].
    + rewrite lookup_delete_eq. split; [done|]. intros Ha. apply Hp in Ha. apply holds_key in Ha. set_solver.
    + by rewrite lookup_delete_ne.
Qed.

(** ** Reachable states *)

Inductive overlay_step : HD_OVERLAY_EXTENSION -> HD_OVERLAY_EXTENSION -> Prop :=
| ov_write fuel page_a data_a offset src sz x st x' :
    HdOverlayWriteRedirect fuel page_a data_a offset src sz x = Ok (st, x') ->
    (forall a, page_a = Some a -> a <> head /\ (DirtyPageCount x < HD_OVERLAY_MAX_DIRTY_PAGES -> o_pages x !! a = None)) ->
    (forall d, data_a = Some d -> d <> 0 /\ (DirtyPageCount x < HD_OVERLAY_MAX_DIRTY_PAGES -> o_data x !! d = None)) ->
    0 <= sz <= Z.of_nat (length src) -> (size (o_pages x) < fuel)%nat ->
    overlay_step x x'
| ov_sync fuel x st x' :
    HdOverlaySyncDirtyPages fuel x = Ok (st, x') -> (size (o_pages x) < fuel)%nat -> overlay_step x x'
| ov_invalidate fuel x x' :
    HdOverlayInvalidateAll fuel x = Ok x' -> (size (o_pages x) < fuel)%nat -> overlay_step x x'.

Definition overlay_inv (x : HD_OVERLAY_EXTENSION) : Prop :=
  exists l dl, overlay_repr x l dl /\ Z.of_nat (length l) <= HD_OVERLAY_MAX_DIRTY_PAGES.

Lemma repr_sizes x l dl : overlay_repr x l dl -> size (o_pages x) = length l /\ size (o_data x) = length dl.
Proof.
  intros ((Hd & Hp) & Hdata & Hnd & _). split; apply heap_size; try done.
  - by destruct Hd as [[_ ?]%NoDup_cons _].
  - by apply NoDup_cons in Hnd as [_ ?].
Qed.

(** A fresh address of either heap is not on the list that describes it. *)
Lemma repr_fresh x l dl :
  overlay_repr x l dl ->
  (forall a, a <> head -> (DirtyPageCount x < HD_OVERLAY_MAX_DIRTY_PAGES -> o_pages x !! a = None) -> a ∉ head :: (kept x l).*1) /\
  (forall d, (DirtyPageCount x < HD_OVERLAY_MAX_DIRTY_PAGES -> o_data x !! d = None) -> d ∉ (kept x dl).*1).
Proof.
  intros ((_ & Hp) & Hdata & _). unfold kept. destruct (Z.leb_spec HD_OVERLAY_MAX_DIRTY_PAGES (DirtyPageCount x)); [set_solver|]. split.
  - intros a Hne Ha Hin. apply elem_of_cons in Hin as [|Hin]; [done|]. specialize (Ha ltac:(done)).
    apply list_elem_of_fmap in Hin as ([b e] & -> & Hin). apply Hp in Hin. simpl in Ha. congruence.
  - intros d Hd Hin. specialize (Hd ltac:(done)). apply list_elem_of_fmap in Hin as ([b e] & -> & Hin). apply Hdata in Hin. simpl in Hd. congruence.
Qed.

Lemma sync_inv fuel x st x' :
  overlay_inv x -> (size (o_pages x) < fuel)%nat -> HdOverlaySyncDirtyPages fuel x = Ok (st, x') -> overlay_inv x'.
Proof.
  intros (l & dl & Hr & _) Hf E. destruct (repr_sizes _ _ _ Hr) as [Hsz _].
  destruct (sync_loop_spec l dl fuel x Hr ltac:(lia)) as (x1 & E1 & Hr1 & _).
  unfold HdOverlaySyncDirtyPages in E. rewrite E1 in E. simpl in E. simplify_eq.
  exists [], []. split; [done|]. unfold HD_OVERLAY_MAX_DIRTY_PAGES. simpl. lia.
Qed.

Lemma write_inv fuel page_a data_a offset src sz x st x' :
  overlay_inv x -> (size (o_pages x) < fuel)%nat ->
  (forall a, page_a = Some a -> a <> head /\ (DirtyPageCount x < HD_OVERLAY_MAX_DIRTY_PAGES -> o_pages x !! a = None)) ->
  (forall d, data_a = Some d -> d <> 0 /\ (DirtyPageCount x < HD_OVERLAY_MAX_DIRTY_PAGES -> o_data x !! d = None)) ->
  0 <= sz <= Z.of_nat (length src) ->
  HdOverlayWriteRedirect fuel page_a data_a offset src sz x = Ok (st, x') -> overlay_inv x'.
Proof.
  intros (l & dl & Hr & Hmax) Hf Hpa Hda Hs E. destruct (repr_sizes _ _ _ Hr) as [Hsz _].
  destruct (repr_fresh _ _ _ Hr) as [Hfp Hfd].
  destruct (Z.eqb_spec (RamOverlayBase x) 0) as [Hb|Hb].
  { unfold HdOverlayWriteRedirect in E. apply Z.eqb_eq in Hb. rewrite Hb in E. simplify_eq. by exists l, dl. }
  destruct page_a as [page|], data_a as [data|].
  1: { destruct (Hpa page eq_refl) as [Hp1 Hp2]. destruct (Hda data eq_refl) as [Hd1 Hd2].
       destruct (write_spec fuel page data offset src sz x l dl) as (x1 & l1 & dl1 & E1 & Hr1 & _ & _ & Hm);
         [done|lia|done|auto..|]. rewrite E1 in E. simplify_eq. exists l1, dl1. auto. }
  all: unfold HdOverlayWriteRedirect in E; (destruct (Z.eqb_spec (RamOverlayBase x) 0); [done|]);
    destruct (make_room x l dl fuel Hr ltac:(lia)) as (x1 & E1 & Hr1 & _ & _ & Hl1 & _);
    rewrite E1 in E; simpl in E; simplify_eq; exists (kept x l), (kept x dl); (split; [|lia]); try done.
  destruct (Hpa page eq_refl) as [Hq1 Hq2]. apply alloc_free_repr; auto.
Qed.

Lemma overlay_step_inv x x' : overlay_inv x -> overlay_step x x' -> overlay_inv x'.
Proof.
  intros Hinv Hs. inv Hs.
  - eapply write_inv; eauto.
  - eapply sync_inv; eauto.
  - match goal with H : HdOverlayInvalidateAll _ _ = _ |- _ => unfold HdOverlayInvalidateAll in H; rename H into E end.
    destruct (HdOverlaySyncDirtyPages fuel x) as [[st x1]| |] eqn:E1; [|done..]. simpl in E. simplify_eq.
    eapply sync_inv; eauto.
Qed.
End Overlay.

(** ** Properties *)

(** C5. A redirected write whose two allocations succeed appends one record,
    its offset and a private copy of its bytes, to the log of retained writes;
    earlier records survive unless the counter had reached 1048576, in which
    case all of them are dropped first (synchronising writes nothing back). The
    allocations come after the drop: they return addresses no retained page or
    data block has, which may be those of blocks the drop has just freed. No
    freed block is touched. The overlay is set up, and the caller's buffer holds
    at least the size it names. *)
Theorem overlay_write_refines head fuel page data offset src size x l dl :
  overlay_repr head x l dl -> (length l < fuel)%nat -> RamOverlayBase x <> 0 ->
  page ∉ head :: (kept x l).*1 -> data <> 0 -> data ∉ (kept x dl).*1 -> 0 <= size <= Z.of_nat (length src) ->
  exists x' l' dl',
    HdOverlayWriteRedirect head fuel (Some page) (Some data) offset src size x = Ok (STATUS_SUCCESS, x') /\
    overlay_repr head x' l' dl' /\
    write_log l' dl' =
      (if HD_OVERLAY_MAX_DIRTY_PAGES <=? DirtyPageCount x then [] else write_log l dl) ++
      [(offset, take (Z.to_nat size) src)].
Proof.
  intros. destruct (write_spec head fuel page data offset src size x l dl) as (x' & l' & dl' & ? & ? & _ & ? & _); eauto 10.
Qed.

(** In every state reachable from an empty overlay by writes (with any
    allocation failing), synchronisations and invalidations, the page records
    and the data blocks are equal in number, the counter is that number, and it
    never exceeds 1048576. *)
Theorem overlay_bounded head x0 x :
  overlay_repr head x0 [] [] -> rtc (overlay_step head) x0 x ->
  Z.of_nat (size (o_pages x)) = DirtyPageCount x /\ Z.of_nat (size (o_data x)) = DirtyPageCount x /\
  DirtyPageCount x <= HD_OVERLAY_MAX_DIRTY_PAGES.
Proof.
  intros H0 Hrtc.
  assert (overlay_inv head x0) as Hinv by (exists [], []; split; [done|unfold HD_OVERLAY_MAX_DIRTY_PAGES; simpl; lia]).
  assert (overlay_inv head x) as (l & dl & Hr & Hmax).
  { clear H0. induction Hrtc as [|a b c Hs _ IH]; [done|]. apply IH. by apply (overlay_step_inv head a). }
  destruct (repr_sizes _ _ _ _ Hr) as [-> ->]. rewrite <- (repr_lengths _ _ _ _ Hr).
  destruct Hr as (_ & _ & _ & _ & ->). unfold HD_OVERLAY_MAX_DIRTY_PAGES in *. unfold u32.
  rewrite wrap_small by lia. lia.
Qed.

(** Synchronising terminates, frees every page and data block exactly once
    and leaves an empty overlay: the retained writes are discarded, although
    the routine reports success. *)
Theorem overlay_sync_discards head fuel x l dl :
  overlay_repr head x l dl -> (length l < fuel)%nat ->
  exists x', HdOverlaySyncDirtyPages head fuel x = Ok (STATUS_SUCCESS, x') /\
    overlay_repr head x' [] [] /\ o_pages x' = ∅ /\ o_data x' = ∅ /\ DirtyPageCount x' = 0.
Proof.
  intros Hr Hf. destruct (sync_loop_spec head l dl fuel x Hr Hf) as (x' & E & Hr' & _).
  exists x'. unfold HdOverlaySyncDirtyPages. rewrite E. split; [done|]. split; [done|]. by apply repr_empty in Hr'.
Qed.

(** When the filter cannot be registered or started, set-up reports the
    failure with no filter left behind, but the 4 GiB block it allocated stays
    allocated. *)
Theorem overlay_setup_failure_leaks head lsr base reg_st filter start_st g :
  filter ∉ k_filters (ov_kernel g) -> NT_SUCCESS reg_st && NT_SUCCESS start_st = false ->
  exists st g', HdOverlayFilterSetup head lsr (Some base) reg_st filter start_st g = Ok (st, g') /\
    NT_SUCCESS st = false /\ IsStarted (ov_ext g') = false /\
    k_filters (ov_kernel g') = k_filters (ov_kernel g) /\ base ∈ k_pool (ov_kernel g').
Proof.
  intros Hf Hst. unfold HdOverlayFilterSetup. destruct (NT_SUCCESS reg_st) eqn:E1; simpl.
  - simpl in Hst. rewrite Hst. simpl. unfold FltRegisterFilter. rewrite E1. unfold FltUnregisterFilter. simpl.
    rewrite decide_True by set_solver. simpl. do 2 eexists. split; [done|]. split_and!; try done; simpl; set_solver.
  - unfold FltRegisterFilter. rewrite E1. do 2 eexists. split; [done|]. split_and!; try done; simpl; set_solver.
Qed.

(** ** Witnesses *)

Definition overlay0 : HD_OVERLAY_EXTENSION :=
  mkOverlay 64 4294967296 4096 0 false true (InitializeListHead 8 (mkLinks ∅ ∅)) ∅ ∅.

Lemma overlay0_repr : overlay_repr 8 overlay0 [] [].
Proof.
  split; [apply holds_init|]. split_and!; try done.
  - intros d b. simpl. rewrite lookup_empty. set_solver.
  - apply NoDup_singleton.
Qed.

Definition overlay_after (r : res (Z * HD_OVERLAY_EXTENSION)) : HD_OVERLAY_EXTENSION :=
  match r with
  | Ok (_, x) => x
  | _ => overlay0
  end.
Definition overlay1 : HD_OVERLAY_EXTENSION :=
  overlay_after (HdOverlayWriteRedirect 8 5 (Some 100) (Some 200) 4096 [1; 2; 3] 2 overlay0).

(** An overlay with any number of pages, at consecutive addresses. *)
Lemma overlay_filled n : exists x l dl, overlay_repr 8 x l dl /\ length l = n /\ RamOverlayBase x <> 0 /\
  forall a, a ∈ l.*1 \/ a ∈ dl.*1 -> 100 <= a < 100 + Z.of_nat n.
Proof.
  induction n as [|n (x & l & dl & Hr & Hl & Hb & Ha)].
  { exists overlay0, [], []. split; [apply overlay0_repr|]. split_and!; [done|done|]. set_solver. }
  set (a := 100 + Z.of_nat n). assert (a ∉ l.*1 /\ a ∉ dl.*1) as [H1 H2].
  { split; intros Hin; [specialize (Ha a (or_introl Hin))|specialize (Ha a (or_intror Hin))]; lia. }
  destruct (insert_page_spec 8 x l dl a a 4096 1 [7] Hr) as (m & _ & Hr'); [|lia|done|].
  { apply not_elem_of_cons. split; [lia|done]. }
  do 3 eexists. split; [exact Hr'|]. rewrite length_app, Hl. split; [cbn; lia|]. split; [done|].
  intros b. rewrite !fmap_app, !elem_of_app. cbn. rewrite !list_elem_of_singleton.
  intros [[Hb'| -> ]|[Hb'| -> ]]; [specialize (Ha b (or_introl Hb'))| |specialize (Ha b (or_intror Hb'))|]; lia.
Qed.

(** A first write, and a write to a full overlay whose allocations return the
    blocks that the drop freed. *)
Lemma overlay_write_refines_witness :
  (exists x' l' dl',
    HdOverlayWriteRedirect 8 5 (Some 100) (Some 200) 4096 [1; 2; 3] 2 overlay0 = Ok (STATUS_SUCCESS, x') /\
    overlay_repr 8 x' l' dl' /\ write_log l' dl' = [(4096, [1; 2])]) /\
  (exists x (l : list (Z * HD_OVERLAY_DIRTY_PAGE)) (dl : list (Z * list Z)) page data x' l' dl', Z.of_nat (length l) = HD_OVERLAY_MAX_DIRTY_PAGES /\ page ∈ l.*1 /\ data ∈ dl.*1 /\
    HdOverlayWriteRedirect 8 (S (length l)) (Some page) (Some data) 4096 [1; 2; 3] 2 x = Ok (STATUS_SUCCESS, x') /\
    overlay_repr 8 x' l' dl' /\ write_log l' dl' = [(4096, [1; 2])]).
Proof.
  split.
  - apply (overlay_write_refines 8 5 100 200 4096 [1; 2; 3] 2 overlay0 [] []);
      [apply overlay0_repr | simpl; lia | discriminate | set_solver | discriminate | set_solver | simpl; lia].
  - destruct (overlay_filled (Z.to_nat HD_OVERLAY_MAX_DIRTY_PAGES)) as (x & l & dl & Hr & Hl & Hb & Ha).
    assert (Z.of_nat (length l) = HD_OVERLAY_MAX_DIRTY_PAGES) as Hn by (rewrite Hl; apply Z2Nat.id; discriminate).
    pose proof (repr_lengths _ _ _ _ Hr) as Hdl.
    destruct l as [|[page pg] l]; [discriminate Hn|]. destruct dl as [|[data db] dl]; [discriminate Hdl|].
    assert (DirtyPageCount x = HD_OVERLAY_MAX_DIRTY_PAGES) as Hc by (destruct Hr as (_ & _ & _ & _ & ->); rewrite Hn; reflexivity).
    assert (page ∈ ((page, pg) :: l).*1) as Hpl by (cbn; left). assert (data ∈ ((data, db) :: dl).*1) as Hdd by (cbn; left).
    pose proof (Ha page (or_introl Hpl)) as Hp. pose proof (Ha data (or_intror Hdd)) as Hd.
    destruct (overlay_write_refines 8 (S (length ((page, pg) :: l))) page data 4096 [1; 2; 3] 2 x ((page, pg) :: l) ((data, db) :: dl))
      as (x' & l' & dl' & E & Hr' & Hlog); [exact Hr|lia|exact Hb| |lia| |simpl; lia|].
    + unfold kept. rewrite Hc. cbn [Z.leb Z.compare]. apply not_elem_of_cons. split; [lia|]. by intros Hin%elem_of_nil.
    + unfold kept. rewrite Hc. by intros Hin%elem_of_nil.
    + rewrite Hc in Hlog. exists x, ((page, pg) :: l), ((data, db) :: dl), page, data, x', l', dl'.
      split; [exact Hn|]. split; [exact Hpl|]. split; [exact Hdd|]. split; [exact E|]. split; [exact Hr'|exact Hlog].
Defined.

Lemma overlay_bounded_witness :
  Z.of_nat (size (o_pages overlay1)) = DirtyPageCount overlay1 /\
  Z.of_nat (size (o_data overlay1)) = DirtyPageCount overlay1 /\
  DirtyPageCount overlay1 <= HD_OVERLAY_MAX_DIRTY_PAGES.
Proof.
  apply (overlay_bounded 8 overlay0); [apply overlay0_repr|]. apply rtc_once.
  apply (ov_write 8 5 (Some 100) (Some 200) 4096 [1; 2; 3] 2 overlay0 STATUS_SUCCESS).
  - vm_compute. reflexivity.
  - intros a [= <-]. split; [discriminate|]. intros _. reflexivity.
  - intros d [= <-]. split; [discriminate|]. intros _. reflexivity.
  - simpl. lia.
  - vm_compute. lia.
Defined.

Lemma overlay1_repr : overlay_repr 8 overlay1 [(100, mkPage 4096 200 2 true)] [(200, [1; 2])].
Proof.
  destruct (insert_page_spec 8 overlay0 [] [] 100 200 4096 2 [1; 2] overlay0_repr) as (m & E & Hr);
    [set_solver | discriminate | set_solver |].
  vm_compute in E. injection E as <-. exact Hr.
Qed.

Lemma overlay_sync_discards_witness :
  exists x', HdOverlaySyncDirtyPages 8 2 overlay1 = Ok (STATUS_SUCCESS, x') /\
    overlay_repr 8 x' [] [] /\ o_pages x' = ∅ /\ o_data x' = ∅ /\ DirtyPageCount x' = 0.
Proof.
  apply (overlay_sync_discards 8 2 overlay1 [(100, mkPage 4096 200 2 true)] [(200, [1; 2])]);
    [apply overlay1_repr | simpl; lia].
Defined.

Lemma overlay_setup_failure_leaks_witness :
  exists st g', HdOverlayFilterSetup 8 always_ready (Some 64) 0 7 STATUS_NOT_FOUND
      (mkOvState overlay0 0 kernel0 (serial0, uart0)) = Ok (st, g') /\
    NT_SUCCESS st = false /\ IsStarted (ov_ext g') = false /\
    k_filters (ov_kernel g') = k_filters kernel0 /\ 64 ∈ k_pool (ov_kernel g').
Proof.
  apply (overlay_setup_failure_leaks 8 always_ready 64 0 7 STATUS_NOT_FOUND (mkOvState overlay0 0 kernel0 (serial0, uart0)));
    [set_solver | reflexivity].
Defined.
