(* ===== verification/Cache.v ===== *)
(** * The read cache filter (driver/cache)

    The level-1 cache is a single pool block; the heap [c_data] holds the blocks
    the driver has allocated for it. *)

From S2P Require Import Prelude Nt Kernel Serial.

Definition HD_CACHE_BLOCK_SIZE : Z := 4096.

(** [L1RamCache] is an address, 0 for NULL. *)
Record HD_CACHE_EXTENSION : Type := mkCache {
  L1RamCache : Z;
  L1CacheSize : Z;
  BlockSize : Z;
  CacheHitCount : Z;
  CacheMissCount : Z;
  IsStarted : bool;
  c_data : gmap Z (list Z);
}.

Definition set_l1 (a : Z) (d : gmap Z (list Z)) (x : HD_CACHE_EXTENSION) : HD_CACHE_EXTENSION :=
  mkCache a (L1CacheSize x) (BlockSize x) (CacheHitCount x) (CacheMissCount x) (IsStarted x) d.
Definition set_counts (h m : Z) (x : HD_CACHE_EXTENSION) : HD_CACHE_EXTENSION :=
  mkCache (L1RamCache x) (L1CacheSize x) (BlockSize x) h m (IsStarted x) (c_data x).
Definition set_started (b : bool) (x : HD_CACHE_EXTENSION) : HD_CACHE_EXTENSION :=
  mkCache (L1RamCache x) (L1CacheSize x) (BlockSize x) (CacheHitCount x) (CacheMissCount x) b (c_data x).

(** ** The level-1 cache *)

Definition HdCacheL1Lookup (offset : Z) (x : HD_CACHE_EXTENSION) : Z :=
  if negb (L1RamCache x =? 0) && (offset =? 0) then L1RamCache x else 0.

(** [alloc] is the address the allocation returns, if it is made. *)
Definition HdCacheL1Insert (alloc : option Z) (offset : Z) (src : list Z) (size : Z) (x : HD_CACHE_EXTENSION)
    : res (Z * HD_CACHE_EXTENSION) :=
  let* x :=
    (if (L1RamCache x =? 0) && (0 <? size) then
       match alloc with
       | Some a => let* bytes := rd_bytes src 0 size in Ok (set_l1 a (<[a:=bytes]> (c_data x)) x)
       | None => Ok (set_l1 0 (c_data x) x)
       end
     else Ok x) in
  Ok (if negb (L1RamCache x =? 0) then STATUS_SUCCESS else STATUS_INSUFFICIENT_RESOURCES, x).

Definition HdCacheL1Invalidate (offset : Z) (x : HD_CACHE_EXTENSION) : res HD_CACHE_EXTENSION :=
  if negb (L1RamCache x =? 0) then
    let* _ := of_opt (c_data x !! L1RamCache x) in
    Ok (set_l1 0 (delete (L1RamCache x) (c_data x)) x)
  else Ok x.

(** ** Callbacks

    The part of the callback data a filter that completes a read has to fill. *)
Record FLT_CALLBACK_DATA : Type := mkCallback {
  cb_ByteOffset : Z;
  cb_Length : Z;
  cb_Status : Z;
  cb_Information : Z;
  cb_Buffer : list Z;
}.

Definition HdCachePreRead (data : FLT_CALLBACK_DATA) (x : HD_CACHE_EXTENSION)
    : FLT_PREOP * FLT_CALLBACK_DATA * HD_CACHE_EXTENSION :=
  if negb (IsStarted x) then (FLT_PREOP_SUCCESS_WITH_CALLBACK, data, x)
  else
    let cached := HdCacheL1Lookup 0 x in
    if negb (cached =? 0) then
      (FLT_PREOP_COMPLETE, data, set_counts (u32 (CacheHitCount x + 1)) (CacheMissCount x) x)
    else
      (FLT_PREOP_SUCCESS_WITH_CALLBACK, data, set_counts (CacheHitCount x) (u32 (CacheMissCount x + 1)) x).

Definition HdCachePostRead (data : FLT_CALLBACK_DATA) (x : HD_CACHE_EXTENSION)
    : FLT_POSTOP * FLT_CALLBACK_DATA * HD_CACHE_EXTENSION := (FLT_POSTOP_FINISHED_PROCESSING, data, x).

Definition HdCachePreWrite (data : FLT_CALLBACK_DATA) (x : HD_CACHE_EXTENSION)
    : FLT_PREOP * FLT_CALLBACK_DATA * HD_CACHE_EXTENSION := (FLT_PREOP_SUCCESS_NO_CALLBACK, data, x).

(** ** Life cycle; [cg_filter] is [g_FilterHandle]. *)
Record CacheState : Type := mkCacheState {
  cg_ext : HD_CACHE_EXTENSION;
  cg_filter : Z;
  cg_kernel : Kernel;
  cg_serial : HD_SERIAL_DEBUG * Uart;
}.

Definition HdCacheFilterSetup (lsr : nat -> Z) (reg_st filter start_st : Z) (g : CacheState) : res (Z * CacheState) :=
  let x := mkCache 0 0 HD_CACHE_BLOCK_SIZE 0 0 false (c_data (cg_ext g)) in
  let w := cg_serial g in
  let k := FltRegisterFilter reg_st filter (cg_kernel g) in
  if negb (NT_SUCCESS reg_st) then
    let w := HdSerialWriteString lsr (zstr "[HDx:CACHE_LOADED] FltRegisterFilter failed" ++ crlf) w.1 w.2 in
    Ok (reg_st, mkCacheState x (cg_filter g) k w)
  else if negb (NT_SUCCESS start_st) then
    let w := HdSerialWriteString lsr (zstr "[HDx:CACHE_LOADED] FltStartFiltering failed" ++ crlf) w.1 w.2 in
    let* k := FltUnregisterFilter filter k in
    Ok (start_st, mkCacheState x 0 k w)
  else
    let w := HdSerialWriteString lsr (zstr "[HDx:CACHE_LOADED] HyperCache MiniFilter started" ++ crlf) w.1 w.2 in
    Ok (STATUS_SUCCESS, mkCacheState (set_started true x) filter k w).

Definition HdCacheFilterUnload (lsr : nat -> Z) (g : CacheState) : res CacheState :=
  let* k := (if negb (cg_filter g =? 0) then FltUnregisterFilter (cg_filter g) (cg_kernel g) else Ok (cg_kernel g)) in
  let w := HdSerialWriteString lsr (zstr "[HDx:CACHE_LOADED] HyperCache unloaded" ++ crlf) (cg_serial g).1 (cg_serial g).2 in
  Ok (mkCacheState (set_started false (cg_ext g)) 0 k w).

Definition CacheDriverEntry (lsr : nat -> Z) (reg_st filter start_st : Z) (g : CacheState) : res (Z * CacheState) :=
  let w := HdSerialInitialize lsr (cg_serial g).1 (cg_serial g).2 in
  HdCacheFilterSetup lsr reg_st filter start_st (mkCacheState (cg_ext g) (cg_filter g) (cg_kernel g) w).

(** ** Specification: the slot holds the first block inserted since the last
    invalidation *)

Inductive cache_op : Type :=
| CInsert (alloc : option Z) (offset : Z) (src : list Z) (size : Z)
| CInvalidate (offset : Z)
| CRead (data : FLT_CALLBACK_DATA)
| CWrite (data : FLT_CALLBACK_DATA).

Definition cache_do (o : cache_op) (x : HD_CACHE_EXTENSION) : res HD_CACHE_EXTENSION :=
  match o with
  | CInsert alloc offset src size => let* r := HdCacheL1Insert alloc offset src size x in Ok r.2
  | CInvalidate offset => HdCacheL1Invalidate offset x
  | CRead data => Ok (HdCachePreRead data x).2
  | CWrite data => Ok (HdCachePreWrite data x).2
  end.

Definition spec_do (o : cache_op) (s : option (list Z)) : option (list Z) :=
  match o, s with
  | CInsert (Some _) _ src size, None => if 0 <? size then Some (take (Z.to_nat size) src) else None
  | CInsert _ _ _ _, _ => s
  | CInvalidate _, _ => None
  | _, _ => s
  end.

Definition cache_op_ok (o : cache_op) : bool :=
  match o with
  | CInsert alloc _ src size =>
      (0 <=? size) && (size <=? Z.of_nat (length src)) && match alloc with Some a => negb (a =? 0) | None => true end
  | _ => true
  end.

(** The extension holds the block [s], and no other block is allocated. *)
Definition cache_repr (x : HD_CACHE_EXTENSION) (s : option (list Z)) : Prop :=
  match s with
  | None => L1RamCache x = 0 /\ c_data x = ∅
  | Some b => L1RamCache x <> 0 /\ c_data x = {[L1RamCache x := b]}
  end.

Fixpoint cache_run (os : list cache_op) (x : HD_CACHE_EXTENSION) : res HD_CACHE_EXTENSION :=
  match os with
  | [] => Ok x
  | o :: r => let* x := cache_do o x in cache_run r x
  end.

Lemma cache_do_spec o x s :
  cache_op_ok o = true -> cache_repr x s -> exists x', cache_do o x = Ok x' /\ cache_repr x' (spec_do o s).
Proof.
  intros Hok Hr. destruct o as [alloc offset src size|offset|data|data]; simpl in *.
  - bool_props. unfold HdCacheL1Insert. destruct s as [b|]; simpl in Hr; destruct Hr as [Ha Hd].
    + apply Z.eqb_neq in Ha as Ha'. rewrite Ha'. simpl. eexists. split; [done|]. by destruct alloc.
    + rewrite Ha. simpl. destruct (Z.ltb_spec 0 size) as [Hpos|Hpos].
      * destruct alloc as [a|]; simpl; [|eexists; split; [done|]; by split].
        bool_props. rewrite rd_bytes_ok by lia. simpl. eexists. split; [done|]. split; simpl; [done|].
        by rewrite Hd, insert_empty.
      * destruct alloc; simpl; eexists; (split; [done|]); by split.
  - unfold HdCacheL1Invalidate. destruct s as [b|]; simpl in Hr; destruct Hr as [Ha Hd].
    + apply Z.eqb_neq in Ha as Ha'. rewrite Ha'. simpl. rewrite Hd, lookup_singleton_eq. simpl. eexists. split; [done|].
      split; [done|]. simpl. by rewrite delete_singleton_eq.
    + rewrite Ha. simpl. eexists. split; [done|]. by split.
  - eexists. split; [done|]. unfold HdCachePreRead. by destruct (negb _), s; simpl; [..|destruct (negb _); done | destruct (negb _); done].
  - eexists. split; [done|]. done.
Qed.

Lemma cache_run_spec os : forall x s,
  forallb cache_op_ok os = true -> cache_repr x s ->
  exists x', cache_run os x = Ok x' /\ cache_repr x' (foldl (fun s o => spec_do o s) s os).
Proof.
  induction os as [|o os IH]; intros x s Hok Hr; simpl in *; [eauto|]. apply andb_true_iff in Hok as [Ho Hok].
  destruct (cache_do_spec o x s Ho Hr) as (x1 & -> & Hr1). simpl. by apply IH.
Qed.

(** What a client of the cache finds for an offset. *)
Definition cached_bytes (offset : Z) (x : HD_CACHE_EXTENSION) : option (list Z) :=
  let a := HdCacheL1Lookup offset x in if a =? 0 then None else c_data x !! a.

Definition cache_empty : HD_CACHE_EXTENSION := mkCache 0 0 HD_CACHE_BLOCK_SIZE 0 0 true ∅.

(** ** Properties *)

(** After any sequence of insertions, invalidations, reads and writes on an
    empty cache, looking up offset 0 yields the first block inserted since the
    last invalidation, whatever offset it was inserted for and however often
    offset 0 was inserted or written since; every other offset misses. At most
    one block is allocated and none is leaked. *)
Theorem cache_lookup_first_insert os offset :
  forallb cache_op_ok os = true ->
  exists x, cache_run os cache_empty = Ok x /\
    cached_bytes offset x = (if offset =? 0 then foldl (fun s o => spec_do o s) None os else None) /\
    (size (c_data x) <= 1)%nat.
Proof.
  intros Hok. destruct (cache_run_spec os cache_empty None Hok) as (x & E & Hr); [by split|].
  exists x. split; [done|]. unfold cached_bytes, HdCacheL1Lookup.
  destruct (foldl _ None os) as [b|]; simpl in Hr; destruct Hr as [Ha Hd].
  - apply Z.eqb_neq in Ha as Ha'. rewrite Ha', Hd, map_size_singleton. simpl. split; [|lia].
    destruct (offset =? 0); [|done]. by rewrite Ha', lookup_singleton_eq.
  - rewrite Ha, Hd, map_size_empty. simpl. split; [|lia]. by destruct (offset =? 0).
Qed.

Lemma cache_lookup_first_insert_witness :
  exists x, cache_run [CInsert (Some 16) 4096 [5; 6] 2; CInsert (Some 32) 0 [7; 8] 2] cache_empty = Ok x /\
    cached_bytes 0 x = Some [5; 6] /\ (size (c_data x) <= 1)%nat.
Proof. apply (cache_lookup_first_insert [CInsert (Some 16) 4096 [5; 6] 2; CInsert (Some 32) 0 [7; 8] 2] 0). reflexivity. Defined.

(** As soon as a block is cached, the filter completes every read itself,
    for any offset, and leaves the callback data (status, length and buffer) as
    it found it; without a cached block every read is passed down. Each read
    counts once, as a hit or as a miss. *)
Theorem cache_read_completes_empty data x s :
  cache_repr x s -> IsStarted x = true ->
  HdCachePreRead data x =
    (if s then FLT_PREOP_COMPLETE else FLT_PREOP_SUCCESS_WITH_CALLBACK, data,
     if s then set_counts (u32 (CacheHitCount x + 1)) (CacheMissCount x) x
     else set_counts (CacheHitCount x) (u32 (CacheMissCount x + 1)) x).
Proof.
  intros Hr Hs. unfold HdCachePreRead, HdCacheL1Lookup. rewrite Hs. simpl.
  destruct s; simpl in Hr; destruct Hr as [Ha _].
  - apply Z.eqb_neq in Ha as Ha'. rewrite Ha'. simpl. by rewrite Ha'.
  - by rewrite Ha.
Qed.

Lemma cache_read_completes_empty_witness :
  (HdCachePreRead (mkCallback 999 4 0 0 [0; 0; 0; 0]) (set_l1 16 {[16 := [5; 6]]} cache_empty)).1 =
  (FLT_PREOP_COMPLETE, mkCallback 999 4 0 0 [0; 0; 0; 0]).
Proof.
  rewrite (cache_read_completes_empty (mkCallback 999 4 0 0 [0; 0; 0; 0]) (set_l1 16 {[16 := [5; 6]]} cache_empty) (Some [5; 6])); [reflexivity | split; [simpl; lia | reflexivity] | reflexivity].
Defined.
