(* ===== verification/Disk.v ===== *)
(** * The virtual disk as its three drivers present it

    pnp_disk_driver.c, wdm_disk_driver.c and the bus driver's child devices
    (bus_pnp.c) answer the same disk requests with the same code. The cases of
    their device-control switches, the range check of reads and writes and the
    geometry they are initialised with are modelled once here; the drivers'
    files build their dispatch routines from them.

    The request structures (DISK_GEOMETRY and so on) come from the platform
    headers: their sizes are the parameter [sizeof], and a buffer holds the
    values of their fields rather than bytes. *)

From S2P Require Import Prelude Nt.

Definition HD_DISK_SIZE_GB : Z := 64.
Definition HD_SECTOR_SIZE : Z := 512.
Definition HD_DISK_SIZE : Z := u64 (HD_DISK_SIZE_GB * 1024 * 1024 * 1024).
Definition HD_TOTAL_SECTORS : Z := HD_DISK_SIZE / HD_SECTOR_SIZE.
Definition HD_CYLINDERS : Z := HD_TOTAL_SECTORS / (63 * 255).

(** The disk part of HD_BLK_DEVICE and HD_CHILD_DEVICE. *)
Record DiskGeom : Type := mkGeom {
  DiskSize : Z;
  SectorSize : Z;
  TotalSectors : Z;
  Cylinders : Z;
  TracksPerCylinder : Z;
  SectorsPerTrack : Z;
}.

(** The assignments all three drivers make when a device is created. *)
Definition init_geom : DiskGeom :=
  let c := u32 HD_CYLINDERS in
  mkGeom HD_DISK_SIZE HD_SECTOR_SIZE (u32 HD_TOTAL_SECTORS) (if c =? 0 then 1 else c) 255 63.

(** ** Requests *)

Inductive ioctl : Type :=
| IOCTL_DISK_GET_DRIVE_GEOMETRY
| IOCTL_DISK_GET_DRIVE_GEOMETRY_EX
| IOCTL_DISK_GET_LENGTH_INFO
| IOCTL_DISK_IS_WRITABLE
| IOCTL_DISK_MEDIA_REMOVAL
| IOCTL_STORAGE_GET_MEDIA_TYPES_EX
| IOCTL_STORAGE_GET_DEVICE_NUMBER
| IOCTL_STORAGE_QUERY_PROPERTY
| IOCTL_DISK_GET_PARTITION_INFO_EX
| IOCTL_MOUNTDEV_QUERY_DEVICE_NAME
| IOCTL_MOUNTDEV_QUERY_UNIQUE_ID
| IOCTL_other (code : Z).

Inductive struct_name : Type :=
| DISK_GEOMETRY | DISK_GEOMETRY_EX | GET_LENGTH_INFORMATION | GET_MEDIA_TYPES | STORAGE_DEVICE_NUMBER
| STORAGE_PROPERTY_QUERY | STORAGE_DEVICE_DESCRIPTOR | STORAGE_ADAPTER_DESCRIPTOR | PARTITION_INFORMATION_EX
| MOUNTDEV_NAME | MOUNTDEV_UNIQUE_ID | MOUNTMGR_TARGET_NAME.

Definition FixedMedia : Z := 12.
Definition FILE_DEVICE_DISK : Z := 7.
Definition StorageDeviceProperty : Z := 0.
Definition StorageAdapterProperty : Z := 1.
Definition BusTypeVirtual : Z := 14.
Definition PARTITION_STYLE_MBR : Z := 0.
Definition PARTITION_IFS : Z := 7.
Definition MEDIA_CURRENTLY_MOUNTED : Z := 0x80000000.
Definition MEDIA_READ_WRITE : Z := 2.

(** What a case stores in the system buffer, over what the caller put there;
    fields not named are zero. *)
Inductive sysbuf : Type :=
| Geometry (cylinders media tracks sectors bytes : Z)
| GeometryEx (cylinders media tracks sectors bytes disk_size : Z)
| LengthInfo (length : Z)
| MediaTypes (device_type count media sides characteristics cylinders tracks sectors bytes : Z)
| DeviceNumber (device_type number partition : Z)
| DeviceDescriptor (version size device_type bus_type : Z)
| AdapterDescriptor (version size max_transfer max_pages alignment bus_type : Z)
| PartitionInfo (style start length ptype : Z) (boot recognized : bool) (hidden : Z) (rewrite : bool)
| MountName (name_length : Z) (name : list Z)
| UniqueId (id_length : Z) (id : list Z).

(** The request as the switch sees it; [PropertyId] is the first word the caller
    put in the system buffer, where the property query keeps it. *)
Record DevCtl : Type := mkDevCtl {
  IoControlCode : ioctl;
  InputBufferLength : Z;
  OutputBufferLength : Z;
  PropertyId : Z;
}.

(** Status, bytes returned and what was stored, if anything, of one case. *)
Definition case_result : Type := Z * Z * option sysbuf.

Section Cases.
Context (sizeof : struct_name -> Z).

(** A case that stores one structure: the length check, then the stores. *)
Definition fill (s : struct_name) (v : sysbuf) (r : DevCtl) : case_result :=
  if OutputBufferLength r <? sizeof s then (STATUS_BUFFER_TOO_SMALL, 0, None)
  else (STATUS_SUCCESS, sizeof s, Some v).

Definition geometry_case (g : DiskGeom) : DevCtl -> case_result :=
  fill DISK_GEOMETRY
    (Geometry (Cylinders g) FixedMedia (TracksPerCylinder g) (SectorsPerTrack g) (SectorSize g)).

Definition geometry_ex_case (g : DiskGeom) : DevCtl -> case_result :=
  fill DISK_GEOMETRY_EX
    (GeometryEx (Cylinders g) FixedMedia (TracksPerCylinder g) (SectorsPerTrack g) (SectorSize g) (s64 (DiskSize g))).

Definition length_case (g : DiskGeom) : DevCtl -> case_result :=
  fill GET_LENGTH_INFORMATION (LengthInfo (s64 (DiskSize g))).

Definition media_types_case (g : DiskGeom) : DevCtl -> case_result :=
  fill GET_MEDIA_TYPES
    (MediaTypes FILE_DEVICE_DISK 1 FixedMedia 1 (Z.lor MEDIA_CURRENTLY_MOUNTED MEDIA_READ_WRITE)
                (Cylinders g) (TracksPerCylinder g) (SectorsPerTrack g) (SectorSize g)).

Definition device_number_case (number : Z) : DevCtl -> case_result :=
  fill STORAGE_DEVICE_NUMBER (DeviceNumber FILE_DEVICE_DISK number (u32 (-1))).

Definition query_property_case (r : DevCtl) : case_result :=
  if InputBufferLength r <? sizeof STORAGE_PROPERTY_QUERY then (STATUS_INVALID_PARAMETER, 0, None)
  else if PropertyId r =? StorageDeviceProperty then
    fill STORAGE_DEVICE_DESCRIPTOR
      (DeviceDescriptor (sizeof STORAGE_DEVICE_DESCRIPTOR) (sizeof STORAGE_DEVICE_DESCRIPTOR)
                        FILE_DEVICE_DISK BusTypeVirtual) r
  else if PropertyId r =? StorageAdapterProperty then
    fill STORAGE_ADAPTER_DESCRIPTOR
      (AdapterDescriptor (sizeof STORAGE_ADAPTER_DESCRIPTOR) (sizeof STORAGE_ADAPTER_DESCRIPTOR)
                         (128 * 1024) 32 0 BusTypeVirtual) r
  else (STATUS_INVALID_PARAMETER, 0, None).

Definition partition_case (g : DiskGeom) : DevCtl -> case_result :=
  fill PARTITION_INFORMATION_EX
    (PartitionInfo PARTITION_STYLE_MBR 0 (s64 (DiskSize g)) PARTITION_IFS false true 0 false).

(** The switch shared by the three drivers, up to the device number; [rest]
    handles the codes only one of them knows. *)
Definition disk_switch (g : DiskGeom) (number : Z) (rest : DevCtl -> case_result) (r : DevCtl) : case_result :=
  match IoControlCode r with
  | IOCTL_DISK_GET_DRIVE_GEOMETRY => geometry_case g r
  | IOCTL_DISK_GET_DRIVE_GEOMETRY_EX => geometry_ex_case g r
  | IOCTL_DISK_GET_LENGTH_INFO => length_case g r
  | IOCTL_DISK_IS_WRITABLE => (STATUS_SUCCESS, 0, None)
  | IOCTL_DISK_MEDIA_REMOVAL => (STATUS_SUCCESS, 0, None)
  | IOCTL_STORAGE_GET_MEDIA_TYPES_EX => media_types_case g r
  | IOCTL_STORAGE_GET_DEVICE_NUMBER => device_number_case number r
  | IOCTL_STORAGE_QUERY_PROPERTY => query_property_case r
  | IOCTL_DISK_GET_PARTITION_INFO_EX => partition_case g r
  | _ => rest r
  end.

Definition unknown_case (r : DevCtl) : case_result := (STATUS_INVALID_DEVICE_REQUEST, 0, None).

(** A case is well behaved when it reports at most the bytes the caller has
    room for, and reports none and leaves the buffer alone unless it succeeds. *)
Definition case_ok (r : DevCtl) (c : case_result) : Prop :=
  let '(status, bytes, buf) := c in
  0 <= bytes <= OutputBufferLength r /\
  (NT_SUCCESS status = false -> bytes = 0 /\ buf = None).

Context (Hsizeof : forall s, 0 <= sizeof s).

Lemma fill_ok s v r : 0 <= OutputBufferLength r -> case_ok r (fill s v r).
Proof.
  intros H0. unfold fill, case_ok. pose proof (Hsizeof s).
  destruct (Z.ltb_spec (OutputBufferLength r) (sizeof s)); (split; [lia|]); by intros.
Qed.

Lemma none_ok r status : 0 <= OutputBufferLength r -> case_ok r (status, 0, None).
Proof. intros. split; [lia|done]. Qed.

Lemma disk_switch_ok g number rest r :
  0 <= OutputBufferLength r -> case_ok r (rest r) -> case_ok r (disk_switch g number rest r).
Proof.
  intros H0 Hrest. unfold disk_switch, geometry_case, geometry_ex_case, length_case, media_types_case,
    device_number_case, query_property_case, partition_case.
  destruct (IoControlCode r); auto using fill_ok, none_ok.
  repeat case_match; auto using fill_ok, none_ok.
Qed.
End Cases.

(** ** Reads and writes

    The range check; no data is moved. [offset] is the signed byte offset of the
    request, converted to unsigned as the C assignment does. The result is the
    status stored in the packet, and the packet, completed. *)
Definition disk_transfer (g : DiskGeom) (offset len : Z) (i : IRP) : Z * IRP :=
  let byteOffset := u64 offset in
  let i := (if DiskSize g <? u64 (byteOffset + len)
            then set_information 0 (set_status STATUS_INVALID_PARAMETER i)
            else set_information len (set_status STATUS_SUCCESS i)) in
  (irp_status i, IoCompleteRequest i).

(** The routines return [Irp->IoStatus.Status], read after the packet was
    completed, when it is no longer theirs: [late] is what that read finds,
    [None] when the memory of the packet is gone. *)
Definition transfer_late (late : IRP -> option Z) (g : DiskGeom) (offset len : Z) (i : IRP) : res (Z * IRP) :=
  let (_, i) := disk_transfer g offset len i in
  let* status := of_opt (late i) in
  Ok (status, i).

(** ** Properties *)

(** C38. The range check of a read or write, for every signed 64-bit offset and
    every length: a request is accepted exactly when it lies inside the disk,
    except that a negative offset whose end wraps past zero into the disk is
    accepted too. Either way the packet is completed once, with the length
    accepted or with none. *)
Theorem disk_range_check g offset len i :
  - 2 ^ 63 <= offset < 2 ^ 63 -> 0 <= len < 2 ^ 32 -> 0 <= DiskSize g < 2 ^ 63 ->
  disk_transfer g offset len i =
    (if (0 <=? offset + len) && (offset + len <=? DiskSize g)
     then (STATUS_SUCCESS, complete_with STATUS_SUCCESS len i)
     else (STATUS_INVALID_PARAMETER, complete_with STATUS_INVALID_PARAMETER 0 i)).
Proof.
  intros Ho Hl Hd. unfold disk_transfer, complete_with.
  assert (DiskSize g <? u64 (u64 offset + len) = negb ((0 <=? offset + len) && (offset + len <=? DiskSize g))) as ->.
  { destruct (Z.leb_spec 0 (offset + len)), (Z.leb_spec (offset + len) (DiskSize g)); simpl;
      unfold u64; rewrite wrap_add_l; [apply Z.ltb_ge|apply Z.ltb_lt..]; mach. }
  by destruct (_ && _).
Qed.

Lemma disk_range_check_witness :
  disk_transfer init_geom (-512) 1024 fresh_irp = (STATUS_SUCCESS, complete_with STATUS_SUCCESS 1024 fresh_irp).
Proof. rewrite (disk_range_check init_geom (-512) 1024 fresh_irp); [reflexivity | lia | lia |]. vm_compute. split; congruence. Defined.

(** The geometry the drivers set up describes the disk they claim: the
    sectors add up to the disk size exactly, no field is cut by its 32-bit width,
    and the cylinders reported cover the disk up to less than one cylinder,
    never beyond its end. *)
Theorem disk_geometry_consistent :
  TotalSectors init_geom * SectorSize init_geom = DiskSize init_geom /\
  DiskSize init_geom = 64 * 2 ^ 30 /\
  let cylinder := TracksPerCylinder init_geom * SectorsPerTrack init_geom * SectorSize init_geom in
  Cylinders init_geom * cylinder <= DiskSize init_geom < (Cylinders init_geom + 1) * cylinder.
Proof. vm_compute. repeat split; congruence. Qed.

(** Sizes that a platform might have. *)
Definition sizes64 (s : struct_name) : Z :=
  match s with
  | DISK_GEOMETRY => 24 | DISK_GEOMETRY_EX => 40 | GET_LENGTH_INFORMATION => 8 | GET_MEDIA_TYPES => 40
  | STORAGE_DEVICE_NUMBER => 12 | STORAGE_PROPERTY_QUERY => 12 | STORAGE_DEVICE_DESCRIPTOR => 40
  | STORAGE_ADAPTER_DESCRIPTOR => 32 | PARTITION_INFORMATION_EX => 144 | MOUNTDEV_NAME => 4
  | MOUNTDEV_UNIQUE_ID => 4 | MOUNTMGR_TARGET_NAME => 4
  end.

Lemma sizes64_nonneg s : 0 <= sizes64 s.
Proof. destruct s; simpl; lia. Qed.
