(* ===== verification/PnpDisk.v ===== *)
(** * The plug-and-play disk driver (driver/blk/pnp_disk_driver.c)

    The driver sits on a lower device; what the lower driver does with a packet
    is the argument [lower] of the dispatch routines. *)

From S2P Require Import Prelude Nt Kernel Disk.

(** [p_InterfaceName] is the buffer of the interface name. *)
Record HD_BLK_DEVICE : Type := mkBlkDev {
  p_DeviceObject : Z;
  p_geom : DiskGeom;
  p_Started : bool;
  p_InterfaceName : Z;
  p_InterfaceRegistered : bool;
  p_LowerDevice : Z;
}.

Definition set_pstarted (b : bool) (d : HD_BLK_DEVICE) : HD_BLK_DEVICE :=
  mkBlkDev (p_DeviceObject d) (p_geom d) b (p_InterfaceName d) (p_InterfaceRegistered d) (p_LowerDevice d).
Definition set_pregistered (b : bool) (d : HD_BLK_DEVICE) : HD_BLK_DEVICE :=
  mkBlkDev (p_DeviceObject d) (p_geom d) (p_Started d) (p_InterfaceName d) b (p_LowerDevice d).
Definition set_plower (l : Z) (d : HD_BLK_DEVICE) : HD_BLK_DEVICE :=
  mkBlkDev (p_DeviceObject d) (p_geom d) (p_Started d) (p_InterfaceName d) (p_InterfaceRegistered d) l.

(** The kernel's answers to the calls of HdBlkAddDevice. *)
Record AddOutcome : Type := mkAddOutcome {
  create_st : Z; fdo : Z; attach_st : Z; lower_dev : Z; register_st : Z; iface : Z;
}.

(** No device when the routine fails. *)
Definition HdBlkAddDevice (o : AddOutcome) (k : Kernel) : res (Z * option HD_BLK_DEVICE * Kernel) :=
  let k := IoCreateDevice (create_st o) (fdo o) k in
  if negb (NT_SUCCESS (create_st o)) then Ok (create_st o, None, k)
  else
    let d := mkBlkDev (fdo o) init_geom false 0 false 0 in
    let k := IoAttachDeviceToDeviceStackSafe (attach_st o) (fdo o) (lower_dev o) k in
    if negb (NT_SUCCESS (attach_st o)) then
      let* k := IoDeleteDevice (fdo o) k in Ok (attach_st o, None, k)
    else
      let d := set_plower (lower_dev o) d in
      let k := IoRegisterDeviceInterface (register_st o) (iface o) k in
      let d := (if NT_SUCCESS (register_st o)
                then mkBlkDev (fdo o) init_geom false (iface o) true (lower_dev o) else d) in
      Ok (STATUS_SUCCESS, Some d, k).

Definition HdBlkForwardIrp (lower : IRP -> Z * IRP) (i : IRP) : Z * IRP := lower i.

(** Status, packet, device ([None] once deleted) and ledger. *)
Definition HdBlkDispatchPnp (lower : IRP -> Z * IRP) (mn : pnp_minor) (i : IRP) (d : HD_BLK_DEVICE) (k : Kernel)
    : res (Z * IRP * option HD_BLK_DEVICE * Kernel) :=
  match mn with
  | IRP_MN_START_DEVICE =>
      let (status, i) := HdBlkForwardIrp lower i in
      if NT_SUCCESS status then
        let d := set_pstarted true d in
        let* k := (if p_InterfaceRegistered d then IoSetDeviceInterfaceState (p_InterfaceName d) true k else Ok k) in
        Ok (status, i, Some d, k)
      else Ok (status, i, Some d, k)
  | IRP_MN_QUERY_STOP_DEVICE | IRP_MN_QUERY_REMOVE_DEVICE
  | IRP_MN_CANCEL_STOP_DEVICE | IRP_MN_CANCEL_REMOVE_DEVICE =>
      let (status, i) := HdBlkForwardIrp lower (set_status STATUS_SUCCESS i) in
      Ok (status, i, Some d, k)
  | IRP_MN_REMOVE_DEVICE =>
      let* dk :=
        (if p_InterfaceRegistered d then
           let* k := IoSetDeviceInterfaceState (p_InterfaceName d) false k in
           let* k := ExFreePool (p_InterfaceName d) k in
           Ok (set_pregistered false d, k)
         else Ok (d, k)) in
      let (d, k) := (dk : HD_BLK_DEVICE * Kernel) in
      let d := set_pstarted false d in
      let (status, i) := lower (set_status STATUS_SUCCESS i) in
      let* k := IoDetachDevice (p_LowerDevice d) k in
      let* k := IoDeleteDevice (p_DeviceObject d) k in
      Ok (status, i, None, k)
  | IRP_MN_SURPRISE_REMOVAL =>
      let* k := (if p_InterfaceRegistered d then IoSetDeviceInterfaceState (p_InterfaceName d) false k else Ok k) in
      let d := set_pstarted false d in
      let (status, i) := HdBlkForwardIrp lower (set_status STATUS_SUCCESS i) in
      Ok (status, i, Some d, k)
  | _ =>
      let (status, i) := HdBlkForwardIrp lower i in Ok (status, i, Some d, k)
  end.

Definition HdBlkDispatchPower (lower : IRP -> Z * IRP) (i : IRP) : Z * IRP := lower i.
Definition HdBlkDispatchSystemControl (lower : IRP -> Z * IRP) (i : IRP) : Z * IRP := HdBlkForwardIrp lower i.
Definition HdBlkDispatchCreate (i : IRP) : Z * IRP := (STATUS_SUCCESS, complete_with STATUS_SUCCESS 0 i).
Definition HdBlkDispatchClose (i : IRP) : Z * IRP := (STATUS_SUCCESS, complete_with STATUS_SUCCESS 0 i).
Definition HdBlkDispatchRead (late : IRP -> option Z) (d : HD_BLK_DEVICE) (offset len : Z) (i : IRP) : res (Z * IRP) :=
  transfer_late late (p_geom d) offset len i.
Definition HdBlkDispatchWrite (late : IRP -> option Z) (d : HD_BLK_DEVICE) (offset len : Z) (i : IRP) : res (Z * IRP) :=
  transfer_late late (p_geom d) offset len i.

Definition HdBlkDispatchDeviceControl (sizeof : struct_name -> Z) (d : HD_BLK_DEVICE) (r : DevCtl) (i : IRP)
    : Z * IRP * option sysbuf :=
  let '(status, bytesReturned, buf) := disk_switch sizeof (p_geom d) 0 unknown_case r in
  (status, complete_with status bytesReturned i, buf).

(** ** Life cycle *)

(** Between creation and removal: the device object is live and attached, the
    interface name is live too if there is one, and the interface is enabled exactly while the
    device is started. *)
Definition pnp_inv (d : HD_BLK_DEVICE) (k : Kernel) : Prop :=
  p_DeviceObject d ∈ k_devices k /\ k_attached k !! p_LowerDevice d = Some (p_DeviceObject d) /\
  (p_InterfaceRegistered d = true ->
   p_InterfaceName d ∈ k_pool k /\ k_ifaces k !! p_InterfaceName d = Some (p_Started d)).

Definition not_remove (mn : pnp_minor) : bool :=
  match mn with
  | IRP_MN_REMOVE_DEVICE => false
  | _ => true
  end.

Fixpoint pnp_run (ms : list (pnp_minor * (IRP -> Z * IRP))) (d : HD_BLK_DEVICE) (k : Kernel) : res (HD_BLK_DEVICE * Kernel) :=
  match ms with
  | [] => Ok (d, k)
  | (mn, lower) :: r =>
      let* x := HdBlkDispatchPnp lower mn fresh_irp d k in
      match x with
      | (_, _, Some d, k) => pnp_run r d k
      | (_, _, None, _) => Fault
      end
  end.

Lemma set_iface_ok i b k :
  i ∈ k_pool k -> IoSetDeviceInterfaceState i b k = Ok (set_ifaces (<[i:=b]> (k_ifaces k)) k).
Proof. intros. unfold IoSetDeviceInterfaceState. by rewrite decide_True. Qed.

Lemma pnp_step_inv lower mn i d k :
  not_remove mn = true -> pnp_inv d k ->
  exists st i' d' k', HdBlkDispatchPnp lower mn i d k = Ok (st, i', Some d', k') /\ pnp_inv d' k' /\
    p_DeviceObject d' = p_DeviceObject d /\ p_InterfaceName d' = p_InterfaceName d /\
    p_InterfaceRegistered d' = p_InterfaceRegistered d /\
    k_devices k' = k_devices k /\ k_pool k' = k_pool k /\
    p_LowerDevice d' = p_LowerDevice d /\ k_attached k' = k_attached k.
Proof.
  intros Hm (Hdev & Hat & Hif). destruct mn; try done; simpl; unfold HdBlkForwardIrp.
  2-5,7-11: destruct (lower _) as [st i']; do 4 eexists; split_and!; try done; by split.
  - destruct (lower i) as [st i']. destruct (NT_SUCCESS st); [|do 4 eexists; split_and!; try done; by split].
    destruct (p_InterfaceRegistered d) eqn:E; simpl.
    + destruct (Hif eq_refl) as [Hp Hs]. rewrite set_iface_ok by done. simpl. do 4 eexists. split_and!; try done.
      split_and!; [done|done|]. intros _. split; [done|]. simpl. by rewrite lookup_insert_eq.
    + do 4 eexists. split_and!; try done. split_and!; [done|done|]. simpl. congruence.
  - destruct (p_InterfaceRegistered d) eqn:E; simpl.
    + destruct (Hif eq_refl) as [Hp Hs]. rewrite set_iface_ok by done. simpl.
      destruct (lower _) as [st i']. do 4 eexists. split_and!; try done.
      split_and!; [done|done|]. intros _. split; [done|]. simpl. by rewrite lookup_insert_eq.
    + destruct (lower _) as [st i']. do 4 eexists. split_and!; try done. split_and!; [done|done|]. simpl. congruence.
Qed.

Lemma pnp_run_inv ms : forall d k,
  forallb (fun m => not_remove m.1) ms = true -> pnp_inv d k ->
  exists d' k', pnp_run ms d k = Ok (d', k') /\ pnp_inv d' k' /\
    p_DeviceObject d' = p_DeviceObject d /\ p_InterfaceName d' = p_InterfaceName d /\
    p_InterfaceRegistered d' = p_InterfaceRegistered d /\
    k_devices k' = k_devices k /\ k_pool k' = k_pool k /\
    p_LowerDevice d' = p_LowerDevice d /\ k_attached k' = k_attached k.
Proof.
  induction ms as [|[mn lower] ms IH]; intros d k Hms Hinv; simpl in *; [by exists d, k|].
  apply andb_true_iff in Hms as [Hm Hms].
  destruct (pnp_step_inv lower mn fresh_irp d k Hm Hinv) as (st & i & d1 & k1 & -> & Hinv1 & ? & ? & ? & ? & ? & ? & ?). simpl.
  destruct (IH d1 k1 Hms Hinv1) as (d' & k' & -> & ? & ? & ? & ? & ? & ? & ? & ?). do 2 eexists. split; [done|]. split_and!; congruence.
Qed.

Lemma add_device_inv o k :
  fdo o ∉ k_devices k -> NT_SUCCESS (create_st o) = true -> NT_SUCCESS (attach_st o) = true ->
  exists d k', HdBlkAddDevice o k = Ok (STATUS_SUCCESS, Some d, k') /\ pnp_inv d k' /\
    p_DeviceObject d = fdo o /\ p_InterfaceRegistered d = NT_SUCCESS (register_st o) /\
    (p_InterfaceRegistered d = true -> p_InterfaceName d = iface o) /\
    k_devices k' = {[fdo o]} ∪ k_devices k /\
    k_pool k' = (if NT_SUCCESS (register_st o) then {[iface o]} ∪ k_pool k else k_pool k) /\ p_geom d = init_geom /\
    p_LowerDevice d = lower_dev o /\ k_attached k' = <[lower_dev o := fdo o]> (k_attached k).
Proof.
  intros Hf Hc Ha. unfold HdBlkAddDevice, IoCreateDevice, IoRegisterDeviceInterface, IoAttachDeviceToDeviceStackSafe. rewrite Hc, Ha. simpl.
  destruct (NT_SUCCESS (register_st o)); do 2 eexists; split_and!; try done; split_and!; simpl; try set_solver;
    try (by rewrite lookup_insert_eq). intros _. split; [set_solver|]. by rewrite lookup_insert_eq.
Qed.

(** ** Properties *)

(** The whole life of a device: if HdBlkAddDevice succeeds, any sequence of
    plug-and-play packets, whatever the lower driver answers, keeps the disk
    interface enabled exactly while the device is marked started, and the
    final removal disables the interface, frees its name, detaches from the lower
    device and deletes the device object, so that the ledger of devices, pool
    blocks and device stacks is what it was before the device was added. If HdBlkAddDevice fails, it leaves the ledger as it
    was. *)
Theorem pnp_life_cycle o k ms lower :
  fdo o ∉ k_devices k -> iface o ∉ k_pool k -> k_attached k !! lower_dev o = None ->
  forallb (fun m => not_remove m.1) ms = true ->
  if NT_SUCCESS (create_st o) && NT_SUCCESS (attach_st o) then
    exists d k1 d2 k2 st i k3,
      HdBlkAddDevice o k = Ok (STATUS_SUCCESS, Some d, k1) /\
      pnp_run ms d k1 = Ok (d2, k2) /\
      (NT_SUCCESS (register_st o) = true -> k_ifaces k2 !! iface o = Some (p_Started d2)) /\
      HdBlkDispatchPnp lower IRP_MN_REMOVE_DEVICE fresh_irp d2 k2 = Ok (st, i, None, k3) /\
      (NT_SUCCESS (register_st o) = true -> k_ifaces k3 !! iface o = Some false) /\
      k_devices k3 = k_devices k /\ k_pool k3 = k_pool k /\ k_attached k3 = k_attached k
  else exists st, HdBlkAddDevice o k = Ok (st, None, k) /\ NT_SUCCESS st = false.
Proof.
  intros Hf Hi Hl Hms. destruct (NT_SUCCESS (create_st o)) eqn:Ec; simpl.
  2:{ unfold HdBlkAddDevice, IoCreateDevice. rewrite Ec. simpl. eauto. }
  destruct (NT_SUCCESS (attach_st o)) eqn:Ea; simpl.
  2:{ unfold HdBlkAddDevice, IoAttachDeviceToDeviceStackSafe. rewrite Ec, Ea. simpl. rewrite create_delete_device by done. simpl. eauto. }
  destruct (add_device_inv o k Hf Ec Ea) as (d & k1 & E1 & Hinv1 & Hdo & Hreg & Hname & Hdev1 & Hpool1 & _ & Hlow & Hatt1).
  destruct (pnp_run_inv ms d k1 Hms Hinv1) as (d2 & k2 & E2 & (Hd2 & Hat2 & Hi2) & Hdo2 & Hn2 & Hr2 & Hdev2 & Hpool2 & Hlow2 & Hatt2).
  exists d, k1, d2, k2. cbn [HdBlkDispatchPnp]. rewrite Hr2, Hreg in Hi2. rewrite Hr2, Hreg.
  assert (forall X : gset Z, X = {[fdo o]} ∪ k_devices k -> X ∖ {[fdo o]} = k_devices k) as Hdiff
    by (intros X ->; by apply union_difference_new).
  assert (delete (p_LowerDevice d2) (k_attached k2) = k_attached k) as Hdet.
  { rewrite Hatt2, Hlow2, Hlow, Hatt1. by rewrite delete_insert_id. }
  destruct (NT_SUCCESS (register_st o)) eqn:Er.
  - destruct (Hi2 eq_refl) as [Hp2 Hs2]. rewrite Hn2, (Hname ltac:(congruence)) in *.
    rewrite set_iface_ok by done. simpl. unfold ExFreePool. simpl. rewrite decide_True by done. simpl.
    destruct (lower _) as [st i]. unfold IoDetachDevice, IoDeleteDevice. simpl. rewrite Hat2. simpl.
    rewrite decide_True by congruence. simpl. do 3 eexists. split; [done|]. split; [done|]. split; [done|]. split; [done|]. simpl.
    rewrite lookup_insert_eq, Hdo2, Hdo. split; [done|]. split; [apply Hdiff; congruence|].
    split; [|done]. rewrite Hpool2, Hpool1. by apply union_difference_new.
  - destruct (lower _) as [st i]. simpl. unfold IoDetachDevice, IoDeleteDevice. rewrite Hat2. simpl.
    rewrite decide_True by congruence. simpl.
    do 3 eexists. split; [done|]. split; [done|]. split; [done|]. split; [done|]. split; [done|]. simpl.
    rewrite Hdo2, Hdo. split; [apply Hdiff; congruence|]. split; [congruence|done].
Qed.

Definition lower_ok (i : IRP) : Z * IRP := (STATUS_SUCCESS, complete_with STATUS_SUCCESS 0 i).
Definition lower_pending (i : IRP) : Z * IRP := (STATUS_PENDING, i).
Definition sample_add : AddOutcome := mkAddOutcome 0 100 0 300 0 200.

Lemma pnp_life_cycle_witness :
  exists d k1 d2 k2 st i k3,
    HdBlkAddDevice sample_add kernel0 = Ok (STATUS_SUCCESS, Some d, k1) /\
    pnp_run [(IRP_MN_START_DEVICE, lower_ok); (IRP_MN_QUERY_REMOVE_DEVICE, lower_ok)] d k1 = Ok (d2, k2) /\
    (NT_SUCCESS 0 = true -> k_ifaces k2 !! 200 = Some (p_Started d2)) /\
    HdBlkDispatchPnp lower_ok IRP_MN_REMOVE_DEVICE fresh_irp d2 k2 = Ok (st, i, None, k3) /\
    (NT_SUCCESS 0 = true -> k_ifaces k3 !! 200 = Some false) /\
    k_devices k3 = ∅ /\ k_pool k3 = ∅ /\ k_attached k3 = ∅.
Proof.
  apply (pnp_life_cycle sample_add kernel0 [(IRP_MN_START_DEVICE, lower_ok); (IRP_MN_QUERY_REMOVE_DEVICE, lower_ok)] lower_ok);
    [simpl; set_solver | simpl; set_solver | reflexivity | reflexivity].
Defined.

(** A lower driver that has only queued the start packet counts as started. *)
Example pnp_start_pending :
  match HdBlkAddDevice sample_add kernel0 with
  | Ok (_, Some d, k) =>
      match pnp_run [(IRP_MN_START_DEVICE, lower_pending)] d k with
      | Ok (d2, _) => p_Started d2 = true
      | _ => False
      end
  | _ => False
  end.
Proof. vm_compute. reflexivity. Qed.

(** A device-control request is completed exactly once, with the status the
    routine returns and no more bytes than the caller has room for; a request
    that fails returns no bytes and leaves the caller's buffer untouched. *)
Theorem pnp_control_contract sizeof d r i status i' buf :
  (forall s, 0 <= sizeof s) -> 0 <= OutputBufferLength r ->
  HdBlkDispatchDeviceControl sizeof d r i = (status, i', buf) ->
  irp_completed i' = S (irp_completed i) /\ irp_status i' = status /\
  0 <= irp_information i' <= OutputBufferLength r /\
  (NT_SUCCESS status = false -> irp_information i' = 0 /\ buf = None).
Proof.
  intros Hs H0. unfold HdBlkDispatchDeviceControl.
  pose proof (disk_switch_ok sizeof Hs (p_geom d) 0 unknown_case r H0 (none_ok r _ H0)) as Hok.
  destruct (disk_switch _ _ _ _ _) as [[st b] v]. intros [= <- <- <-]. by destruct Hok.
Qed.

Definition sample_dev : HD_BLK_DEVICE := mkBlkDev 100 init_geom true 200 true 300.

Lemma pnp_control_contract_witness :
  irp_information (HdBlkDispatchDeviceControl sizes64 sample_dev (mkDevCtl IOCTL_DISK_GET_LENGTH_INFO 0 8 0) fresh_irp).1.2 <= 8.
Proof.
  apply (pnp_control_contract sizes64 sample_dev (mkDevCtl IOCTL_DISK_GET_LENGTH_INFO 0 8 0) fresh_irp STATUS_SUCCESS
    (complete_with STATUS_SUCCESS 8 fresh_irp) (Some (LengthInfo (64 * 2 ^ 30)))); [apply sizes64_nonneg | simpl; lia | reflexivity].
Defined.
