(* ===== verification/WdmDisk.v ===== *)
(** * The legacy disk driver (driver/blk/wdm_disk_driver.c)

    One device, created by the entry point, announced to the mount manager and
    deleted by the unload routine; [g_BlkDevice] is the optional device. *)

From S2P Require Import Prelude Nt Kernel Disk.

Definition HD_BLK_DEVICE_NAME : string := "\Device\HyperDiskBlk0".
Definition HD_BLK_SYM_LINK : string := "\DosDevices\PhysicalDrive1".
Definition unique_id : list Z := zstr "HyperDisk_VDisk0".

Record HD_BLK_DEVICE : Type := mkWdmDev {
  w_DeviceObject : Z;
  w_geom : DiskGeom;
  w_Initialized : bool;
  w_InterfaceName : Z;
  w_InterfaceEnabled : bool;
}.

(** The kernel's answers to the calls of HdBlkNotifyMountManager: lookup of the
    mount manager and its file object, the buffer, whether a packet could be
    built, the status of the call and the one stored once it has completed. *)
Record MountOutcome : Type := mkMount {
  get_st : Z; mgr_file : Z; name_buf : option Z; have_irp : bool; call_st : Z; io_st : Z;
}.

Section Wdm.
(** Sizes of the platform structures and the offset of the name in
    MOUNTMGR_TARGET_NAME. *)
Context (sizeof : struct_name -> Z) (name_off : Z).

Definition HdBlkNotifyMountManager (o : MountOutcome) (k : Kernel) : res (Z * Kernel) :=
  if negb (NT_SUCCESS (get_st o)) then Ok (get_st o, k)
  else
    let k := ObRef (mgr_file o) k in
    let len := wide_len HD_BLK_DEVICE_NAME in
    let targetNameSize := u32 (sizeof MOUNTMGR_TARGET_NAME + len - 2) in
    let k := ExAllocatePool (name_buf o) k in
    match name_buf o with
    | None => Ok (STATUS_INSUFFICIENT_RESOURCES, ObDeref (mgr_file o) k)
    | Some targetName =>
        (* the copy of the name behind the length field *)
        let* _ := wr (replicate (Z.to_nat targetNameSize) 0) name_off (wide HD_BLK_DEVICE_NAME) in
        if negb (have_irp o) then
          let* k := ExFreePool targetName k in
          Ok (STATUS_INSUFFICIENT_RESOURCES, ObDeref (mgr_file o) k)
        else
          let status := (if call_st o =? STATUS_PENDING then io_st o else call_st o) in
          let* k := ExFreePool targetName k in
          Ok (status, ObDeref (mgr_file o) k)
    end.

(** The kernel's answers to the calls of the entry point. *)
Record EntryOutcome : Type := mkEntryOutcome {
  e_create_st : Z; e_dev : Z; e_link_st : Z; e_register_st : Z; e_iface : Z; e_mount : MountOutcome;
}.

Definition DriverEntry (o : EntryOutcome) (g : option HD_BLK_DEVICE) (k : Kernel)
    : res (Z * option HD_BLK_DEVICE * Kernel) :=
  let k := IoCreateDevice (e_create_st o) (e_dev o) k in
  if negb (NT_SUCCESS (e_create_st o)) then Ok (e_create_st o, g, k)
  else
    let d := mkWdmDev (e_dev o) init_geom true 0 false in
    let k := IoCreateSymbolicLink (e_link_st o) HD_BLK_SYM_LINK k in
    if negb (NT_SUCCESS (e_link_st o)) then
      let* k := IoDeleteDevice (e_dev o) k in Ok (e_link_st o, g, k)
    else
      let k := IoRegisterDeviceInterface (e_register_st o) (e_iface o) k in
      let d := (if NT_SUCCESS (e_register_st o) then mkWdmDev (e_dev o) init_geom true (e_iface o) true else d) in
      let* k := (if w_InterfaceEnabled d then IoSetDeviceInterfaceState (w_InterfaceName d) true k else Ok k) in
      let* r := HdBlkNotifyMountManager (e_mount o) k in
      Ok (STATUS_SUCCESS, Some d, r.2).

Definition HdBlkUnload (g : option HD_BLK_DEVICE) (k : Kernel) : res (option HD_BLK_DEVICE * Kernel) :=
  match g with
  | None => Ok (None, k)
  | Some d =>
      let* k :=
        (if w_InterfaceEnabled d then
           let* k := IoSetDeviceInterfaceState (w_InterfaceName d) false k in
           ExFreePool (w_InterfaceName d) k
         else Ok k) in
      let k := IoDeleteSymbolicLink HD_BLK_SYM_LINK k in
      let* k := IoDeleteDevice (w_DeviceObject d) k in
      Ok (None, k)
  end.

Definition HdBlkDispatchCreate (i : IRP) : Z * IRP := (STATUS_SUCCESS, complete_with STATUS_SUCCESS 0 i).
Definition HdBlkDispatchClose (i : IRP) : Z * IRP := (STATUS_SUCCESS, complete_with STATUS_SUCCESS 0 i).
Definition HdBlkDispatchRead (late : IRP -> option Z) (d : HD_BLK_DEVICE) (offset len : Z) (i : IRP) : res (Z * IRP) :=
  transfer_late late (w_geom d) offset len i.
Definition HdBlkDispatchWrite (late : IRP -> option Z) (d : HD_BLK_DEVICE) (offset len : Z) (i : IRP) : res (Z * IRP) :=
  transfer_late late (w_geom d) offset len i.

Definition HdBlkDispatchPnp (mn : pnp_minor) (i : IRP) : Z * IRP :=
  let status :=
    match mn with
    | IRP_MN_START_DEVICE | IRP_MN_REMOVE_DEVICE
    | IRP_MN_QUERY_STOP_DEVICE | IRP_MN_QUERY_REMOVE_DEVICE
    | IRP_MN_CANCEL_STOP_DEVICE | IRP_MN_CANCEL_REMOVE_DEVICE
    | IRP_MN_SURPRISE_REMOVAL => STATUS_SUCCESS
    | _ => STATUS_NOT_SUPPORTED
    end in
  let i := complete_with status 0 i in (irp_status i, i).

(** The two mount-manager queries: a header, then [bytes]. *)
Definition mount_case (header : struct_name) (len : Z) (v : sysbuf) (r : DevCtl) : case_result :=
  if OutputBufferLength r <? sizeof header + len then (STATUS_BUFFER_OVERFLOW, 0, None)
  else (STATUS_SUCCESS, sizeof header + len, Some v).
(** The store to [IoStatus.Information] made in the overflow branch. *)
Definition mount_needed (header : struct_name) (len : Z) (r : DevCtl) (i : IRP) : IRP :=
  if OutputBufferLength r <? sizeof header + len then set_information (sizeof header + len) i else i.

Definition name_len : Z := wide_len HD_BLK_SYM_LINK.
Definition id_len : Z := Z.of_nat (length unique_id).

Definition mount_switch (r : DevCtl) : case_result :=
  match IoControlCode r with
  | IOCTL_MOUNTDEV_QUERY_DEVICE_NAME => mount_case MOUNTDEV_NAME name_len (MountName name_len (wide HD_BLK_SYM_LINK)) r
  | IOCTL_MOUNTDEV_QUERY_UNIQUE_ID => mount_case MOUNTDEV_UNIQUE_ID id_len (UniqueId id_len unique_id) r
  | _ => unknown_case r
  end.

Definition HdBlkDispatchDeviceControl (d : HD_BLK_DEVICE) (r : DevCtl) (i : IRP) : Z * IRP * option sysbuf :=
  let '(status, bytesReturned, buf) := disk_switch sizeof (w_geom d) 1 mount_switch r in
  let i :=
    match IoControlCode r with
    | IOCTL_MOUNTDEV_QUERY_DEVICE_NAME => mount_needed MOUNTDEV_NAME name_len r i
    | IOCTL_MOUNTDEV_QUERY_UNIQUE_ID => mount_needed MOUNTDEV_UNIQUE_ID id_len r i
    | _ => i
    end in
  (status, complete_with status bytesReturned i, buf).

(** ** Lemmas *)

Context (Hsizeof : forall s, 0 <= sizeof s).
Context (Hname : 0 <= name_off /\ name_off + 2 <= sizeof MOUNTMGR_TARGET_NAME < 2 ^ 31).

Lemma mount_switch_ok r : 0 <= OutputBufferLength r -> case_ok r (mount_switch r).
Proof.
  intros H0. unfold mount_switch, mount_case, unknown_case.
  assert (0 <= name_len /\ 0 <= id_len) as [Hn Hi] by (vm_compute; split; congruence).
  pose proof (Hsizeof MOUNTDEV_NAME). pose proof (Hsizeof MOUNTDEV_UNIQUE_ID).
  destruct (IoControlCode r); try (by apply none_ok); case_match eqn:E; bool_props; split; try lia; done.
Qed.

(** The announcement gives back everything it takes. *)
Lemma notify_balanced o k :
  (forall a, name_buf o = Some a -> a ∉ k_pool k) ->
  exists st k', HdBlkNotifyMountManager o k = Ok (st, k') /\
    k_devices k' = k_devices k /\ k_links k' = k_links k /\ k_pool k' = k_pool k /\
    k_ifaces k' = k_ifaces k /\ (forall x, refs_of x k' = refs_of x k).
Proof.
  intros Ha. unfold HdBlkNotifyMountManager. destruct (NT_SUCCESS (get_st o)); simpl; [|eauto 10].
  assert (forall k1, k_pool k1 = k_pool k -> k_refs k1 = k_refs (ObRef (mgr_file o) k) ->
    forall x, refs_of x (ObDeref (mgr_file o) k1) = refs_of x k) as Hrefs.
  { intros k1 _ Hr x. rewrite <- (refs_ref_deref (mgr_file o) x k). unfold refs_of, ObDeref. simpl. by rewrite Hr. }
  destruct (name_buf o) as [a|].
  2:{ do 2 eexists. split; [done|]. split_and!; try done. intros x. by apply Hrefs. }
  assert (Z.of_nat (length (wide HD_BLK_DEVICE_NAME)) = 42) as Hw by reflexivity.
  assert (wide_len HD_BLK_DEVICE_NAME = 42) as -> by reflexivity.
  rewrite wr_ok; [|lia|rewrite length_replicate, Hw; unfold u32; rewrite wrap_small by lia; lia]. cbn [res_bind].
  rewrite alloc_free_pool by (simpl; by apply Ha).
  destruct (have_irp o); simpl; do 2 eexists; (split; [done|]); split_and!; try done; intros x; by apply Hrefs.
Qed.
End Wdm.

(** ** Properties *)

(** Loading the driver and unloading it again gives back every device
    object, symbolic link, pool block and object reference, whatever the kernel
    and the mount manager answer, and leaves the disk interface disabled. When
    the device or its link cannot be created, loading fails with the ledger as
    it was. The hypotheses are that the kernel hands out fresh objects and
    lays out MOUNTMGR_TARGET_NAME with room for one character. *)
Theorem wdm_load_unload sizeof name_off o k :
  0 <= name_off /\ name_off + 2 <= sizeof MOUNTMGR_TARGET_NAME < 2 ^ 31 ->
  e_dev o ∉ k_devices k -> HD_BLK_SYM_LINK ∉ k_links k -> e_iface o ∉ k_pool k ->
  (forall a, name_buf (e_mount o) = Some a -> a ∉ k_pool k /\ a <> e_iface o) ->
  if NT_SUCCESS (e_create_st o) && NT_SUCCESS (e_link_st o) then
    exists d k1 k2,
      DriverEntry sizeof name_off o None k = Ok (STATUS_SUCCESS, Some d, k1) /\
      HdBlkUnload (Some d) k1 = Ok (None, k2) /\
      k_devices k2 = k_devices k /\ k_links k2 = k_links k /\ k_pool k2 = k_pool k /\
      (forall x, refs_of x k2 = refs_of x k) /\
      (NT_SUCCESS (e_register_st o) = true -> k_ifaces k2 !! e_iface o = Some false)
  else exists st, DriverEntry sizeof name_off o None k = Ok (st, None, k) /\ NT_SUCCESS st = false.
Proof.
  intros Hname Hdev Hlink Hif Hbuf. unfold DriverEntry.
  destruct (NT_SUCCESS (e_create_st o)) eqn:Ec; simpl.
  2:{ unfold IoCreateDevice. rewrite Ec. eauto. }
  destruct (NT_SUCCESS (e_link_st o)) eqn:El; simpl.
  2:{ unfold IoCreateSymbolicLink. rewrite El, create_delete_device by done. simpl. eauto. }
  assert (({[HD_BLK_SYM_LINK]} ∪ k_links k) ∖ {[HD_BLK_SYM_LINK]} = k_links k) as Hl by set_solver.
  unfold IoCreateDevice, IoCreateSymbolicLink, IoRegisterDeviceInterface. rewrite Ec, El.
  destruct (NT_SUCCESS (e_register_st o)) eqn:Er; simpl.
  - unfold IoSetDeviceInterfaceState at 1. simpl. rewrite decide_True by set_solver. simpl.
    match goal with |- context [HdBlkNotifyMountManager _ _ _ ?K] =>
      destruct (notify_balanced sizeof name_off Hname (e_mount o) K) as (st & k' & -> & H1 & H2 & H3 & H4 & H5) end.
    { simpl. intros a Ha. destruct (Hbuf a Ha). set_solver. }
    simpl in *. do 3 eexists. split; [done|]. simpl. unfold IoSetDeviceInterfaceState. rewrite decide_True by set_solver. simpl.
    unfold ExFreePool. simpl. rewrite decide_True by set_solver. simpl. unfold IoDeleteDevice. simpl.
    rewrite decide_True by set_solver. simpl. split; [done|]. cbn. rewrite H1, H2, H3, Hl.
    rewrite !union_difference_new by done. split_and!; try done.
    intros _. by rewrite lookup_insert_eq.
  - match goal with |- context [HdBlkNotifyMountManager _ _ _ ?K] =>
      destruct (notify_balanced sizeof name_off Hname (e_mount o) K) as (st & k' & -> & H1 & H2 & H3 & H4 & H5) end.
    { simpl. intros a Ha. by destruct (Hbuf a Ha). }
    simpl in *. do 3 eexists. split; [done|]. simpl. unfold IoDeleteDevice. simpl. rewrite decide_True by set_solver. simpl.
    split; [done|]. cbn. rewrite H1, H2, H3, Hl. rewrite !union_difference_new by done. split_and!; done.
Qed.

Definition sample_mount : MountOutcome := mkMount 0 300 (Some 400) true STATUS_PENDING 0.
Definition sample_entry : EntryOutcome := mkEntryOutcome 0 100 0 0 200 sample_mount.

Lemma wdm_load_unload_witness :
  exists d k1 k2,
    DriverEntry sizes64 2 sample_entry None kernel0 = Ok (STATUS_SUCCESS, Some d, k1) /\
    HdBlkUnload (Some d) k1 = Ok (None, k2) /\
    k_devices k2 = ∅ /\ k_links k2 = ∅ /\ k_pool k2 = ∅ /\
    (forall x, refs_of x k2 = refs_of x kernel0) /\ (NT_SUCCESS 0 = true -> k_ifaces k2 !! 200 = Some false).
Proof.
  apply (wdm_load_unload sizes64 2 sample_entry kernel0);
    [simpl; lia | simpl; set_solver | simpl; set_solver | simpl; set_solver | simpl; intros a [= <-]; split; [set_solver|lia]].
Defined.

(** Device control of the legacy driver keeps the same contract as the
    plug-and-play driver's. The two mount-manager queries succeed exactly when
    the caller has room for header and name; otherwise the caller is told
    STATUS_BUFFER_OVERFLOW but never the size it needs, because the value
    stored in the packet is overwritten with zero before completion. *)
Theorem wdm_control_contract sizeof d r i status i' buf :
  (forall s, 0 <= sizeof s) -> 0 <= OutputBufferLength r ->
  HdBlkDispatchDeviceControl sizeof d r i = (status, i', buf) ->
  irp_completed i' = S (irp_completed i) /\ irp_status i' = status /\
  0 <= irp_information i' <= OutputBufferLength r /\
  (NT_SUCCESS status = false -> irp_information i' = 0 /\ buf = None) /\
  (IoControlCode r = IOCTL_MOUNTDEV_QUERY_DEVICE_NAME ->
     if sizeof MOUNTDEV_NAME + 52 <=? OutputBufferLength r
     then status = STATUS_SUCCESS /\ irp_information i' = sizeof MOUNTDEV_NAME + 52 /\
          buf = Some (MountName 52 (wide HD_BLK_SYM_LINK))
     else status = STATUS_BUFFER_OVERFLOW /\ irp_information i' = 0).
Proof.
  intros Hs H0. unfold HdBlkDispatchDeviceControl.
  pose proof (disk_switch_ok sizeof Hs (w_geom d) 1 (mount_switch sizeof) r H0 (mount_switch_ok sizeof Hs r H0)) as Hok.
  destruct (disk_switch _ _ _ _ _) as [[st b] v] eqn:E. intros [= <- <- <-]. destruct Hok as [Hb Hf].
  split. { by destruct (IoControlCode r); unfold mount_needed; try case_match. }
  split; [done|]. split; [done|]. split; [done|]. intros Hc. revert E. unfold disk_switch, mount_switch, mount_case.
  rewrite Hc. change name_len with 52. destruct (Z.leb_spec (sizeof MOUNTDEV_NAME + 52) (OutputBufferLength r)) as [Hle|Hgt].
  - destruct (Z.ltb_spec (OutputBufferLength r) (sizeof MOUNTDEV_NAME + 52)); [lia|]. by intros [= <- <- <-].
  - destruct (Z.ltb_spec (OutputBufferLength r) (sizeof MOUNTDEV_NAME + 52)); [|lia]. by intros [= <- <- <-].
Qed.

Definition sample_wdm : HD_BLK_DEVICE := mkWdmDev 100 init_geom true 200 true.

Lemma wdm_control_contract_witness :
  (HdBlkDispatchDeviceControl sizes64 sample_wdm (mkDevCtl IOCTL_MOUNTDEV_QUERY_DEVICE_NAME 0 10 0) fresh_irp).1.1 =
    STATUS_BUFFER_OVERFLOW /\ 0 = 0.
Proof.
  apply (wdm_control_contract sizes64 sample_wdm (mkDevCtl IOCTL_MOUNTDEV_QUERY_DEVICE_NAME 0 10 0) fresh_irp
    STATUS_BUFFER_OVERFLOW (complete_with STATUS_BUFFER_OVERFLOW 0 fresh_irp) None);
    [apply sizes64_nonneg | simpl; lia | reflexivity | reflexivity].
Defined.
