(* ===== verification/Bus.v ===== *)
(** * The bus driver (driver/bus)

    bus_driver.c (entry point), bus_pnp.c (plug and play of the bus and of its
    children, device control), bus_child.c and bus_ioctl.c (child management).
    The children live in pool blocks on the LIST_ENTRY ring of the extension.
    Outcomes of allocations and kernel calls are arguments. *)

From S2P Require Import Prelude Nt ListEntry Kernel Disk.

Record HD_DEVICE_CONFIG : Type := mkConfig {
  cfg_ImageId : Z;
  cfg_DiskSize : Z;
  cfg_BlockSize : Z;
  cfg_BlockCount : Z;
  cfg_LayerId : Z;
}.

(** A child, without its links; [ChildDeviceObject] is 0 for NULL. [Config] is
    the member bus_child.c fills in. *)
Record HD_CHILD_DEVICE : Type := mkChild {
  ChildId : Z;
  ChildDeviceObject : Z;
  c_geom : DiskGeom;
  InterfaceName : Z;
  InterfaceRegistered : bool;
  Started : bool;
  Config : option HD_DEVICE_CONFIG;
}.

(** The bus extension, its pool blocks, the copies of children kept in the
    extensions of their device objects, and the kernel ledger. *)
Record HD_BUS_EXTENSION : Type := mkBus {
  BusDeviceObject : Z;
  ChildCount : Z;
  b_links : Links;
  b_children : gmap Z HD_CHILD_DEVICE;
  b_pdo_ext : gmap Z HD_CHILD_DEVICE;
  b_kernel : Kernel;
}.

Definition zero_geom : DiskGeom := mkGeom 0 0 0 0 0 0.
Definition zero_child : HD_CHILD_DEVICE := mkChild 0 0 zero_geom 0 false false None.

Definition set_ring (m : Links) (c : gmap Z HD_CHILD_DEVICE) (b : HD_BUS_EXTENSION) : HD_BUS_EXTENSION :=
  mkBus (BusDeviceObject b) (ChildCount b) m c (b_pdo_ext b) (b_kernel b).
Definition set_bcount (n : Z) (b : HD_BUS_EXTENSION) : HD_BUS_EXTENSION :=
  mkBus (BusDeviceObject b) n (b_links b) (b_children b) (b_pdo_ext b) (b_kernel b).
Definition set_bkernel (k : Kernel) (b : HD_BUS_EXTENSION) : HD_BUS_EXTENSION :=
  mkBus (BusDeviceObject b) (ChildCount b) (b_links b) (b_children b) (b_pdo_ext b) k.
Definition set_pdo_ext (m : gmap Z HD_CHILD_DEVICE) (b : HD_BUS_EXTENSION) : HD_BUS_EXTENSION :=
  mkBus (BusDeviceObject b) (ChildCount b) (b_links b) (b_children b) m (b_kernel b).
Definition set_child (a : Z) (c : HD_CHILD_DEVICE) (b : HD_BUS_EXTENSION) : HD_BUS_EXTENSION :=
  set_ring (b_links b) (<[a:=c]> (b_children b)) b.

Definition with_pdo (dev : Z) (c : HD_CHILD_DEVICE) : HD_CHILD_DEVICE :=
  mkChild (ChildId c) dev (c_geom c) (InterfaceName c) (InterfaceRegistered c) (Started c) (Config c).
Definition with_started (b : bool) (c : HD_CHILD_DEVICE) : HD_CHILD_DEVICE :=
  mkChild (ChildId c) (ChildDeviceObject c) (c_geom c) (InterfaceName c) (InterfaceRegistered c) b (Config c).
Definition with_iface (name : Z) (r : bool) (c : HD_CHILD_DEVICE) : HD_CHILD_DEVICE :=
  mkChild (ChildId c) (ChildDeviceObject c) (c_geom c) name r (Started c) (Config c).

(** ** Entry point *)

Definition HD_BUS_SYM_LINK : string := "\DosDevices\HyperDiskBus".

Section Bus.
(** The address of [ChildListHead]. *)
Context (head : Z).

Definition BusDriverEntry (create_st dev link_st : Z) (k : Kernel) : res (Z * option HD_BUS_EXTENSION * Kernel) :=
  let k := IoCreateDevice create_st dev k in
  if negb (NT_SUCCESS create_st) then Ok (create_st, None, k)
  else
    let k := IoCreateSymbolicLink link_st HD_BUS_SYM_LINK k in
    if negb (NT_SUCCESS link_st) then let* k := IoDeleteDevice dev k in Ok (link_st, None, k)
    else Ok (STATUS_SUCCESS, Some (mkBus dev 0 (InitializeListHead head (mkLinks ∅ ∅)) ∅ ∅ k), k).

(** ** Children *)

Definition HdBusIsFdo (dev : Z) (b : HD_BUS_EXTENSION) : bool := dev =? BusDeviceObject b.

(** The first child that satisfies a test, by the ring walk of the driver. *)
Definition find_child (fuel : nat) (P : HD_CHILD_DEVICE -> bool) (b : HD_BUS_EXTENSION) : res (option Z) :=
  let* first := Flink (b_links b) head in
  find_entry fuel (b_links b) head (fun a => let* c := of_opt (b_children b !! a) in Ok (P c)) first.

Definition HdBusFindChildByPdo (fuel : nat) (pdo : Z) (b : HD_BUS_EXTENSION) : res (option Z) :=
  find_child fuel (fun c => ChildDeviceObject c =? pdo) b.

(** The device object of a child; its name, made from the id, plays no role in
    the model. Returns the status and the child with its device. *)
Definition HdBusCreatePdo (create_st dev : Z) (c : HD_CHILD_DEVICE) (b : HD_BUS_EXTENSION)
    : Z * HD_CHILD_DEVICE * HD_BUS_EXTENSION :=
  let b := set_bkernel (IoCreateDevice create_st dev (b_kernel b)) b in
  if negb (NT_SUCCESS create_st) then (create_st, c, b)
  else
    let c := with_pdo dev c in
    (STATUS_SUCCESS, c, set_pdo_ext (<[dev := c]> (b_pdo_ext b)) b).

Definition HdBusAutoEnumerateChild (alloc : option Z) (create_st dev : Z) (b : HD_BUS_EXTENSION)
    : res (Z * HD_BUS_EXTENSION) :=
  match alloc with
  | None => Ok (STATUS_INSUFFICIENT_RESOURCES, b)
  | Some a =>
      let id := u32 (ChildCount b + 1) in
      let b := set_bcount id b in
      let c := mkChild id 0 init_geom 0 false false None in
      let '(status, c, b) := HdBusCreatePdo create_st dev c b in
      if negb (NT_SUCCESS status) then Ok (status, b)
      else
        let* m := InsertTailList head a (alloc_node a (b_links b)) in
        Ok (STATUS_SUCCESS, set_ring m (<[a:=c]> (b_children b)) b)
  end.

Definition HdBusCreateChildDevice (alloc : option Z) (config : HD_DEVICE_CONFIG) (b : HD_BUS_EXTENSION)
    : res (Z * HD_BUS_EXTENSION) :=
  match alloc with
  | None => Ok (STATUS_INSUFFICIENT_RESOURCES, b)
  | Some a =>
      let id := u32 (ChildCount b + 1) in
      let b := set_bcount id b in
      let c := mkChild id 0 zero_geom 0 false false (Some config) in
      let* m := InsertTailList head a (alloc_node a (b_links b)) in
      Ok (STATUS_SUCCESS, set_ring m (<[a:=c]> (b_children b)) b)
  end.

Definition HdBusRemoveChildDevice (fuel : nat) (id : Z) (b : HD_BUS_EXTENSION) : res (Z * HD_BUS_EXTENSION) :=
  let* found := find_child fuel (fun c => ChildId c =? id) b in
  match found with
  | Some a =>
      let* m := RemoveEntryList a (b_links b) in
      let* _ := of_opt (b_children b !! a) in
      Ok (STATUS_SUCCESS, set_ring (free_node a m) (delete a (b_children b)) b)
  | None => Ok (STATUS_NOT_FOUND, b)
  end.

(** ** Control requests to the bus (bus_ioctl.c) *)

Definition HdBusDispatchCreate (i : IRP) : Z * IRP := (STATUS_SUCCESS, complete_with STATUS_SUCCESS 0 i).
Definition HdBusDispatchPower (i : IRP) : Z * IRP := (STATUS_SUCCESS, IoCompleteRequest (set_status STATUS_SUCCESS i)).
Definition HdBusDispatchSystemControl (i : IRP) : Z * IRP :=
  (STATUS_NOT_SUPPORTED, IoCompleteRequest (set_status STATUS_NOT_SUPPORTED i)).

Inductive bus_ioctl : Type :=
| IOCTL_HD_ADD_DEVICE (config : HD_DEVICE_CONFIG)
| IOCTL_HD_REMOVE_DEVICE (id : Z)
| IOCTL_HD_GET_STATUS
| IOCTL_HD_other (code : Z).

(** [config_size] is the size of HD_DEVICE_CONFIG as compiled. *)
Definition HdBusDispatchIoctl (fuel : nat) (config_size : Z) (alloc : option Z) (code : bus_ioctl) (inlen : Z) (i : IRP)
    (b : HD_BUS_EXTENSION) : res (Z * IRP * HD_BUS_EXTENSION) :=
  let* r :=
    match code with
    | IOCTL_HD_ADD_DEVICE config =>
        if inlen <? config_size then Ok (STATUS_BUFFER_TOO_SMALL, b) else HdBusCreateChildDevice alloc config b
    | IOCTL_HD_REMOVE_DEVICE id =>
        if inlen <? 4 then Ok (STATUS_BUFFER_TOO_SMALL, b) else HdBusRemoveChildDevice fuel id b
    | IOCTL_HD_GET_STATUS => Ok (STATUS_SUCCESS, b)
    | IOCTL_HD_other _ => Ok (STATUS_INVALID_DEVICE_REQUEST, b)
    end in
  let (status, b) := (r : Z * HD_BUS_EXTENSION) in
  Ok (status, complete_with status 0 i, b).

(** ** The children as a list *)

Definition bus_repr (b : HD_BUS_EXTENSION) (l : list (Z * HD_CHILD_DEVICE)) : Prop :=
  holds (b_links b) (b_children b) head l /\
  NoDup (ChildId <$> l.*2) /\
  Forall (fun x => 1 <= ChildId x.2 <= ChildCount b) l /\
  0 <= ChildCount b < 2 ^ 32.

(** The list without the children of a given id. *)
Definition without (id : Z) (l : list (Z * HD_CHILD_DEVICE)) : list (Z * HD_CHILD_DEVICE) :=
  List.filter (fun x => negb (ChildId x.2 =? id)) l.

Lemma filter_all {A} (P : A -> bool) l : (forall x, x ∈ l -> P x = true) -> List.filter P l = l.
Proof.
  induction l as [|x l IH]; intros Hp; [done|]. simpl. rewrite (Hp x) by set_solver. f_equal. apply IH. set_solver.
Qed.

Lemma find_split id l :
  NoDup (ChildId <$> l.*2) ->
  match List.find (fun x : Z * HD_CHILD_DEVICE => ChildId x.2 =? id) l with
  | Some (a, c) => exists l1 l2, l = l1 ++ (a, c) :: l2 /\ ChildId c = id /\ without id l = l1 ++ l2
  | None => without id l = l
  end.
Proof.
  induction l as [|[a c] l IH]; [done|]. simpl. intros [Hn Hnd]%NoDup_cons.
  destruct (Z.eqb_spec (ChildId c) id) as [<-|Hne]; simpl.
  - exists [], l. split; [done|]. split; [done|]. apply filter_all. intros [a' c'] Hin. simpl.
    apply negb_true_iff, Z.eqb_neq. intros Heq. apply Hn. rewrite <- Heq. apply list_elem_of_fmap. exists c'.
    split; [done|]. apply list_elem_of_fmap. by exists (a', c').
  - specialize (IH Hnd). destruct (List.find _ l) as [[a' c']|].
    + destruct IH as (l1 & l2 & -> & Hid & Hw). exists ((a, c) :: l1), l2. split; [done|]. split; [done|]. simpl. by rewrite Hw.
    + by rewrite IH.
Qed.

Lemma find_child_spec fuel P b l :
  holds (b_links b) (b_children b) head l -> (length l < fuel)%nat ->
  find_child fuel P b = Ok (fst <$> List.find (fun x => P x.2) l).
Proof.
  intros Hh Hf. unfold find_child. pose proof Hh as [Hd _]. rewrite (dlist_first _ _ _ Hd). simpl.
  apply find_block_spec; [done..|]. by rewrite (dlist_first _ _ _ Hd).
Qed.

Lemma without_sub id l : without id l `sublist_of` l.
Proof.
  induction l as [|x l IH]; simpl; [constructor|]. destruct (negb _); by constructor.
Qed.

Lemma remove_spec fuel id b l :
  bus_repr b l -> (length l < fuel)%nat ->
  exists b', HdBusRemoveChildDevice fuel id b =
      Ok (if List.existsb (fun x => ChildId x.2 =? id) l then STATUS_SUCCESS else STATUS_NOT_FOUND, b') /\
    bus_repr b' (without id l) /\ ChildCount b' = ChildCount b /\ b_kernel b' = b_kernel b /\
    (without id l = l -> b' = b).
Proof.
  intros (Hh & Hnd & Hids & Hc) Hf. unfold HdBusRemoveChildDevice.
  rewrite (find_child_spec fuel _ b l Hh Hf). simpl. pose proof (find_split id l Hnd) as Hsplit.
  assert (NoDup (ChildId <$> (without id l).*2) /\ Forall (fun x => 1 <= ChildId x.2 <= ChildCount b) (without id l)) as [Hnd' Hids'].
  { split.
    - eapply sublist_NoDup; [done|]. apply fmap_sublist, fmap_sublist, without_sub.
    - apply Forall_forall. intros x Hx. rewrite Forall_forall in Hids. apply Hids.
      apply list_elem_of_In in Hx. apply list_elem_of_In. by apply filter_In in Hx as [? _]. }
  destruct (List.find _ l) as [[a c]|] eqn:Ef; simpl.
  - destruct Hsplit as (l1 & l2 & -> & Hid & Hw). rewrite Hw in *.
    destruct (holds_drop _ _ _ _ _ _ _ Hh) as (m & -> & Hh'). simpl.
    rewrite (holds_lookup _ _ _ _ _ _ _ Hh). simpl.
    assert (List.existsb (fun x : Z * HD_CHILD_DEVICE => ChildId x.2 =? id) (l1 ++ (a, c) :: l2) = true) as ->.
    { apply existsb_exists. exists (a, c). split; [apply in_app_iff; right; by left|]. by apply Z.eqb_eq. }
    eexists. split; [done|]. split; [done|]. split; [done|]. split; [done|].
    intros Heq. apply (f_equal length) in Heq. rewrite !length_app in Heq. simpl in Heq. lia.
  - assert (List.existsb (fun x : Z * HD_CHILD_DEVICE => ChildId x.2 =? id) l = false) as ->.
    { apply not_true_iff_false. rewrite existsb_exists. intros (x & Hin & Hx).
      pose proof (List.find_none _ _ Ef x Hin) as Hn. simpl in Hn. congruence. }
    exists b. rewrite Hsplit. by split_and!.
Qed.

(** A child with the next id, linked at the tail. *)
Lemma add_spec a c b m' k' px l :
  bus_repr b l -> ChildCount b + 1 < 2 ^ 32 -> a ∉ head :: l.*1 -> ChildId c = u32 (ChildCount b + 1) ->
  InsertTailList head a (alloc_node a (b_links b)) = Ok m' ->
  bus_repr (mkBus (BusDeviceObject b) (u32 (ChildCount b + 1)) m' (<[a:=c]> (b_children b)) px k') (l ++ [(a, c)]).
Proof.
  intros (Hh & Hnd & Hids & Hc) Hb Ha Hid Hins.
  destruct (holds_add _ _ _ _ a c Hh Ha) as (m & Hm & Hh'). assert (m = m') as -> by congruence.
  assert (u32 (ChildCount b + 1) = ChildCount b + 1) as Hu by (apply wrap_small; lia). rewrite Hu in *.
  split; [done|]. simpl. split; [|split; [|lia]].
  - rewrite !fmap_app. simpl. apply NoDup_app. split_and!; [done| |apply NoDup_singleton].
    intros x Hx Hy. apply list_elem_of_singleton in Hy. subst x.
    apply list_elem_of_fmap in Hx as (c' & Hc' & Hx). apply list_elem_of_fmap in Hx as ([a' c''] & -> & Hin).
    rewrite Forall_forall in Hids. specialize (Hids _ Hin). simpl in *. lia.
  - apply Forall_app. split; [eapply Forall_impl; [exact Hids|]; simpl; lia|]. constructor; [simpl; lia|constructor].
Qed.

(** ** Reachable buses *)

Inductive bus_step : HD_BUS_EXTENSION -> HD_BUS_EXTENSION -> Prop :=
| bs_enumerate alloc create_st dev b st b' :
    HdBusAutoEnumerateChild alloc create_st dev b = Ok (st, b') ->
    (forall a, alloc = Some a -> a <> head /\ b_children b !! a = None) ->
    ChildCount b + 1 < 2 ^ 32 -> bus_step b b'
| bs_ioctl fuel config_size alloc code inlen i b st i' b' :
    HdBusDispatchIoctl fuel config_size alloc code inlen i b = Ok (st, i', b') ->
    (forall a, alloc = Some a -> a <> head /\ b_children b !! a = None) ->
    ChildCount b + 1 < 2 ^ 32 -> (size (b_children b) < fuel)%nat -> bus_step b b'.

Lemma repr_fresh_child b l a : bus_repr b l -> a <> head -> b_children b !! a = None -> a ∉ head :: l.*1.
Proof.
  intros ((_ & Hp) & _) Hne Ha Hin. apply elem_of_cons in Hin as [|Hin]; [done|].
  apply list_elem_of_fmap in Hin as ([x c] & -> & Hin). apply Hp in Hin. simpl in *. congruence.
Qed.

Lemma repr_count b l n px k :
  bus_repr b l -> ChildCount b <= n < 2 ^ 32 -> bus_repr (mkBus (BusDeviceObject b) n (b_links b) (b_children b) px k) l.
Proof.
  intros (Hh & Hnd & Hids & Hc) Hn. split; [done|]. split; [done|]. split; [|simpl; lia].
  eapply Forall_impl; [exact Hids|]. simpl. lia.
Qed.

Lemma enumerate_repr alloc create_st dev b st b' l :
  bus_repr b l -> (forall a, alloc = Some a -> a <> head /\ b_children b !! a = None) ->
  ChildCount b + 1 < 2 ^ 32 -> HdBusAutoEnumerateChild alloc create_st dev b = Ok (st, b') -> exists l', bus_repr b' l'.
Proof.
  intros Hr Ha Hc E. destruct alloc as [a|]; simpl in E; [|simplify_eq; eauto].
  destruct (Ha a eq_refl) as [Hne Hnone]. pose proof (repr_fresh_child b l a Hr Hne Hnone) as Hfresh.
  unfold HdBusCreatePdo in E. destruct (NT_SUCCESS create_st) eqn:E2; simpl in E; rewrite ?E2 in E; simpl in E.
  - destruct (InsertTailList head a _) as [m| |] eqn:Ei; [|done..]. simpl in E. simplify_eq.
    eexists. by apply (add_spec a _ b m).
  - injection E as <- <-. exists l. apply (repr_count b l); [done|].
    destruct Hr as (_ & _ & _ & ?). simpl. unfold u32. rewrite wrap_small; lia.
Qed.

Lemma create_repr alloc config b st b' l :
  bus_repr b l -> (forall a, alloc = Some a -> a <> head /\ b_children b !! a = None) ->
  ChildCount b + 1 < 2 ^ 32 -> HdBusCreateChildDevice alloc config b = Ok (st, b') -> exists l', bus_repr b' l'.
Proof.
  intros Hr Ha Hc E. destruct alloc as [a|]; simpl in E; [|simplify_eq; eauto].
  destruct (Ha a eq_refl) as [Hne Hnone]. pose proof (repr_fresh_child b l a Hr Hne Hnone) as Hfresh.
  destruct (InsertTailList head a _) as [m| |] eqn:Ei; [|done..]. simpl in E. simplify_eq.
  eexists. by apply (add_spec a _ b m).
Qed.

Lemma step_repr b b' l : bus_repr b l -> bus_step b b' -> exists l', bus_repr b' l'.
Proof.
  intros Hr Hs. inv Hs.
  - by eapply enumerate_repr.
  - match goal with H : HdBusDispatchIoctl _ _ _ _ _ _ _ = _ |- _ => unfold HdBusDispatchIoctl in H; rename H into E end.
    destruct code as [config|id| |c]; simpl in E.
    + destruct (inlen <? config_size); simpl in E; [simplify_eq; eauto|].
      destruct (HdBusCreateChildDevice alloc config b) as [[st1 b1]| |] eqn:E1; [|done..]. simpl in E. simplify_eq.
      by eapply create_repr.
    + destruct (inlen <? 4); simpl in E; [simplify_eq; eauto|].
      destruct (HdBusRemoveChildDevice fuel id b) as [[st1 b1]| |] eqn:E1; [|done..]. simpl in E. simplify_eq.
      assert (length l = size (b_children b)) as Hl.
      { symmetry. destruct Hr as ((Hd & Hp) & _). apply heap_size; [done|]. by destruct Hd as [[_ ?]%NoDup_cons _]. }
      destruct (remove_spec fuel id b l Hr ltac:(lia)) as (b2 & E2 & Hr2 & _). rewrite E2 in E1. simplify_eq. eauto.
    + simplify_eq; eauto.
    + simplify_eq; eauto.
Qed.
End Bus.

(** ** Properties *)

(** C36. In every state reachable from a fresh bus by enumerating children on
    start and by add and remove requests (allocation and device creation failing
    at will, fewer than 2^32 ids handed out), the ring links exactly the live
    child blocks and the ids of the children are pairwise different. *)
Theorem bus_ids_unique head b0 b :
  bus_repr head b0 [] -> rtc (bus_step head) b0 b ->
  exists l, holds (b_links b) (b_children b) head l /\ NoDup (ChildId <$> l.*2) /\
    Forall (fun x => 1 <= ChildId x.2 <= ChildCount b) l.
Proof.
  intros H0 Hrtc. assert (exists l, bus_repr head b0 l) as Hex by eauto. clear H0.
  induction Hrtc as [b|b b1 b2 Hs _ IH].
  - destruct Hex as (l & ? & ? & ? & _). eauto.
  - destruct Hex as [l Hl]. apply IH. by apply (step_repr head b b1 l).
Qed.

(** Removing a child by id unlinks and frees exactly the child with that id,
    keeps the others in order and touches no freed block; an id that is not
    there gives STATUS_NOT_FOUND and changes nothing. The device object of the
    child is not deleted: the ledger stays as it was. *)
Theorem bus_remove_exact head fuel id b l :
  bus_repr head b l -> (length l < fuel)%nat ->
  exists b', HdBusRemoveChildDevice head fuel id b =
      Ok (if List.existsb (fun x => ChildId x.2 =? id) l then STATUS_SUCCESS else STATUS_NOT_FOUND, b') /\
    bus_repr head b' (without id l) /\ b_kernel b' = b_kernel b /\ (without id l = l -> b' = b).
Proof. intros Hr Hf. destruct (remove_spec head fuel id b l Hr Hf) as (b' & ? & ? & _ & ? & ?). eauto. Qed.

(** ** Witnesses *)

Definition bus0 : HD_BUS_EXTENSION := mkBus 1 0 (InitializeListHead 8 (mkLinks ∅ ∅)) ∅ ∅ kernel0.

Lemma bus0_repr : bus_repr 8 bus0 [].
Proof. split; [apply holds_init|]. split; [constructor|]. split; [constructor|]. simpl. lia. Qed.

Definition bus_after (r : res (Z * HD_BUS_EXTENSION)) : HD_BUS_EXTENSION :=
  match r with
  | Ok (_, b) => b
  | _ => bus0
  end.
Definition bus1 : HD_BUS_EXTENSION := bus_after (HdBusAutoEnumerateChild 8 (Some 100) 0 50 bus0).
Definition child1 : HD_CHILD_DEVICE := mkChild 1 50 init_geom 0 false false None.

Lemma bus1_repr : bus_repr 8 bus1 [(100, child1)].
Proof.
  destruct (InsertTailList 8 100 (alloc_node 100 (b_links bus0))) as [m| |] eqn:E; [|discriminate E..].
  pose proof (add_spec 8 100 child1 bus0 m (IoCreateDevice 0 50 kernel0) {[50 := child1]} [] bus0_repr) as H.
  vm_compute in E. injection E as <-. apply H; [reflexivity | set_solver | reflexivity | reflexivity].
Qed.

Lemma bus_ids_unique_witness :
  exists l, holds (b_links bus1) (b_children bus1) 8 l /\ NoDup (ChildId <$> l.*2) /\
    Forall (fun x => 1 <= ChildId x.2 <= ChildCount bus1) l.
Proof.
  apply (bus_ids_unique 8 bus0); [apply bus0_repr|]. apply rtc_once.
  apply (bs_enumerate 8 (Some 100) 0 50 bus0 STATUS_SUCCESS);
    [vm_compute; reflexivity | intros a [= <-]; split; [discriminate|reflexivity] | reflexivity].
Defined.

Lemma bus_remove_exact_witness :
  exists b', HdBusRemoveChildDevice 8 2 1 bus1 = Ok (STATUS_SUCCESS, b') /\
    bus_repr 8 b' [] /\ b_kernel b' = b_kernel bus1 /\ ([] = [(100, child1)] -> b' = bus1).
Proof. apply (bus_remove_exact 8 2 1 bus1 [(100, child1)]); [apply bus1_repr | simpl; lia]. Defined.
