(* ===== verification/BusPnp.v ===== *)
(** * Plug and play of the bus (driver/bus/bus_pnp.c)

    Identifier strings, the packets of a child, the relations query and the
    dispatch routines. *)

From S2P Require Import Prelude Nt ListEntry Kernel Disk Bus.

(** ** Identifier strings

    Buffers of wide characters; a zeroed buffer of [n] characters is
    [replicate n 0]. *)

Definition wchars (s : string) : list Z := zstr s.

(** One identifier: room for it and two terminators, zeroed, then the copy. *)
Definition single_id (s : list Z) : res (list Z) :=
  let idLength := 2 * Z.of_nat (length s) + 2 + 2 in
  wr (replicate (Z.to_nat (idLength / 2)) 0) 0 s.

(** Several identifiers: the size loop and the copy loop. *)
Fixpoint ids_len (ss : list (list Z)) : Z :=
  match ss with
  | [] => 0
  | s :: r => (Z.of_nat (length s) + 1) * 2 + ids_len r
  end.
Fixpoint copy_ids (buf : list Z) (ptr : Z) (ss : list (list Z)) : res (list Z) :=
  match ss with
  | [] => Ok buf
  | s :: r => let* buf := wr buf ptr s in copy_ids buf (ptr + (Z.of_nat (length s) + 1)) r
  end.
Definition multi_ids (ss : list (list Z)) : res (list Z) :=
  let totalLen := u32 (ids_len ss + 2) in
  copy_ids (replicate (Z.to_nat (totalLen / 2)) 0) 0 ss.

Inductive id_type : Type :=
| BusQueryDeviceID | BusQueryHardwareIDs | BusQueryInstanceID | BusQueryCompatibleIDs | BusQuery_other (t : Z).

Definition hwIds : list (list Z) := [wchars "ROOT\HYPERDISKBLK"; wchars "HTKIS\HyperDisk_VDisk"].
Definition compatIds : list (list Z) := [wchars "ROOT\DISK"].

(** Status, buffer stored in the packet (its address is [alloc]) and packet. *)
Definition give_id (alloc : option Z) (content : res (list Z)) (i : IRP) : res (Z * option (list Z) * IRP) :=
  match alloc with
  | None => Ok (STATUS_INSUFFICIENT_RESOURCES, None, i)
  | Some a => let* buf := content in Ok (STATUS_SUCCESS, Some buf, set_information a i)
  end.
Definition HdBusPdoQueryId (alloc : option Z) (t : id_type) (i : IRP) : res (Z * option (list Z) * IRP) :=
  match t with
  | BusQueryDeviceID => give_id alloc (single_id (wchars "ROOT\HYPERDISKBLK")) i
  | BusQueryHardwareIDs => give_id alloc (multi_ids hwIds) i
  | BusQueryInstanceID => give_id alloc (single_id (wchars "0")) i
  | BusQueryCompatibleIDs => give_id alloc (multi_ids compatIds) i
  | BusQuery_other _ => Ok (STATUS_NOT_SUPPORTED, None, i)
  end.

(** ** Packets of a child *)

Record DEVICE_CAPABILITIES : Type := mkCaps {
  Removable : bool; SurpriseRemovalOK : bool; EjectSupported : bool; LockSupported : bool;
  D1Latency : Z; D2Latency : Z; D3Latency : Z;
}.

(** Parameters of the packet and answers of the kernel. *)
Record PnpArgs : Type := mkPnpArgs {
  pa_reg_st : Z;
  pa_reg_name : Z;
  pa_alloc : option Z;
  pa_id : id_type;
  pa_text_is_description : bool;
  pa_bus_relations : bool;
  pa_caps : option DEVICE_CAPABILITIES;
}.

Definition description : list Z := wchars "HTKIS HyperDisk Virtual Disk" ++ [0].

(** What a packet leaves: status returned, packet, child, ledger, buffer handed
    to the caller and capabilities. *)
Definition pdo_result : Type := Z * IRP * HD_CHILD_DEVICE * Kernel * option (list Z) * option DEVICE_CAPABILITIES.

Definition finish_pdo (status : Z) (i : IRP) (c : HD_CHILD_DEVICE) (k : Kernel) (buf : option (list Z))
    (caps : option DEVICE_CAPABILITIES) : pdo_result :=
  let i := (if negb (status =? STATUS_PENDING)
            then IoCompleteRequest (set_status (if negb (irp_status i =? STATUS_SUCCESS) then irp_status i else status) i)
            else i) in
  (irp_status i, i, c, k, buf, caps).

Definition HdBusPdoPnp (mn : pnp_minor) (p : PnpArgs) (i : IRP) (c : HD_CHILD_DEVICE) (k : Kernel) : res pdo_result :=
  let caps := pa_caps p in
  match mn with
  | IRP_MN_START_DEVICE =>
      let c := with_started true c in
      let '(status, c, k) :=
        (if negb (InterfaceRegistered c) then
           let k := IoRegisterDeviceInterface (pa_reg_st p) (pa_reg_name p) k in
           if NT_SUCCESS (pa_reg_st p) then (pa_reg_st p, with_iface (pa_reg_name p) true c, k) else (pa_reg_st p, c, k)
         else (STATUS_SUCCESS, c, k)) in
      let* k := (if InterfaceRegistered c then IoSetDeviceInterfaceState (InterfaceName c) true k else Ok k) in
      Ok (finish_pdo status (set_status STATUS_SUCCESS i) c k None caps)
  | IRP_MN_QUERY_STOP_DEVICE | IRP_MN_QUERY_REMOVE_DEVICE
  | IRP_MN_CANCEL_STOP_DEVICE | IRP_MN_CANCEL_REMOVE_DEVICE =>
      Ok (finish_pdo STATUS_SUCCESS (set_status STATUS_SUCCESS i) c k None caps)
  | IRP_MN_REMOVE_DEVICE =>
      let* ck :=
        (if InterfaceRegistered c then
           let* k := IoSetDeviceInterfaceState (InterfaceName c) false k in
           let* k := ExFreePool (InterfaceName c) k in
           Ok (with_iface (InterfaceName c) false c, k)
         else Ok (c, k)) in
      let (c, k) := (ck : HD_CHILD_DEVICE * Kernel) in
      Ok (finish_pdo STATUS_SUCCESS (set_status STATUS_SUCCESS i) (with_started false c) k None caps)
  | IRP_MN_SURPRISE_REMOVAL =>
      let* k := (if InterfaceRegistered c then IoSetDeviceInterfaceState (InterfaceName c) false k else Ok k) in
      Ok (finish_pdo STATUS_SUCCESS (set_status STATUS_SUCCESS i) (with_started false c) k None caps)
  | IRP_MN_QUERY_DEVICE_RELATIONS =>
      Ok (finish_pdo STATUS_SUCCESS (set_status STATUS_SUCCESS i) c k None caps)
  | IRP_MN_QUERY_ID =>
      let* r := HdBusPdoQueryId (pa_alloc p) (pa_id p) i in
      let '(status, buf, i) := r in
      Ok (finish_pdo status (set_status status i) c k buf caps)
  | IRP_MN_QUERY_CAPABILITIES =>
      let caps := (match caps with Some _ => Some (mkCaps false true false false 0 0 0) | None => None end) in
      Ok (finish_pdo STATUS_SUCCESS (set_status STATUS_SUCCESS i) c k None caps)
  | IRP_MN_QUERY_DEVICE_TEXT =>
      let '(status, buf, i) :=
        (if pa_text_is_description p then
           match pa_alloc p with
           | Some a => (STATUS_SUCCESS, Some description, set_information a i)
           | None => (STATUS_INSUFFICIENT_RESOURCES, None, i)
           end
         else (STATUS_SUCCESS, None, i)) in
      Ok (finish_pdo status (set_status status i) c k buf caps)
  | IRP_MN_other _ => Ok (finish_pdo STATUS_SUCCESS (set_status STATUS_NOT_SUPPORTED i) c k None caps)
  end.

(** ** Packets of the bus itself

    [rels] are the relation arrays in the pool, by address; a packet's
    information field holds such an address. *)
Record FdoCtx : Type := mkFdo {
  fx_bus : HD_BUS_EXTENSION;
  fx_irp : IRP;
  fx_rels : gmap Z (list Z);
}.

(** Answers of the kernel during one pass through the bus's own handler. *)
Record FdoAnswers : Type := mkAnswers {
  fa_child : option Z; fa_create_st : Z; fa_dev : Z; fa_rels : option Z;
}.

Section BusPnp.
(** The list head, and of DEVICE_RELATIONS the size and the offset of the
    object array. *)
Context (head : Z) (rel_size rel_off : Z).

(** First walk: the number of children. *)
Fixpoint count_loop (fuel : nat) (m : Links) (entry n : Z) : res Z :=
  match fuel with
  | O => NoFuel
  | S f => if entry =? head then Ok n else let* next := Flink m entry in count_loop f m next (u32 (n + 1))
  end.

(** Second walk: reference and record each device object; [room] is the size of
    the array in bytes. *)
Fixpoint fill_loop (fuel : nat) (room : Z) (b : HD_BUS_EXTENSION) (entry : Z) (objs : list Z) (k : Kernel)
    : res (list Z * Kernel) :=
  match fuel with
  | O => NoFuel
  | S f =>
      if entry =? head then Ok (objs, k)
      else
        let* c := of_opt (b_children b !! entry) in
        let* ok :=
          (if negb (ChildDeviceObject c =? 0) then
             if rel_off + 8 * (Z.of_nat (length objs) + 1) <=? room
             then Ok (objs ++ [ChildDeviceObject c], ObRef (ChildDeviceObject c) k) else Fault
           else Ok (objs, k)) in
        let* next := Flink (b_links b) entry in
        fill_loop f room b next ok.1 ok.2
  end.

(** The relations query of the bus. *)
Definition query_relations (fuel : nat) (alloc : option Z) (x : FdoCtx) : res FdoCtx :=
  let b := fx_bus x in
  let* first := Flink (b_links b) head in
  let* childCount := count_loop fuel (b_links b) first 0 in
  let relationSize := u32 (rel_size + u32 (childCount * 8)) in
  match alloc with
  | None => Ok (mkFdo b (set_status STATUS_INSUFFICIENT_RESOURCES (fx_irp x)) (fx_rels x))
  | Some a =>
      let* r := fill_loop fuel relationSize b first [] (b_kernel b) in
      let (objs, k) := (r : list Z * Kernel) in
      let* old :=
        (if negb (irp_information (fx_irp x) =? 0) then
           let* o := of_opt (fx_rels x !! irp_information (fx_irp x)) in
           Ok (foldl (fun k d => ObDeref d k) k o, delete (irp_information (fx_irp x)) (fx_rels x))
         else Ok (k, fx_rels x)) in
      Ok (mkFdo (set_bkernel old.1 b)
                (set_status STATUS_SUCCESS (set_information a (fx_irp x))) (<[a:=objs]> old.2))
  end.

(** The handler up to the point where it passes the packet on. *)
Definition HdBusFdoPnp_body (fuel : nat) (mn : pnp_minor) (p : PnpArgs) (fa : FdoAnswers) (x : FdoCtx) : res FdoCtx :=
  match mn with
  | IRP_MN_START_DEVICE =>
      let* r := HdBusAutoEnumerateChild head (fa_child fa) (fa_create_st fa) (fa_dev fa) (fx_bus x) in
      Ok (mkFdo r.2 (set_status STATUS_SUCCESS (fx_irp x)) (fx_rels x))
  | IRP_MN_QUERY_DEVICE_RELATIONS =>
      if pa_bus_relations p then query_relations fuel (fa_rels fa) x else Ok x
  | _ => Ok x
  end.

(** Dispatch. The bus passes its own packets on with [IoSkipCurrentIrpStackLocation]
    and [IoCallDriver (BusDeviceObject)], that is, to this routine again with the
    same packet; [depth] bounds the nesting and indexes the kernel's answers. *)
Fixpoint HdBusDispatchPnp (depth : nat) (fuel : nat) (answers : nat -> FdoAnswers) (dev : Z) (mn : pnp_minor) (p : PnpArgs)
    (x : FdoCtx) : res (Z * FdoCtx) :=
  match depth with
  | O => NoFuel
  | S n =>
      if HdBusIsFdo dev (fx_bus x) then
        let* x := HdBusFdoPnp_body fuel mn p (answers n) x in
        HdBusDispatchPnp n fuel answers (BusDeviceObject (fx_bus x)) mn p x
      else
        let* found := HdBusFindChildByPdo head fuel dev (fx_bus x) in
        match found with
        | Some a =>
            let* c := of_opt (b_children (fx_bus x) !! a) in
            let* r := HdBusPdoPnp mn p (fx_irp x) c (b_kernel (fx_bus x)) in
            let '(status, i, c, k, buf, caps) := r in
            Ok (status, mkFdo (set_child a c (set_bkernel k (fx_bus x))) i (fx_rels x))
        | None =>
            Ok (STATUS_NO_SUCH_DEVICE, mkFdo (fx_bus x) (IoCompleteRequest (set_status STATUS_NO_SUCH_DEVICE (fx_irp x))) (fx_rels x))
        end
  end.

Definition HdBusDispatchDeviceControl (fuel : nat) (sizeof : struct_name -> Z) (dev : Z) (r : DevCtl) (i : IRP)
    (b : HD_BUS_EXTENSION) : res (Z * IRP * option sysbuf) :=
  if HdBusIsFdo dev b then
    Ok (STATUS_INVALID_DEVICE_REQUEST, IoCompleteRequest (set_status STATUS_INVALID_DEVICE_REQUEST i), None)
  else
    let* found := HdBusFindChildByPdo head fuel dev b in
    match found with
    | None => Ok (STATUS_NO_SUCH_DEVICE, IoCompleteRequest (set_status STATUS_NO_SUCH_DEVICE i), None)
    | Some a =>
        let* c := of_opt (b_children b !! a) in
        let '(status, bytesReturned, buf) := disk_switch sizeof (c_geom c) 0 unknown_case r in
        Ok (status, complete_with status bytesReturned i, buf)
    end.
End BusPnp.

(** ** Identifier lists *)

(** The encoding and its reader: strings end with NUL, the list with an empty
    string. *)
Definition enc_ids (ss : list (list Z)) : list Z := flat_map (fun s => s ++ [0]) ss.

Fixpoint parse_ids (cur buf : list Z) : option (list (list Z)) :=
  match buf with
  | [] => None
  | c :: r =>
      if c =? 0 then match cur with [] => Some [] | _ => cons cur <$> parse_ids [] r end
      else parse_ids (cur ++ [c]) r
  end.

Lemma enc_ids_len ss : ids_len ss = 2 * Z.of_nat (length (enc_ids ss)).
Proof. induction ss as [|s ss IH]; [done|]. simpl. rewrite IH, !length_app. simpl. lia. Qed.

Lemma wr_zeros pre s n :
  (length s <= n)%nat ->
  wr (pre ++ replicate n 0) (Z.of_nat (length pre)) s = Ok (pre ++ s ++ replicate (n - length s) 0).
Proof.
  intros Hn. rewrite wr_ok; [|lia|rewrite length_app, length_replicate; lia]. rewrite Nat2Z.id. unfold copy_at.
  rewrite take_app_length, drop_app_ge by lia. do 4 f_equal.
  rewrite drop_replicate. f_equal. lia.
Qed.

Lemma copy_ids_spec ss : forall pre n,
  (length (enc_ids ss) <= n)%nat ->
  copy_ids (pre ++ replicate n 0) (Z.of_nat (length pre)) ss =
  Ok (pre ++ enc_ids ss ++ replicate (n - length (enc_ids ss)) 0).
Proof.
  induction ss as [|s ss IH]; intros pre n Hn; simpl in *; [by rewrite Nat.sub_0_r|].
  rewrite !length_app in Hn. simpl in Hn. rewrite wr_zeros by lia. cbn [res_bind].
  replace (pre ++ s ++ replicate (n - length s) 0) with ((pre ++ s ++ [0]) ++ replicate (n - length s - 1) 0).
  2:{ rewrite <- !(assoc_L (++)). do 2 f_equal. replace (n - length s)%nat with (S (n - length s - 1)) by lia. simpl.
      do 2 f_equal. lia. }
  replace (Z.of_nat (length pre) + (Z.of_nat (length s) + 1)) with (Z.of_nat (length (pre ++ s ++ [0])))
    by (rewrite !length_app; simpl; lia).
  rewrite IH by lia. f_equal. rewrite <- !(assoc_L (++)). do 4 f_equal. f_equal. rewrite !length_app. simpl. lia.
Qed.

Lemma parse_string s rest cur :
  Forall (fun c => c <> 0) s -> cur ++ s <> [] ->
  parse_ids cur (s ++ 0 :: rest) = cons (cur ++ s) <$> parse_ids [] rest.
Proof.
  revert cur; induction s as [|c s IH]; intros cur Hs Hne; simpl.
  - rewrite app_nil_r in *. by destruct cur.
  - inv Hs. destruct (Z.eqb_spec c 0); [done|]. rewrite IH; [|done|by destruct cur]. by rewrite <- (assoc_L (++)).
Qed.

Lemma parse_enc ss :
  Forall (fun s => s <> [] /\ Forall (fun c => c <> 0) s) ss -> parse_ids [] (enc_ids ss ++ [0]) = Some ss.
Proof.
  induction 1 as [|s ss [Hne Hs] _ IH]; [done|]. simpl. rewrite <- !(assoc_L (++)). simpl.
  rewrite parse_string by done. by rewrite IH.
Qed.

(** For any identifiers that are not empty and contain no NUL (within a
    32-bit size) the two loops of the identifier query never write outside the
    buffer they size, and the buffer is exactly the double-terminated list that
    reads back as those identifiers. *)
Theorem bus_ids_round_trip ss :
  Forall (fun s => s <> [] /\ Forall (fun c => c <> 0) s) ss -> ids_len ss + 2 < 2 ^ 32 ->
  exists buf, multi_ids ss = Ok buf /\ 2 * Z.of_nat (length buf) = ids_len ss + 2 /\ parse_ids [] buf = Some ss.
Proof.
  intros Hs Hlen. unfold multi_ids. rewrite enc_ids_len in *. unfold u32. rewrite wrap_small by lia.
  replace (Z.to_nat ((2 * Z.of_nat (length (enc_ids ss)) + 2) / 2)) with (length (enc_ids ss) + 1)%nat.
  2:{ replace (2 * Z.of_nat (length (enc_ids ss)) + 2) with ((Z.of_nat (length (enc_ids ss)) + 1) * 2) by lia.
      rewrite Z.div_mul by lia. lia. }
  exists (enc_ids ss ++ [0]). pose proof (copy_ids_spec ss [] (length (enc_ids ss) + 1) ltac:(lia)) as Hc. change (Z.of_nat (length [])) with 0 in Hc. rewrite app_nil_l in Hc. rewrite Hc.
  replace (length (enc_ids ss) + 1 - length (enc_ids ss))%nat with 1%nat by lia.
  split; [done|]. split; [rewrite length_app; simpl; lia|]. by apply parse_enc.
Qed.

Lemma bus_ids_round_trip_witness :
  exists buf, multi_ids hwIds = Ok buf /\ 2 * Z.of_nat (length buf) = ids_len hwIds + 2 /\ parse_ids [] buf = Some hwIds.
Proof. apply bus_ids_round_trip; [repeat constructor; simpl; try discriminate; lia | reflexivity]. Defined.

(** ** The relations query *)

Definition pdos (l : list (Z * HD_CHILD_DEVICE)) : list Z :=
  List.filter (fun d => negb (d =? 0)) (ChildDeviceObject <$> l.*2).

Definition occurrences (d : Z) (ds : list Z) : Z := Z.of_nat (length (List.filter (Z.eqb d) ds)).

Section Relations.
Context (head rel_off : Z).

Lemma count_loop_spec m : forall l pre fuel n,
  dlist m head (pre ++ l) -> (length l < fuel)%nat -> 0 <= n -> n + Z.of_nat (length l) < 2 ^ 32 ->
  count_loop head fuel m (default head (l !! 0%nat)) n = Ok (n + Z.of_nat (length l)).
Proof.
  induction l as [|e l IH]; intros pre fuel n Hd Hf H0 Hn; (destruct fuel as [|f]; [simpl in Hf; lia|]).
  - cbn [lookup list_lookup default count_loop]. simpl. rewrite Z.eqb_refl. f_equal. lia.
  - cbn [lookup list_lookup default count_loop]. simpl. rewrite (dlist_not_head _ _ _ e Hd) by set_solver.
    rewrite (dlist_next _ _ _ _ _ Hd). cbn [res_bind]. simpl in Hf, Hn.
    unfold u32. rewrite wrap_small by lia. rewrite (IH (pre ++ [e]) f (n + 1)); [f_equal; simpl; lia| |lia..].
    by rewrite <- (assoc_L (++)).
Qed.

Lemma pdos_length l : (length (pdos l) <= length l)%nat.
Proof.
  unfold pdos. etrans; [apply List.filter_length_le|]. by rewrite !length_fmap.
Qed.

Lemma fill_loop_spec b room : forall l pre fuel objs k,
  holds (b_links b) (b_children b) head (pre ++ l) -> (length l < fuel)%nat ->
  rel_off + 8 * (Z.of_nat (length objs) + Z.of_nat (length l)) <= room ->
  fill_loop head rel_off fuel room b (default head (l.*1 !! 0%nat)) objs k =
  Ok (objs ++ pdos l, foldl (fun k d => ObRef d k) k (pdos l)).
Proof.
  induction l as [|[a c] l IH]; intros pre fuel objs k Hh Hf Hroom; (destruct fuel as [|f]; [simpl in Hf; lia|]).
  - cbn [fmap list_fmap lookup list_lookup default fill_loop]. simpl. by rewrite Z.eqb_refl, app_nil_r.
  - pose proof Hh as [Hd Hp]. rewrite fmap_app in Hd. cbn [fmap list_fmap fst] in Hd |- *.
    cbn [lookup list_lookup default fill_loop]. simpl. rewrite (dlist_not_head _ _ _ a Hd) by set_solver.
    rewrite (holds_lookup _ _ _ _ _ _ _ Hh). cbn [of_opt res_bind].
    simpl in Hroom, Hf. rewrite (dlist_next _ _ _ _ _ Hd).
    assert (holds (b_links b) (b_children b) head ((pre ++ [(a, c)]) ++ l)) as Hh' by by rewrite <- (assoc_L (++)).
    unfold pdos. cbn [fmap list_fmap List.filter snd]. destruct (Z.eqb_spec (ChildDeviceObject c) 0) as [E|E]; cbn [negb res_bind fst snd].
    + apply (IH (pre ++ [(a, c)])); [done|lia|lia].
    + destruct (Z.leb_spec (rel_off + 8 * (Z.of_nat (length objs) + 1)) room); [|lia]. cbn [res_bind fst snd].
      etrans; [apply (IH (pre ++ [(a, c)])); [done|lia|rewrite length_app; simpl; lia]|].
      rewrite <- (assoc_L (++)). done.
Qed.
End Relations.

Lemma refs_fold ds : forall d k, refs_of d (foldl (fun k d => ObRef d k) k ds) = refs_of d k + occurrences d ds.
Proof.
  unfold occurrences. induction ds as [|e ds IH]; intros d k; simpl; [lia|]. rewrite IH.
  unfold refs_of, ObRef. simpl. destruct (Z.eqb_spec d e) as [->|Hne].
  - rewrite lookup_insert_eq. simpl. lia.
  - by rewrite lookup_insert_ne.
Qed.

(** Asked for its relations, the bus hands out an array that lists exactly
    the device objects of its children, in ring order, takes one reference for
    each entry, and never writes past the array it allocated. (Fewer than 2^28
    children, and the platform's array header has room for one entry.) *)
Theorem bus_relations_exact head rel_size rel_off fuel a x l :
  0 <= rel_off /\ rel_off + 8 <= rel_size < 2 ^ 31 -> Z.of_nat (length l) < 2 ^ 28 -> (length l < fuel)%nat ->
  holds (b_links (fx_bus x)) (b_children (fx_bus x)) head l -> irp_information (fx_irp x) = 0 ->
  exists x', query_relations head rel_size rel_off fuel (Some a) x = Ok x' /\
    irp_information (fx_irp x') = a /\ irp_status (fx_irp x') = STATUS_SUCCESS /\
    fx_rels x' !! a = Some (pdos l) /\
    (forall d, refs_of d (b_kernel (fx_bus x')) = refs_of d (b_kernel (fx_bus x)) + occurrences d (pdos l)).
Proof.
  intros Hrel Hl Hf Hh Hi. unfold query_relations. pose proof Hh as [Hd _].
  rewrite (dlist_first _ _ _ Hd). cbn [res_bind].
  rewrite (count_loop_spec head (b_links (fx_bus x)) l.*1 [] fuel 0); [|done|by rewrite length_fmap|lia|rewrite length_fmap; lia].
  cbn [res_bind]. rewrite length_fmap.
  rewrite (fill_loop_spec head rel_off (fx_bus x) _ l [] fuel []); [|done|done|].
  2:{ unfold u32. rewrite !wrap_small by (rewrite ?wrap_small; lia). simpl. lia. }
  cbn [res_bind app]. rewrite Hi. cbn [negb Z.eqb res_bind fst snd]. eexists. split; [done|]. simpl.
  split; [done|]. split; [done|]. split; [by rewrite lookup_insert_eq|]. intros d. apply refs_fold.
Qed.

Definition ctx1 : FdoCtx := mkFdo bus1 fresh_irp ∅.

Lemma bus_relations_exact_witness :
  exists x', query_relations 8 16 8 5 (Some 77) ctx1 = Ok x' /\
    irp_information (fx_irp x') = 77 /\ irp_status (fx_irp x') = STATUS_SUCCESS /\
    fx_rels x' !! 77 = Some [50] /\
    (forall d, refs_of d (b_kernel (fx_bus x')) = refs_of d (b_kernel (fx_bus ctx1)) + occurrences d [50]).
Proof.
  apply (bus_relations_exact 8 16 8 5 77 ctx1 [(100, child1)]);
    [lia | simpl; lia | simpl; lia | exact (proj1 bus1_repr) | reflexivity].
Defined.

(** ** The bus's own packets *)

(** A plug-and-play packet sent to the bus's own device object is never
    answered: whatever the minor function, the children and the kernel's
    answers, and however deep the nesting is allowed to go, the dispatch routine
    does not return, because it passes the packet on to its own device. *)
Theorem bus_fdo_never_returns head rel_size rel_off depth fuel answers dev mn p x :
  HdBusIsFdo dev (fx_bus x) = true ->
  (forall r, HdBusDispatchPnp head rel_size rel_off depth fuel answers dev mn p x <> Ok r) /\
  (mn <> IRP_MN_START_DEVICE -> mn <> IRP_MN_QUERY_DEVICE_RELATIONS ->
   HdBusDispatchPnp head rel_size rel_off depth fuel answers dev mn p x = NoFuel).
Proof.
  revert dev x. induction depth as [|n IH]; intros dev x Hfdo; [done|]. cbn [HdBusDispatchPnp]. rewrite Hfdo.
  assert (forall y, HdBusIsFdo (BusDeviceObject (fx_bus y)) (fx_bus y) = true) as Hown
    by (intros; apply Z.eqb_refl). split.
  - intros r. destruct (HdBusFdoPnp_body _ _ _ _ _ _ _ _) as [x1| |] eqn:E; cbn [res_bind]; [|done..].
    by apply (IH _ _ (Hown x1)).
  - intros H1 H2. destruct mn; try done; by apply (IH _ _ (Hown x)).
Qed.

Definition no_answers (n : nat) : FdoAnswers := mkAnswers None 0 0 None.
Definition sample_args : PnpArgs := mkPnpArgs 0 300 (Some 400) BusQueryDeviceID true true None.

Lemma bus_fdo_never_returns_witness :
  HdBusDispatchPnp 8 16 8 100 5 no_answers 1 IRP_MN_QUERY_STOP_DEVICE sample_args ctx1 = NoFuel.
Proof.
  apply (bus_fdo_never_returns 8 16 8 100 5 no_answers 1 IRP_MN_QUERY_STOP_DEVICE sample_args ctx1);
    [vm_compute; reflexivity | discriminate | discriminate].
Defined.

(** ** Packets of a child *)

(** While registered, the interface name is live and the interface is enabled
    exactly while the child is started. *)
Definition child_inv (c : HD_CHILD_DEVICE) (k : Kernel) : Prop :=
  InterfaceRegistered c = true ->
  InterfaceName c ∈ k_pool k /\ k_ifaces k !! InterfaceName c = Some (Started c).

(** The common tail, and what it leaves. *)
Definition pdo_answer (mn : pnp_minor) (i : IRP) (c : HD_CHILD_DEVICE) (k : Kernel) (r : res pdo_result) : Prop :=
  exists st i' c' k' buf caps,
    r = Ok (st, i', c', k', buf, caps) /\
    irp_completed i' = S (irp_completed i) /\ st = irp_status i' /\ child_inv c' k' /\
    ChildId c' = ChildId c /\ ChildDeviceObject c' = ChildDeviceObject c /\
    (mn = IRP_MN_START_DEVICE -> Started c' = true) /\
    (mn = IRP_MN_REMOVE_DEVICE -> Started c' = false /\ InterfaceRegistered c' = false /\
       (InterfaceRegistered c = true -> InterfaceName c ∉ k_pool k')).

Lemma finish_answer mn status i0 i c0 c k0 k buf caps :
  status <> STATUS_PENDING -> irp_completed i = irp_completed i0 -> child_inv c k ->
  ChildId c = ChildId c0 -> ChildDeviceObject c = ChildDeviceObject c0 ->
  (mn = IRP_MN_START_DEVICE -> Started c = true) ->
  (mn = IRP_MN_REMOVE_DEVICE -> Started c = false /\ InterfaceRegistered c = false /\
     (InterfaceRegistered c0 = true -> InterfaceName c0 ∉ k_pool k)) ->
  pdo_answer mn i0 c0 k0 (Ok (finish_pdo status i c k buf caps)).
Proof.
  intros Hs Hi Hinv H1 H2 H3 H4. unfold finish_pdo. destruct (Z.eqb_spec status STATUS_PENDING) as [|_]; [done|]. cbn [negb].
  do 6 eexists. split; [done|]. simpl. rewrite Hi. by split_and!.
Qed.

Lemma start_answer p i c k :
  child_inv c k -> pa_reg_st p <> STATUS_PENDING -> pdo_answer IRP_MN_START_DEVICE i c k (HdBusPdoPnp IRP_MN_START_DEVICE p i c k).
Proof.
  intros Hinv Hp. cbn [HdBusPdoPnp]. change (InterfaceRegistered (with_started true c)) with (InterfaceRegistered c).
  destruct (InterfaceRegistered c) eqn:Er; cbn [negb].
  - change (InterfaceRegistered (with_started true c)) with (InterfaceRegistered c). rewrite Er.
    destruct (Hinv Er) as [Hn Hs]. unfold IoSetDeviceInterfaceState. simpl. rewrite decide_True by done. cbn [res_bind].
    apply finish_answer; try done. intros _. split; [done|]. simpl. by rewrite lookup_insert_eq.
  - unfold IoRegisterDeviceInterface. destruct (NT_SUCCESS (pa_reg_st p)) eqn:En.
    + simpl. unfold IoSetDeviceInterfaceState. simpl. rewrite decide_True by set_solver. cbn [res_bind].
      apply finish_answer; try done. intros _. split; [simpl; set_solver|]. simpl. by rewrite lookup_insert_eq.
    + simpl. rewrite Er. cbn [res_bind]. apply finish_answer; try done. intros Hr. simpl in Hr. congruence.
Qed.

Lemma remove_answer p i c k :
  child_inv c k -> pdo_answer IRP_MN_REMOVE_DEVICE i c k (HdBusPdoPnp IRP_MN_REMOVE_DEVICE p i c k).
Proof.
  intros Hinv. cbn [HdBusPdoPnp]. destruct (InterfaceRegistered c) eqn:Er.
  - destruct (Hinv Er) as [Hn Hs]. unfold IoSetDeviceInterfaceState, ExFreePool. rewrite decide_True by done. simpl.
    rewrite decide_True by done. cbn [res_bind]. apply finish_answer; try done. intros _. simpl. split_and!; try done. set_solver.
  - cbn [res_bind]. apply finish_answer; try done.
    + intros Hr. simpl in Hr. congruence.
    + intros _. split_and!; try done. simpl. congruence.
Qed.

Lemma surprise_answer p i c k :
  child_inv c k -> pdo_answer IRP_MN_SURPRISE_REMOVAL i c k (HdBusPdoPnp IRP_MN_SURPRISE_REMOVAL p i c k).
Proof.
  intros Hinv. cbn [HdBusPdoPnp]. destruct (InterfaceRegistered c) eqn:Er.
  - destruct (Hinv Er) as [Hn Hs]. unfold IoSetDeviceInterfaceState. rewrite decide_True by done. cbn [res_bind].
    apply finish_answer; try done. intros _. split; [done|]. simpl. by rewrite lookup_insert_eq.
  - cbn [res_bind]. apply finish_answer; try done. intros Hr. simpl in Hr. congruence.
Qed.

(** An identifier query never leaves the buffers it sizes. *)
Lemma query_id_total alloc t i :
  exists st buf i', HdBusPdoQueryId alloc t i = Ok (st, buf, i') /\ st <> STATUS_PENDING /\ irp_completed i' = irp_completed i.
Proof. destruct alloc, t; vm_compute; do 3 eexists; split; try done. Qed.

(** Every plug-and-play packet of a child is answered without touching a
    freed name and completed exactly once (given that registration and
    allocation do not answer STATUS_PENDING), returns the status stored in the
    packet, and keeps the disk interface enabled exactly while the child is
    started; removal frees the name. *)
Theorem bus_child_pnp mn p i c k :
  child_inv c k -> pa_reg_st p <> STATUS_PENDING ->
  exists st i' c' k' buf caps,
    HdBusPdoPnp mn p i c k = Ok (st, i', c', k', buf, caps) /\
    irp_completed i' = S (irp_completed i) /\ st = irp_status i' /\ child_inv c' k' /\
    ChildId c' = ChildId c /\ ChildDeviceObject c' = ChildDeviceObject c /\
    (mn = IRP_MN_START_DEVICE -> Started c' = true) /\
    (mn = IRP_MN_REMOVE_DEVICE -> Started c' = false /\ InterfaceRegistered c' = false /\
       (InterfaceRegistered c = true -> InterfaceName c ∉ k_pool k')).
Proof.
  intros Hinv Hp. change (pdo_answer mn i c k (HdBusPdoPnp mn p i c k)).
  destruct mn; [by apply start_answer|..]; try (cbn [HdBusPdoPnp]; by apply finish_answer).
  - by apply remove_answer.
  - by apply surprise_answer.
  - cbn [HdBusPdoPnp]. destruct (query_id_total (pa_alloc p) (pa_id p) i) as (st & buf & i' & -> & ? & ?). cbn [res_bind].
    by apply finish_answer.
  - cbn [HdBusPdoPnp]. destruct (pa_text_is_description p), (pa_alloc p); by apply finish_answer.
Qed.

Lemma bus_child_pnp_witness :
  exists st i' c' k' buf caps,
    HdBusPdoPnp IRP_MN_START_DEVICE sample_args fresh_irp child1 kernel0 = Ok (st, i', c', k', buf, caps) /\
    irp_completed i' = 1%nat /\ st = irp_status i' /\ child_inv c' k' /\
    ChildId c' = 1 /\ ChildDeviceObject c' = 50 /\
    (IRP_MN_START_DEVICE = IRP_MN_START_DEVICE -> Started c' = true) /\
    (IRP_MN_START_DEVICE = IRP_MN_REMOVE_DEVICE -> Started c' = false /\ InterfaceRegistered c' = false /\
       (InterfaceRegistered child1 = true -> InterfaceName child1 ∉ k_pool k')).
Proof. apply (bus_child_pnp IRP_MN_START_DEVICE sample_args fresh_irp child1 kernel0); [discriminate | discriminate]. Defined.
