(* ===== verification/Blk.v ===== *)
(** * The block driver (driver/blk: blk_driver.c, blk_io.c, blk_ioctl.c,
      blk_request.c, blk_pool.c, blk_fastio.c)

    The dispatch routines work on the device extension and the packet they are
    given; what other code does to the extension while a routine sleeps, and the
    answers of the kernel, are arguments. *)

From S2P Require Import Prelude Nt Serial ListEntry IrpTracker.

Record HD_BLK_EXTENSION : Type := mkBlk {
  ImageId : Z;
  DiskSize : Z;
  BlockSize : Z;
  BlockCount : Z;
  LayerId : Z;
  IsStarted : bool;
  OpenHandleCount : Z;
  PendingIoCount : Z;
  IoEvent : KEVENT;
  ShutdownEvent : KEVENT;
  NonPagedPoolQuota : Z;
  NonPagedPoolUsage : Z;
}.

Definition set_open (n : Z) (b : HD_BLK_EXTENSION) : HD_BLK_EXTENSION :=
  mkBlk (ImageId b) (DiskSize b) (BlockSize b) (BlockCount b) (LayerId b) (IsStarted b) n (PendingIoCount b)
        (IoEvent b) (ShutdownEvent b) (NonPagedPoolQuota b) (NonPagedPoolUsage b).
Definition set_started (v : bool) (b : HD_BLK_EXTENSION) : HD_BLK_EXTENSION :=
  mkBlk (ImageId b) (DiskSize b) (BlockSize b) (BlockCount b) (LayerId b) v (OpenHandleCount b) (PendingIoCount b)
        (IoEvent b) (ShutdownEvent b) (NonPagedPoolQuota b) (NonPagedPoolUsage b).
Definition set_pending (n : Z) (b : HD_BLK_EXTENSION) : HD_BLK_EXTENSION :=
  mkBlk (ImageId b) (DiskSize b) (BlockSize b) (BlockCount b) (LayerId b) (IsStarted b) (OpenHandleCount b) n
        (IoEvent b) (ShutdownEvent b) (NonPagedPoolQuota b) (NonPagedPoolUsage b).
Definition set_events (io sh : KEVENT) (b : HD_BLK_EXTENSION) : HD_BLK_EXTENSION :=
  mkBlk (ImageId b) (DiskSize b) (BlockSize b) (BlockCount b) (LayerId b) (IsStarted b) (OpenHandleCount b)
        (PendingIoCount b) io sh (NonPagedPoolQuota b) (NonPagedPoolUsage b).
Definition set_size (size count : Z) (b : HD_BLK_EXTENSION) : HD_BLK_EXTENSION :=
  mkBlk (ImageId b) size (BlockSize b) count (LayerId b) (IsStarted b) (OpenHandleCount b) (PendingIoCount b)
        (IoEvent b) (ShutdownEvent b) (NonPagedPoolQuota b) (NonPagedPoolUsage b).
Definition set_usage (n : Z) (b : HD_BLK_EXTENSION) : HD_BLK_EXTENSION :=
  mkBlk (ImageId b) (DiskSize b) (BlockSize b) (BlockCount b) (LayerId b) (IsStarted b) (OpenHandleCount b)
        (PendingIoCount b) (IoEvent b) (ShutdownEvent b) (NonPagedPoolQuota b) n.

(** ** Entry point *)

Definition HdQueryTickCount64 (q : Qpc) : res Z :=
  let d := Z.quot (qpc_freq q) 1000 in
  if d =? 0 then Fault else Ok (u64 (Z.quot (qpc_count q) d)).

Definition ready_text : list Z := zstr "[HDx:BLK_LOADED] HDNet is ready" ++ crlf.
Definition warning_text : list Z := zstr "[HDx:BLK_LOADED] WARNING: HDNet not ready after 10s, proceeding anyway" ++ crlf.

(** The wait for the network device: [opens n] is the status of attempt [n].
    Result: the final value of [retry], the time slept (in 100 ns units) and the
    channel. *)
Fixpoint wait_hdnet (todo : nat) (retry slept : Z) (lsr : nat -> Z) (opens : nat -> Z) (w : HD_SERIAL_DEBUG * Uart)
    : Z * Z * (HD_SERIAL_DEBUG * Uart) :=
  match todo with
  | O => (retry, slept, w)
  | S t =>
      if NT_SUCCESS (opens (Z.to_nat retry)) then (retry, slept, HdSerialWriteString lsr ready_text w.1 w.2)
      else wait_hdnet t (retry + 1) (slept + 100000) lsr opens w
  end.

(** Status, time slept, channel and tracker. [head] is the tracker's list head. *)
Definition BlkDriverEntry (head : Z) (lsr : nat -> Z) (opens : nat -> Z) (w : HD_SERIAL_DEBUG * Uart) (t : HD_IRP_TRACKER)
    : Z * Z * (HD_SERIAL_DEBUG * Uart) * HD_IRP_TRACKER :=
  let w := HdSerialInitialize lsr w.1 w.2 in
  let w := HdSerialWriteString lsr (zstr "[HDx:BLK_LOADED] HDBlk DriverEntry" ++ crlf) w.1 w.2 in
  let '(retry, slept, w) := wait_hdnet 100 0 0 lsr opens w in
  let w := (if 100 <=? retry then HdSerialWriteString lsr warning_text w.1 w.2 else w) in
  (STATUS_SUCCESS, slept, w, HdIrpTrackerInit head t).

(** ** Dispatch routines of blk_driver.c *)

Definition HdBlkDispatchCreate (i : IRP) (b : HD_BLK_EXTENSION) : Z * IRP * HD_BLK_EXTENSION :=
  (STATUS_SUCCESS, complete_with STATUS_SUCCESS 0 i, set_open (s32 (OpenHandleCount b + 1)) b).
Definition HdBlkDispatchClose (i : IRP) (b : HD_BLK_EXTENSION) : Z * IRP * HD_BLK_EXTENSION :=
  (STATUS_SUCCESS, complete_with STATUS_SUCCESS 0 i, set_open (s32 (OpenHandleCount b - 1)) b).

Definition HdBlkDispatchFlushBuffers (i : IRP) (b : HD_BLK_EXTENSION) : res (Z * IRP * HD_BLK_EXTENSION) :=
  let* e := KeWaitForSingleObject (KeSetEvent (IoEvent b)) in
  Ok (STATUS_SUCCESS, complete_with STATUS_SUCCESS 0 i, set_events e (ShutdownEvent b) b).

(** The drain loop: [pending n] is the counter after [n] sleeps. *)
Fixpoint drain_loop (fuel : nat) (n : nat) (pending : nat -> Z) (b : HD_BLK_EXTENSION) : res HD_BLK_EXTENSION :=
  match fuel with
  | O => NoFuel
  | S f => if 0 <? PendingIoCount b then drain_loop f (S n) pending (set_pending (pending (S n)) b) else Ok b
  end.
Definition HdBlkDispatchShutdown (fuel : nat) (pending : nat -> Z) (i : IRP) (b : HD_BLK_EXTENSION)
    : res (Z * IRP * HD_BLK_EXTENSION) :=
  let b := set_started false (set_events (IoEvent b) (KeSetEvent (ShutdownEvent b)) b) in
  let* b := drain_loop fuel 0 pending b in
  Ok (STATUS_SUCCESS, complete_with STATUS_SUCCESS 0 i, b).

(** Information classes; the sizes of the structures belong to the platform. *)
Inductive file_info : Type := FileStandardInformation | FileBasicInformation | FileInfo_other (c : Z).
Inductive info_buf : Type :=
| StandardInfo (allocation end_of_file links : Z) (delete_pending directory : bool)
| BasicInfo (attributes : Z).
Definition FILE_ATTRIBUTE_NORMAL : Z := 0x80.

(** The caller's buffer has [buflen] bytes; storing a larger structure in it is
    an access outside it. *)
Definition HdBlkDispatchQueryInformation (std_size basic_size : Z) (c : file_info) (buflen : Z) (i : IRP) (b : HD_BLK_EXTENSION)
    : res (Z * IRP * option info_buf) :=
  let* r :=
    match c with
    | FileStandardInformation =>
        if buflen <? std_size then Fault
        else Ok (std_size, Some (StandardInfo (s64 (DiskSize b)) (s64 (DiskSize b)) 1 false false))
    | FileBasicInformation =>
        if buflen <? basic_size then Fault else Ok (basic_size, Some (BasicInfo FILE_ATTRIBUTE_NORMAL))
    | FileInfo_other _ => Ok (0, None)
    end in
  Ok (STATUS_SUCCESS, complete_with STATUS_SUCCESS r.1 i, r.2).

Inductive set_info : Type := FileAllocationInformation (size : Z) | FileEndOfFileInformation (size : Z) | SetInfo_other (c : Z).

Definition resize (size : Z) (b : HD_BLK_EXTENSION) : res HD_BLK_EXTENSION :=
  let d := u64 size in
  if BlockSize b =? 0 then Fault else Ok (set_size d (u32 (d / BlockSize b)) b).
Definition HdBlkDispatchSetInformation (c : set_info) (i : IRP) (b : HD_BLK_EXTENSION) : res (Z * IRP * HD_BLK_EXTENSION) :=
  let* b := match c with
            | FileAllocationInformation size => resize size b
            | FileEndOfFileInformation size => resize size b
            | SetInfo_other _ => Ok b
            end in
  Ok (STATUS_SUCCESS, complete_with STATUS_SUCCESS 0 i, b).

Definition HdBlkDispatchPnp (mn : pnp_minor) (i : IRP) (b : HD_BLK_EXTENSION) : Z * IRP * HD_BLK_EXTENSION :=
  let b := match mn with
           | IRP_MN_START_DEVICE => set_started true b
           | IRP_MN_REMOVE_DEVICE => set_started false b
           | _ => b
           end in
  (STATUS_SUCCESS, complete_with STATUS_SUCCESS 0 i, b).

(** ** Reads and writes (blk_io.c, blk_request.c) *)

Record HD_BLOCK_REQUEST : Type := mkBlockRequest {
  r_ImageId : Z; r_BlockOffset : Z; r_BlockCount : Z; r_LayerId : Z; r_IsWrite : Z;
}.

(** The request is not queued anywhere. *)
Definition HdBlkSubmitBlockRequest (b : HD_BLK_EXTENSION) (r : HD_BLOCK_REQUEST) : Z := STATUS_SUCCESS.

(** The body shared by read and write; the byte offset is signed, and the
    division is the signed one of C. Result: status, packet, request built. *)
Definition blk_transfer (is_write offset len : Z) (i : IRP) (b : HD_BLK_EXTENSION) : res (Z * IRP * HD_BLOCK_REQUEST) :=
  if BlockSize b =? 0 then Fault
  else
    let request := mkBlockRequest (ImageId b) (u64 (Z.quot offset (BlockSize b))) (len / BlockSize b) (LayerId b) is_write in
    let status := HdBlkSubmitBlockRequest b request in
    if negb (NT_SUCCESS status) then Ok (status, complete_with status 0 i, request)
    else Ok (STATUS_PENDING, i, request).
Definition HdBlkDispatchRead (offset len : Z) (i : IRP) (b : HD_BLK_EXTENSION) : res (Z * IRP * HD_BLOCK_REQUEST) :=
  blk_transfer 0 offset len i b.
Definition HdBlkDispatchWrite (offset len : Z) (i : IRP) (b : HD_BLK_EXTENSION) : res (Z * IRP * HD_BLOCK_REQUEST) :=
  blk_transfer 1 offset len i b.

(** ** Control requests (blk_ioctl.c) *)

Inductive blk_ioctl : Type :=
| IOCTL_HD_SET_CONFIG (ImageId DiskSize BlockSize BlockCount LayerId : Z)
| IOCTL_HD_GET_STATUS
| IOCTL_HD_other (code : Z).

(** [buflen] is the size of the system buffer, the larger of the two lengths. *)
Definition HdBlkDispatchIoctl (config_size resp_size : Z) (code : blk_ioctl) (inlen buflen : Z) (i : IRP) (b : HD_BLK_EXTENSION)
    : res (Z * IRP * option Z * HD_BLK_EXTENSION) :=
  match code with
  | IOCTL_HD_SET_CONFIG img size bs bc layer =>
      if inlen <? config_size then
        Ok (STATUS_BUFFER_TOO_SMALL, complete_with STATUS_BUFFER_TOO_SMALL 0 i, None, b)
      else
        Ok (STATUS_SUCCESS, complete_with STATUS_SUCCESS 0 i, None,
            mkBlk img size bs bc layer true (OpenHandleCount b) (PendingIoCount b)
                  (IoEvent b) (ShutdownEvent b) (NonPagedPoolQuota b) (NonPagedPoolUsage b))
  | IOCTL_HD_GET_STATUS =>
      if buflen <? resp_size then Fault
      else Ok (STATUS_SUCCESS, complete_with STATUS_SUCCESS resp_size i, Some (if IsStarted b then 0 else -1), b)
  | IOCTL_HD_other _ =>
      Ok (STATUS_INVALID_DEVICE_REQUEST, complete_with STATUS_INVALID_DEVICE_REQUEST 0 i, None, b)
  end.

(** ** Fast I/O (blk_fastio.c)

    Result: handled or not, and the status block if it was written. The data
    buffer is not touched. *)
Definition HdBlkFastIoRead (len : Z) (b : HD_BLK_EXTENSION) : bool * option (Z * Z) :=
  if negb (IsStarted b) then (false, None) else (true, Some (STATUS_SUCCESS, len)).
Definition HdBlkFastIoWrite (len : Z) (b : HD_BLK_EXTENSION) : bool * option (Z * Z) :=
  if negb (IsStarted b) then (false, None) else (true, Some (STATUS_SUCCESS, len)).
Definition HdBlkFastIoQueryBasicInfo (basic_size : Z) : bool * (Z * Z) * info_buf :=
  (true, (STATUS_SUCCESS, basic_size), BasicInfo FILE_ATTRIBUTE_NORMAL).
Definition HdBlkFastIoQueryStandardInfo (std_size : Z) (b : HD_BLK_EXTENSION) : bool * (Z * Z) * info_buf :=
  (true, (STATUS_SUCCESS, std_size), StandardInfo (s64 (DiskSize b)) (s64 (DiskSize b)) 1 false false).
(** Only the status word is written. *)
Definition HdBlkFastIoDeviceControl (code : Z) : bool * Z := (false, STATUS_NOT_SUPPORTED).

(** ** Pool quota (blk_pool.c) *)

Definition HdPoolAllocate (alloc : option Z) : option Z := alloc.
(** The block freed, if any. *)
Definition HdPoolFree (ptr : Z) : option Z := if negb (ptr =? 0) then Some ptr else None.

(** The test on the usage read at the start of the routine. *)
Definition quota_admits (usage quota size : Z) : bool := negb (s64 quota <? s64 (usage + s64 size)).
Definition HdPoolCheckQuota (size : Z) (b : HD_BLK_EXTENSION) : Z * HD_BLK_EXTENSION :=
  if quota_admits (NonPagedPoolUsage b) (NonPagedPoolQuota b) size
  then (STATUS_SUCCESS, set_usage (s64 (NonPagedPoolUsage b + s64 size)) b)
  else (STATUS_INSUFFICIENT_RESOURCES, b).

(** ** Concurrent quota checks

    The routine reads the usage, compares, and only then adds atomically. A
    system state is the extension and the sizes of the callers that have passed
    the comparison but not yet added; at most [n] callers are inside, each
    asking for at most [M] bytes. *)
Inductive quota_step (n : nat) (M : Z) : HD_BLK_EXTENSION * list Z -> HD_BLK_EXTENSION * list Z -> Prop :=
| q_pass b P size :
    0 <= size <= M -> (length P < n)%nat ->
    quota_admits (NonPagedPoolUsage b) (NonPagedPoolQuota b) size = true -> quota_step n M (b, P) (b, size :: P)
| q_refuse b P size :
    quota_admits (NonPagedPoolUsage b) (NonPagedPoolQuota b) size = false -> quota_step n M (b, P) (b, P)
| q_add b P1 size P2 :
    quota_step n M (b, P1 ++ size :: P2) (set_usage (s64 (NonPagedPoolUsage b + s64 size)) b, P1 ++ P2).

Definition sum (P : list Z) : Z := foldr Z.add 0 P.

Lemma sum_app P1 P2 : sum (P1 ++ P2) = sum P1 + sum P2.
Proof. induction P1; simpl; [done|]. rewrite IHP1. lia. Qed.

Lemma sum_bound M P : Forall (fun s => 0 <= s <= M) P -> 0 <= sum P <= Z.of_nat (length P) * M.
Proof. induction 1 as [|s P Hs _ IH]; simpl; [lia|]. nia. Qed.

Definition quota_inv (n : nat) (M quota : Z) (x : HD_BLK_EXTENSION * list Z) : Prop :=
  NonPagedPoolQuota x.1 = quota /\ 0 <= NonPagedPoolUsage x.1 /\ Forall (fun s => 0 <= s <= M) x.2 /\
  (length x.2 <= n)%nat /\ NonPagedPoolUsage x.1 + sum x.2 <= quota + (Z.of_nat n - 1) * M.

Lemma s64_id z : 0 <= z < 2 ^ 63 -> s64 z = z.
Proof. intros. apply sgn_small; lia. Qed.

Lemma quota_step_inv n M quota x y :
  0 <= quota -> 0 <= M -> quota + (Z.of_nat n + 1) * M < 2 ^ 63 ->
  quota_inv n M quota x -> quota_step n M x y -> quota_inv n M quota y.
Proof.
  intros Hq HM Hov (Hquota & Hu & HP & Hn & Hsum) Hs. inv Hs; simpl in *.
  - match goal with H : quota_admits _ _ _ = true |- _ => rename H into Ha end. unfold quota_admits in Ha. bool_props.
    pose proof (sum_bound M P HP) as Hb.
    assert (Z.of_nat (length P) * M <= (Z.of_nat n - 1) * M) by (apply Z.mul_le_mono_nonneg_r; lia).
    assert (0 <= Z.of_nat n * M) by (apply Z.mul_nonneg_nonneg; lia).
    rewrite (s64_id size), (s64_id (NonPagedPoolUsage b + size)), s64_id in Ha by lia.
    split; [done|]. split; [done|]. split; [by constructor|]. simpl. split; lia.
  - by split_and!.
  - rewrite sum_app in Hsum. simpl in Hsum. apply Forall_app in HP as [HP1 HP2]. inv HP2.
    pose proof (sum_bound M P1 HP1). pose proof (sum_bound M P2 ltac:(done)).
    rewrite length_app in Hn. simpl in Hn. unfold quota_inv. simpl. rewrite sum_app, length_app.
    assert (0 <= Z.of_nat n * M) by (apply Z.mul_nonneg_nonneg; lia).
    rewrite (s64_id size), s64_id by lia. split_and!; [done|lia|by apply Forall_app|lia|lia].
Qed.

(** ** Waiting and draining *)

Lemma wait_hdnet_spec lsr opens : forall todo retry slept w,
  0 <= retry ->
  exists n, retry <= n <= retry + Z.of_nat todo /\
    (forall m, retry <= m < n -> NT_SUCCESS (opens (Z.to_nat m)) = false) /\
    (n < retry + Z.of_nat todo -> NT_SUCCESS (opens (Z.to_nat n)) = true) /\
    wait_hdnet todo retry slept lsr opens w =
      (n, slept + 100000 * (n - retry), if n <? retry + Z.of_nat todo then HdSerialWriteString lsr ready_text w.1 w.2 else w).
Proof.
  induction todo as [|t IH]; intros retry slept w Hr; cbn [wait_hdnet].
  - exists retry. split; [lia|]. split; [lia|]. split; [lia|]. change (Z.of_nat 0) with 0.
    destruct (Z.ltb_spec retry (retry + 0)); [lia|].
    by replace (slept + 100000 * (retry - retry)) with slept by lia.
  - destruct (NT_SUCCESS (opens (Z.to_nat retry))) eqn:E.
    + exists retry. split; [lia|]. split; [lia|]. split; [done|].
      destruct (Z.ltb_spec retry (retry + Z.of_nat (S t))); [|lia]. by replace (slept + 100000 * (retry - retry)) with slept by lia.
    + destruct (IH (retry + 1) (slept + 100000) w ltac:(lia)) as (n & Hn & Hf & Hs & ->). exists n.
      split; [lia|]. split.
      { intros m Hm. destruct (decide (m = retry)) as [->|]; [done|]. apply Hf. lia. }
      replace (retry + Z.of_nat (S t)) with (retry + 1 + Z.of_nat t) by lia. split; [done|].
      by replace (slept + 100000 + 100000 * (n - (retry + 1))) with (slept + 100000 * (n - retry)) by lia.
Qed.

Lemma drain_loop_spec pending : forall k n fuel b,
  PendingIoCount b = pending n -> (forall m, (n <= m < n + k)%nat -> 0 < pending m) -> pending (n + k)%nat <= 0 ->
  (k < fuel)%nat ->
  drain_loop fuel n pending b = Ok (set_pending (pending (n + k)%nat) b).
Proof.
  induction k as [|k IH]; intros n fuel b Hb Hpos Hend Hf; (destruct fuel as [|f]; [lia|]); simpl.
  - rewrite Nat.add_0_r in *. destruct (Z.ltb_spec 0 (PendingIoCount b)); [lia|]. f_equal. rewrite <- Hb. by destruct b.
  - destruct (Z.ltb_spec 0 (PendingIoCount b)) as [_|Hle]; [|specialize (Hpos n ltac:(lia)); lia].
    replace (n + S k)%nat with (S n + k)%nat in * by lia.
    rewrite (IH (S n)); [done|done| |done|lia]. intros m Hm. apply Hpos. lia.
Qed.

Lemma drain_loop_forever pending fuel : forall n b,
  0 < PendingIoCount b -> (forall m, 0 < pending m) -> drain_loop fuel n pending b = NoFuel.
Proof.
  induction fuel as [|f IH]; intros n b Hb Hp; [done|]. simpl.
  destruct (Z.ltb_spec 0 (PendingIoCount b)); [|lia]. apply IH; [apply Hp|done].
Qed.

(** ** Properties *)

(** With at most [n] callers inside HdPoolCheckQuota at once, each asking for
    at most [M] bytes, every interleaving of their checks and additions keeps
    the usage at most (n - 1) * M above the quota; a single caller never exceeds
    it. *)
Theorem pool_quota_bound n M b0 b P :
  (1 <= n)%nat -> 0 <= M -> 0 <= NonPagedPoolUsage b0 <= NonPagedPoolQuota b0 ->
  NonPagedPoolQuota b0 + (Z.of_nat n + 1) * M < 2 ^ 63 ->
  rtc (quota_step n M) (b0, []) (b, P) ->
  0 <= NonPagedPoolUsage b <= NonPagedPoolQuota b0 + (Z.of_nat n - 1) * M.
Proof.
  intros Hn HM H0 Hov Hrtc.
  assert (quota_inv n M (NonPagedPoolQuota b0) (b, P)) as (_ & Hu & HP & _ & Hsum).
  { remember (b0, []) as x eqn:Ex. assert (quota_inv n M (NonPagedPoolQuota b0) x) as Hx.
    { subst x. split; [done|]. simpl. split; [lia|]. split; [constructor|]. split; [lia|]. nia. }
    clear Ex. induction Hrtc as [|x y z Hs _ IH]; [done|]. apply IH.
    apply (quota_step_inv n M _ x y); try done. lia. }
  simpl in *. pose proof (sum_bound M P HP). lia.
Qed.

Definition blk0 : HD_BLK_EXTENSION := mkBlk 1 (64 * 2 ^ 30) 4096 (2 ^ 24) 0 true 0 0 (mkEvent 0 false) (mkEvent 0 false) 100 0.

(** Two callers can really overshoot the quota. *)
Lemma two_callers_race : rtc (quota_step 2 80) (blk0, []) (set_usage 160 blk0, []).
Proof.
  eapply rtc_l. { apply (q_pass 2 80 blk0 [] 80); [lia|simpl; lia|reflexivity]. }
  eapply rtc_l. { apply (q_pass 2 80 blk0 [80] 80); [lia|simpl; lia|reflexivity]. }
  eapply rtc_l. { apply (q_add 2 80 blk0 [] 80 [80]). }
  apply rtc_once. apply (q_add 2 80 (set_usage 80 blk0) [] 80 []).
Qed.

Lemma pool_quota_bound_witness : 0 <= 160 <= 100 + (Z.of_nat 2 - 1) * 80.
Proof.
  apply (pool_quota_bound 2 80 blk0 (set_usage 160 blk0) []);
    [lia | lia | simpl; lia | simpl; lia | apply two_callers_race].
Defined.

(** A read or write with a nonzero block size builds a request that lies in
    the range asked for, and covers it exactly when offset and length are
    multiples of the block size. The routine then returns STATUS_PENDING and
    leaves the packet as it was: nothing completes it. *)
Theorem blk_request_range is_write offset len i b :
  0 < BlockSize b -> 0 <= offset < 2 ^ 63 -> 0 <= len < 2 ^ 32 ->
  exists r, blk_transfer is_write offset len i b = Ok (STATUS_PENDING, i, r) /\
    r_BlockOffset r * BlockSize b <= offset /\ r_BlockCount r * BlockSize b <= len /\
    (r_BlockOffset r * BlockSize b = offset /\ r_BlockCount r * BlockSize b = len <->
     offset mod BlockSize b = 0 /\ len mod BlockSize b = 0).
Proof.
  intros Hb Ho Hl. unfold blk_transfer. destruct (Z.eqb_spec (BlockSize b) 0); [lia|]. simpl.
  eexists. split; [done|]. simpl. rewrite Z.quot_div_nonneg by lia.
  pose proof (Z.div_mod offset (BlockSize b) ltac:(lia)). pose proof (Z.div_mod len (BlockSize b) ltac:(lia)).
  pose proof (Z.mod_pos_bound offset (BlockSize b) Hb). pose proof (Z.mod_pos_bound len (BlockSize b) Hb).
  assert (0 <= offset / BlockSize b <= offset) by (split; [apply Z.div_pos; lia | apply Z.div_le_upper_bound; nia]).
  unfold u64. rewrite wrap_small by lia. split; [nia|]. split; [nia|]. split; intros [? ?]; split; nia.
Qed.

Lemma blk_request_range_witness :
  exists r, blk_transfer 0 8192 4096 fresh_irp blk0 = Ok (STATUS_PENDING, fresh_irp, r) /\
    r_BlockOffset r * 4096 <= 8192 /\ r_BlockCount r * 4096 <= 4096 /\
    (r_BlockOffset r * 4096 = 8192 /\ r_BlockCount r * 4096 = 4096 <-> 8192 mod 4096 = 0 /\ 4096 mod 4096 = 0).
Proof. apply (blk_request_range 0 8192 4096 fresh_irp blk0); simpl; lia. Defined.

(** Loading the block driver always succeeds, after at most 100 attempts to
    open the network device and at most one second of sleeping (the message
    printed when it gives up says ten): it stops at the first attempt that
    succeeds, and warns exactly when none does. *)
Theorem blk_entry_wait head lsr opens w t :
  exists n w1, 0 <= n <= 100 /\
    (forall m, 0 <= m < n -> NT_SUCCESS (opens (Z.to_nat m)) = false) /\
    (n < 100 -> NT_SUCCESS (opens (Z.to_nat n)) = true) /\
    BlkDriverEntry head lsr opens w t =
      (STATUS_SUCCESS, 100000 * n,
       HdSerialWriteString lsr (if n <? 100 then ready_text else warning_text) w1.1 w1.2, HdIrpTrackerInit head t) /\
    100000 * n <= 10 * 1000 * 1000.
Proof.
  unfold BlkDriverEntry. set (w1 := HdSerialWriteString lsr _ _ _).
  destruct (wait_hdnet_spec lsr opens 100 0 0 w1 ltac:(lia)) as (n & Hn & Hf & Hs & ->).
  change (0 + Z.of_nat 100) with 100 in *. exists n, w1. split; [done|]. split; [done|]. split; [done|].
  split; [|lia]. replace (0 + 100000 * (n - 0)) with (100000 * n) by lia.
  destruct (Z.ltb_spec n 100); destruct (Z.leb_spec 100 n); (lia || done).
Qed.

(** Shutdown stops the device, sleeps until the number of pending requests is
    first seen not to be positive, and then completes the packet; it waits for
    ever when that never happens. *)
Theorem blk_shutdown_drains fuel pending i b k :
  PendingIoCount b = pending 0%nat -> (forall m, (m < k)%nat -> 0 < pending m) -> pending k <= 0 -> (k < fuel)%nat ->
  (exists b', HdBlkDispatchShutdown fuel pending i b = Ok (STATUS_SUCCESS, complete_with STATUS_SUCCESS 0 i, b') /\
     IsStarted b' = false /\ PendingIoCount b' = pending k /\ ev_state (ShutdownEvent b') = true) /\
  (forall forever f, (forall m, 0 < forever m) -> 0 < PendingIoCount b -> HdBlkDispatchShutdown f forever i b = NoFuel).
Proof.
  intros Hb Hpos Hend Hf. unfold HdBlkDispatchShutdown. split.
  - rewrite (drain_loop_spec pending k 0 fuel); [|done|intros m Hm; apply Hpos; lia|done|done]. cbn [res_bind].
    eexists. split; [done|]. done.
  - intros forever f Hp Hb'. by rewrite (drain_loop_forever forever f 0).
Qed.

Definition two_pending (m : nat) : Z := 2 - Z.of_nat m.

Lemma blk_shutdown_drains_witness :
  (exists b', HdBlkDispatchShutdown 5 two_pending fresh_irp (set_pending 2 blk0) =
       Ok (STATUS_SUCCESS, complete_with STATUS_SUCCESS 0 fresh_irp, b') /\
     IsStarted b' = false /\ PendingIoCount b' = 0 /\ ev_state (ShutdownEvent b') = true) /\
  (forall forever f, (forall m, 0 < forever m) -> 0 < 2 ->
     HdBlkDispatchShutdown f forever fresh_irp (set_pending 2 blk0) = NoFuel).
Proof.
  apply (blk_shutdown_drains 5 two_pending fresh_irp (set_pending 2 blk0) 2);
    [reflexivity | unfold two_pending; lia | reflexivity | lia].
Defined.
