(* ===== verification/CcMmSync.v ===== *)
(** * Cache-manager and memory-manager callbacks (driver/blk/blk_cc_mm_sync.c)

    The six callbacks take and release the executive resources of the device
    extension. A callback is the list of its resource operations; a system is a
    list of threads, each running a sequence of acquire/release pairs, and steps
    interleave single resource operations. An acquisition waits while another
    thread holds the resource in a conflicting mode; a thread may take a resource
    it already holds. The kernel also makes a new shared acquisition wait
    behind a thread that is waiting for exclusive access; that rule is left out
    (none of the jobs asks again for a resource it holds). *)

From S2P Require Import Prelude Nt.

Inductive resource : Type := FsRtlHeaderLock | CcFlushLock | MmModWriteLock.
Inductive mode : Type := Shared | Exclusive.
Inductive action : Type := Acquire (r : resource) (m : mode) | Release (r : resource).

#[export] Instance resource_eq_dec : EqDecision resource.
Proof. solve_decision. Defined.
#[export] Instance mode_eq_dec : EqDecision mode.
Proof. solve_decision. Defined.

(** ** The callbacks: operations and status *)

Definition HdBlkAcquireForCcFlush : list action * Z :=
  ([Acquire FsRtlHeaderLock Shared; Acquire CcFlushLock Exclusive], STATUS_SUCCESS).
Definition HdBlkReleaseForCcFlush : list action * Z :=
  ([Release CcFlushLock; Release FsRtlHeaderLock], STATUS_SUCCESS).
Definition HdBlkAcquireForModWrite : list action * Z :=
  ([Acquire FsRtlHeaderLock Shared; Acquire MmModWriteLock Exclusive], STATUS_SUCCESS).
Definition HdBlkReleaseForModWrite : list action * Z :=
  ([Release MmModWriteLock; Release FsRtlHeaderLock], STATUS_SUCCESS).
Definition HdBlkAcquireFileForNtCreateSection : list action * Z :=
  ([Acquire FsRtlHeaderLock Exclusive], STATUS_SUCCESS).
Definition HdBlkReleaseFileForNtCreateSection : list action * Z :=
  ([Release FsRtlHeaderLock], STATUS_SUCCESS).

(** What the managers do with them: acquire, work, release. *)
Inductive job : Type := CcFlush | ModWrite | CreateSection.
Definition job_actions (j : job) : list action :=
  match j with
  | CcFlush => HdBlkAcquireForCcFlush.1 ++ HdBlkReleaseForCcFlush.1
  | ModWrite => HdBlkAcquireForModWrite.1 ++ HdBlkReleaseForModWrite.1
  | CreateSection => HdBlkAcquireFileForNtCreateSection.1 ++ HdBlkReleaseFileForNtCreateSection.1
  end.

(** ** Threads *)

Record thread : Type := mkThread {
  held : list (resource * mode);
  todo : list action;
}.

Definition conflicts (r : resource) (m : mode) (h : resource * mode) : bool :=
  bool_decide (h.1 = r) && (bool_decide (h.2 = Exclusive) || bool_decide (m = Exclusive)).
Definition blocks (r : resource) (m : mode) (t : thread) : bool := existsb (conflicts r m) (held t).

Fixpoint release (r : resource) (h : list (resource * mode)) : list (resource * mode) :=
  match h with
  | [] => []
  | x :: k => if bool_decide (x.1 = r) then k else x :: release r k
  end.
Definition owns (r : resource) (h : list (resource * mode)) : bool := existsb (fun x => bool_decide (x.1 = r)) h.

Inductive sync_step : list thread -> list thread -> Prop :=
| s_acquire s i h r m rest :
    s !! i = Some (mkThread h (Acquire r m :: rest)) ->
    (forall k t, k <> i -> s !! k = Some t -> blocks r m t = false) ->
    sync_step s (<[i := mkThread ((r, m) :: h) rest]> s)
| s_release s i h r rest :
    s !! i = Some (mkThread h (Release r :: rest)) -> owns r h = true ->
    sync_step s (<[i := mkThread (release r h) rest]> s).

Definition start (jobs : list job) : thread := mkThread [] (flat_map job_actions jobs).

(** ** Where a thread can be

    Between two jobs, or at one of the six points inside a job; [jobs] are the
    jobs still to come. *)
Definition local_ok (t : thread) : Prop :=
  exists jobs,
    (held t, todo t) ∈
      [([], flat_map job_actions jobs);
       ([(FsRtlHeaderLock, Shared)],
        [Acquire CcFlushLock Exclusive; Release CcFlushLock; Release FsRtlHeaderLock] ++ flat_map job_actions jobs);
       ([(CcFlushLock, Exclusive); (FsRtlHeaderLock, Shared)],
        [Release CcFlushLock; Release FsRtlHeaderLock] ++ flat_map job_actions jobs);
       ([(FsRtlHeaderLock, Shared)], [Release FsRtlHeaderLock] ++ flat_map job_actions jobs);
       ([(FsRtlHeaderLock, Shared)],
        [Acquire MmModWriteLock Exclusive; Release MmModWriteLock; Release FsRtlHeaderLock] ++ flat_map job_actions jobs);
       ([(MmModWriteLock, Exclusive); (FsRtlHeaderLock, Shared)],
        [Release MmModWriteLock; Release FsRtlHeaderLock] ++ flat_map job_actions jobs);
       ([(FsRtlHeaderLock, Exclusive)], [Release FsRtlHeaderLock] ++ flat_map job_actions jobs)].

(** Split a membership in an explicit list. *)
Ltac local_cases H :=
  repeat (apply elem_of_cons in H as [H|H]); try (by apply elem_of_nil in H); injection H as ?Hh ?Ht.
Ltac here := repeat first [by apply elem_of_cons; left | apply elem_of_cons; right].

Lemma flat_jobs_step jobs a rest :
  flat_map job_actions jobs = a :: rest -> exists j jobs', a :: rest = job_actions j ++ flat_map job_actions jobs'.
Proof. destruct jobs as [|j jobs]; [done|]. simpl. intros <-. eauto. Qed.

Lemma local_acquire h r m rest :
  local_ok (mkThread h (Acquire r m :: rest)) -> local_ok (mkThread ((r, m) :: h) rest).
Proof.
  intros [jobs H]. local_cases H; simpl in *; simplify_eq.
  - apply eq_sym in Ht. destruct (flat_jobs_step _ _ _ Ht) as (j & jobs' & E). exists jobs'.
    destruct j; simpl in E; simplify_eq; here.
  - exists jobs. here.
  - exists jobs. here.
Qed.

Lemma local_release h r rest :
  local_ok (mkThread h (Release r :: rest)) -> owns r h = true /\ local_ok (mkThread (release r h) rest).
Proof.
  intros [jobs H]. local_cases H; simpl in *; simplify_eq.
  - apply eq_sym in Ht. destruct (flat_jobs_step _ _ _ Ht) as (j & jobs' & E). by destruct j.
  - split; [done|]. exists jobs. here.
  - split; [done|]. exists jobs. here.
  - split; [done|]. exists jobs. here.
  - split; [done|]. exists jobs. here.
Qed.

Lemma local_start jobs : local_ok (start jobs).
Proof. exists jobs. here. Qed.

Definition all_ok (s : list thread) : Prop := Forall local_ok s.

Lemma all_ok_step s s' : all_ok s -> sync_step s s' -> all_ok s'.
Proof.
  intros Hs Hstep. inv Hstep.
  - apply Forall_insert; [done|]. apply local_acquire. by apply (Forall_lookup_1 _ _ _ _ Hs H).
  - apply Forall_insert; [done|]. apply local_release. by apply (Forall_lookup_1 _ _ _ _ Hs H).
Qed.

(** Two different threads hold the same resource only in shared mode. *)
Definition compatible (s : list thread) : Prop :=
  forall i k t u r m m', i <> k -> s !! i = Some t -> s !! k = Some u -> (r, m) ∈ held t -> (r, m') ∈ held u ->
  m = Shared /\ m' = Shared.

Lemma blocks_false r m t m' : blocks r m t = false -> (r, m') ∈ held t -> m = Shared /\ m' = Shared.
Proof.
  unfold blocks. intros Hb Hin. apply not_true_iff_false in Hb. rewrite existsb_exists in Hb.
  destruct m, m'; try done; destruct Hb; (eexists; split; [by apply list_elem_of_In|]; unfold conflicts; simpl;
    by rewrite bool_decide_true).
Qed.

Lemma release_sub r h x : x ∈ release r h -> x ∈ h.
Proof.
  induction h as [|y h IH]; simpl; [done|]. destruct (bool_decide (y.1 = r)); [set_solver|].
  rewrite !elem_of_cons. tauto.
Qed.

(** Replacing one thread by one that holds no more than allowed. *)
Lemma compatible_insert s i t t' :
  compatible s -> s !! i = Some t ->
  (forall r m, (r, m) ∈ held t' ->
     (r, m) ∈ held t \/ (forall k u m', k <> i -> s !! k = Some u -> (r, m') ∈ held u -> m = Shared /\ m' = Shared)) ->
  compatible (<[i := t']> s).
Proof.
  intros Hc Ht Hnew a b x y r m m' Hab Ha Hb Hx Hy. pose proof (lookup_lt_Some _ _ _ Ht) as Hlt.
  destruct (decide (a = i)) as [->|Hai]; [|destruct (decide (b = i)) as [->|Hbi]].
  - rewrite list_lookup_insert_eq in Ha by done. rewrite list_lookup_insert_ne in Hb by done. simplify_eq.
    destruct (Hnew _ _ Hx) as [Hold|Hall]; [by apply (Hc i b t y r)|by apply (Hall b y)].
  - rewrite list_lookup_insert_ne in Ha by done. rewrite list_lookup_insert_eq in Hb by done. simplify_eq.
    destruct (Hnew _ _ Hy) as [Hold|Hall]; [by apply (Hc a i x t r)|]. destruct (Hall a x m Hai Ha Hx). done.
  - rewrite list_lookup_insert_ne in Ha by done. rewrite list_lookup_insert_ne in Hb by done. by apply (Hc a b x y r).
Qed.

Lemma compatible_step s s' : compatible s -> sync_step s s' -> compatible s'.
Proof.
  intros Hc Hstep. inv Hstep; eapply compatible_insert; eauto; simpl; intros r' m' Hin.
  - apply elem_of_cons in Hin as [[= -> ->]|Hin]; [|by left]. right. intros k u m2 Hk Hu Hm2.
    by apply (blocks_false r m u); [apply (H0 k)|].
  - left. by apply release_sub in Hin.
Qed.

Lemma reachable_ok jl s : rtc sync_step (start <$> jl) s -> all_ok s /\ compatible s.
Proof.
  intros Hrtc. remember (start <$> jl) as s0 eqn:E. assert (all_ok s0 /\ compatible s0) as H0.
  { subst s0. split.
    - apply Forall_fmap, Forall_true. intros jobs. apply local_start.
    - intros i k t u r m m' _ Hi _ Hin. apply list_lookup_fmap_Some in Hi as (jobs & -> & _). by apply elem_of_nil in Hin. }
  clear E. induction Hrtc as [|a b c Hs _ IH]; [done|]. apply IH. destruct H0.
  split; [by apply (all_ok_step a)|by apply (compatible_step a)].
Qed.

(** ** Progress *)

Definition releasing (t : thread) : bool := match todo t with Release _ :: _ => true | _ => false end.
Definition holding (t : thread) : bool := match held t with [] => false | _ => true end.

(** A thread that holds something and is not releasing is about to take the
    second lock of its job, which only a releasing thread can hold. *)
Lemma holding_acquires t :
  local_ok t -> holding t = true -> releasing t = false ->
  exists r rest, todo t = Acquire r Exclusive :: rest /\ r <> FsRtlHeaderLock.
Proof.
  intros [jobs H] Hh Hr. unfold holding, releasing in *. local_cases H; rewrite Hh0 in Hh; rewrite Ht in Hr; try done;
    rewrite Ht; simpl; eauto.
Qed.

Lemma second_lock_releasing t r : local_ok t -> r <> FsRtlHeaderLock -> blocks r Exclusive t = true -> releasing t = true.
Proof.
  intros [jobs H] Hr Hb. unfold blocks, releasing in *. local_cases H; rewrite Hh in Hb; rewrite Ht; simpl; try done;
    unfold conflicts in Hb; simpl in Hb; rewrite bool_decide_false in Hb by congruence; done.
Qed.

Lemma idle_acquires t a rest :
  local_ok t -> holding t = false -> todo t = a :: rest -> exists r m, a = Acquire r m.
Proof.
  intros [jobs H] Hh Ht. unfold holding in Hh. local_cases H; rewrite Hh0 in Hh; try done.
  rewrite Ht in Ht0. apply eq_sym in Ht0. destruct (flat_jobs_step _ _ _ Ht0) as (j & jobs' & E).
  destruct j; simpl in E; simplify_eq; eauto.
Qed.

Lemma find_thread (P : thread -> bool) (s : list thread) :
  (exists i t, s !! i = Some t /\ P t = true) \/ (forall i t, s !! i = Some t -> P t = false).
Proof.
  destruct (existsb P s) eqn:E.
  - left. apply existsb_exists in E as (t & Hin & Hp). apply list_elem_of_In, list_elem_of_lookup in Hin as [i Hi]. eauto.
  - right. intros i t Hi. apply not_true_iff_false. intros Hp. apply not_true_iff_false in E. apply E, existsb_exists.
    exists t. split; [apply list_elem_of_In; by apply list_elem_of_lookup_2 in Hi|done].
Qed.

Lemma progress s :
  all_ok s -> (exists s', sync_step s s') \/ Forall (fun t => t = mkThread [] []) s.
Proof.
  intros Hs. assert (forall i t, s !! i = Some t -> local_ok t) as Hok by (intros; by apply (Forall_lookup_1 _ _ i _ Hs)).
  destruct (find_thread releasing s) as [(i & [h td] & Hi & Hr)|Hnone].
  { left. unfold releasing in Hr. simpl in Hr. destruct td as [|[|r] rest]; try done.
    eexists. apply (s_release s i h r rest Hi). by apply (local_release h r rest), (Hok i). }
  destruct (find_thread holding s) as [(i & [h td] & Hi & Hh)|Hidle].
  { left. destruct (holding_acquires _ (Hok i _ Hi) Hh (Hnone i _ Hi)) as (r & rest & Ht & Hr). simpl in Ht. subst td.
    eexists. apply (s_acquire s i h r Exclusive rest Hi). intros k u _ Hu. apply not_true_iff_false. intros Hb.
    pose proof (second_lock_releasing u r (Hok k u Hu) Hr Hb). rewrite (Hnone k u Hu) in *. done. }
  destruct (find_thread (fun t => match todo t with [] => false | _ => true end) s) as [(i & [h td] & Hi & Ht)|Hdone].
  { left. destruct td as [|a rest]; [done|]. destruct (idle_acquires _ a rest (Hok i _ Hi) (Hidle i _ Hi) eq_refl) as (r & m & ->).
    eexists. apply (s_acquire s i h r m rest Hi). intros k u _ Hu. specialize (Hidle k u Hu). unfold holding in Hidle.
    unfold blocks. by destruct (held u). }
  right. apply Forall_lookup. intros i [h td] Hi. specialize (Hidle i _ Hi). specialize (Hdone i _ Hi).
  unfold holding in Hidle. simpl in *. by destruct h, td.
Qed.

Fixpoint remaining (s : list thread) : nat :=
  match s with
  | [] => 0%nat
  | t :: r => (length (todo t) + remaining r)%nat
  end.

Lemma remaining_insert s i t t' :
  s !! i = Some t -> S (length (todo t')) = length (todo t) -> S (remaining (<[i := t']> s)) = remaining s.
Proof.
  revert i; induction s as [|u s IH]; intros i Hi Hl; [done|]. destruct i as [|i]; simpl in *; [simplify_eq; lia|].
  specialize (IH i Hi Hl). lia.
Qed.

Lemma step_remaining s s' : sync_step s s' -> S (remaining s') = remaining s.
Proof. intros Hs. inv Hs; by eapply remaining_insert. Qed.

(** ** Properties *)

(** C8. The locking is deadlock free: whatever jobs the threads run and however
    their resource operations interleave, in every reachable state some thread
    can proceed or all have finished holding nothing; and every step uses up one
    of the finitely many operations left, so every run that is continued while
    possible completes all jobs. *)
Theorem sync_deadlock_free jl s :
  rtc sync_step (start <$> jl) s ->
  ((exists s', sync_step s s') \/ Forall (fun t => t = mkThread [] []) s) /\
  (forall s', sync_step s s' -> (remaining s' < remaining s)%nat).
Proof.
  intros Hr. destruct (reachable_ok jl s Hr) as [Hok _]. split; [by apply progress|].
  intros s' Hs. apply step_remaining in Hs. lia.
Qed.

(** The locking excludes what it is meant to exclude: in every reachable
    state two different threads hold the same resource only if both hold it
    shared. So no two flushes and no two modified-page writes overlap, and
    section creation overlaps with neither, while a flush and a modified-page
    write may run together. *)
Theorem sync_exclusion jl s i k t u r m m' :
  rtc sync_step (start <$> jl) s -> i <> k -> s !! i = Some t -> s !! k = Some u ->
  (r, m) ∈ held t -> (r, m') ∈ held u -> m = Shared /\ m' = Shared.
Proof. intros Hr. destruct (reachable_ok jl s Hr) as [_ Hc]. by apply Hc. Qed.

(** ** Witnesses *)

Definition both : list thread :=
  [mkThread [(FsRtlHeaderLock, Shared)] (drop 1 (job_actions CcFlush));
   mkThread [(FsRtlHeaderLock, Shared)] (drop 1 (job_actions ModWrite))].

Definition one : list thread :=
  [mkThread [(FsRtlHeaderLock, Shared)] (drop 1 (job_actions CcFlush)); start [ModWrite]].

Lemma both_reachable : rtc sync_step (start <$> [[CcFlush]; [ModWrite]]) both.
Proof.
  apply rtc_l with one.
  { apply (s_acquire [start [CcFlush]; start [ModWrite]] 0 [] FsRtlHeaderLock Shared (drop 1 (job_actions CcFlush))); [reflexivity|].
    intros k t Hk Ht. destruct k as [|[|k]]; simpl in Ht; simplify_eq; reflexivity. }
  apply rtc_once.
  apply (s_acquire one 1 [] FsRtlHeaderLock Shared (drop 1 (job_actions ModWrite))); [reflexivity|].
  intros k t Hk Ht. destruct k as [|[|k]]; simpl in Ht; simplify_eq; reflexivity.
Qed.

Lemma sync_deadlock_free_witness :
  ((exists s', sync_step both s') \/ Forall (fun t => t = mkThread [] []) both) /\
  (forall s', sync_step both s' -> (remaining s' < remaining both)%nat).
Proof. apply (sync_deadlock_free [[CcFlush]; [ModWrite]] both), both_reachable. Defined.

Lemma sync_exclusion_witness : Shared = Shared /\ Shared = Shared.
Proof.
  apply (sync_exclusion [[CcFlush]; [ModWrite]] both 0 1
    (mkThread [(FsRtlHeaderLock, Shared)] (drop 1 (job_actions CcFlush)))
    (mkThread [(FsRtlHeaderLock, Shared)] (drop 1 (job_actions ModWrite))) FsRtlHeaderLock);
    [apply both_reachable | discriminate | reflexivity | reflexivity | by apply elem_of_cons; left | by apply elem_of_cons; left].
Defined.
