(* ===== verification/Storport.v ===== *)
(** * The storport miniport (driver/blk/storport_driver.c)

    Request blocks carry the function, the operation code, the transfer length,
    the status and the data buffer; [srb_completed] counts completions. The data
    buffer is as long as the transfer length at entry. Sizes of the platform
    structures are parameters; the two capacity structures are laid out as the
    SCSI standard fixes them. *)

From S2P Require Import Prelude.

Definition SRB_STATUS_SUCCESS : Z := 0x01.
Definition SRB_STATUS_INVALID_REQUEST : Z := 0x06.
Definition SRB_STATUS_DATA_OVERRUN : Z := 0x12.
Definition SP_RETURN_FOUND : Z := 1.

Definition HD_DISK_SIZE_GB : Z := 64.
Definition HD_SECTOR_SIZE : Z := 512.
Definition HD_MAX_TRANSFER : Z := 128 * 1024.

Record HD_PORT_EXTENSION : Type := mkPort {
  DiskSize : Z;
  SectorSize : Z;
  TotalSectors : Z;
  Cylinders : Z;
  TracksPerCylinder : Z;
  SectorsPerTrack : Z;
  ServerAddress : list Z;
  ServerPort : Z;
  Initialized : bool;
}.

Inductive scsi_op : Type :=
| SCSIOP_READ | SCSIOP_WRITE | SCSIOP_READ_CAPACITY | SCSIOP_READ_CAPACITY16 | SCSIOP_INQUIRY | SCSIOP_MODE_SENSE
| SCSIOP_TEST_UNIT_READY | SCSIOP_REQUEST_SENSE | SCSIOP_START_STOP_UNIT | SCSIOP_VERIFY | SCSIOP_MEDIUM_REMOVAL
| SCSIOP_other (code : Z).
Inductive srb_function : Type :=
| SRB_FUNCTION_EXECUTE_SCSI (op : scsi_op)
| SRB_FUNCTION_IO_CONTROL | SRB_FUNCTION_FLUSH | SRB_FUNCTION_SHUTDOWN | SRB_FUNCTION_RESET_DEVICE
| SRB_FUNCTION_RESET_BUS | SRB_FUNCTION_RELEASE_DEVICE | SRB_FUNCTION_other (code : Z).

Record SCSI_REQUEST_BLOCK : Type := mkSrb {
  Function : srb_function;
  DataTransferLength : Z;
  SrbStatus : Z;
  DataBuffer : list Z;
  srb_completed : nat;
}.

Definition set_srb_status (st : Z) (s : SCSI_REQUEST_BLOCK) : SCSI_REQUEST_BLOCK :=
  mkSrb (Function s) (DataTransferLength s) st (DataBuffer s) (srb_completed s).
Definition set_transfer (n : Z) (s : SCSI_REQUEST_BLOCK) : SCSI_REQUEST_BLOCK :=
  mkSrb (Function s) n (SrbStatus s) (DataBuffer s) (srb_completed s).
Definition set_data (d : list Z) (s : SCSI_REQUEST_BLOCK) : SCSI_REQUEST_BLOCK :=
  mkSrb (Function s) (DataTransferLength s) (SrbStatus s) d (srb_completed s).
Definition StorPortCompleteRequest (s : SCSI_REQUEST_BLOCK) : SCSI_REQUEST_BLOCK :=
  mkSrb (Function s) (DataTransferLength s) (SrbStatus s) (DataBuffer s) (S (srb_completed s)).

(** The tail of every handler. *)
Definition finish (st : Z) (s : SCSI_REQUEST_BLOCK) : SCSI_REQUEST_BLOCK :=
  StorPortCompleteRequest (set_srb_status st s).

(** Reversing the bytes of a 32-bit and a 64-bit integer. *)
Definition byteswap_ulong (z : Z) : Z := le_val (rev (le_bytes 4 z)).
Definition byteswap_uint64 (z : Z) : Z := le_val (rev (le_bytes 8 z)).

(** ** Entry point

    The initialisation data that DriverEntry hands to StorPortInitialize; fields
    it does not assign are zero. The callbacks are names; [None] is NULL. *)

Inductive callback : Type :=
| C_HdPortHwInitialize | C_HdPortHwStartIo | C_HdPortHwFindAdapter | C_HdPortHwResetBus.

Record HW_INITIALIZATION_DATA : Type := mkHwInit {
  HwInitializationDataSize : Z;
  HwInitialize : option callback;
  HwStartIo : option callback;
  HwInterrupt : option callback;
  HwFindAdapter : option callback;
  HwResetBus : option callback;
  DeviceExtensionSize : Z;
  SpecificLuExtensionSize : Z;
  SrbExtensionSize : Z;
  NumberOfAccessRanges : Z;
  hw_MapBuffers : bool;
  hw_NeedPhysicalAddresses : bool;
  hw_TaggedQueuing : bool;
  hw_AutoRequestSense : bool;
  hw_MultipleRequestPerLu : bool;
  hw_ReceiveEvent : bool;
  VendorIdLength : Z;
  VendorId : list Z;
  DeviceIdLength : Z;
  DeviceId : list Z;
  FeatureSupport : Z;
  SrbTypeFlags : Z;
  AddressTypeFlags : Z;
  AdapterInterfaceType : Z;
}.

Definition SRB_TYPE_FLAG_STORAGE_REQUEST_BLOCK : Z := 0x2.
Definition Internal : Z := 0.

(** [StorPortInitialize] is the port driver's; the other callbacks the code sets
    (DMA, adapter state and control, build, service requests, tracing) are NULL. *)
Definition DriverEntry {S : Type} (hw_size ext_size : Z) (StorPortInitialize : HW_INITIALIZATION_DATA -> S -> Z * S) (s : S) : Z * S :=
  StorPortInitialize
    (mkHwInit hw_size (Some C_HdPortHwInitialize) (Some C_HdPortHwStartIo) None (Some C_HdPortHwFindAdapter) (Some C_HdPortHwResetBus)
       ext_size 0 0 0 true false true true true false 8 (zstr "HTKIS   ") 16 (zstr "HyperDisk VDisk  ")
       0 SRB_TYPE_FLAG_STORAGE_REQUEST_BLOCK 0 Internal) s.

(** ** Adapter *)

(** The limits the adapter announces. *)
Record PORT_CONFIGURATION_INFORMATION : Type := mkPortConfig {
  MaximumNumberOfLogicalUnits : Z;
  MaximumNumberOfTargets : Z;
  NumberOfBuses : Z;
  MaximumTransferLength : Z;
  CachesData : bool;
  MapBuffers : bool;
  NeedPhysicalAddresses : bool;
  TaggedQueuing : bool;
  AutoRequestSense : bool;
  MultipleRequestPerLu : bool;
  ReceiveEvent : bool;
  RealModeInitialized : bool;
}.

(** Status, extension, configuration and [*Again]. *)
Definition HdPortHwFindAdapter (ext : HD_PORT_EXTENSION) (ConfigInfo : PORT_CONFIGURATION_INFORMATION)
    : res (Z * HD_PORT_EXTENSION * PORT_CONFIGURATION_INFORMATION * bool) :=
  let ConfigInfo := mkPortConfig 1 1 1 HD_MAX_TRANSFER false true false true true true false false in
  let size := u64 (HD_DISK_SIZE_GB * 1024 * 1024 * 1024) in
  let sectors := u32 (size / HD_SECTOR_SIZE) in
  let c := sectors / u32 (63 * 255) in
  let* addr := wr (ServerAddress ext) 0 (zstr "192.168.2.110" ++ [0]) in
  Ok (SP_RETURN_FOUND, mkPort size HD_SECTOR_SIZE sectors (if c =? 0 then 1 else c) 255 63 addr 9527 true, ConfigInfo, false).

Definition HdPortHwInitialize (ext : HD_PORT_EXTENSION) : bool := true.
Definition HdPortHwResetBus (ext : HD_PORT_EXTENSION) (path : Z) : Z := SP_RETURN_FOUND.

(** ** Commands *)

Section Commands.
(** Sizes of INQUIRYDATA and SENSE_DATA and of the 16-byte capacity structure as
    compiled, and the inquiry bytes after the strings. *)
Context (inquiry_size sense_size cap16_size : Z).

(** Byte image of the inquiry answer: type, qualifier, version, format, length,
    then vendor, product and revision at their standard offsets. *)
Definition inquiry_image : list Z :=
  [0; 0; 5; 2; 31; 0; 0; 0] ++ zstr "HTKIS   " ++ take 16 (zstr "HyperDisk VDisk  ") ++ zstr "1.0" ++ [0].

Definition HdPortHandleInquiry (ext : HD_PORT_EXTENSION) (s : SCSI_REQUEST_BLOCK) : res SCSI_REQUEST_BLOCK :=
  if DataTransferLength s <? inquiry_size then Ok (finish SRB_STATUS_DATA_OVERRUN s)
  else
    let* d := wr (DataBuffer s) 0 (replicate (Z.to_nat inquiry_size) 0) in
    let* d := wr d 0 inquiry_image in
    Ok (finish SRB_STATUS_SUCCESS (set_transfer inquiry_size (set_data d s))).

(** The subtraction and the comparison are 32-bit unsigned. *)
Definition last_lba (ext : HD_PORT_EXTENSION) : Z :=
  if 0xFFFFFFFF <? u32 (TotalSectors ext - 1) then 0xFFFFFFFF else u32 (TotalSectors ext - 1).

Definition HdPortHandleReadCapacity (ext : HD_PORT_EXTENSION) (s : SCSI_REQUEST_BLOCK) : res SCSI_REQUEST_BLOCK :=
  let* d := wr (DataBuffer s) 0 (replicate 8 0) in
  let* d := wr d 0 (le_bytes 4 (byteswap_ulong (last_lba ext))) in
  let* d := wr d 4 (le_bytes 4 (byteswap_ulong (SectorSize ext))) in
  Ok (finish SRB_STATUS_SUCCESS (set_transfer 8 (set_data d s))).

Definition HdPortHandleReadCapacity16 (ext : HD_PORT_EXTENSION) (s : SCSI_REQUEST_BLOCK) : res SCSI_REQUEST_BLOCK :=
  let* d := wr (DataBuffer s) 0 (replicate (Z.to_nat cap16_size) 0) in
  let* d := wr d 0 (le_bytes 8 (byteswap_uint64 (u32 (TotalSectors ext - 1)))) in
  let* d := wr d 8 (le_bytes 4 (byteswap_ulong (SectorSize ext))) in
  Ok (finish SRB_STATUS_SUCCESS (set_transfer cap16_size (set_data d s))).

Definition HdPortHandleReadWrite (ext : HD_PORT_EXTENSION) (s : SCSI_REQUEST_BLOCK) : res SCSI_REQUEST_BLOCK :=
  Ok (finish SRB_STATUS_SUCCESS s).

Definition HdPortHandleModeSense (ext : HD_PORT_EXTENSION) (s : SCSI_REQUEST_BLOCK) : res SCSI_REQUEST_BLOCK :=
  Ok (finish SRB_STATUS_SUCCESS (set_transfer 0 s)).

(** Byte 0 is the error code 0x70; the sense key NO SENSE is zero. *)
Definition HdPortHandleRequestSense (ext : HD_PORT_EXTENSION) (s : SCSI_REQUEST_BLOCK) : res SCSI_REQUEST_BLOCK :=
  let* d := wr (DataBuffer s) 0 (replicate (Z.to_nat sense_size) 0) in
  let* d := wr d 0 [0x70] in
  Ok (finish SRB_STATUS_SUCCESS (set_transfer sense_size (set_data d s))).

Definition HdPortHandleScsi (ext : HD_PORT_EXTENSION) (op : scsi_op) (s : SCSI_REQUEST_BLOCK) : res SCSI_REQUEST_BLOCK :=
  match op with
  | SCSIOP_READ | SCSIOP_WRITE => HdPortHandleReadWrite ext s
  | SCSIOP_READ_CAPACITY => HdPortHandleReadCapacity ext s
  | SCSIOP_READ_CAPACITY16 => HdPortHandleReadCapacity16 ext s
  | SCSIOP_INQUIRY => HdPortHandleInquiry ext s
  | SCSIOP_MODE_SENSE => HdPortHandleModeSense ext s
  | SCSIOP_TEST_UNIT_READY => Ok (finish SRB_STATUS_SUCCESS (set_transfer 0 s))
  | SCSIOP_REQUEST_SENSE => HdPortHandleRequestSense ext s
  | SCSIOP_START_STOP_UNIT | SCSIOP_VERIFY | SCSIOP_MEDIUM_REMOVAL => Ok (finish SRB_STATUS_SUCCESS (set_transfer 0 s))
  | SCSIOP_other _ => Ok (finish SRB_STATUS_INVALID_REQUEST s)
  end.

Definition HdPortHwStartIo (ext : HD_PORT_EXTENSION) (s : SCSI_REQUEST_BLOCK) : res (bool * SCSI_REQUEST_BLOCK) :=
  let* s :=
    match Function s with
    | SRB_FUNCTION_EXECUTE_SCSI op => HdPortHandleScsi ext op s
    | SRB_FUNCTION_IO_CONTROL => Ok (finish SRB_STATUS_INVALID_REQUEST s)
    | SRB_FUNCTION_FLUSH | SRB_FUNCTION_SHUTDOWN => Ok (finish SRB_STATUS_SUCCESS s)
    | SRB_FUNCTION_RESET_DEVICE | SRB_FUNCTION_RESET_BUS => Ok (finish SRB_STATUS_SUCCESS s)
    | SRB_FUNCTION_RELEASE_DEVICE => Ok (finish SRB_STATUS_SUCCESS s)
    | SRB_FUNCTION_other _ => Ok (finish SRB_STATUS_INVALID_REQUEST s)
    end in
  Ok (true, s).

(** ** Lemmas *)

Context (Hsizes : 36 <= inquiry_size /\ 1 <= sense_size /\ 12 <= cap16_size).

(** The space a request needs in its buffer. *)
Definition needs (f : srb_function) : Z :=
  match f with
  | SRB_FUNCTION_EXECUTE_SCSI SCSIOP_READ_CAPACITY => 8
  | SRB_FUNCTION_EXECUTE_SCSI SCSIOP_READ_CAPACITY16 => cap16_size
  | SRB_FUNCTION_EXECUTE_SCSI SCSIOP_REQUEST_SENSE => sense_size
  | _ => 0
  end.

(** A handler's answer: one completion, and no more data than there was room. *)
Definition srb_answer (s : SCSI_REQUEST_BLOCK) (r : res SCSI_REQUEST_BLOCK) : Prop :=
  exists s', r = Ok s' /\ srb_completed s' = S (srb_completed s) /\
    0 <= DataTransferLength s' <= DataTransferLength s /\ length (DataBuffer s') = length (DataBuffer s).

Lemma srb_finish_answer st n d s :
  0 <= n <= DataTransferLength s -> length d = length (DataBuffer s) ->
  srb_answer s (Ok (finish st (set_transfer n (set_data d s)))).
Proof. intros. eexists. split; [done|]. split_and!; simpl; (done || lia). Qed.

Lemma finish_plain st s : 0 <= DataTransferLength s -> srb_answer s (Ok (finish st s)).
Proof. intros. eexists. split; [done|]. split_and!; simpl; (done || lia). Qed.

Lemma finish_zero st s : 0 <= DataTransferLength s -> srb_answer s (Ok (finish st (set_transfer 0 s))).
Proof. intros. eexists. split; [done|]. split_and!; simpl; (done || lia). Qed.

(** Stores that stay inside the buffer. *)
Lemma wr_in d off src (P : res SCSI_REQUEST_BLOCK -> Prop) (k : list Z -> res SCSI_REQUEST_BLOCK) :
  0 <= off -> off + Z.of_nat (length src) <= Z.of_nat (length d) ->
  (forall d', length d' = length d -> P (k d')) -> P (let* d := wr d off src in k d).
Proof.
  intros H0 H1 Hk. rewrite wr_ok by done. cbn [res_bind]. apply Hk. apply copy_at_length. lia.
Qed.

Lemma start_io_answer ext s :
  0 <= DataTransferLength s -> DataTransferLength s = Z.of_nat (length (DataBuffer s)) ->
  needs (Function s) <= DataTransferLength s ->
  exists s', HdPortHwStartIo ext s = Ok (true, s') /\ srb_answer s (Ok s').
Proof.
  intros H0 Hlen Hneed.
  assert (srb_answer s
    (match Function s with
    | SRB_FUNCTION_EXECUTE_SCSI op => HdPortHandleScsi ext op s
    | SRB_FUNCTION_IO_CONTROL => Ok (finish SRB_STATUS_INVALID_REQUEST s)
    | SRB_FUNCTION_FLUSH | SRB_FUNCTION_SHUTDOWN => Ok (finish SRB_STATUS_SUCCESS s)
    | SRB_FUNCTION_RESET_DEVICE | SRB_FUNCTION_RESET_BUS => Ok (finish SRB_STATUS_SUCCESS s)
    | SRB_FUNCTION_RELEASE_DEVICE => Ok (finish SRB_STATUS_SUCCESS s)
    | SRB_FUNCTION_other _ => Ok (finish SRB_STATUS_INVALID_REQUEST s)
    end)) as Hans.
  { unfold needs in Hneed. destruct (Function s) as [op| | | | | | |]; try (by apply finish_plain).
    destruct op; simpl; try (by apply finish_plain); try (by apply finish_zero).
    - unfold HdPortHandleReadCapacity.
      apply wr_in; [lia|simpl; lia|]. intros d1 Hd1. apply wr_in; [lia|rewrite le_bytes_length; lia|]. intros d2 Hd2.
      apply wr_in; [lia|rewrite le_bytes_length; lia|]. intros d3 Hd3. apply srb_finish_answer; lia.
    - unfold HdPortHandleReadCapacity16.
      apply wr_in; [lia|rewrite length_replicate; lia|]. intros d1 Hd1. apply wr_in; [lia|rewrite le_bytes_length; lia|]. intros d2 Hd2.
      apply wr_in; [lia|rewrite le_bytes_length; lia|]. intros d3 Hd3. apply srb_finish_answer; lia.
    - unfold HdPortHandleInquiry. destruct (Z.ltb_spec (DataTransferLength s) inquiry_size); [by apply finish_plain|].
      apply wr_in; [lia|rewrite length_replicate; lia|]. intros d1 Hd1.
      apply wr_in; [lia|assert (length inquiry_image = 36%nat) as -> by reflexivity; lia|]. intros d2 Hd2.
      apply srb_finish_answer; lia.
    - unfold HdPortHandleRequestSense.
      apply wr_in; [lia|rewrite length_replicate; lia|]. intros d1 Hd1. apply wr_in; [lia|simpl; lia|]. intros d2 Hd2.
      apply srb_finish_answer; lia. }
  destruct Hans as (s' & E & Hans). exists s'. unfold HdPortHwStartIo. rewrite E. split; [done|]. by exists s'.
Qed.
End Commands.

(** ** Properties *)

(** The big-endian integer in a byte string. *)
Definition be_val (bs : list Z) : Z := le_val (rev bs).

Lemma rev_bytes l : Forall is_byte l -> Forall is_byte (rev l).
Proof. rewrite !Forall_forall. intros H b Hb. apply H. apply list_elem_of_In, in_rev. by apply list_elem_of_In in Hb. Qed.

Lemma byteswap_bytes n z : le_bytes n (le_val (rev (le_bytes n z))) = rev (le_bytes n z).
Proof.
  assert (length (rev (le_bytes n z)) = n) as Hl by by rewrite length_rev, le_bytes_length.
  rewrite <- Hl at 1. apply le_bytes_le_val, rev_bytes, le_bytes_bytes.
Qed.

Lemma be_val_rev n z : be_val (rev (le_bytes n z)) = z mod 2 ^ (8 * Z.of_nat n).
Proof. unfold be_val. by rewrite rev_involutive, le_val_le_bytes. Qed.

(** Every request block handed to the miniport is completed exactly once,
    whatever its function and operation code, reports no more data than it had
    room for and never touches memory outside its buffer, given that the three
    commands that do not check their buffer (the two capacity queries and
    request sense) get one that is large enough. *)
Theorem storport_completes_once inquiry_size sense_size cap16_size ext s :
  36 <= inquiry_size /\ 1 <= sense_size /\ 12 <= cap16_size ->
  DataTransferLength s = Z.of_nat (length (DataBuffer s)) ->
  needs sense_size cap16_size (Function s) <= DataTransferLength s ->
  exists s', HdPortHwStartIo inquiry_size sense_size cap16_size ext s = Ok (true, s') /\
    srb_completed s' = S (srb_completed s) /\ 0 <= DataTransferLength s' <= DataTransferLength s.
Proof.
  intros Hs Hl Hn. destruct (start_io_answer inquiry_size sense_size cap16_size Hs ext s) as (s' & E & s2 & E2 & ? & ? & _);
    [lia|done|done|]. simplify_eq. eauto.
Qed.

Definition port0 : HD_PORT_EXTENSION := mkPort 0 0 0 0 0 0 (replicate 64 0) 0 false.
Definition port1 : HD_PORT_EXTENSION :=
  match HdPortHwFindAdapter port0 (mkPortConfig 0 0 0 0 false false false false false false false false) with
  | Ok (_, e, _, _) => e
  | _ => port0
  end.

Lemma storport_completes_once_witness :
  exists s', HdPortHwStartIo 36 18 32 port1 (mkSrb (SRB_FUNCTION_EXECUTE_SCSI SCSIOP_INQUIRY) 40 0 (replicate 40 7) 0) =
      Ok (true, s') /\ srb_completed s' = 1%nat /\ 0 <= DataTransferLength s' <= 40.
Proof.
  apply (storport_completes_once 36 18 32 port1 (mkSrb (SRB_FUNCTION_EXECUTE_SCSI SCSIOP_INQUIRY) 40 0 (replicate 40 7) 0));
    simpl; lia.
Defined.

(** The stores of the two capacity handlers: a zeroed structure of [n] bytes, a
    field at its start and one right behind. *)
Lemma two_stores m n A B :
  (length A + length B <= n)%nat -> (n <= length m)%nat ->
  exists d,
    (forall (k : list Z -> res SCSI_REQUEST_BLOCK),
      (let* d := wr m 0 (replicate n 0) in
       let* d := wr d 0 A in let* d := wr d (Z.of_nat (length A)) B in k d) = k d) /\
    take (length A) d = A /\ take (length B) (drop (length A) d) = B.
Proof.
  intros H1 H2. set (m1 := copy_at m 0 (replicate n 0)). set (m2 := copy_at m1 0 A).
  assert (length m1 = length m) as L1 by (apply copy_at_length; rewrite length_replicate; lia).
  assert (length m2 = length m) as L2 by (unfold m2; rewrite copy_at_length; lia).
  exists (copy_at m2 (length A) B). split; [|split].
  - intros k. rewrite wr_ok by (rewrite ?length_replicate; lia). cbn [res_bind]. change (Z.to_nat 0) with 0%nat. fold m1.
    rewrite wr_ok by lia. cbn [res_bind]. change (Z.to_nat 0) with 0%nat. fold m2.
    rewrite wr_ok by lia. cbn [res_bind]. by rewrite Nat2Z.id.
  - pose proof (copy_at_read_before m2 (length A) B 0 (length A) ltac:(lia) ltac:(lia)) as Hr. rewrite !drop_0 in Hr. rewrite Hr.
    pose proof (copy_at_read m1 0 A ltac:(lia)) as Hr2. by rewrite drop_0 in Hr2.
  - apply copy_at_read. lia.
Qed.

(** The capacity answers are the standard's: read as big-endian integers, the
    first field is the last sector number and the second the sector size, in
    both the 10-byte and the 16-byte command. The guard against a last sector
    beyond 32 bits can never fire, so a sector count of zero is reported as a
    last sector of 2^32 - 1. *)
Theorem storport_capacity cap16_size ext s :
  0 <= TotalSectors ext < 2 ^ 32 -> 0 <= SectorSize ext < 2 ^ 32 -> 12 <= cap16_size <= Z.of_nat (length (DataBuffer s)) ->
  exists s10 s16,
    HdPortHandleReadCapacity ext s = Ok s10 /\ HdPortHandleReadCapacity16 cap16_size ext s = Ok s16 /\
    be_val (take 4 (DataBuffer s10)) = u32 (TotalSectors ext - 1) /\
    be_val (take 4 (drop 4 (DataBuffer s10))) = SectorSize ext /\
    be_val (take 8 (DataBuffer s16)) = u32 (TotalSectors ext - 1) /\
    be_val (take 4 (drop 8 (DataBuffer s16))) = SectorSize ext.
Proof.
  intros Ht Hs Hl.
  assert (last_lba ext = u32 (TotalSectors ext - 1)) as Hlba.
  { unfold last_lba. pose proof (wrap_range 32 (TotalSectors ext - 1) ltac:(lia)). unfold u32.
    by destruct (Z.ltb_spec 0xFFFFFFFF (wrap 32 (TotalSectors ext - 1))); [lia|]. }
  destruct (two_stores (DataBuffer s) 8 (rev (le_bytes 4 (u32 (TotalSectors ext - 1)))) (rev (le_bytes 4 (SectorSize ext))))
    as (d10 & E10 & R1 & R2); [rewrite !length_rev, !le_bytes_length; lia|lia|].
  destruct (two_stores (DataBuffer s) (Z.to_nat cap16_size) (rev (le_bytes 8 (u32 (TotalSectors ext - 1)))) (rev (le_bytes 4 (SectorSize ext))))
    as (d16 & E16 & R3 & R4); [rewrite !length_rev, !le_bytes_length; lia|lia|].
  rewrite !length_rev, !le_bytes_length in *. pose proof (wrap_range 32 (TotalSectors ext - 1) ltac:(lia)) as Hw.
  unfold HdPortHandleReadCapacity, HdPortHandleReadCapacity16, byteswap_ulong, byteswap_uint64. rewrite Hlba, !byteswap_bytes.
  do 2 eexists. split; [|split].
  - etrans; [exact (E10 (fun d => Ok (finish SRB_STATUS_SUCCESS (set_transfer 8 (set_data d s)))))|done].
  - etrans; [exact (E16 (fun d => Ok (finish SRB_STATUS_SUCCESS (set_transfer cap16_size (set_data d s)))))|done].
  - simpl. rewrite R1, R2, R3, R4, !be_val_rev. unfold u32. cbn [Z.of_nat Z.mul Pos.of_succ_nat].
    rewrite !Z.mod_small by lia. done.
Qed.

Lemma storport_capacity_witness :
  exists s10 s16,
    HdPortHandleReadCapacity port1 (mkSrb (SRB_FUNCTION_EXECUTE_SCSI SCSIOP_READ_CAPACITY) 40 0 (replicate 40 7) 0) = Ok s10 /\
    HdPortHandleReadCapacity16 32 port1 (mkSrb (SRB_FUNCTION_EXECUTE_SCSI SCSIOP_READ_CAPACITY) 40 0 (replicate 40 7) 0) = Ok s16 /\
    be_val (take 4 (DataBuffer s10)) = 134217727 /\ be_val (take 4 (drop 4 (DataBuffer s10))) = 512 /\
    be_val (take 8 (DataBuffer s16)) = 134217727 /\ be_val (take 4 (drop 8 (DataBuffer s16))) = 512.
Proof.
  apply (storport_capacity 32 port1 (mkSrb (SRB_FUNCTION_EXECUTE_SCSI SCSIOP_READ_CAPACITY) 40 0 (replicate 40 7) 0));
    vm_compute; split; congruence.
Defined.
