(* ===== verification/Dispatch.v ===== *)
(** * The drivers behind their dispatch tables

    The I/O manager reaches a driver only through the routines its DriverEntry
    stores in the driver object. Here the driver object, the tables of the
    block, network, bus, WDM disk and plug-and-play disk drivers, and the I/O
    manager's call of a driver put the routines of [PnpDisk], [WdmDisk], [Blk]
    and [Net] together into whole drivers. *)

From S2P Require Import Prelude Nt Kernel Serial ListEntry IrpTracker Disk PnpDisk WdmDisk Net Blk.

Inductive irp_major : Type :=
| IRP_MJ_CREATE | IRP_MJ_CLOSE | IRP_MJ_READ | IRP_MJ_WRITE | IRP_MJ_FLUSH_BUFFERS | IRP_MJ_SHUTDOWN
| IRP_MJ_QUERY_INFORMATION | IRP_MJ_SET_INFORMATION | IRP_MJ_DEVICE_CONTROL | IRP_MJ_PNP | IRP_MJ_POWER
| IRP_MJ_SYSTEM_CONTROL | IRP_MJ_other (code : Z).

#[export] Instance irp_major_eq : EqDecision irp_major.
Proof. solve_decision. Defined.

(** A driver object, for a driver whose entry points are the names [R]. *)
Record DRIVER_OBJECT (R : Type) : Type := mkDriver {
  MajorFunction : irp_major -> option R;
  AddDevice : option R;
  DriverUnload : option R;
}.
Arguments mkDriver {R} _ _ _.
Arguments MajorFunction {R} _ _.
Arguments AddDevice {R} _.
Arguments DriverUnload {R} _.

Definition new_driver {R} : DRIVER_OBJECT R := mkDriver (fun _ => None) None None.
Definition set_major {R} (mj : irp_major) (r : option R) (d : DRIVER_OBJECT R) : DRIVER_OBJECT R :=
  mkDriver (fun m => if decide (m = mj) then r else MajorFunction d m) (AddDevice d) (DriverUnload d).
Definition set_add {R} (r : option R) (d : DRIVER_OBJECT R) : DRIVER_OBJECT R :=
  mkDriver (MajorFunction d) r (DriverUnload d).
Definition set_unload {R} (r : option R) (d : DRIVER_OBJECT R) : DRIVER_OBJECT R :=
  mkDriver (MajorFunction d) (AddDevice d) r.

(** What the I/O manager does with a packet for which the driver has no
    routine: it completes the packet with a failure. *)
Class IoManager : Type := { refuse : IRP -> Z * IRP }.
Class IoManagerLaws `{IoManager} : Prop := {
  refuse_once i : irp_completed (refuse i).2 = S (irp_completed i);
  refuse_status i : irp_status (refuse i).2 = (refuse i).1;
  refuse_fails i : NT_SUCCESS (refuse i).1 = false;
}.

(** The packet is completed, once, with the status returned. *)
Definition answered (i : IRP) (st : Z) (i' : IRP) : Prop :=
  irp_completed i' = S (irp_completed i) /\ irp_status i' = st.
(** The packet is handed, not yet completed, to the lower driver, whose answer
    is returned. *)
Definition handed_on (lower : IRP -> Z * IRP) (i : IRP) (st : Z) (i' : IRP) : Prop :=
  exists i0, irp_completed i0 = irp_completed i /\ lower i0 = (st, i').

Lemma answered_with st info i : answered i st (complete_with st info i).
Proof. done. Qed.
(** The packet is completed once, and the status returned is what is read of it
    afterwards. *)
Definition answered_late (late : IRP -> option Z) (i : IRP) (st : Z) (i' : IRP) : Prop :=
  answered i (irp_status i') i' /\ late i' = Some st.

Lemma transfer_late_spec late g offset len i :
  match transfer_late late g offset len i with
  | Ok (st, i') => answered_late late i st i'
  | Fault => exists status information, late (complete_with status information i) = None
  | NoFuel => False
  end.
Proof.
  unfold transfer_late, disk_transfer, answered_late. cbv zeta. destruct (Disk.DiskSize g <? _).
  - set (x := IoCompleteRequest _). destruct (late x) eqn:E; cbn [of_opt res_bind]; [done|]. by exists STATUS_INVALID_PARAMETER, 0.
  - set (x := IoCompleteRequest _). destruct (late x) eqn:E; cbn [of_opt res_bind]; [done|]. by exists STATUS_SUCCESS, len.
Qed.
Lemma answered_refuse `{IoManagerLaws} i : answered i (refuse i).1 (refuse i).2.
Proof. split; [apply refuse_once|apply refuse_status]. Qed.
Ltac answer := first [exact (answered_with _ _ _) | exact (answered_refuse _)].

(** ** The plug-and-play disk driver (pnp_disk_driver.c) *)
Module Pnp.

Inductive routine : Type :=
| R_HdBlkAddDevice | R_HdBlkDispatchCreate | R_HdBlkDispatchClose | R_HdBlkDispatchRead | R_HdBlkDispatchWrite
| R_HdBlkDispatchDeviceControl | R_HdBlkDispatchPnp | R_HdBlkDispatchPower | R_HdBlkDispatchSystemControl | R_HdBlkUnload.

Definition DriverEntry (d : DRIVER_OBJECT routine) : Z * DRIVER_OBJECT routine :=
  let d := set_add (Some R_HdBlkAddDevice) d in
  let d := set_major IRP_MJ_CREATE (Some R_HdBlkDispatchCreate) d in
  let d := set_major IRP_MJ_CLOSE (Some R_HdBlkDispatchClose) d in
  let d := set_major IRP_MJ_READ (Some R_HdBlkDispatchRead) d in
  let d := set_major IRP_MJ_WRITE (Some R_HdBlkDispatchWrite) d in
  let d := set_major IRP_MJ_DEVICE_CONTROL (Some R_HdBlkDispatchDeviceControl) d in
  let d := set_major IRP_MJ_PNP (Some R_HdBlkDispatchPnp) d in
  let d := set_major IRP_MJ_POWER (Some R_HdBlkDispatchPower) d in
  let d := set_major IRP_MJ_SYSTEM_CONTROL (Some R_HdBlkDispatchSystemControl) d in
  let d := set_unload (Some R_HdBlkUnload) d in
  (STATUS_SUCCESS, d).

Definition HdBlkUnload (k : Kernel) : Kernel := k.

(** The parameters of a packet, in its stack location; [q_late] is what is left of
    it once it has been completed. *)
Record Packet : Type := mkPacket {
  q_major : irp_major; q_minor : pnp_minor; q_offset : Z; q_length : Z; q_control : DevCtl;
  q_late : IRP -> option Z;
}.

Section Driver.
Context `{IoManager} (sizeof : struct_name -> Z).

(** Status, packet, device ([None] once deleted), ledger, system buffer. *)
Definition reply : Type := Z * IRP * option PnpDisk.HD_BLK_DEVICE * Kernel * option sysbuf.
Definition keep (d : PnpDisk.HD_BLK_DEVICE) (k : Kernel) (r : Z * IRP) : res reply := Ok (r.1, r.2, Some d, k, None).

Definition call_routine (r : routine) (lower : IRP -> Z * IRP) (q : Packet) (i : IRP) (d : PnpDisk.HD_BLK_DEVICE) (k : Kernel)
    : res reply :=
  match r with
  | R_HdBlkDispatchCreate => keep d k (PnpDisk.HdBlkDispatchCreate i)
  | R_HdBlkDispatchClose => keep d k (PnpDisk.HdBlkDispatchClose i)
  | R_HdBlkDispatchRead => let* x := PnpDisk.HdBlkDispatchRead (q_late q) d (q_offset q) (q_length q) i in keep d k x
  | R_HdBlkDispatchWrite => let* x := PnpDisk.HdBlkDispatchWrite (q_late q) d (q_offset q) (q_length q) i in keep d k x
  | R_HdBlkDispatchDeviceControl =>
      let '(st, i, buf) := PnpDisk.HdBlkDispatchDeviceControl sizeof d (q_control q) i in Ok (st, i, Some d, k, buf)
  | R_HdBlkDispatchPnp => let* x := PnpDisk.HdBlkDispatchPnp lower (q_minor q) i d k in Ok (x, None)
  | R_HdBlkDispatchPower => keep d k (PnpDisk.HdBlkDispatchPower lower i)
  | R_HdBlkDispatchSystemControl => keep d k (PnpDisk.HdBlkDispatchSystemControl lower i)
  | R_HdBlkAddDevice | R_HdBlkUnload => Fault (* not dispatch routines *)
  end.

Definition send (drv : DRIVER_OBJECT routine) (lower : IRP -> Z * IRP) (q : Packet) (i : IRP) (d : PnpDisk.HD_BLK_DEVICE)
    (k : Kernel) : res reply :=
  match MajorFunction drv (q_major q) with
  | Some r => call_routine r lower q i d k
  | None => keep d k (refuse i)
  end.

(** The packets of a device's life, each with what the lower driver does. No
    packet reaches a device that was deleted. *)
Fixpoint serve (drv : DRIVER_OBJECT routine) (qs : list (Packet * (IRP -> Z * IRP))) (d : option PnpDisk.HD_BLK_DEVICE)
    (k : Kernel) : res (list (Z * IRP) * option PnpDisk.HD_BLK_DEVICE * Kernel) :=
  match qs with
  | [] => Ok ([], d, k)
  | (q, lower) :: qs =>
      match d with
      | None => Fault
      | Some d =>
          let* x := send drv lower q fresh_irp d k in
          let '(st, i, d, k, _) := (x : reply) in
          let* y := serve drv qs d k in Ok ((st, i) :: y.1.1, y.1.2, y.2)
      end
  end.
End Driver.

Definition removes (q : Packet) : bool :=
  match q_major q, q_minor q with
  | IRP_MJ_PNP, IRP_MN_REMOVE_DEVICE => true
  | _, _ => false
  end.

Definition the_driver : DRIVER_OBJECT routine := (DriverEntry new_driver).2.

Definition transfers (q : Packet) : bool :=
  match q_major q with IRP_MJ_READ | IRP_MJ_WRITE => true | _ => false end.

(** A packet served: a read or write is completed and its status read late;
    another packet is answered here or handed on. *)
Definition served (x : Packet * (IRP -> Z * IRP)) (i : IRP) (a : Z * IRP) : Prop :=
  if transfers x.1 then answered_late (q_late x.1) i a.1 a.2
  else answered i a.1 a.2 \/ handed_on x.2 i a.1 a.2.
(** A read or write whose packet is gone when its status is read. *)
Definition gone (x : Packet * (IRP -> Z * IRP)) (i : IRP) : Prop :=
  transfers x.1 = true /\ exists status information, q_late x.1 (complete_with status information i) = None.

(** Every plug-and-play packet is handed to the lower driver, once. *)
Lemma pnp_handed_on lower mn i d k st i' d' k' :
  PnpDisk.HdBlkDispatchPnp lower mn i d k = Ok (st, i', d', k') -> handed_on lower i st i'.
Proof.
  destruct mn; simpl; unfold HdBlkForwardIrp; intros E; repeat (case_match || (apply res_bind_ok in E as (? & ? & E)));
    simplify_eq; eexists; (split; [|eassumption]); done.
Qed.

(** What the ledger is without a device. *)
Definition holds (d : PnpDisk.HD_BLK_DEVICE) (k : Kernel) : gset Z * gset Z * gmap Z Z :=
  (k_devices k ∖ {[p_DeviceObject d]}, if p_InterfaceRegistered d then k_pool k ∖ {[p_InterfaceName d]} else k_pool k,
   delete (p_LowerDevice d) (k_attached k)).

Lemma pnp_remove_ok lower i d k :
  pnp_inv d k ->
  exists st i' k', PnpDisk.HdBlkDispatchPnp lower IRP_MN_REMOVE_DEVICE i d k = Ok (st, i', None, k') /\
    (k_devices k', k_pool k', k_attached k') = holds d k.
Proof.
  intros (Hd & Ha & Hi). unfold holds. simpl. unfold IoDetachDevice, IoDeleteDevice. destruct (p_InterfaceRegistered d) eqn:E; simpl.
  - destruct (Hi eq_refl) as [Hp _]. rewrite set_iface_ok by done. simpl. unfold ExFreePool. simpl.
    rewrite decide_True by done. simpl. destruct (lower _) as [st i']. simpl. rewrite Ha. simpl.
    rewrite decide_True by done. simpl. eauto.
  - destruct (lower _) as [st i']. rewrite Ha. simpl. rewrite decide_True by done. simpl. eauto.
Qed.

Lemma send_ok `{IoManagerLaws} sizeof lower q i d k :
  pnp_inv d k ->
  match send sizeof the_driver lower q i d k with
  | Ok (st, i', d', k', buf) => served (q, lower) i (st, i') /\
      if removes q then d' = None /\ (k_devices k', k_pool k', k_attached k') = holds d k
      else exists d1, d' = Some d1 /\ pnp_inv d1 k' /\ holds d1 k' = holds d k
  | Fault => gone (q, lower) i
  | NoFuel => False
  end.
Proof.
  intros Hinv. unfold send, removes, served, gone, transfers. destruct q as [mj mn off len ctl late]. simpl. destruct mj; simpl.
  all: try (split; [left; answer|by eauto]).
  - unfold PnpDisk.HdBlkDispatchRead. pose proof (transfer_late_spec late (p_geom d) off len i) as Ht.
    destruct (transfer_late _ _ _ _ _) as [[st i']| |]; cbn; [by eauto|done|done].
  - unfold PnpDisk.HdBlkDispatchWrite. pose proof (transfer_late_spec late (p_geom d) off len i) as Ht.
    destruct (transfer_late _ _ _ _ _) as [[st i']| |]; cbn; [by eauto|done|done].
  - unfold PnpDisk.HdBlkDispatchDeviceControl. destruct (disk_switch _ _ _ _ _) as [[st b] v].
    split; [left; answer|by eauto].
  - destruct (decide (mn = IRP_MN_REMOVE_DEVICE)) as [->|Hmn].
    + destruct (pnp_remove_ok lower i d k Hinv) as (st & i' & k' & E & Hk). pose proof (pnp_handed_on _ _ _ _ _ _ _ _ _ E).
      rewrite E. simpl. auto.
    + destruct (pnp_step_inv lower mn i d k) as (st & i' & d' & k' & E & Hinv' & E1 & E2 & E3 & E4 & E5 & E6 & E7); [by destruct mn|done|].
      pose proof (pnp_handed_on _ _ _ _ _ _ _ _ _ E). rewrite E. simpl.
      assert (holds d' k' = holds d k) by (unfold holds; by rewrite E1, E2, E3, E4, E5, E6, E7).
      split; [by right|]. destruct mn; first [by eauto | by destruct Hmn].
  - split; [right; exists i; split; [done|apply surjective_pairing]|by eauto].
  - split; [right; exists i; split; [done|apply surjective_pairing]|by eauto].
Qed.

Lemma serve_app `{IoManager} sizeof drv qs qs' d k :
  serve sizeof drv (qs ++ qs') d k =
    let* x := serve sizeof drv qs d k in
    let* y := serve sizeof drv qs' x.1.2 x.2 in Ok (x.1.1 ++ y.1.1, y.1.2, y.2).
Proof.
  revert d k. induction qs as [|[q lower] qs IH]; intros d k; simpl.
  - by destruct (serve _ _ _ _ _) as [[[l d'] k']| |].
  - destruct d as [d|]; [|done]. destruct (send _ _ _ _ _ _ _) as [[[[[st i] d1] k1] b]| |]; try done. simpl. rewrite IH.
    destruct (serve _ _ qs _ _) as [[[l d'] k']| |]; try done. simpl.
    by destruct (serve _ _ qs' _ _) as [[[l' d''] k'']| |].
Qed.

Lemma serve_ok `{IoManagerLaws} sizeof qs : forall d k,
  pnp_inv d k -> forallb (fun x => negb (removes x.1)) qs = true ->
  match serve sizeof the_driver qs (Some d) k with
  | Ok (log, d', k') => (exists d1, d' = Some d1 /\ pnp_inv d1 k' /\ holds d1 k' = holds d k) /\
      Forall2 (fun x a => served x fresh_irp a) qs log
  | Fault => Exists (fun x => gone x fresh_irp) qs
  | NoFuel => False
  end.
Proof.
  induction qs as [|[q lower] qs IH]; intros d k Hinv Hqs; simpl in *; [by eauto|].
  apply andb_true_iff in Hqs as [Hq Hqs]. apply negb_true_iff in Hq.
  pose proof (send_ok sizeof lower q fresh_irp d k Hinv) as Hs.
  destruct (send _ _ _ _ _ _ _) as [[[[[st i] d1] k1] buf]| |]; cbn [res_bind]; [|by constructor|done].
  rewrite Hq in Hs. destruct Hs as (Ha & d2 & -> & Hinv2 & Hh). specialize (IH d2 k1 Hinv2 Hqs).
  destruct (serve _ _ qs _ _) as [[[log d'] k']| |]; cbn [res_bind fst snd]; [|by right|done].
  destruct IH as [(d3 & -> & ? & ?) ?]. split; [exists d3; split_and!; [done|done|congruence]|by constructor].
Qed.
End Pnp.

(** ** The WDM disk driver (wdm_disk_driver.c) *)
Module Wdm.

Inductive routine : Type :=
| R_HdBlkDispatchCreate | R_HdBlkDispatchClose | R_HdBlkDispatchRead | R_HdBlkDispatchWrite
| R_HdBlkDispatchDeviceControl | R_HdBlkDispatchPnp | R_HdBlkUnload.

(** The assignments at the end of DriverEntry. *)
Definition fill_table (d : DRIVER_OBJECT routine) : DRIVER_OBJECT routine :=
  let d := set_major IRP_MJ_CREATE (Some R_HdBlkDispatchCreate) d in
  let d := set_major IRP_MJ_CLOSE (Some R_HdBlkDispatchClose) d in
  let d := set_major IRP_MJ_READ (Some R_HdBlkDispatchRead) d in
  let d := set_major IRP_MJ_WRITE (Some R_HdBlkDispatchWrite) d in
  let d := set_major IRP_MJ_DEVICE_CONTROL (Some R_HdBlkDispatchDeviceControl) d in
  let d := set_major IRP_MJ_PNP (Some R_HdBlkDispatchPnp) d in
  set_unload (Some R_HdBlkUnload) d.

Section Driver.
Context `{IoManager} (sizeof : struct_name -> Z).

Definition call_routine (r : routine) (q : Pnp.Packet) (i : IRP) (d : WdmDisk.HD_BLK_DEVICE) : res (Z * IRP * option sysbuf) :=
  match r with
  | R_HdBlkDispatchCreate => Ok (WdmDisk.HdBlkDispatchCreate i, None)
  | R_HdBlkDispatchClose => Ok (WdmDisk.HdBlkDispatchClose i, None)
  | R_HdBlkDispatchRead => let* x := WdmDisk.HdBlkDispatchRead (Pnp.q_late q) d (Pnp.q_offset q) (Pnp.q_length q) i in Ok (x, None)
  | R_HdBlkDispatchWrite => let* x := WdmDisk.HdBlkDispatchWrite (Pnp.q_late q) d (Pnp.q_offset q) (Pnp.q_length q) i in Ok (x, None)
  | R_HdBlkDispatchDeviceControl => Ok (WdmDisk.HdBlkDispatchDeviceControl sizeof d (Pnp.q_control q) i)
  | R_HdBlkDispatchPnp => Ok (WdmDisk.HdBlkDispatchPnp (Pnp.q_minor q) i, None)
  | R_HdBlkUnload => Fault (* not a dispatch routine *)
  end.

Definition send (drv : DRIVER_OBJECT routine) (q : Pnp.Packet) (i : IRP) (d : WdmDisk.HD_BLK_DEVICE)
    : res (Z * IRP * option sysbuf) :=
  match MajorFunction drv (Pnp.q_major q) with
  | Some r => call_routine r q i d
  | None => Ok (refuse i, None)
  end.
End Driver.
End Wdm.

(** ** The block driver (blk_driver.c) *)
Module BlkDrv.

Inductive routine : Type :=
| R_HdBlkDispatchCreate | R_HdBlkDispatchClose | R_HdBlkDispatchRead | R_HdBlkDispatchWrite | R_HdBlkDispatchFlushBuffers
| R_HdBlkDispatchShutdown | R_HdBlkDispatchQueryInformation | R_HdBlkDispatchSetInformation | R_HdBlkDispatchPnp
| R_HdBlkDispatchIoctl.

(** The assignments of DriverEntry between the wait and the tracker. *)
Definition fill_table (d : DRIVER_OBJECT routine) : DRIVER_OBJECT routine :=
  let d := set_add None d in
  let d := set_major IRP_MJ_CREATE (Some R_HdBlkDispatchCreate) d in
  let d := set_major IRP_MJ_CLOSE (Some R_HdBlkDispatchClose) d in
  let d := set_major IRP_MJ_READ (Some R_HdBlkDispatchRead) d in
  let d := set_major IRP_MJ_WRITE (Some R_HdBlkDispatchWrite) d in
  let d := set_major IRP_MJ_FLUSH_BUFFERS (Some R_HdBlkDispatchFlushBuffers) d in
  let d := set_major IRP_MJ_SHUTDOWN (Some R_HdBlkDispatchShutdown) d in
  let d := set_major IRP_MJ_QUERY_INFORMATION (Some R_HdBlkDispatchQueryInformation) d in
  let d := set_major IRP_MJ_SET_INFORMATION (Some R_HdBlkDispatchSetInformation) d in
  let d := set_major IRP_MJ_PNP (Some R_HdBlkDispatchPnp) d in
  let d := set_major IRP_MJ_DEVICE_CONTROL (Some R_HdBlkDispatchIoctl) d in
  set_unload None d.

(** The parameters of a packet: [q_inlen] and [q_buflen] are the lengths of the
    input and of the system buffer, [q_pending] what the number of pending
    requests is during the sleeps of a shutdown. *)
Record Packet : Type := mkPacket {
  q_major : irp_major; q_minor : pnp_minor; q_offset : Z; q_length : Z; q_query : file_info; q_set : set_info;
  q_ioctl : blk_ioctl; q_inlen : Z; q_buflen : Z; q_pending : nat -> Z;
}.

(** The sizes of the platform's and the driver's structures. *)
Record Sizes : Type := mkSizes { std_size : Z; basic_size : Z; config_size : Z; resp_size : Z }.

Section Driver.
Context `{IoManager} (fuel : nat) (sz : Sizes).

Definition reply : Type := Z * IRP * HD_BLK_EXTENSION.

Definition call_routine (r : routine) (q : Packet) (i : IRP) (b : HD_BLK_EXTENSION) : res reply :=
  match r with
  | R_HdBlkDispatchCreate => Ok (Blk.HdBlkDispatchCreate i b)
  | R_HdBlkDispatchClose => Ok (Blk.HdBlkDispatchClose i b)
  | R_HdBlkDispatchRead => let* x := Blk.HdBlkDispatchRead (q_offset q) (q_length q) i b in Ok (x.1.1, x.1.2, b)
  | R_HdBlkDispatchWrite => let* x := Blk.HdBlkDispatchWrite (q_offset q) (q_length q) i b in Ok (x.1.1, x.1.2, b)
  | R_HdBlkDispatchFlushBuffers => Blk.HdBlkDispatchFlushBuffers i b
  | R_HdBlkDispatchShutdown => Blk.HdBlkDispatchShutdown fuel (q_pending q) i b
  | R_HdBlkDispatchQueryInformation =>
      let* x := Blk.HdBlkDispatchQueryInformation (std_size sz) (basic_size sz) (q_query q) (q_buflen q) i b in Ok (x.1.1, x.1.2, b)
  | R_HdBlkDispatchSetInformation => Blk.HdBlkDispatchSetInformation (q_set q) i b
  | R_HdBlkDispatchPnp => Ok (Blk.HdBlkDispatchPnp (q_minor q) i b)
  | R_HdBlkDispatchIoctl =>
      let* x := Blk.HdBlkDispatchIoctl (config_size sz) (resp_size sz) (q_ioctl q) (q_inlen q) (q_buflen q) i b in
      Ok (x.1.1.1, x.1.1.2, x.2)
  end.

Definition send (drv : DRIVER_OBJECT routine) (q : Packet) (i : IRP) (b : HD_BLK_EXTENSION) : res reply :=
  match MajorFunction drv (q_major q) with
  | Some r => call_routine r q i b
  | None => Ok (refuse i, b)
  end.
End Driver.

Definition the_driver : DRIVER_OBJECT routine := fill_table new_driver.

(** The packets the block driver can serve: the structures it stores without
    looking fit the buffer, and the pending requests of a shutdown end. *)
Record servable (fuel : nat) (sz : Sizes) (q : Packet) (b : HD_BLK_EXTENSION) : Prop := {
  sv_block : BlockSize b <> 0;
  sv_room : Z.max (Z.max (std_size sz) (basic_size sz)) (resp_size sz) <= q_buflen q;
  sv_pending : PendingIoCount b = q_pending q 0;
  sv_drains : exists n, (n < fuel)%nat /\ (forall m, (m < n)%nat -> 0 < q_pending q m) /\ q_pending q n <= 0;
}.

Definition transfers (mj : irp_major) : bool := match mj with IRP_MJ_READ | IRP_MJ_WRITE => true | _ => false end.

Lemma resize_ok size b : BlockSize b <> 0 -> exists b', resize size b = Ok b'.
Proof. intros. unfold resize. destruct (Z.eqb_spec (BlockSize b) 0); [done|eauto]. Qed.
End BlkDrv.

(** ** The bus driver (bus_driver.c) *)
Module BusDrv.
Inductive routine : Type :=
| R_HdBusDispatchCreate | R_HdBusDispatchDeviceControl | R_HdBusDispatchPnp | R_HdBusDispatchPower
| R_HdBusDispatchSystemControl | R_HdBusUnload.

Definition fill_table (d : DRIVER_OBJECT routine) : DRIVER_OBJECT routine :=
  let d := set_add None d in
  let d := set_major IRP_MJ_CREATE (Some R_HdBusDispatchCreate) d in
  let d := set_major IRP_MJ_CLOSE (Some R_HdBusDispatchCreate) d in
  let d := set_major IRP_MJ_DEVICE_CONTROL (Some R_HdBusDispatchDeviceControl) d in
  let d := set_major IRP_MJ_PNP (Some R_HdBusDispatchPnp) d in
  let d := set_major IRP_MJ_POWER (Some R_HdBusDispatchPower) d in
  let d := set_major IRP_MJ_SYSTEM_CONTROL (Some R_HdBusDispatchSystemControl) d in
  set_unload (Some R_HdBusUnload) d.

Definition HdBusUnload (k : Kernel) : Kernel := k.
End BusDrv.

(** ** The network driver (net_driver.c): its entries are all NULL *)
Module NetDrv.
Definition fill_table (d : DRIVER_OBJECT Empty_set) : DRIVER_OBJECT Empty_set :=
  let d := set_major IRP_MJ_CREATE None d in
  let d := set_major IRP_MJ_CLOSE None d in
  let d := set_major IRP_MJ_DEVICE_CONTROL None d in
  set_unload None d.

(** The answer of IoGetDeviceObjectPointer: it opens the device, that is, sends
    its driver a create packet. *)
Definition open_device `{IoManager} (drv : DRIVER_OBJECT Empty_set) : Z :=
  match MajorFunction drv IRP_MJ_CREATE with
  | Some r => match r with end
  | None => (refuse fresh_irp).1
  end.
End NetDrv.

(** ** Properties *)

(** C37. The plug-and-play driver, through its table, over the whole life of a
    device: if HdBlkAddDevice succeeds, then whatever packets of whatever kind
    follow, and whatever the lower driver does, each packet other than a read or a
    write is either completed exactly once with the status returned or handed
    exactly once to the lower driver; a read or a write is completed exactly once,
    and its routine then reads the status it returns from the completed packet,
    so that it returns whatever it finds there and faults when the packet
    is gone: no other packet makes the driver fault. When the final removal is reached, it
    detaches from the lower device and deletes the device and leaves the ledger
    of devices, pool blocks and device stacks as it was before the device was
    added. *)
Theorem pnp_driver_serves `{IoManagerLaws} sizeof o k qs q lower :
  fdo o ∉ k_devices k -> iface o ∉ k_pool k -> k_attached k !! lower_dev o = None ->
  NT_SUCCESS (create_st o) = true -> NT_SUCCESS (attach_st o) = true ->
  forallb (fun x => negb (Pnp.removes x.1)) qs = true -> Pnp.removes q = true ->
  exists d k1, HdBlkAddDevice o k = Ok (STATUS_SUCCESS, Some d, k1) /\
    match Pnp.serve sizeof Pnp.the_driver (qs ++ [(q, lower)]) (Some d) k1 with
    | Ok (log, d2, k2) => d2 = None /\ Forall2 (fun x a => Pnp.served x fresh_irp a) (qs ++ [(q, lower)]) log /\
        k_devices k2 = k_devices k /\ k_pool k2 = k_pool k /\ k_attached k2 = k_attached k
    | Fault => Exists (fun x => Pnp.gone x fresh_irp) qs
    | NoFuel => False
    end.
Proof.
  intros Hf Hi Hat Hc Ha Hqs Hq.
  destruct (add_device_inv o k Hf Hc Ha) as (d & k1 & E1 & Hinv & Hdo & Hreg & Hname & Hdev & Hpool & _ & Hlow & Hatt).
  exists d, k1. split; [done|]. rewrite Pnp.serve_app. pose proof (Pnp.serve_ok sizeof qs d k1 Hinv Hqs) as Hs.
  destruct (Pnp.serve _ _ qs _ _) as [[[log d1] k']| |]; cbn [res_bind]; [|done..].
  destruct Hs as [(d' & -> & Hinv' & Hh) Hlog]. cbn [fst snd Pnp.serve]. pose proof (Pnp.send_ok sizeof lower q fresh_irp d' k' Hinv') as H2.
  destruct (Pnp.send _ _ _ _ _ _ _) as [[[[[st i] d2] k2] buf]| |]; cbn [res_bind fst snd]; [| |done].
  - destruct H2 as [Ha2 Hr]. rewrite Hq in Hr. destruct Hr as [-> Hk2]. split; [done|].
    split; [apply Forall2_app; [done|constructor; [exact Ha2|constructor]]|]. rewrite Hh in Hk2. unfold Pnp.holds in Hk2.
    rewrite Hdo, Hdev, Hpool, Hreg, Hlow, Hatt in Hk2. rewrite union_difference_new, delete_insert_id in Hk2 by done.
    injection Hk2 as -> -> ->. split; [done|]. split; [|done]. destruct (NT_SUCCESS (register_st o)) eqn:Er; [|done].
    rewrite Hname by congruence. by apply union_difference_new.
  - destruct H2 as [Ht _]. unfold Pnp.removes, Pnp.transfers in *. cbn [fst] in Ht. by destruct (Pnp.q_major q).
Qed.

#[export] Instance nt_io : IoManager :=
  { refuse i := (STATUS_INVALID_DEVICE_REQUEST, complete_with STATUS_INVALID_DEVICE_REQUEST 0 i) }.
#[export] Instance nt_io_laws : IoManagerLaws.
Proof. by split. Qed.

Definition packet (mj : irp_major) (mn : pnp_minor) : Pnp.Packet :=
  Pnp.mkPacket mj mn 0 512 (mkDevCtl IOCTL_DISK_GET_LENGTH_INFO 0 8 0) (fun i => Some (irp_status i)).
Definition start_packet : Pnp.Packet * (IRP -> Z * IRP) := (packet IRP_MJ_PNP IRP_MN_START_DEVICE, lower_ok).
Definition odd_packet : Pnp.Packet * (IRP -> Z * IRP) := (packet IRP_MJ_SHUTDOWN IRP_MN_START_DEVICE, lower_ok).

Definition read_packet : Pnp.Packet * (IRP -> Z * IRP) := (packet IRP_MJ_READ IRP_MN_START_DEVICE, lower_ok).

Lemma pnp_driver_serves_witness :
  exists d k1 log k2, HdBlkAddDevice sample_add kernel0 = Ok (STATUS_SUCCESS, Some d, k1) /\
    let qs := [start_packet; odd_packet; read_packet] ++ [(packet IRP_MJ_PNP IRP_MN_REMOVE_DEVICE, lower_ok)] in
    Pnp.serve sizes64 Pnp.the_driver qs (Some d) k1 = Ok (log, None, k2) /\
    Forall2 (fun x a => Pnp.served x fresh_irp a) qs log /\
    k_devices k2 = ∅ /\ k_pool k2 = ∅ /\ k_attached k2 = ∅.
Proof.
  destruct (pnp_driver_serves sizes64 sample_add kernel0 [start_packet; odd_packet; read_packet] (packet IRP_MJ_PNP IRP_MN_REMOVE_DEVICE) lower_ok)
    as (d & k1 & E & H); [simpl; set_solver | simpl; set_solver | reflexivity..|].
  exists d, k1. destruct (Pnp.serve _ _ _ _ _) as [[[log d2] k2]| |] eqn:Es.
  - destruct H as (-> & H). exists log, k2. split; [exact E|]. split; [exact Es|exact H].
  - exfalso. repeat (apply Exists_cons in H as [(Ht & st & info & Hg)|H]; [discriminate|]). by apply Exists_nil in H.
  - done.
Defined.

(** The WDM driver, through its table: every packet, of a kind it has a routine
    for or not, is completed exactly once with the status returned, except that
    the status of a read or a write is read from the completed packet, a fault
    when that is gone; and a control request never reports more bytes than the
    caller has room for. *)
Theorem wdm_driver_answers `{IoManagerLaws} sizeof q i d :
  (forall s, 0 <= sizeof s) -> 0 <= OutputBufferLength (Pnp.q_control q) ->
  match Wdm.send sizeof (Wdm.fill_table new_driver) q i d with
  | Ok (st, i', buf) => (if Pnp.transfers q then answered_late (Pnp.q_late q) i st i' else answered i st i') /\
      (Pnp.q_major q = IRP_MJ_DEVICE_CONTROL -> 0 <= irp_information i' <= OutputBufferLength (Pnp.q_control q))
  | Fault => Pnp.transfers q = true /\ exists status information, Pnp.q_late q (complete_with status information i) = None
  | NoFuel => False
  end.
Proof.
  intros Hs Hout. unfold Wdm.send, Pnp.transfers. destruct q as [mj mn off len r late]. simpl in *. destruct mj; simpl.
  all: try (rewrite (surjective_pairing (refuse i))).
  all: try (split; [answer|done]).
  - unfold WdmDisk.HdBlkDispatchRead. pose proof (transfer_late_spec late (w_geom d) off len i) as Ht.
    destruct (transfer_late _ _ _ _ _) as [[st i']| |]; cbn; done.
  - unfold WdmDisk.HdBlkDispatchWrite. pose proof (transfer_late_spec late (w_geom d) off len i) as Ht.
    destruct (transfer_late _ _ _ _ _) as [[st i']| |]; cbn; done.
  - unfold WdmDisk.HdBlkDispatchDeviceControl.
    pose proof (disk_switch_ok sizeof Hs (w_geom d) 1 (mount_switch sizeof) r Hout (mount_switch_ok sizeof Hs r Hout)) as Hok.
    destruct (disk_switch _ _ _ _ _) as [[st b] v]. destruct Hok as [Hb _].
    cbv zeta beta iota. unfold mount_needed. repeat case_match; done.
Qed.

Definition wdm_dev : WdmDisk.HD_BLK_DEVICE := mkWdmDev 100 init_geom true 0 false.

Lemma wdm_driver_answers_witness :
  exists st i' buf, Wdm.send sizes64 (Wdm.fill_table new_driver) (packet IRP_MJ_DEVICE_CONTROL IRP_MN_START_DEVICE) fresh_irp wdm_dev =
      Ok (st, i', buf) /\ answered fresh_irp st i' /\ (IRP_MJ_DEVICE_CONTROL = IRP_MJ_DEVICE_CONTROL -> 0 <= irp_information i' <= 8).
Proof.
  pose proof (wdm_driver_answers sizes64 (packet IRP_MJ_DEVICE_CONTROL IRP_MN_START_DEVICE) fresh_irp wdm_dev sizes64_nonneg ltac:(simpl; lia)) as H.
  destruct (Wdm.send _ _ _ _ _) as [[[st i'] buf]| |] eqn:Es; [|by destruct H|done]. exists st, i', buf. split; [reflexivity|exact H].
Defined.

(** C26. The block driver, through its table: a packet it can serve never faults and
    is completed exactly once with the status returned, unless it is a read or
    a write, which returns STATUS_PENDING with the packet and the extension as
    they were, so that nothing is left that could complete it. *)
Theorem blk_driver_answers `{IoManagerLaws} fuel sz q i b :
  BlkDrv.servable fuel sz q b ->
  exists st i' b', BlkDrv.send fuel sz BlkDrv.the_driver q i b = Ok (st, i', b') /\
    if BlkDrv.transfers (BlkDrv.q_major q) then st = STATUS_PENDING /\ i' = i /\ b' = b else answered i st i'.
Proof.
  intros [Hbs Hroom Hp (n & Hn & Hpos & Hend)]. unfold BlkDrv.send. destruct (BlkDrv.q_major q); simpl.
  all: try (do 3 eexists; split; [apply f_equal, f_equal2; [apply surjective_pairing|done]|answer]).
  all: try (do 3 eexists; split; [reflexivity|answer]).
  - unfold Blk.HdBlkDispatchRead, blk_transfer. destruct (Z.eqb_spec (BlockSize b) 0); [done|]. simpl. by eauto 10.
  - unfold Blk.HdBlkDispatchWrite, blk_transfer. destruct (Z.eqb_spec (BlockSize b) 0); [done|]. simpl. by eauto 10.
  - destruct (blk_shutdown_drains fuel (BlkDrv.q_pending q) i b n) as [(b' & -> & _) _]; [done..|].
    do 3 eexists. split; [reflexivity|answer].
  - unfold HdBlkDispatchQueryInformation. destruct (BlkDrv.q_query q); simpl; rewrite ?(proj2 (Z.ltb_ge _ _)) by lia; simpl;
      do 3 eexists; (split; [reflexivity|answer]).
  - unfold HdBlkDispatchSetInformation. destruct (BlkDrv.q_set q) as [s|s|c]; simpl;
      try (destruct (BlkDrv.resize_ok s b Hbs) as [b' ->]; simpl); do 3 eexists; (split; [reflexivity|answer]).
  - unfold HdBlkDispatchIoctl. destruct (BlkDrv.q_ioctl q); simpl; [case_match|rewrite (proj2 (Z.ltb_ge _ _)) by lia|];
      simpl; do 3 eexists; (split; [reflexivity|answer]).
Qed.

Definition blk_sizes : BlkDrv.Sizes := BlkDrv.mkSizes 24 40 40 16.
Definition shutdown_packet : BlkDrv.Packet :=
  BlkDrv.mkPacket IRP_MJ_SHUTDOWN IRP_MN_START_DEVICE 0 0 FileStandardInformation (SetInfo_other 0) IOCTL_HD_GET_STATUS 0 64 two_pending.

Lemma blk_driver_answers_witness :
  exists st i' b', BlkDrv.send 5 blk_sizes BlkDrv.the_driver shutdown_packet fresh_irp (set_pending 2 blk0) = Ok (st, i', b') /\
    answered fresh_irp st i'.
Proof.
  apply (blk_driver_answers 5 blk_sizes shutdown_packet fresh_irp (set_pending 2 blk0)).
  split; [done|simpl; lia|done|]. exists 2%nat. unfold two_pending. simpl. split_and!; [lia|unfold two_pending; lia|done].
Defined.

(** The block driver waits in vain for the network driver: the network driver
    has no create routine, so its device can never be opened, and loading the
    block driver always sleeps the full second and prints the warning that the
    network driver is not ready. *)
Theorem hdnet_never_ready `{IoManagerLaws} head lsr w t :
  exists w1, BlkDriverEntry head lsr (fun _ => NetDrv.open_device (NetDrv.fill_table new_driver)) w t =
    (STATUS_SUCCESS, 10 * 1000 * 1000, HdSerialWriteString lsr warning_text w1.1 w1.2, HdIrpTrackerInit head t).
Proof.
  destruct (blk_entry_wait head lsr (fun _ => NetDrv.open_device (NetDrv.fill_table new_driver)) w t)
    as (n & w1 & Hn & _ & Hs & -> & _).
  destruct (decide (n < 100)) as [Hlt|]; [|assert (n = 100) as -> by lia; eauto].
  specialize (Hs Hlt). change (NT_SUCCESS (refuse fresh_irp).1 = true) in Hs. by rewrite refuse_fails in Hs.
Qed.

Lemma hdnet_never_ready_witness :
  exists w1, BlkDriverEntry 8 (fun _ => 0x20) (fun _ => NetDrv.open_device (NetDrv.fill_table new_driver)) (serial0, uart0) tracker0 =
    (STATUS_SUCCESS, 10 * 1000 * 1000, HdSerialWriteString (fun _ => 0x20) warning_text w1.1 w1.2, HdIrpTrackerInit 8 tracker0).
Proof. apply (hdnet_never_ready 8 (fun _ => 0x20)). Defined.
