(* ===== verification/BusServe.v ===== *)
(** * The bus driver behind its dispatch table

    Bus.v and BusPnp.v model the routines of the bus driver, Dispatch.v the
    table its DriverEntry fills. Here the I/O manager's call of the driver puts
    them together, over the whole life of the driver from DriverEntry on. *)

From S2P Require Import Prelude Nt ListEntry Kernel Disk Dispatch Bus BusPnp.

(** The parameters of a packet: the device it is sent to and what its stack
    location holds. *)
Record Packet : Type := mkPacket {
  q_major : irp_major; q_minor : pnp_minor; q_args : PnpArgs; q_dev : Z; q_control : DevCtl;
}.

(** Plug and play of the bus's own device. *)
Definition own_pnp (dev : Z) (q : Packet) : bool :=
  match q_major q with IRP_MJ_PNP => q_dev q =? dev | _ => false end.

Section Driver.
Context `{IoManager} (sizeof : struct_name -> Z) (head rel_size rel_off : Z) (depth fuel : nat) (answers : nat -> FdoAnswers).

Definition with_irp (x : FdoCtx) (r : Z * IRP) : res (Z * FdoCtx * option sysbuf) :=
  Ok (r.1, mkFdo (fx_bus x) r.2 (fx_rels x), None).

Definition call_routine (r : BusDrv.routine) (q : Packet) (x : FdoCtx) : res (Z * FdoCtx * option sysbuf) :=
  match r with
  | BusDrv.R_HdBusDispatchCreate => with_irp x (HdBusDispatchCreate (fx_irp x))
  | BusDrv.R_HdBusDispatchDeviceControl =>
      let* y := HdBusDispatchDeviceControl head fuel sizeof (q_dev q) (q_control q) (fx_irp x) (fx_bus x) in
      let '(st, i, buf) := y in Ok (st, mkFdo (fx_bus x) i (fx_rels x), buf)
  | BusDrv.R_HdBusDispatchPnp =>
      let* y := HdBusDispatchPnp head rel_size rel_off depth fuel answers (q_dev q) (q_minor q) (q_args q) x in
      Ok (y, None)
  | BusDrv.R_HdBusDispatchPower => with_irp x (HdBusDispatchPower (fx_irp x))
  | BusDrv.R_HdBusDispatchSystemControl => with_irp x (HdBusDispatchSystemControl (fx_irp x))
  | BusDrv.R_HdBusUnload => Fault (* not a dispatch routine *)
  end.

Definition send (drv : DRIVER_OBJECT BusDrv.routine) (q : Packet) (x : FdoCtx) : res (Z * FdoCtx * option sysbuf) :=
  match MajorFunction drv (q_major q) with
  | Some r => call_routine r q x
  | None => with_irp x (refuse (fx_irp x))
  end.

(** Packets one after the other: the answers and the bus they leave. *)
Fixpoint serve (drv : DRIVER_OBJECT BusDrv.routine) (qs : list Packet) (b : HD_BUS_EXTENSION) (rels : gmap Z (list Z))
    : res (list (Z * IRP) * HD_BUS_EXTENSION) :=
  match qs with
  | [] => Ok ([], b)
  | q :: qs =>
      let* x := send drv q (mkFdo b fresh_irp rels) in
      let '(st, x, _) := x in
      let* y := serve drv qs (fx_bus x) (fx_rels x) in Ok ((st, fx_irp x) :: y.1, y.2)
  end.
End Driver.

Definition the_driver : DRIVER_OBJECT BusDrv.routine := BusDrv.fill_table new_driver.

(** ** Lemmas *)

(** The table, entry by entry. *)
Lemma the_driver_table mj : MajorFunction the_driver mj =
  match mj with
  | IRP_MJ_CREATE | IRP_MJ_CLOSE => Some BusDrv.R_HdBusDispatchCreate
  | IRP_MJ_DEVICE_CONTROL => Some BusDrv.R_HdBusDispatchDeviceControl
  | IRP_MJ_PNP => Some BusDrv.R_HdBusDispatchPnp
  | IRP_MJ_POWER => Some BusDrv.R_HdBusDispatchPower
  | IRP_MJ_SYSTEM_CONTROL => Some BusDrv.R_HdBusDispatchSystemControl
  | _ => None
  end.
Proof. by destruct mj. Qed.

Section Life.
Context `{IoManagerLaws} (sizeof : struct_name -> Z) (head rel_size rel_off : Z) (depth fuel : nat) (answers : nat -> FdoAnswers).

(** A bus without children finds none. *)
Lemma empty_find P b : holds (b_links b) (b_children b) head [] -> (0 < fuel)%nat -> find_child head fuel P b = Ok None.
Proof. intros Hh Hf. by rewrite (find_child_spec head fuel P b [] Hh). Qed.

Definition quiet_answer (q : Packet) (x : FdoCtx) : Prop :=
  exists st i buf, send sizeof head rel_size rel_off depth fuel answers the_driver q x = Ok (st, mkFdo (fx_bus x) i (fx_rels x), buf) /\
    answered (fx_irp x) st i.

(** Without children, every packet that is not plug and play of the bus is
    answered and changes nothing. *)
Lemma empty_bus_answers q x :
  holds (b_links (fx_bus x)) (b_children (fx_bus x)) head [] -> (0 < fuel)%nat -> (0 < depth)%nat ->
  own_pnp (BusDeviceObject (fx_bus x)) q = false -> quiet_answer q x.
Proof.
  intros Hh Hf Hd Ho. unfold quiet_answer, send, own_pnp in *. rewrite the_driver_table.
  destruct (q_major q); cbn -[HdBusDispatchPnp HdBusDispatchDeviceControl refuse answered]; unfold with_irp;
    try (eexists _, _, _; split; [reflexivity|first [by split | apply answered_refuse]]).
  - unfold HdBusDispatchDeviceControl. destruct (HdBusIsFdo _ _); [by eexists _, _, _|].
    unfold HdBusFindChildByPdo. rewrite empty_find by done. by eexists _, _, _.
  - destruct depth as [|d]; [lia|]. cbn [HdBusDispatchPnp]. unfold HdBusIsFdo. rewrite Ho.
    unfold HdBusFindChildByPdo. rewrite empty_find by done. by eexists _, _, _.
Qed.

Lemma own_pnp_stuck q x : own_pnp (BusDeviceObject (fx_bus x)) q = true ->
  forall r, send sizeof head rel_size rel_off depth fuel answers the_driver q x <> Ok r.
Proof.
  intros Ho r. unfold send, own_pnp in *. rewrite the_driver_table. destruct (q_major q); try discriminate Ho. cbn -[HdBusDispatchPnp].
  destruct (bus_fdo_never_returns head rel_size rel_off depth fuel answers (q_dev q) (q_minor q) (q_args q) x Ho) as [Hn _].
  destruct (HdBusDispatchPnp _ _ _ _ _ _ _ _ _ _) as [y| |]; [|done..]. by destruct (Hn y).
Qed.
End Life.

(** ** Properties *)

(** C40. The bus driver, through its table and from DriverEntry on: a sequence of
    packets gets to its end exactly when none of them is plug and play of the
    bus's own device, and then each packet is completed exactly once with the
    status returned and the bus is as DriverEntry left it, without a child. So
    no packet the driver ever answers creates a child: the routine that adds
    and removes children on request, HdBusDispatchIoctl, is not in the table,
    and the one that enumerates the first child never returns. *)
Theorem bus_driver_life `{IoManagerLaws} sizeof head rel_size rel_off depth fuel answers dev link_st k b k' qs rels :
  BusDriverEntry head STATUS_SUCCESS dev link_st k = Ok (STATUS_SUCCESS, Some b, k') -> (0 < fuel)%nat -> (0 < depth)%nat ->
  if existsb (own_pnp dev) qs
  then forall r, serve sizeof head rel_size rel_off depth fuel answers the_driver qs b rels <> Ok r
  else exists rs, serve sizeof head rel_size rel_off depth fuel answers the_driver qs b rels = Ok (rs, b) /\
         length rs = length qs /\ Forall (fun r => answered fresh_irp r.1 r.2) rs.
Proof.
  intros He Hf Hd. assert (BusDeviceObject b = dev /\ holds (b_links b) (b_children b) head []) as [<- Hh].
  { unfold BusDriverEntry in He. cbn -[IoCreateSymbolicLink IoCreateDevice IoDeleteDevice] in He.
    destruct (NT_SUCCESS link_st); cbn [negb] in He.
    - injection He as <- <-. split; [done|apply holds_init].
    - by destruct (IoDeleteDevice _ _). }
  clear He. induction qs as [|q qs IH]; [by exists []|]. cbn [existsb serve].
  destruct (own_pnp (BusDeviceObject b) q) eqn:Ho; cbn [orb].
  - intros r. pose proof (own_pnp_stuck sizeof head rel_size rel_off depth fuel answers q (mkFdo b fresh_irp rels) Ho) as Hn.
    destruct (send _ _ _ _ _ _ _ _ _ _) as [y| |]; [|done..]. by destruct (Hn y).
  - destruct (empty_bus_answers sizeof head rel_size rel_off depth fuel answers q (mkFdo b fresh_irp rels) Hh Hf Hd Ho)
      as (st & i & buf & E & Ha). rewrite E. cbn [res_bind fx_bus fx_rels fx_irp] in *.
    destruct (existsb _ qs).
    + intros r. destruct (serve _ _ _ _ _ _ _ _ _ _ _) as [y| |]; [|done..]. by destruct (IH y).
    + destruct IH as (rs & -> & Hl & Hr). exists ((st, i) :: rs). cbn. split_and!; [done|by rewrite Hl|by constructor].
Qed.

(** ** Witness *)

Definition bus_packet (mj : irp_major) (dev : Z) : Packet :=
  mkPacket mj IRP_MN_START_DEVICE sample_args dev (mkDevCtl IOCTL_DISK_GET_LENGTH_INFO 0 8 0).

Lemma bus_driver_life_witness :
  (exists b k', BusDriverEntry 8 STATUS_SUCCESS 100 STATUS_SUCCESS kernel0 = Ok (STATUS_SUCCESS, Some b, k') /\
   exists rs, serve (fun _ => 8) 8 16 8 3 5 no_answers the_driver
     [bus_packet IRP_MJ_CREATE 100; bus_packet IRP_MJ_PNP 7; bus_packet IRP_MJ_DEVICE_CONTROL 100] b ∅ = Ok (rs, b) /\
     length rs = 3%nat /\ Forall (fun r => answered fresh_irp r.1 r.2) rs).
Proof.
  eexists _, _. split; [reflexivity|].
  exact (bus_driver_life (fun _ => 8) 8 16 8 3 5 no_answers 100 STATUS_SUCCESS kernel0 _ _
    [bus_packet IRP_MJ_CREATE 100; bus_packet IRP_MJ_PNP 7; bus_packet IRP_MJ_DEVICE_CONTROL 100] ∅ eq_refl
    ltac:(lia) ltac:(lia)).
Defined.
