(* ===== verification/Registry.v ===== *)
(** * Shared kernel helpers (driver/common: hd_registry.c, hd_memory.c, hd_lock.c)

    Registry access is by the kernel; the outcome of each call is an argument. *)

From S2P Require Import Prelude Nt Kernel.

Definition REG_SZ : Z := 1.

Record UNICODE_STRING : Type := mkUnicode { us_Length : Z; us_MaximumLength : Z; us_Buffer : Z }.

(** The answers of the registry: opening the key, the size query, the pool
    allocation and the second query with the value's type, data length and the
    address of its data inside the allocated block. *)
Record RegOutcome : Type := mkReg {
  open_st : Z; key : Z;
  size_st : Z;
  block : option Z;
  read_st : Z; v_Type : Z; v_DataLength : Z; v_Data : Z;
}.

(** Status, result string and ledger. *)
Definition HdReadRegistryString (o : RegOutcome) (Result : UNICODE_STRING) (k : Kernel) : res (Z * UNICODE_STRING * Kernel) :=
  let k := ZwOpenKey (open_st o) (key o) k in
  if negb (NT_SUCCESS (open_st o)) then Ok (open_st o, Result, k)
  else if negb (size_st o =? STATUS_BUFFER_OVERFLOW) && negb (size_st o =? STATUS_BUFFER_TOO_SMALL) then
    let* k := ZwClose (key o) k in Ok (size_st o, Result, k)
  else
    let k := ExAllocatePool (block o) k in
    match block o with
    | None => let* k := ZwClose (key o) k in Ok (STATUS_INSUFFICIENT_RESOURCES, Result, k)
    | Some info =>
        let* k := ZwClose (key o) k in
        if NT_SUCCESS (read_st o) && (v_Type o =? REG_SZ) then
          Ok (read_st o, mkUnicode (u16 (v_DataLength o - 2)) (u16 (v_DataLength o)) (v_Data o), k)
        else
          let* k := ExFreePool info k in Ok (read_st o, Result, k)
    end.

Definition HdReadRegistryDword : Z := STATUS_NOT_IMPLEMENTED.

(** ** Pool and lock wrappers *)

Definition HdAllocatePool (a : option Z) (k : Kernel) : option Z * Kernel := (a, ExAllocatePool a k).
Definition HdFreePool (ptr : Z) (k : Kernel) : res Kernel := if negb (ptr =? 0) then ExFreePool ptr k else Ok k.

(** A spin lock is held or not; taking a held lock spins. *)
Definition HdInitializeSpinLock (l : bool) : bool := false.
Definition HdAcquireSpinLock (l : bool) : res bool := if l then NoFuel else Ok true.
Definition HdReleaseSpinLock (l : bool) : bool := false.

(** ** Properties *)

(** The value was read and is a string. *)
Definition reg_found (o : RegOutcome) : bool :=
  NT_SUCCESS (open_st o) &&
  ((size_st o =? STATUS_BUFFER_OVERFLOW) || (size_st o =? STATUS_BUFFER_TOO_SMALL)) &&
  bool_decide (is_Some (block o)) && NT_SUCCESS (read_st o) && (v_Type o =? REG_SZ).

(** Reading a registry string closes the key on every path. When the value
    is a string, the block stays allocated and the result describes it, with a
    length two bytes below the maximum length modulo 2^16 (so below it whenever
    there is room for a terminator, and above it for a value of fewer than two
    bytes); on every other path the ledger and the result are as before. A value
    of another type is reported with the registry's own success status although
    the result was not set. *)
Theorem registry_string_ledger o Result k :
  key o ∉ k_handles k -> (forall a, block o = Some a -> a ∉ k_pool k) -> 0 <= v_DataLength o < 2 ^ 16 ->
  exists st r k', HdReadRegistryString o Result k = Ok (st, r, k') /\
    (if reg_found o then
       k' = ExAllocatePool (block o) k /\ NT_SUCCESS st = true /\
       us_Buffer r = v_Data o /\ us_MaximumLength r = v_DataLength o /\
       us_Length r = (if v_DataLength o <? 2 then 65534 + v_DataLength o else v_DataLength o - 2)
     else
       k' = k /\ r = Result /\
       (NT_SUCCESS st = true -> NT_SUCCESS (size_st o) = true \/ v_Type o <> REG_SZ)).
Proof.
  intros Hk Hb Hlen. unfold HdReadRegistryString, reg_found.
  destruct (NT_SUCCESS (open_st o)) eqn:Eo; cbn [negb andb].
  2:{ unfold ZwOpenKey. rewrite Eo. do 3 eexists. split; [done|]. split_and!; try done. congruence. }
  rewrite <- negb_orb.
  destruct ((size_st o =? STATUS_BUFFER_OVERFLOW) || (size_st o =? STATUS_BUFFER_TOO_SMALL)); cbn [negb andb].
  2:{ rewrite open_close by done. do 3 eexists. split; [done|]. split_and!; try done. by left. }
  destruct (block o) as [a|] eqn:Eb; cbn [bool_decide].
  2:{ rewrite open_alloc_close by done. do 3 eexists. split; [done|]. by split_and!. }
  rewrite open_alloc_close by done. cbn [res_bind]. rewrite bool_decide_true by done. cbn [andb].
  destruct (NT_SUCCESS (read_st o)) eqn:Er; cbn [andb]; [destruct (Z.eqb_spec (v_Type o) REG_SZ) as [Et|Et]|].
  - do 3 eexists. split; [done|]. split_and!; try done; simpl.
    + apply wrap_small. lia.
    + mach.
  - rewrite alloc_free_pool by (by apply Hb). do 3 eexists. split; [done|]. split_and!; try done. by right.
  - rewrite alloc_free_pool by (by apply Hb). do 3 eexists. split; [done|]. split_and!; try done. congruence.
Qed.

Definition sample_reg : RegOutcome := mkReg 0 10 STATUS_BUFFER_TOO_SMALL (Some 20) 0 REG_SZ 8 32.

Lemma registry_string_ledger_witness :
  exists st r k', HdReadRegistryString sample_reg (mkUnicode 0 0 0) kernel0 = Ok (st, r, k') /\
    (k' = ExAllocatePool (Some 20) kernel0 /\ NT_SUCCESS st = true /\
     us_Buffer r = 32 /\ us_MaximumLength r = 8 /\ us_Length r = 6).
Proof.
  apply (registry_string_ledger sample_reg (mkUnicode 0 0 0) kernel0);
    [simpl; set_solver | simpl; intros a [= <-]; set_solver | simpl; lia].
Defined.
