(* ===== verification/BootEnv.v ===== *)
(** * The boot diagnostic tool: its environment, its data and its output

    The data of src/tools/bootdiag/bootdiag.h, the output functions of main.c,
    and the Win32 and C run-time services the tool calls. The services are a
    class: the tool is verified against the class, whatever the machine does.
    The model follows the [_WIN32] branches, the ones bootdiag.exe is built
    from.

    A computation of the tool threads the state of the machine and the static
    variables of main.c; it may fault (an access outside a buffer). *)

From S2P Require Import Prelude Crc32c.

(** ** The services of the operating system

    A path is a C string. [CreateFileA] opens for reading an existing file or
    device ([None] is INVALID_HANDLE_VALUE); [ReadFile h n] is [None] when the
    call fails and otherwise the bytes transferred, at most [n]. [recv] gives
    the length returned. [malloc] says whether a block was given. *)
Class Win32 (W : Type) : Type := {
  CreateFileA : list Z -> W -> option Z * W;
  SetFilePointerEx : Z -> Z -> W -> bool * W;
  ReadFile : Z -> Z -> W -> option (list Z) * W;
  CloseHandle : Z -> W -> W;
  malloc : Z -> W -> bool * W;
  free : W -> W;
  GetTickCount64 : W -> Z * W;
  WSAStartup : W -> Z * W;
  WSACleanup : W -> W;
  socket : W -> Z * W;
  setsockopt : Z -> Z -> W -> W;
  connect : Z -> list Z -> Z -> W -> Z * W;
  send : Z -> list Z -> W -> W;
  recv : Z -> Z -> W -> Z * W;
  closesocket : Z -> W -> W;
  stdout_line : list Z -> W -> W;
  fopen_a : list Z -> W -> bool * W;
  fprintf_line : list Z -> list Z -> W -> W;
  fclose : W -> W;
}.

(** The value of a SOCKET is unsigned; INVALID_SOCKET is its largest. *)
Definition INVALID_SOCKET : Z := 2 ^ 64 - 1.

(** What a machine promises about the things it hands out: [held] counts the
    file handles, heap blocks, Winsock references, sockets and log files in
    use; the bytes read are bytes, and no more than asked for. *)
Record Ledger : Type := mkLedger {
  l_handles : Z; l_blocks : Z; l_wsa : Z; l_socks : Z; l_logs : Z;
}.
Definition take_one (l d : Ledger) : Ledger :=
  mkLedger (l_handles l + l_handles d) (l_blocks l + l_blocks d) (l_wsa l + l_wsa d)
           (l_socks l + l_socks d) (l_logs l + l_logs d).
Definition none_held : Ledger := mkLedger 0 0 0 0 0.
Definition if_got (b : bool) (d : Ledger) : Ledger := if b then d else none_held.

Class Win32Laws (W : Type) `{Win32 W} : Type := {
  held : W -> Ledger;
  held_create p w : held (CreateFileA p w).2 =
    take_one (held w) (if_got (bool_decide (is_Some (CreateFileA p w).1)) (mkLedger 1 0 0 0 0));
  held_close h w : held (CloseHandle h w) = take_one (held w) (mkLedger (-1) 0 0 0 0);
  held_seek h o w : held (SetFilePointerEx h o w).2 = held w;
  held_read h n w : held (ReadFile h n w).2 = held w;
  held_malloc n w : held (malloc n w).2 = take_one (held w) (if_got (malloc n w).1 (mkLedger 0 1 0 0 0));
  held_free w : held (free w) = take_one (held w) (mkLedger 0 (-1) 0 0 0);
  held_tick w : held (GetTickCount64 w).2 = held w;
  held_wsa w : held (WSAStartup w).2 =
    take_one (held w) (if_got ((WSAStartup w).1 =? 0) (mkLedger 0 0 1 0 0));
  held_wsac w : held (WSACleanup w) = take_one (held w) (mkLedger 0 0 (-1) 0 0);
  held_socket w : held (socket w).2 =
    take_one (held w) (if_got (negb ((socket w).1 =? INVALID_SOCKET)) (mkLedger 0 0 0 1 0));
  socket_range w : 0 <= (socket w).1 < 2 ^ 64;
  held_closesocket s w : held (closesocket s w) =
    take_one (held w) (if_got (negb (s =? INVALID_SOCKET)) (mkLedger 0 0 0 (-1) 0));
  held_opt s t w : held (setsockopt s t w) = held w;
  held_connect s a p w : held (connect s a p w).2 = held w;
  held_send s b w : held (send s b w) = held w;
  held_recv s n w : held (recv s n w).2 = held w;
  held_stdout t w : held (stdout_line t w) = held w;
  held_fopen p w : held (fopen_a p w).2 = take_one (held w) (if_got (fopen_a p w).1 (mkLedger 0 0 0 0 1));
  held_fprintf p t w : held (fprintf_line p t w) = held w;
  held_fclose w : held (fclose w) = take_one (held w) (mkLedger 0 0 0 0 (-1));
  ReadFile_bytes h n w bs : (ReadFile h n w).1 = Some bs -> Forall is_byte bs /\ Z.of_nat (length bs) <= n;
}.

(** ** Computations of the tool *)

Record Proc (W : Type) : Type := mkProc { os : W; statics : CrcStatic }.
Arguments mkProc {W} os statics.
Arguments os {W} p.
Arguments statics {W} p.

Definition M (W A : Type) : Type := Proc W -> res (A * Proc W).

#[export] Instance M_ret {W} : MRet (M W) := fun A a p => Ok (a, p).
#[export] Instance M_bind {W} : MBind (M W) := fun A B k c p =>
  match c p with
  | Ok (a, p') => k a p'
  | Fault => Fault
  | NoFuel => NoFuel
  end.

(** A call to the system, one that returns nothing, and a memory access. *)
Definition sys {W A} (f : W -> A * W) : M W A := fun p =>
  let '(a, w) := f (os p) in Ok (a, mkProc w (statics p)).
Definition sys_ {W} (f : W -> W) : M W () := fun p => Ok ((), mkProc (f (os p)) (statics p)).
Definition mem {W A} (r : res A) : M W A := fun p =>
  match r with
  | Ok a => Ok (a, p)
  | Fault => Fault
  | NoFuel => NoFuel
  end.

Definition compute_crc32c {W} (data : list Z) : M W Z := fun p =>
  let '(crc, st) := bootdiag_compute_crc32c data (statics p) in Ok (crc, mkProc (os p) st).

(** ** printf conversions the tool uses *)

Fixpoint digits_of (base : Z) (fuel : nat) (z : Z) (acc : list Z) : list Z :=
  match fuel with
  | O => acc
  | S k =>
      let d := z mod base in
      let c := (if d <? 10 then 48 + d else 55 + d) in
      if z <? base then c :: acc else digits_of base k (z / base) (c :: acc)
  end.
Definition fmt_u (z : Z) : list Z := digits_of 10 20 z [].
Definition fmt_d (z : Z) : list Z := if z <? 0 then 45 :: fmt_u (- z) else fmt_u z.
Definition fmt_X (width : nat) (z : Z) : list Z :=
  let s := digits_of 16 16 z [] in replicate (width - length s) 48 ++ s.
Definition fmt_left (width : nat) (s : list Z) : list Z := s ++ replicate (width - length s) 32.

(** [snprintf] and [strncpy] into an array of [size] bytes whose last byte is
    zero: the string the array then holds. *)
Definition fits (size : nat) (s : list Z) : list Z := take (size - 1) s.

(** ** Data *)

Definition BOOTDIAG_CHECK_COUNT : nat := 7.
Definition BOOTDIAG_CHECK_CRITICAL_COUNT : nat := 3.
Definition BOOTDIAG_RESULT_PASS : Z := 0.
Definition BOOTDIAG_RESULT_FAIL : Z := 1.
Definition BOOTDIAG_RESULT_SKIP : Z := 2.
Definition BOOTDIAG_RESULT_TIMEOUT : Z := 3.
Definition BOOTDIAG_OUTPUT_COM1 : Z := 0.
Definition BOOTDIAG_OUTPUT_CONSOLE : Z := 1.
Definition BOOTDIAG_OUTPUT_FILE : Z := 2.

Record BOOTDIAG_RESULT : Type := mkResult {
  check_id : Z;
  check_name : list Z;
  result : Z;
  elapsed_ms : Z;
  detail : list Z;
  error_code : Z;
}.

Record BOOTDIAG_CONTEXT : Type := mkContext {
  device_path : list Z;
  server_addr : list Z;
  server_port : Z;
  timeout_sec : Z;
  output_target : Z;
  verbose : bool;
  log_path : list Z;
  results : list BOOTDIAG_RESULT;
  total_pass : Z;
  total_fail : Z;
  total_skip : Z;
  total_elapsed_ms : Z;
  bootdiag_executed : bool;
}.

Definition set_detail (r : BOOTDIAG_RESULT) (d : list Z) : BOOTDIAG_RESULT :=
  mkResult (check_id r) (check_name r) (result r) (elapsed_ms r) (fits 256 d) (error_code r).
Definition set_error (r : BOOTDIAG_RESULT) (code : Z) (d : list Z) : BOOTDIAG_RESULT :=
  mkResult (check_id r) (check_name r) (result r) (elapsed_ms r) (fits 256 d) code.

(** The exit of a failed check: error code, detail, FAIL. *)
Definition fail_with {W} (r : BOOTDIAG_RESULT) (code : Z) (d : list Z) : M W (Z * BOOTDIAG_RESULT) :=
  mret (BOOTDIAG_RESULT_FAIL, set_error r code d).

(** ** Output *)

Section Output.
Context {W : Type} `{Win32 W}.

Definition bootdiag_output (ctx : BOOTDIAG_CONTEXT) (text : list Z) : M W () :=
  let buf := fits 1024 text in
  _ ← (if (output_target ctx =? BOOTDIAG_OUTPUT_CONSOLE) || verbose ctx
       then sys_ (stdout_line buf) else mret ());
  if (output_target ctx =? BOOTDIAG_OUTPUT_FILE) && negb (bool_decide (log_path ctx = [])) then
    f ← sys (fopen_a (log_path ctx));
    if (f : bool) then _ ← sys_ (fprintf_line (log_path ctx) buf); sys_ fclose else mret ()
  else mret ().

Definition status_str (r : Z) : list Z :=
  if r =? BOOTDIAG_RESULT_PASS then zstr "PASS"
  else if r =? BOOTDIAG_RESULT_FAIL then zstr "FAIL"
  else if r =? BOOTDIAG_RESULT_SKIP then zstr "SKIP"
  else if r =? BOOTDIAG_RESULT_TIMEOUT then zstr "TIMEOUT"
  else zstr "UNKNOWN".

Definition bootdiag_output_result (ctx : BOOTDIAG_CONTEXT) (r : BOOTDIAG_RESULT) : M W () :=
  _ ← bootdiag_output ctx
        (zstr "  [" ++ fmt_d (check_id r) ++ zstr "] " ++ fmt_left 28 (check_name r) ++ zstr " " ++
         status_str (result r) ++ zstr "   " ++ fmt_u (elapsed_ms r) ++ zstr "ms");
  if bool_decide (detail r = []) then mret ()
  else bootdiag_output ctx (zstr "      " ++ detail r).

(** Several lines in a row. *)
Fixpoint output_lines (ctx : BOOTDIAG_CONTEXT) (ls : list (list Z)) : M W () :=
  match ls with
  | [] => mret ()
  | l :: r => _ ← bootdiag_output ctx l; output_lines ctx r
  end.
End Output.

(** ** Lemmas: what a computation keeps

    [keeps c] says that a computation that returns holds what it held before
    and leaves the checksum table as it should be: the obligation every check
    and the whole program meet. [moves d c] is the same with a balance of
    [d]. *)

Lemma M_bind_unfold {W A B} (c : M W A) (k : A -> M W B) p :
  mbind k c p = match c p with Ok (a, p') => k a p' | Fault => Fault | NoFuel => NoFuel end.
Proof. done. Qed.

Lemma take_one_none l : take_one l none_held = l.
Proof. destruct l. unfold take_one, none_held; simpl. f_equal; lia. Qed.

Lemma take_one_assoc l d e : take_one (take_one l d) e = take_one l (take_one d e).
Proof. unfold take_one; simpl. f_equal; lia. Qed.

Section Ledgers.
Context {W : Type} `{Win32Laws W}.

(** [owes d c]: when [c] returns, it holds [d] more than when it started. *)
Definition owes {A} (d : Ledger) (c : M W A) : Prop := forall p a p',
  c p = Ok (a, p') ->
  held (os p') = take_one (held (os p)) d /\ (crc_static_ok (statics p) -> crc_static_ok (statics p')).
Definition keeps {A} (c : M W A) : Prop := owes none_held c.

Definition less (l d : Ledger) : Ledger :=
  mkLedger (l_handles l - l_handles d) (l_blocks l - l_blocks d) (l_wsa l - l_wsa d)
           (l_socks l - l_socks d) (l_logs l - l_logs d).

Lemma take_less l d : take_one d (less l d) = l.
Proof. destruct l. unfold take_one, less; simpl. f_equal; lia. Qed.

Lemma less_none l : less l none_held = l.
Proof. destruct l. unfold less; simpl. f_equal; lia. Qed.

Lemma owes_ret {A} (a : A) : owes none_held (mret a).
Proof. intros p b p' [= <- <-]. by rewrite take_one_none. Qed.

Lemma owes_mem {A} (r : res A) : owes none_held (mem r).
Proof. intros p b p' E. unfold mem in E. destruct r; simplify_eq. by rewrite take_one_none. Qed.

Lemma owes_crc data : owes none_held (compute_crc32c data).
Proof.
  intros p b p'. unfold compute_crc32c, bootdiag_compute_crc32c. intros [= <- <-]; simpl.
  rewrite take_one_none. split; [done|]. unfold crc_static_ok, crc32c_init_table.
  destruct (crc32c_table_init _) eqn:E; [auto|done].
Qed.

Lemma owes_bind_dep {A B} (f : A -> Ledger) t (c : M W A) (k : A -> M W B) :
  (forall p a p', c p = Ok (a, p') ->
     held (os p') = take_one (held (os p)) (f a) /\ (crc_static_ok (statics p) -> crc_static_ok (statics p'))) ->
  (forall a, owes (less t (f a)) (k a)) -> owes t (mbind k c).
Proof.
  intros Hc Hk p b p'. rewrite M_bind_unfold. destruct (c p) as [[a q]| |] eqn:E; [|done..].
  intros Eb. destruct (Hc _ _ _ E) as [H1 H2], (Hk _ _ _ _ Eb) as [H3 H4].
  rewrite H3, H1, take_one_assoc, take_less. auto.
Qed.

Lemma owes_bind {A B} t (c : M W A) (k : A -> M W B) :
  keeps c -> (forall a, owes t (k a)) -> owes t (mbind k c).
Proof.
  intros Hc Hk. apply (owes_bind_dep (fun _ => none_held)); [done|]. intros a. by rewrite less_none.
Qed.

(** The services, one by one. *)
Lemma owes_sys {A B} (f : A -> Ledger) t (g : W -> A * W) (k : A -> M W B) :
  (forall w, held (g w).2 = take_one (held w) (f (g w).1)) ->
  (forall a, owes (less t (f a)) (k a)) -> owes t (mbind k (sys g)).
Proof.
  intros Hg. apply owes_bind_dep. intros p a p'. unfold sys.
  specialize (Hg (os p)). destruct (g (os p)) as [x w] eqn:E. intros [= <- <-]. by simpl in *.
Qed.

Lemma owes_sys_quiet {A B} t (g : W -> A * W) (k : A -> M W B) :
  (forall w, held (g w).2 = held w) -> (forall a, owes t (k a)) -> owes t (mbind k (sys g)).
Proof.
  intros Hg Hk. apply (owes_sys (fun _ => none_held)).
  - intros w. by rewrite take_one_none.
  - intros a. by rewrite less_none.
Qed.

Lemma owes_sys_ {B} d t (g : W -> W) (k : () -> M W B) :
  (forall w, held (g w) = take_one (held w) d) ->
  owes (less t d) (k ()) -> owes t (mbind k (sys_ g)).
Proof.
  intros Hg Hk. apply (owes_bind_dep (fun _ => d)).
  - intros p [] p' [= <-]. simpl. by rewrite Hg.
  - by intros [].
Qed.

Lemma owes_sys_quiet_ {B} t (g : W -> W) (k : () -> M W B) :
  (forall w, held (g w) = held w) -> owes t (k ()) -> owes t (mbind k (sys_ g)).
Proof.
  intros Hg Hk. apply (owes_sys_ none_held); [|by rewrite less_none]. intros w. by rewrite take_one_none.
Qed.

Lemma owes_sys_last d (g : W -> W) : (forall w, held (g w) = take_one (held w) d) -> owes d (sys_ g).
Proof. intros Hg p [] p' [= <-]. simpl. by rewrite Hg. Qed.

Lemma owes_eq {A} d e (c : M W A) : owes d c -> d = e -> owes e c.
Proof. by intros ? ->. Qed.

Lemma owes_create {B} t path (k : option Z -> M W B) :
  owes t (k None) -> (forall h, owes (less t (mkLedger 1 0 0 0 0)) (k (Some h))) ->
  owes t (mbind k (sys (CreateFileA path))).
Proof.
  intros Hn Hs. apply (owes_sys (fun o => if_got (bool_decide (is_Some o)) (mkLedger 1 0 0 0 0))).
  { intros w. apply held_create. }
  intros [h|].
  - rewrite bool_decide_eq_true_2 by eauto. apply Hs.
  - rewrite bool_decide_eq_false_2 by (by intros []). simpl. by rewrite less_none.
Qed.

Lemma owes_flag {B} d t (g : W -> bool * W) (k : bool -> M W B) :
  (forall w, held (g w).2 = take_one (held w) (if_got (g w).1 d)) ->
  owes t (k false) -> owes (less t d) (k true) -> owes t (mbind k (sys g)).
Proof.
  intros Hg Hf Ht. apply (owes_sys (fun b => if_got b d)); [done|].
  intros []; simpl; [done|]. by rewrite less_none.
Qed.
End Ledgers.

(** Discharge [owes] goals: one step per call, splitting on the branches. *)
Create HintDb ledger.
#[export] Hint Resolve owes_ret owes_mem owes_crc : ledger.
#[export] Hint Extern 1 (keeps (mret _)) => apply owes_ret : ledger.
#[export] Hint Extern 1 (keeps (mem _)) => apply owes_mem : ledger.
#[export] Hint Extern 1 (keeps (compute_crc32c _)) => apply owes_crc : ledger.

Ltac ledger_simpl := unfold keeps, less, none_held; cbn [l_handles l_blocks l_wsa l_socks l_logs negb].
Ltac ledger_step :=
  match goal with
  | |- owes _ (mbind _ (sys (CreateFileA _))) => apply owes_create; [|intros ?]
  | |- owes _ (mbind _ (sys (malloc _))) => apply (owes_flag (mkLedger 0 1 0 0 0)); [apply held_malloc| |]
  | |- owes _ (mbind _ (sys (fopen_a _))) => apply (owes_flag (mkLedger 0 0 0 0 1)); [apply held_fopen| |]
  | |- owes _ (mbind _ (sys (ReadFile _ _))) => apply owes_sys_quiet; [intros; apply held_read|intros ?]
  | |- owes _ (mbind _ (sys (SetFilePointerEx _ _))) => apply owes_sys_quiet; [intros; apply held_seek|intros ?]
  | |- owes _ (mbind _ (sys GetTickCount64)) => apply owes_sys_quiet; [intros; apply held_tick|intros ?]
  | |- owes _ (mbind _ (sys (connect _ _ _))) => apply owes_sys_quiet; [intros; apply held_connect|intros ?]
  | |- owes _ (mbind _ (sys (recv _ _))) => apply owes_sys_quiet; [intros; apply held_recv|intros ?]
  | |- owes _ (mbind _ (sys_ (setsockopt _ _))) => apply owes_sys_quiet_; [intros; apply held_opt|]
  | |- owes _ (mbind _ (sys_ (send _ _))) => apply owes_sys_quiet_; [intros; apply held_send|]
  | |- owes _ (mbind _ (sys_ (stdout_line _))) => apply owes_sys_quiet_; [intros; apply held_stdout|]
  | |- owes _ (mbind _ (sys_ (fprintf_line _ _))) => apply owes_sys_quiet_; [intros; apply held_fprintf|]
  | |- owes _ (mbind _ (sys_ (CloseHandle _))) =>
      apply (owes_sys_ (mkLedger (-1) 0 0 0 0)); [intros; apply held_close|]
  | |- owes _ (mbind _ (sys_ free)) => apply (owes_sys_ (mkLedger 0 (-1) 0 0 0)); [intros; apply held_free|]
  | |- owes _ (mbind _ (sys_ WSACleanup)) => apply (owes_sys_ (mkLedger 0 0 (-1) 0 0)); [intros; apply held_wsac|]
  | |- owes _ (sys_ fclose) => eapply owes_eq; [apply (owes_sys_last (mkLedger 0 0 0 0 (-1))); apply held_fclose|]
  | |- owes _ (sys_ (stdout_line _)) => eapply owes_eq;
      [apply (owes_sys_last none_held); intros; rewrite held_stdout; symmetry; apply take_one_none|]
  | |- owes _ (if ?b then _ else _) => destruct b
  | |- owes _ (match ?x with _ => _ end) => destruct x
  | |- owes _ (mbind _ _) => apply owes_bind; [solve [eauto with ledger]|intros ?]
  | |- owes _ _ => solve [eapply owes_eq; [solve [eauto with ledger]|by ledger_simpl] | unfold keeps in *; eauto with ledger]
  | |- mkLedger _ _ _ _ _ = mkLedger _ _ _ _ _ => by ledger_simpl
  end; ledger_simpl.
Ltac ledger := unfold fail_with; repeat ledger_step.

Section OutputLemmas.
Context {W : Type} `{Win32Laws W}.

Lemma keeps_output ctx text : keeps (bootdiag_output ctx text).
Proof.
  unfold keeps, bootdiag_output. apply owes_bind; [unfold keeps; ledger|]. intros ?. ledger.
Qed.
#[local] Hint Resolve keeps_output : ledger.

Lemma keeps_output_result ctx r : keeps (bootdiag_output_result ctx r).
Proof. unfold keeps, bootdiag_output_result. ledger. apply keeps_output. Qed.

Lemma keeps_output_lines ctx ls : keeps (output_lines ctx ls).
Proof. induction ls as [|l ls IH]; simpl; [apply owes_ret|]. apply owes_bind; [apply keeps_output|done]. Qed.
End OutputLemmas.
#[export] Hint Resolve keeps_output keeps_output_result keeps_output_lines : ledger.

(** ** Lemmas: running computations backwards and forwards *)

Lemma M_bind_inv {W A B} (c : M W A) (k : A -> M W B) p b q :
  mbind k c p = Ok (b, q) -> exists a p', c p = Ok (a, p') /\ k a p' = Ok (b, q).
Proof. rewrite M_bind_unfold. destruct (c p) as [[a p']| |]; [eauto|done..]. Qed.

Lemma M_bind_run {W A B} (c : M W A) (k : A -> M W B) p a p' :
  c p = Ok (a, p') -> mbind k c p = k a p'.
Proof. intros E. by rewrite M_bind_unfold, E. Qed.

Lemma mem_inv {W A} (r : res A) (p : Proc W) a q : mem r p = Ok (a, q) -> r = Ok a /\ q = p.
Proof. unfold mem. destruct r; intros; simplify_eq; auto. Qed.

Lemma crc_inv {W} data (p : Proc W) a q : compute_crc32c data p = Ok (a, q) ->
  a = (bootdiag_compute_crc32c data (statics p)).1 /\ os q = os p /\
  statics q = (bootdiag_compute_crc32c data (statics p)).2.
Proof.
  unfold compute_crc32c. destruct (bootdiag_compute_crc32c data (statics p)) as [c st].
  intros [= <- <-]. done.
Qed.

Lemma rd_bytes_inv m off n bs : rd_bytes m off n = Ok bs ->
  bs = take (Z.to_nat n) (drop (Z.to_nat off) m) /\ 0 <= off /\ 0 <= n /\ off + n <= Z.of_nat (length m).
Proof.
  unfold rd_bytes. destruct (in_block m off n) eqn:E; [|done]. apply in_block_true in E.
  intros [= <-]. tauto.
Qed.

Lemma rd_inv n m off z : rd n m off = Ok z ->
  z = le_val (take (Z.to_nat n) (drop (Z.to_nat off) m)) /\ 0 <= off /\ 0 <= n /\ off + n <= Z.of_nat (length m).
Proof.
  unfold rd, res_bind. destruct (rd_bytes m off n) eqn:E; [|done..]. apply rd_bytes_inv in E as [-> ?].
  by intros [= <-].
Qed.

(** A number below [10 ^ n] prints in at most [n] digits. *)
Lemma digits_of_length fuel n z acc :
  0 <= z < 10 ^ Z.of_nat n -> (0 < n)%nat -> (length (digits_of 10 fuel z acc) <= n + length acc)%nat.
Proof.
  revert n z acc. induction fuel as [|k IH]; intros n z acc Hz Hn; simpl; [lia|].
  destruct (Z.ltb_spec z 10); [simpl; lia|].
  destruct n as [|[|n]]; [lia|change (10 ^ Z.of_nat 1) with 10 in Hz; lia|].
  eapply Nat.le_trans; [apply (IH (S n))|]; [|lia|simpl; lia].
  rewrite (Nat2Z.inj_succ (S n)), Z.pow_succ_r in Hz by lia.
  split; [apply Z.div_pos; lia|apply Z.div_lt_upper_bound; lia].
Qed.

Lemma fmt_u_length z : 0 <= z < 2 ^ 32 -> (length (fmt_u z) <= 10)%nat.
Proof. intros Hz. apply (digits_of_length 20 10 z []); [|lia]. change (10 ^ Z.of_nat 10) with 10000000000. lia. Qed.

(** Take apart a run that returned, binding by binding. *)
Ltac minv H :=
  let a := fresh "v" in let q := fresh "p" in let E := fresh "E" in
  apply M_bind_inv in H as (a & q & E & H).
Ltac minv_mem H :=
  let a := fresh "v" in let q := fresh "p" in let E := fresh "E" in
  apply M_bind_inv in H as (a & q & E & H); apply mem_inv in E as [E ->].

(** ** A concrete machine

    Read-only files, given by a function from a path to what a read of [n]
    bytes at an offset delivers; one handle position, the ledger, and the lines
    written. It satisfies the laws, so the theorems proved against the class
    apply to it. *)

Definition FS : Type := list Z -> option (Z -> Z -> list Z).

Record Sim (fs : FS) : Type := mkSim {
  s_path : list Z;
  s_pos : Z;
  s_held : Ledger;
  s_clock : Z;
  s_lines : list (list Z);
}.
Arguments mkSim {fs} _ _ _ _ _.
Arguments s_path {fs} _.
Arguments s_pos {fs} _.
Arguments s_held {fs} _.
Arguments s_clock {fs} _.
Arguments s_lines {fs} _.

Definition sim_hold {fs} (d : Ledger) (w : Sim fs) : Sim fs :=
  mkSim (s_path w) (s_pos w) (take_one (s_held w) d) (s_clock w) (s_lines w).
Definition sim_read {fs} (n : Z) (w : Sim fs) : list Z :=
  match fs (s_path w) with
  | Some f => u8 <$> take (Z.to_nat n) (f (s_pos w) n)
  | None => []
  end.

#[export] Instance Sim_Win32 (fs : FS) : Win32 (Sim fs) := {
  CreateFileA path w :=
    match fs path with
    | Some _ => (Some 4, mkSim path 0 (take_one (s_held w) (mkLedger 1 0 0 0 0)) (s_clock w) (s_lines w))
    | None => (None, w)
    end;
  SetFilePointerEx h off w := (true, mkSim (s_path w) off (s_held w) (s_clock w) (s_lines w));
  ReadFile h n w := (if n <? 0 then None else Some (sim_read n w), w);
  CloseHandle h w := sim_hold (mkLedger (-1) 0 0 0 0) w;
  malloc n w := (true, sim_hold (mkLedger 0 1 0 0 0) w);
  free w := sim_hold (mkLedger 0 (-1) 0 0 0) w;
  GetTickCount64 w := (s_clock w, mkSim (s_path w) (s_pos w) (s_held w) (s_clock w + 1) (s_lines w));
  WSAStartup w := (0, sim_hold (mkLedger 0 0 1 0 0) w);
  WSACleanup w := sim_hold (mkLedger 0 0 (-1) 0 0) w;
  socket w := (7, sim_hold (mkLedger 0 0 0 1 0) w);
  setsockopt s t w := w;
  connect s a p w := (0, w);
  send s b w := mkSim (s_path w) (s_pos w) (s_held w) (s_clock w) (s_lines w ++ [b]);
  recv s n w := (n, w);
  closesocket s w := sim_hold (if_got (negb (s =? INVALID_SOCKET)) (mkLedger 0 0 0 (-1) 0)) w;
  stdout_line t w := mkSim (s_path w) (s_pos w) (s_held w) (s_clock w) (s_lines w ++ [t]);
  fopen_a path w := (true, sim_hold (mkLedger 0 0 0 0 1) w);
  fprintf_line path t w := mkSim (s_path w) (s_pos w) (s_held w) (s_clock w) (s_lines w ++ [t]);
  fclose w := sim_hold (mkLedger 0 0 0 0 (-1)) w;
}.

#[export] Program Instance Sim_laws (fs : FS) : Win32Laws (Sim fs) := { held := s_held }.
Next Obligation.
  intros fs p w. simpl. destruct (fs p); simpl; [done|]. by rewrite take_one_none.
Qed.
Solve Obligations with (intros; simpl; try done; lia).
Next Obligation.
  intros fs h n w bs. simpl. destruct (Z.ltb_spec n 0); [done|]. intros [= <-]. unfold sim_read.
  destruct (fs (s_path w)); [|split; [constructor|simpl; lia]]. split.
  - apply Forall_forall. intros b Hb. apply list_elem_of_fmap in Hb as (x & -> & _).
    unfold is_byte, u8. apply (wrap_range 8). lia.
  - rewrite length_fmap, length_take. lia.
Qed.

(** A machine just started. *)
Definition sim_start (fs : FS) : Proc (Sim fs) :=
  mkProc (mkSim [] 0 none_held 0 []) crc_cold.
