(* ===== verification/BootChecks.v ===== *)
(** * The seven checks of the boot diagnostic tool

    src/tools/bootdiag/bootdiag_checks.c: the sector and file readers, and the
    checks V1 (partition table), V2 (boot configuration), V3 (boot loader
    image), V4 (block server), V5 (paging file path), V6 (registry hives) and
    V7 (NTFS metadata). A buffer filled by a reader is only used after the
    reader returned 0, when it holds exactly the bytes asked for; every access
    to it goes through [rd], so an access outside is a [Fault]. Conversions of
    [byte << 24] to [uint32_t] wrap, as on the tool's compilers; a shift by the
    width of the type or more is a [Fault]. *)

From S2P Require Import Prelude Crc32c BootEnv.

Section Checks.
Context {W : Type} `{Win32 W}.

Definition Check : Type := BOOTDIAG_CONTEXT -> BOOTDIAG_RESULT -> M W (Z * BOOTDIAG_RESULT).

(** ** Readers *)

Definition read_device_sector (ctx : BOOTDIAG_CONTEXT) (lba sector_size : Z) : M W (Z * list Z) :=
  h ← sys (CreateFileA (device_path ctx));
  match h with
  | None => mret (-1, [])
  | Some hDev =>
      ok ← sys (SetFilePointerEx hDev (s64 (lba * sector_size)));
      if negb ok then _ ← sys_ (CloseHandle hDev); mret (-2, []) else
      r ← sys (ReadFile hDev sector_size);
      match r with
      | None => _ ← sys_ (CloseHandle hDev); mret (-3, [])
      | Some buf =>
          if negb (Z.of_nat (length buf) =? sector_size)
          then _ ← sys_ (CloseHandle hDev); mret (-3, [])
          else _ ← sys_ (CloseHandle hDev); mret (0, buf)
      end
  end.

Definition read_file_bytes (path : list Z) (offset size : Z) : M W (Z * list Z) :=
  h ← sys (CreateFileA path);
  match h with
  | None => mret (-1, [])
  | Some hFile =>
      ok ← (if 0 <? offset then sys (SetFilePointerEx hFile (s64 offset)) else mret true);
      if negb ok then _ ← sys_ (CloseHandle hFile); mret (-2, []) else
      r ← sys (ReadFile hFile size);
      match r with
      | None => _ ← sys_ (CloseHandle hFile); mret (-3, [])
      | Some buf =>
          if negb (Z.of_nat (length buf) =? size)
          then _ ← sys_ (CloseHandle hFile); mret (-3, [])
          else _ ← sys_ (CloseHandle hFile); mret (0, buf)
      end
  end.

(** The loop of V2, V3 and V6 over candidate paths: the first 4096 bytes of the
    first file that can be read. *)
Fixpoint first_readable (paths : list (list Z)) : M W (option (list Z)) :=
  match paths with
  | [] => mret None
  | path :: rest =>
      '(rc, header) ← read_file_bytes path 0 4096;
      if rc =? 0 then mret (Some header) else first_readable rest
  end.

(** [memcmp (m + off, lit, length lit) == 0] *)
Definition mem_is (m : list Z) (off : Z) (lit : list Z) : res bool :=
  let* bs := rd_bytes m off (Z.of_nat (length lit)) in Ok (bool_decide (bs = lit)).

(** ** V1: the partition table *)

Definition efi_sp_guid : list Z :=
  [0x28;0x73;0x2A;0xC1;0x1F;0xF8;0xD2;0x11;0xBA;0x4B;0x00;0xA0;0xC9;0x3E;0xC9;0x3B].
Definition win_guid : list Z :=
  [0xA2;0xA0;0xD0;0xEB;0xE5;0xB9;0x33;0x44;0x87;0xC0;0x68;0xB6;0xB7;0x26;0x99;0xC7].
Definition msr_guid : list Z :=
  [0x16;0xE3;0xC9;0xE3;0x5C;0x0B;0x78;0x42;0x81;0x9D;0x9A;0x0C;0x4E;0xFC;0x7E;0x7C].

Record Parts : Type := mkParts {
  partition_count : Z; has_efi : bool; has_os : bool; has_msr : bool;
}.

(** One turn of the loop over the entries: an entry whose sixteen type bytes
    are zero is skipped. *)
Definition entry_step (part_buf : list Z) (off : Z) (a : Parts) : res Parts :=
  let* entry := rd_bytes part_buf off 16 in
  if forallb (Z.eqb 0) entry then Ok a else
  let c := u32 (partition_count a + 1) in
  if bool_decide (entry = efi_sp_guid) then Ok (mkParts c true (has_os a) (has_msr a))
  else if bool_decide (entry = win_guid) then Ok (mkParts c (has_efi a) true (has_msr a))
  else if bool_decide (entry = msr_guid) then Ok (mkParts c (has_efi a) (has_os a) true)
  else Ok (mkParts c (has_efi a) (has_os a) (has_msr a)).

(** The loop from index [i], [k] turns left. *)
Fixpoint entry_loop (k : nat) (i entry_size : Z) (part_buf : list Z) (a : Parts) : res Parts :=
  match k with
  | O => Ok a
  | S k' =>
      let* a := entry_step part_buf (u32 (i * entry_size)) a in
      entry_loop k' (i + 1) entry_size part_buf a
  end.

(** The loop that fills the table, [k] sectors left: [inl s] when sector [2 + s]
    cannot be read. *)
Fixpoint table_loop (ctx : BOOTDIAG_CONTEXT) (k : nat) (s : Z) (part_buf : list Z) : M W (Z + list Z) :=
  match k with
  | O => mret (inr part_buf)
  | S k' =>
      '(rc, buf) ← read_device_sector ctx (u32 (2 + s)) 512;
      if negb (rc =? 0) then mret (inl s) else table_loop ctx k' (s + 1) (part_buf ++ buf)
  end.

Definition partition_array_sectors (num_entries entry_size : Z) : Z :=
  u32 (u32 (num_entries * entry_size) + 511) / 512.

Definition fmt_bool (b : bool) : list Z := if b then zstr "1" else zstr "0".
Definition fmt_parts (a : Parts) : list Z :=
  zstr "EFI=" ++ fmt_bool (has_efi a) ++ zstr " OS=" ++ fmt_bool (has_os a) ++
  zstr " MSR=" ++ fmt_bool (has_msr a).

(** From the allocation of the table to the verdict. *)
Definition v1_table (ctx : BOOTDIAG_CONTEXT) (r : BOOTDIAG_RESULT) (sector : list Z)
    (num_entries entry_size : Z) : M W (Z * BOOTDIAG_RESULT) :=
  let sectors := partition_array_sectors num_entries entry_size in
  got ← sys (malloc (u32 (sectors * 512)));
  if negb got then fail_with r 1015 (zstr "Out of memory for partition entries") else
  t ← table_loop ctx (Z.to_nat sectors) 0 [];
  match t with
  | inl s =>
      _ ← sys_ free;
      fail_with r 1016 (zstr "Cannot read partition entry LBA " ++ fmt_u (u32 (2 + s)))
  | inr part_buf =>
      stored_part_crc ← mem (rd 4 sector 88);
      covered ← mem (rd_bytes part_buf 0 (u32 (num_entries * entry_size)));
      computed_part_crc ← compute_crc32c covered;
      if negb (computed_part_crc =? stored_part_crc) then
        _ ← sys_ free;
        fail_with r 1020 (zstr "Partition table CRC mismatch: computed=0x" ++ fmt_X 8 computed_part_crc ++
                          zstr ", stored=0x" ++ fmt_X 8 stored_part_crc)
      else
      a ← mem (entry_loop (Z.to_nat num_entries) 0 entry_size part_buf (mkParts 0 false false false));
      _ ← sys_ free;
      if negb (has_efi a) || negb (has_os a) then
        fail_with r 1017 (zstr "Required partition missing: " ++ fmt_parts a)
      else mret (BOOTDIAG_RESULT_PASS,
                 set_detail r (fmt_u (partition_count a) ++ zstr " partitions: " ++ fmt_parts a))
  end.

(** From the read of LBA 1 on. *)
Definition v1_header (ctx : BOOTDIAG_CONTEXT) (r : BOOTDIAG_RESULT) : M W (Z * BOOTDIAG_RESULT) :=
  '(rc, sector) ← read_device_sector ctx 1 512;
  if negb (rc =? 0) then
    fail_with r 1010 (zstr "Cannot read LBA 1 (GPT header): error " ++ fmt_d rc) else
  sig ← mem (mem_is sector 0 (zstr "EFI PART"));
  if negb sig then
    fail_with r 1011 (zstr "GPT signature mismatch: " ++ c_chars (take 8 sector)) else
  header_size ← mem (rd 4 sector 12);
  if negb (header_size =? 92) then
    fail_with r 1012 (zstr "HeaderSize=" ++ fmt_u header_size ++ zstr " (expected 92)") else
  my_lba ← mem (rd 8 sector 24);
  if negb (my_lba =? 1) then
    fail_with r 1018 (zstr "MyLBA=" ++ fmt_u my_lba ++ zstr " (expected 1)") else
  alternate_lba ← mem (rd 8 sector 32);
  if alternate_lba =? 0 then
    fail_with r 1019 (zstr "AlternateLBA=0 (invalid, backup GPT missing)") else
  stored_crc ← mem (rd 4 sector 16);
  header_copy ← mem (rd_bytes sector 0 92);
  header_copy ← mem (wr header_copy 16 (replicate 4 0));
  computed_crc ← compute_crc32c header_copy;
  if negb (computed_crc =? stored_crc) then
    fail_with r 1013 (zstr "Header CRC mismatch: computed=0x" ++ fmt_X 8 computed_crc ++
                      zstr ", stored=0x" ++ fmt_X 8 stored_crc) else
  num_entries ← mem (rd 4 sector 80);
  entry_size ← mem (rd 4 sector 84);
  if negb (entry_size =? 128) then
    fail_with r 1014 (zstr "PartitionEntrySize=" ++ fmt_u entry_size ++ zstr " (expected 128)") else
  v1_table ctx r sector num_entries entry_size.

Definition bootdiag_v1_gpt : Check := fun ctx r =>
  '(rc, sector) ← read_device_sector ctx 0 512;
  if negb (rc =? 0) then
    fail_with r 1001 (zstr "Cannot read LBA 0 (protective MBR): error " ++ fmt_d rc) else
  mbr_sig ← mem (rd 2 sector 510);
  if negb (mbr_sig =? 0x55AA) then
    fail_with r 1002 (zstr "MBR signature invalid: 0x" ++ fmt_X 4 mbr_sig ++ zstr " (expected 0x55AA)") else
  kind ← mem (rd 1 sector 446);
  if negb (kind =? 0xEE) then
    fail_with r 1003 (zstr "Partition type=0x" ++ fmt_X 2 kind ++ zstr " (expected 0xEE GPT protective)") else
  v1_header ctx r.

(** ** V2: the boot configuration *)

Definition bcd_paths : list (list Z) :=
  [zstr "\EFI\Microsoft\Boot\BCD"; zstr "C:\EFI\Microsoft\Boot\BCD"; zstr "X:\EFI\Microsoft\Boot\BCD"].
Definition bootmgr_guid : list Z := zstr "{9dea8622-5cdd-4e70-acc1-f832d7f0cfb8}".
Definition osloader_guid : list Z := zstr "{466fda14-11a7-4c38-8b39-0eb4ddc42b0c}".

(** [off + 38 < 4096 && memcmp (header + off, guid, 38) == 0] *)
Definition guid_at (header : list Z) (off : Z) (guid : list Z) : res bool :=
  if off + 38 <? 4096 then mem_is header off guid else Ok false.

Fixpoint bcd_scan (k : nat) (off : Z) (header : list Z) (has_bootmgr has_osloader : bool) : res (bool * bool) :=
  match k with
  | O => Ok (has_bootmgr, has_osloader)
  | S k' =>
      let* c := rd 1 header off in
      if c =? 123 then
        let* b := guid_at header off bootmgr_guid in
        let* o := guid_at header off osloader_guid in
        bcd_scan k' (off + 1) header (has_bootmgr || b) (has_osloader || o)
      else bcd_scan k' (off + 1) header has_bootmgr has_osloader
  end.

Definition bootdiag_v2_bcd : Check := fun ctx r =>
  found ← first_readable bcd_paths;
  match found with
  | None => fail_with r 2001 (zstr "BCD file not found or cannot open")
  | Some header =>
      sig ← mem (mem_is header 0 (zstr "regf"));
      if negb sig then
        fail_with r 2002 (zstr "BCD hive signature invalid: " ++ c_chars (take 4 header) ++
                          zstr " (expected 'regf')") else
      '(has_bootmgr, has_osloader) ← mem (bcd_scan 4092 0 header false false);
      if negb has_bootmgr then
        fail_with r 2003 (zstr "Boot Manager entry {9dea8622} not found in BCD") else
      if negb has_osloader then
        fail_with r 2004 (zstr "OS Loader entry {466fda14} not found in BCD") else
      mret (BOOTDIAG_RESULT_PASS,
            set_detail r (zstr "2 entries: BootMgr=" ++ fmt_bool has_bootmgr ++
                          zstr " OSLoader=" ++ fmt_bool has_osloader))
  end.

(** ** V3: the boot loader image *)

Definition winload_paths : list (list Z) :=
  [zstr "\Windows\System32\winload.efi"; zstr "C:\Windows\System32\winload.efi";
   zstr "X:\Windows\System32\winload.efi"].

(** The examination of the 4096 bytes read. *)
Definition v3_image (r : BOOTDIAG_RESULT) (header : list Z) : M W (Z * BOOTDIAG_RESULT) :=
  h0 ← mem (rd 1 header 0);
  h1 ← mem (rd 1 header 1);
  if negb (h0 =? 77) || negb (h1 =? 90) then
    fail_with r 3002 (zstr "MZ signature mismatch: 0x" ++ fmt_X 2 h1 ++ fmt_X 2 h0) else
  e_lfanew ← mem (rd 4 header 60);
  if (e_lfanew =? 0) || (4092 <=? e_lfanew) then
    fail_with r 3003 (zstr "e_lfanew=" ++ fmt_u e_lfanew ++ zstr " invalid") else
  pe ← mem (mem_is header e_lfanew [80; 69; 0; 0]);
  if negb pe then
    fail_with r 3004 (zstr "PE signature mismatch at offset " ++ fmt_u e_lfanew) else
  machine ← mem (rd 2 header (e_lfanew + 4));
  if negb (machine =? 0x8664) then
    fail_with r 3005 (zstr "Machine=0x" ++ fmt_X 4 machine ++ zstr " (expected 0x8664 AMD64)") else
  let pe_offset := e_lfanew + 24 in
  if 4096 <? pe_offset + 2 then
    fail_with r 3006 (zstr "PE optional header out of range") else
  magic ← mem (rd 2 header pe_offset);
  if negb (magic =? 0x20B) then
    fail_with r 3007 (zstr "PE Magic=0x" ++ fmt_X 4 magic ++ zstr " (expected 0x20B PE32+)") else
  let subsystem_offset := pe_offset + 68 in
  if subsystem_offset + 2 <=? 4096 then
    subsystem ← mem (rd 2 header subsystem_offset);
    if negb (subsystem =? 10) && negb (subsystem =? 11) then
      fail_with r 3008 (zstr "Subsystem=" ++ fmt_u subsystem ++ zstr " (expected 10=EFI_APP or 11=EFI_BOOT)")
    else mret (BOOTDIAG_RESULT_PASS, set_detail r (zstr "PE64+ EFI, Subsystem=" ++ fmt_u subsystem))
  else mret (BOOTDIAG_RESULT_PASS, set_detail r (zstr "PE64+ EFI (AMD64)")).

Definition bootdiag_v3_winload : Check := fun ctx r =>
  found ← first_readable winload_paths;
  match found with
  | None => fail_with r 3001 (zstr "winload.efi not found")
  | Some header => v3_image r header
  end.

(** ** V4: the block server *)

Definition req_frame0 : list Z := replicate 64 0.

(** The fixed part of the request frame. *)
Definition req_prepare : res (list Z) :=
  let* f := wr req_frame0 0 (le_bytes 4 0x48444B47) in
  let* f := wr f 4 (le_bytes 2 1) in
  let* f := wr f 6 [0x01] in
  let* f := wr f 7 [0] in
  let* f := wr f 8 (le_bytes 4 1) in
  wr f 12 (le_bytes 4 24).

Definition test_lbas : list Z := [0; 1; 2048].

(** One turn of the probe loop on frame, verified count and latency. *)
Definition probe (sock lba : Z) (st : list Z * Z * Z) : M W (list Z * Z * Z) :=
  let '(req_frame, verified, total_latency_ms) := st in
  req_frame ← mem (wr req_frame 16 (le_bytes 8 lba));
  req_frame ← mem (wr req_frame 24 (le_bytes 4 1));
  covered ← mem (rd_bytes req_frame 0 60);
  req_crc ← compute_crc32c covered;
  req_frame ← mem (wr req_frame 60 (le_bytes 4 req_crc));
  t1 ← sys GetTickCount64;
  _ ← sys_ (send sock req_frame);
  recv_len ← sys (recv sock 64);
  t2 ← sys GetTickCount64;
  if 0 <? recv_len
  then mret (req_frame, u32 (verified + 1), u32 (total_latency_ms + u32 (t2 - t1)))
  else mret (req_frame, verified, total_latency_ms).

Fixpoint probe_loop (sock : Z) (lbas : list Z) (st : list Z * Z * Z) : M W (list Z * Z * Z) :=
  match lbas with
  | [] => mret st
  | lba :: rest => st ← probe sock lba st; probe_loop sock rest st
  end.

(** After the connection: the probes, the clean-up and the verdict. *)
Definition v4_probes (r : BOOTDIAG_RESULT) (sock : Z) : M W (Z * BOOTDIAG_RESULT) :=
  req_frame ← mem req_prepare;
  '(_, verified, total_latency_ms) ← probe_loop sock test_lbas (req_frame, 0, 0);
  _ ← sys_ (closesocket sock);
  _ ← sys_ WSACleanup;
  if verified <? 3 then
    fail_with r 4004 (zstr "Only " ++ fmt_u verified ++ zstr "/3 blocks verified") else
  let avg_latency := if 0 <? verified then total_latency_ms / verified else 0 in
  let r := set_detail r (fmt_u verified ++ zstr " blocks verified, avg latency=" ++ fmt_u avg_latency ++ zstr "ms") in
  let r := if 1000 <? avg_latency then set_detail r (detail r ++ zstr " (WARN: high latency)") else r in
  mret (BOOTDIAG_RESULT_PASS, r).

Definition bootdiag_v4_block_read : Check := fun ctx r =>
  wsa ← sys WSAStartup;
  if negb (wsa =? 0) then fail_with r 4001 (zstr "WSAStartup failed") else
  sock ← sys socket;
  if sock <? 0 then fail_with r 4002 (zstr "Socket creation failed") else
  let timeout_ms := u32 (timeout_sec ctx * 1000) in
  _ ← sys_ (setsockopt sock timeout_ms);
  _ ← sys_ (setsockopt sock timeout_ms);
  rc ← sys (connect sock (server_addr ctx) (server_port ctx));
  if negb (rc =? 0) then
    _ ← sys_ (closesocket sock);
    _ ← sys_ WSACleanup;
    fail_with r 4003 (zstr "ImageServer " ++ server_addr ctx ++ zstr ":" ++ fmt_u (server_port ctx) ++
                      zstr " unreachable")
  else v4_probes r sock.

(** ** V5: the paging file path *)

Definition alt_paths : list (list Z) :=
  [zstr "C:\Windows\System32\ntoskrnl.exe"; zstr "X:\Windows\System32\ntoskrnl.exe"].

Fixpoint first_open (paths : list (list Z)) : M W (option Z) :=
  match paths with
  | [] => mret None
  | path :: rest =>
      h ← sys (CreateFileA path);
      match h with
      | Some hFile => mret (Some hFile)
      | None => first_open rest
      end
  end.

Definition bootdiag_v5_paging_io : Check := fun ctx r =>
  h ← first_open alt_paths;
  match h with
  | None => fail_with r 5001 (zstr "ntoskrnl.exe not accessible for paging IO test")
  | Some hFile =>
      got ← sys (ReadFile hFile 4096);
      match got with
      | None =>
          _ ← sys_ (CloseHandle hFile);
          fail_with r 5002 (zstr "Paging IO read failed")
      | Some _ =>
          _ ← sys_ (CloseHandle hFile);
          mret (BOOTDIAG_RESULT_PASS,
                set_detail r (zstr "bypasses FastIO, bypasses SmartCache (user-mode verification)"))
      end
  end.

(** ** V6: the registry hives *)

Definition hives : list (list Z * list (list Z)) :=
  (fun name => (zstr name, (fun drive => zstr drive ++ zstr "\Windows\System32\config\" ++ zstr name) <$> [""; "C:"; "X:"]%string))
  <$> ["SYSTEM"; "SOFTWARE"; "SAM"; "SECURITY"]%string.

(** [offset += snprintf (detail_buf + offset, sizeof(detail_buf) - offset, text)]
    on the string in [detail_buf]. *)
Definition append_detail (st : list Z * Z) (text : list Z) : res (list Z * Z) :=
  let '(detail_buf, offset) := st in
  if (offset <? 0) || (255 <? offset) then Fault
  else Ok (take (Z.to_nat offset) detail_buf ++ take (Z.to_nat (255 - offset)) text,
           offset + Z.of_nat (length text)).

Fixpoint hive_loop (hs : list (list Z * list (list Z))) (all_pass : bool) (st : list Z * Z)
    : M W (bool * (list Z * Z)) :=
  match hs with
  | [] => mret (all_pass, st)
  | (name, paths) :: rest =>
      found ← first_readable paths;
      match found with
      | None =>
          st ← mem (append_detail st (name ++ zstr ":NOT_FOUND "));
          hive_loop rest false st
      | Some header =>
          sig ← mem (mem_is header 0 (zstr "regf"));
          if negb sig then
            st ← mem (append_detail st (name ++ zstr ":SIG_INVALID "));
            hive_loop rest false st
          else
          hive_version ← mem (rd 4 header 20);
          minor_version ← mem (rd 4 header 24);
          st ← mem (append_detail st (name ++ zstr ":v" ++ fmt_u hive_version ++ zstr "." ++
                                      fmt_u minor_version ++ zstr " "));
          hive_loop rest all_pass st
      end
  end.

Definition bootdiag_v6_hive : Check := fun ctx r =>
  '(all_pass, (detail_buf, _)) ← hive_loop hives true ([], 0);
  if negb all_pass then fail_with r 6001 detail_buf
  else mret (BOOTDIAG_RESULT_PASS, set_detail r detail_buf).

(** ** V7: NTFS metadata *)

(** [bytes_per_sector * (1 << sectors_per_cluster)] as a [uint32_t]. *)
Definition cluster_size (bytes_per_sector sectors_per_cluster : Z) : res Z :=
  if 32 <=? sectors_per_cluster then Fault
  else Ok (u32 (bytes_per_sector * s32 (Z.shiftl 1 sectors_per_cluster))).

Definition mft_lba (mft_start_lcn cluster bytes_per_sector : Z) : Z :=
  u64 (2048 + u64 (mft_start_lcn * cluster) / bytes_per_sector).

Definition v7_sector (ctx : BOOTDIAG_CONTEXT) (r : BOOTDIAG_RESULT) (sector : list Z) : M W (Z * BOOTDIAG_RESULT) :=
  sig ← mem (mem_is sector 3 (zstr "NTFS    "));
  if negb sig then
    oem ← mem (rd_bytes sector 3 8);
    fail_with r 7002 (zstr "NTFS BPB OEM mismatch: '" ++ c_chars oem ++ zstr "'") else
  bytes_per_sector ← mem (rd 2 sector 11);
  sectors_per_cluster ← mem (rd 1 sector 13);
  mft_start_lcn ← mem (rd 8 sector 48);
  if negb (bytes_per_sector =? 512) && negb (bytes_per_sector =? 4096) then
    fail_with r 7003 (zstr "BytesPerSector=" ++ fmt_u bytes_per_sector ++ zstr " (expected 512 or 4096)") else
  cluster ← mem (cluster_size bytes_per_sector sectors_per_cluster);
  let lba := mft_lba mft_start_lcn cluster bytes_per_sector in
  '(rc, mft_record) ← read_device_sector ctx lba 512;
  if negb (rc =? 0) then
    fail_with r 7004 (zstr "$MFT record read failed at LBA " ++ fmt_u lba) else
  file ← mem (mem_is mft_record 0 (zstr "FILE"));
  if negb file then
    fail_with r 7005 (zstr "$MFT signature mismatch: " ++ c_chars (take 4 mft_record)) else
  mret (BOOTDIAG_RESULT_PASS,
        set_detail r (zstr "$MFT:1024B/rec, ClusterSize:" ++ fmt_u (cluster / 1024) ++
                      zstr "KB, MFT_LCN:" ++ fmt_u mft_start_lcn)).

Definition bootdiag_v7_ntfs : Check := fun ctx r =>
  '(rc, sector) ← read_device_sector ctx 2048 512;
  if negb (rc =? 0) then
    '(rc, sector) ← read_device_sector ctx 0 512;
    if negb (rc =? 0) then
      fail_with r 7001 (zstr "Cannot read OS partition boot sector: error " ++ fmt_d rc)
    else v7_sector ctx r sector
  else v7_sector ctx r sector.

(** The table [checks] of [main]. *)
Definition checks : list Check :=
  [bootdiag_v1_gpt; bootdiag_v2_bcd; bootdiag_v3_winload; bootdiag_v4_block_read;
   bootdiag_v5_paging_io; bootdiag_v6_hive; bootdiag_v7_ntfs].
End Checks.

(** ** Every check gives back what it takes *)

Section CheckLedger.
Context {W : Type} `{Win32Laws W}.

Lemma keeps_read_device_sector ctx lba n : keeps (read_device_sector ctx lba n).
Proof. unfold keeps, read_device_sector. ledger. Qed.

Lemma keeps_read_file_bytes path off n : keeps (read_file_bytes path off n).
Proof.
  unfold keeps, read_file_bytes. apply owes_create; [ledger|]. intros h.
  destruct (0 <? off); ledger.
Qed.
#[local] Hint Resolve keeps_read_device_sector keeps_read_file_bytes : ledger.

Lemma keeps_first_readable paths : keeps (first_readable paths).
Proof. unfold keeps. induction paths as [|p l IH]; simpl; ledger. Qed.

Lemma keeps_table_loop ctx k s buf : keeps (table_loop ctx k s buf).
Proof. unfold keeps. revert s buf. induction k as [|k IH]; intros s buf; simpl; ledger. Qed.
#[local] Hint Resolve keeps_first_readable keeps_table_loop : ledger.

Lemma keeps_v1 ctx r : keeps (bootdiag_v1_gpt ctx r).
Proof. unfold keeps, bootdiag_v1_gpt, v1_header, v1_table. cbv zeta. ledger. Qed.

Lemma keeps_v2 ctx r : keeps (bootdiag_v2_bcd ctx r).
Proof. unfold keeps, bootdiag_v2_bcd. ledger. Qed.

Lemma keeps_v3 ctx r : keeps (bootdiag_v3_winload ctx r).
Proof. unfold keeps, bootdiag_v3_winload, v3_image. cbv zeta. ledger. Qed.

Lemma owes_socket {B} t (k : Z -> M W B) :
  (forall s, 0 <= s -> owes (less t (if_got (negb (s =? INVALID_SOCKET)) (mkLedger 0 0 0 1 0))) (k s)) ->
  owes t (mbind k (sys socket)).
Proof.
  intros Hk p b p'. rewrite M_bind_unfold. unfold sys.
  pose proof (held_socket (os p)) as Hs. pose proof (socket_range (os p)) as Hr.
  destruct (socket (os p)) as [s w] eqn:E. simpl in Hs, Hr. intros Eb.
  destruct (Hk s ltac:(lia) _ _ _ Eb) as [H1 H2]. cbn [os statics] in *.
  by rewrite H1, Hs, take_one_assoc, take_less.
Qed.

Lemma owes_closesocket {B} t s (k : () -> M W B) :
  owes (less t (if_got (negb (s =? INVALID_SOCKET)) (mkLedger 0 0 0 (-1) 0))) (k ()) ->
  owes t (mbind k (sys_ (closesocket s))).
Proof. apply owes_sys_. intros w. apply held_closesocket. Qed.

Lemma keeps_probe sock lba st : keeps (probe sock lba st).
Proof. unfold keeps, probe. destruct st as [[f v] l]. ledger. Qed.
#[local] Hint Resolve keeps_probe : ledger.

Lemma keeps_probe_loop sock lbas st : keeps (probe_loop sock lbas st).
Proof. unfold keeps. revert st. induction lbas as [|x l IH]; intros st; simpl; ledger. Qed.
#[local] Hint Resolve keeps_probe_loop : ledger.

Lemma keeps_v4 ctx r : keeps (bootdiag_v4_block_read ctx r).
Proof.
  unfold keeps, bootdiag_v4_block_read, v4_probes. cbv zeta.
  apply (owes_sys (fun z => if_got (z =? 0) (mkLedger 0 0 1 0 0))); [intros; apply held_wsa|]. intros wsa.
  destruct (wsa =? 0); cbn [negb if_got]; ledger_simpl; [|ledger].
  apply owes_socket. intros s Hs. destruct (Z.ltb_spec s 0); [lia|].
  destruct (s =? INVALID_SOCKET) eqn:E; cbn [negb if_got]; ledger_simpl;
    ledger; apply owes_closesocket; rewrite E; cbn [negb if_got]; ledger_simpl; ledger.
Qed.

Lemma owes_first_open {B} t paths (k : option Z -> M W B) :
  owes t (k None) -> (forall h, owes (less t (mkLedger 1 0 0 0 0)) (k (Some h))) ->
  owes t (mbind k (first_open paths)).
Proof.
  intros Hn Hs.
  apply (owes_bind_dep (fun o => if_got (bool_decide (is_Some o)) (mkLedger 1 0 0 0 0))).
  - induction paths as [|p l IH]; intros q a q'; simpl first_open.
    { intros [= <- <-]. simpl. by rewrite take_one_none. }
    rewrite M_bind_unfold. unfold sys. pose proof (held_create p (os q)) as Hc.
    destruct (CreateFileA p (os q)) as [[h|] w] eqn:E; simpl in Hc.
    + intros [= <- <-]. done.
    + intros Ea. apply IH in Ea. cbn [os statics] in Ea. rewrite take_one_none in Hc. by rewrite Hc in Ea.
  - intros [h|]; [apply Hs|]. rewrite bool_decide_eq_false_2 by (by intros []). simpl. by rewrite less_none.
Qed.

Lemma keeps_v5 ctx r : keeps (bootdiag_v5_paging_io ctx r).
Proof.
  unfold keeps, bootdiag_v5_paging_io. apply owes_first_open; [ledger|]. intros h. ledger_simpl. ledger.
Qed.

Lemma keeps_hive_loop hs b st : keeps (hive_loop hs b st).
Proof. unfold keeps. revert b st. induction hs as [|[n ps] l IH]; intros b st; simpl; ledger. Qed.
#[local] Hint Resolve keeps_hive_loop : ledger.

Lemma keeps_v6 ctx r : keeps (bootdiag_v6_hive ctx r).
Proof. unfold keeps, bootdiag_v6_hive. ledger. Qed.

Lemma keeps_v7 ctx r : keeps (bootdiag_v7_ntfs ctx r).
Proof. unfold keeps, bootdiag_v7_ntfs, v7_sector. cbv zeta. ledger. Qed.

Lemma keeps_checks c ctx r : c ∈ checks -> keeps (c ctx r).
Proof.
  unfold checks. rewrite !elem_of_cons, elem_of_nil.
  intros Hc. decompose [or] Hc; subst; try done;
    auto using keeps_v1, keeps_v2, keeps_v3, keeps_v4, keeps_v5, keeps_v6, keeps_v7.
Qed.
End CheckLedger.

(** ** What the readers return *)

(** A little-endian field of a buffer. *)
Definition field (n off : Z) (m : list Z) : Z := le_val (take (Z.to_nat n) (drop (Z.to_nat off) m)).

Section Readers.
Context {W : Type} `{Win32Laws W}.

Lemma read_device_sector_spec ctx lba n p rc buf p' :
  read_device_sector ctx lba n p = Ok ((rc, buf), p') ->
  statics p' = statics p /\ (rc = 0 -> Z.of_nat (length buf) = n /\ Forall is_byte buf).
Proof.
  unfold read_device_sector, sys, sys_. rewrite M_bind_unfold.
  destruct (CreateFileA _ _) as [[h|] w1]; [|intros [= <- <- <-]; done].
  rewrite M_bind_unfold. cbn [os statics]. destruct (SetFilePointerEx _ _ _) as [[] w2]; cbn [negb].
  - rewrite M_bind_unfold. cbn [os statics]. destruct (ReadFile h n w2) as [[bs|] w3] eqn:E.
    + destruct (Z.eqb_spec (Z.of_nat (length bs)) n) as [Hl|]; cbn [negb];
        rewrite M_bind_unfold; intros [= <- <- <-]; [|done].
      split; [done|]. intros _. split; [done|].
      apply (ReadFile_bytes h n w2). by rewrite E.
    + rewrite M_bind_unfold. intros [= <- <- <-]. done.
  - rewrite M_bind_unfold. intros [= <- <- <-]. done.
Qed.

(** A sector read gives an answer on every machine; it may be another one the
    next time. *)
Lemma sector_any ctx lba (p : Proc W) : exists rc s p',
  read_device_sector ctx lba 512 p = Ok ((rc, s), p') /\ (rc = 0 -> length s = 512%nat /\ Forall is_byte s).
Proof.
  assert (exists rc s p', read_device_sector ctx lba 512 p = Ok ((rc, s), p')) as (rc & s & p' & E).
  { unfold read_device_sector, sys, sys_. rewrite M_bind_unfold. destruct (CreateFileA _ _) as [[h|] w1]; [|by eexists _, _, _].
    rewrite M_bind_unfold. cbn [os statics]. destruct (SetFilePointerEx _ _ _) as [[] w2]; cbn [negb]; [|by eexists _, _, _].
    rewrite M_bind_unfold. cbn [os statics]. destruct (ReadFile h 512 w2) as [[bs|] w3]; [|by eexists _, _, _].
    destruct (_ =? 512); by eexists _, _, _. }
  exists rc, s, p'. split; [done|]. intros Hrc. apply read_device_sector_spec in E as [_ E]. destruct (E Hrc). split; [lia|done].
Qed.

Lemma table_loop_total ctx k s buf (p : Proc W) : exists x p',
  table_loop ctx k s buf p = Ok (x, p') /\
  match x with inr t => length t = (length buf + 512 * k)%nat | inl _ => True end.
Proof.
  revert s buf p. induction k as [|k IH]; intros s buf p; simpl table_loop.
  { eexists _, _. split; [done|]. simpl. lia. }
  destruct (sector_any ctx (u32 (2 + s)) p) as (rc & sec & q & E & Hs). rewrite (M_bind_run _ _ _ _ _ E).
  destruct (Z.eqb_spec rc 0) as [->|]; cbn [negb].
  - destruct (Hs eq_refl) as [Hl _].
    destruct (IH (s + 1) (buf ++ sec) q) as (x & p' & Ex & Hx). exists x, p'. split; [done|].
    destruct x; [done|]. rewrite length_app in Hx. lia.
  - eexists _, _. done.
Qed.
End Readers.

(** ** V1 on a device that answers every read the same way *)

Section GptCheck.
Context {W : Type} `{Win32Laws W}.
Variables (ctx : BOOTDIAG_CONTEXT) (disk : Z -> Z * list Z).
Hypothesis disk_stable : forall lba (p : Proc W), exists p',
  read_device_sector ctx lba 512 p = Ok (disk lba, p').

Lemma disk_sector (p : Proc W) lba s : disk lba = (0, s) -> Forall is_byte s /\ length s = 512%nat.
Proof.
  intros E. destruct (disk_stable lba p) as [p' Hp]. rewrite E in Hp.
  apply read_device_sector_spec in Hp as [_ Hp]. destruct (Hp eq_refl). split; [done|lia].
Qed.

(** Reading a sector: what it gives and what it leaves. *)
Lemma disk_read (p : Proc W) lba : exists p',
  read_device_sector ctx lba 512 p = Ok (disk lba, p') /\ statics p' = statics p.
Proof.
  destruct (disk_stable lba p) as [p' Hp]. exists p'. split; [done|].
  destruct (disk lba) as [rc s]. by apply read_device_sector_spec in Hp as [? _].
Qed.

Lemma disk_read_inv (p : Proc W) lba v p' :
  read_device_sector ctx lba 512 p = Ok (v, p') -> v = disk lba /\ statics p' = statics p.
Proof. intros E. destruct (disk_read p lba) as (q & E' & ?). rewrite E in E'. by simplify_eq. Qed.

(** The loop that reads the table. *)
Lemma table_loop_spec k s buf (p : Proc W) t p' :
  table_loop ctx k s buf p = Ok (inr t, p') ->
  statics p' = statics p /\ exists tl, t = buf ++ tl /\ length tl = (512 * k)%nat /\ Forall is_byte tl /\
  forall j, (j < k)%nat -> disk (u32 (2 + (s + Z.of_nat j))) = (0, take 512 (drop (512 * j) tl)).
Proof.
  revert s buf p. induction k as [|k IH]; intros s buf p; simpl table_loop.
  { intros [= <- <-]. split; [done|]. exists []. rewrite app_nil_r. repeat split; [constructor|lia]. }
  intros Hr. minv Hr. apply disk_read_inv in E as [-> Hst]. destruct (disk (u32 (2 + s))) as [rc sec] eqn:Ed.
  destruct (Z.eqb_spec rc 0) as [->|]; cbn [negb] in Hr; [|done].
  destruct (disk_sector p _ _ Ed) as [Hb Hl].
  apply IH in Hr as (Hst' & tl & -> & Hlen & Htb & Hd). split; [congruence|].
  exists (sec ++ tl). rewrite <- app_assoc, length_app, Forall_app. repeat split; [lia|done..|].
  intros [|j] Hj.
  - rewrite Z.add_0_r, Nat.mul_0_r, drop_0, take_app_length' by done. done.
  - rewrite drop_app_ge by lia.
    replace (512 * S j - length sec)%nat with (512 * j)%nat by lia. rewrite <- Hd by lia.
    do 3 f_equal. lia.
Qed.
End GptCheck.

(** The loop over the entries: every entry it looks at lies in the table, and
    the flags say which kinds were seen. *)
Lemma entry_step_spec buf off a b : entry_step buf off a = Ok b ->
  let e := take 16 (drop (Z.to_nat off) buf) in
  off + 16 <= Z.of_nat (length buf) /\
  (has_efi b = true -> has_efi a = true \/ e = efi_sp_guid) /\
  (has_os b = true -> has_os a = true \/ e = win_guid).
Proof.
  unfold entry_step, res_bind. destruct (rd_bytes buf off 16) as [e| |] eqn:E; [|done..].
  apply rd_bytes_inv in E as (-> & ? & _ & ?). intros Hb. split; [done|].
  change (Z.to_nat 16) with 16%nat in Hb.
  repeat case_match; simplify_eq; simpl; repeat (case_bool_decide; try done); auto.
Qed.

Lemma entry_loop_spec k i es buf a b : entry_loop k i es buf a = Ok b ->
  (forall j, i <= j < i + Z.of_nat k -> u32 (j * es) + 16 <= Z.of_nat (length buf)) /\
  (has_efi b = true -> has_efi a = true \/
     exists j, i <= j < i + Z.of_nat k /\ take 16 (drop (Z.to_nat (u32 (j * es))) buf) = efi_sp_guid) /\
  (has_os b = true -> has_os a = true \/
     exists j, i <= j < i + Z.of_nat k /\ take 16 (drop (Z.to_nat (u32 (j * es))) buf) = win_guid).
Proof.
  revert i a. induction k as [|k IH]; intros i a; simpl entry_loop.
  { intros [= <-]. split; [lia|]. auto. }
  unfold res_bind at 1. destruct (entry_step _ _ a) as [c| |] eqn:Ec; [|done..]. intros Hb.
  apply entry_step_spec in Ec as (Hin & He & Ho). apply IH in Hb as (Hin' & He' & Ho').
  split; [|split].
  - intros j Hj. destruct (decide (j = i)) as [->|]; [done|]. apply Hin'. lia.
  - intros Hb. destruct (He' Hb) as [Hc|(j & Hj & ?)]; [|right; exists j; split; [lia|done]].
    destruct (He Hc); [by left|]. right. exists i. split; [lia|done].
  - intros Hb. destruct (Ho' Hb) as [Hc|(j & Hj & ?)]; [|right; exists j; split; [lia|done]].
    destruct (Ho Hc); [by left|]. right. exists i. split; [lia|done].
Qed.

Lemma entry_loop_total k i es buf a :
  0 <= i -> (forall j, i <= j < i + Z.of_nat k -> u32 (j * es) + 16 <= Z.of_nat (length buf)) ->
  exists b, entry_loop k i es buf a = Ok b.
Proof.
  revert i a. induction k as [|k IH]; intros i a Hi Hin; simpl entry_loop; [eauto|].
  pose proof (wrap_range 32 (i * es) ltac:(lia)) as Hr. fold (u32 (i * es)) in Hr.
  assert (exists c, entry_step buf (u32 (i * es)) a = Ok c) as [c ->].
  { unfold entry_step. rewrite rd_bytes_ok; [|lia..|apply Hin; lia]. unfold res_bind.
    repeat case_match; eauto. }
  simpl. apply IH; [lia|]. intros. apply Hin. lia.
Qed.

(** What a partition table must be for V1 to pass: [s0] and [s1] are the first
    two sectors, [table] the sectors that follow, [n] the number of entries. *)
Record GptGood (disk : Z -> Z * list Z) (s0 s1 table : list Z) (n : Z) : Prop := {
  good_s0 : disk 0 = (0, s0);
  good_mbr : field 2 510 s0 = 0x55AA;
  good_type : field 1 446 s0 = 0xEE;
  good_s1 : disk 1 = (0, s1);
  good_sig : take 8 s1 = zstr "EFI PART";
  good_size : field 4 12 s1 = 92;
  good_mylba : field 8 24 s1 = 1;
  good_alt : field 8 32 s1 <> 0;
  good_crc : field 4 16 s1 = crc32c_ref (copy_at (take 92 s1) 16 (replicate 4 0));
  good_n : n = field 4 80 s1;
  good_nowrap : n * 128 + 511 < 2 ^ 32;
  good_es : field 4 84 s1 = 128;
  good_table : forall j, (j < Z.to_nat ((n * 128 + 511) / 512))%nat ->
    disk (2 + Z.of_nat j) = (0, take 512 (drop (512 * j) table));
  good_tcrc : field 4 88 s1 = crc32c_ref (take (Z.to_nat (n * 128)) table);
  good_efi : exists i, 0 <= i < n /\ take 16 (drop (Z.to_nat (i * 128)) table) = efi_sp_guid;
  good_os : exists i, 0 <= i < n /\ take 16 (drop (Z.to_nat (i * 128)) table) = win_guid;
}.

Lemma field_range n off m : 0 <= n -> Forall is_byte m -> 0 <= field n off m < 2 ^ (8 * n).
Proof.
  intros Hn Hm. unfold field.
  pose proof (le_val_bound _ (Forall_sub _ (Z.to_nat n) (Z.to_nat off) _ Hm)) as Hb.
  split; [lia|]. eapply Z.lt_le_trans; [apply Hb|]. apply Z.pow_le_mono_r; [lia|].
  rewrite length_take. lia.
Qed.

Lemma mem_is_inv m off lit : mem_is m off lit = Ok true -> take (length lit) (drop (Z.to_nat off) m) = lit.
Proof.
  unfold mem_is, res_bind. destruct (rd_bytes _ _ _) eqn:E; [|done..]. apply rd_bytes_inv in E as [-> _].
  intros [= ?]. case_bool_decide; [|done]. by rewrite Nat2Z.id in *.
Qed.

Lemma mem_is_ok m off lit : 0 <= off -> off + Z.of_nat (length lit) <= Z.of_nat (length m) ->
  mem_is m off lit = Ok (bool_decide (take (length lit) (drop (Z.to_nat off) m) = lit)).
Proof. intros. unfold mem_is. rewrite rd_bytes_ok by lia. simpl. by rewrite Nat2Z.id. Qed.

(** Running the accesses that stay inside a buffer. *)
Lemma run_rd {W B} n m off (k : Z -> M W B) p :
  0 <= off -> 0 <= n -> off + n <= Z.of_nat (length m) -> mbind k (mem (rd n m off)) p = k (field n off m) p.
Proof. intros. rewrite M_bind_unfold. unfold mem. by rewrite rd_ok. Qed.

Lemma run_rd_bytes {W B} m off n (k : list Z -> M W B) p :
  0 <= off -> 0 <= n -> off + n <= Z.of_nat (length m) ->
  mbind k (mem (rd_bytes m off n)) p = k (take (Z.to_nat n) (drop (Z.to_nat off) m)) p.
Proof. intros. rewrite M_bind_unfold. unfold mem. by rewrite rd_bytes_ok. Qed.

Lemma run_mem_is {W B} m off lit (k : bool -> M W B) p :
  0 <= off -> off + Z.of_nat (length lit) <= Z.of_nat (length m) ->
  mbind k (mem (mem_is m off lit)) p = k (bool_decide (take (length lit) (drop (Z.to_nat off) m) = lit)) p.
Proof. intros. rewrite M_bind_unfold. unfold mem. by rewrite mem_is_ok. Qed.

Lemma run_wr {W B} m off src (k : list Z -> M W B) p :
  0 <= off -> off + Z.of_nat (length src) <= Z.of_nat (length m) ->
  mbind k (mem (wr m off src)) p = k (copy_at m (Z.to_nat off) src) p.
Proof. intros. rewrite M_bind_unfold. unfold mem. by rewrite wr_ok. Qed.

(** A run that ends in a verdict. *)
Definition concludes {W} (c : M W (Z * BOOTDIAG_RESULT)) (p : Proc W) : Prop :=
  exists code r' p', c p = Ok ((code, r'), p') /\ (code = BOOTDIAG_RESULT_PASS \/ code = BOOTDIAG_RESULT_FAIL).

Lemma concludes_fail {W} r code d (p : Proc W) : concludes (fail_with r code d) p.
Proof. eexists _, _, _. split; [done|by right]. Qed.

Lemma concludes_pass {W} r' (p : Proc W) : concludes (mret (BOOTDIAG_RESULT_PASS, r')) p.
Proof. eexists _, _, _. split; [done|by left]. Qed.
#[export] Hint Resolve concludes_fail concludes_pass : hd.

(** The checks inside the table force the size computation not to wrap. *)
Lemma table_nowrap n len :
  0 <= n < 2 ^ 32 -> Z.of_nat len = 512 * partition_array_sectors n 128 ->
  u32 (n * 128) <= Z.of_nat len ->
  (forall j, 0 <= j < n -> u32 (j * 128) + 16 <= Z.of_nat len) ->
  n * 128 + 511 < 2 ^ 32 /\ partition_array_sectors n 128 = (n * 128 + 511) / 512.
Proof.
  intros Hn Hlen Hcov Hin.
  assert (Hnw : n * 128 + 511 < 2 ^ 32).
  { destruct (Z.lt_ge_cases (n * 128 + 511) (2 ^ 32)) as [|Hbig]; [done|exfalso].
    set (s := partition_array_sectors n 128) in *.
    assert (0 <= s < 8388608) as Hs.
    { unfold s, partition_array_sectors.
      pose proof (wrap_range 32 (u32 (n * 128) + 511) ltac:(lia)) as Hw. fold (u32 (u32 (n * 128) + 511)) in Hw.
      split; [apply Z.div_pos; lia|]. apply Z.div_lt_upper_bound; lia. }
    destruct (Z.lt_ge_cases n (2 ^ 25)) as [Hsmall|Hlarge].
    - assert (s = 0) as Hs0.
      { unfold s, partition_array_sectors, u32, wrap. rewrite (Z.mod_small (n * 128)) by lia.
        replace ((n * 128 + 511) mod 2 ^ 32) with (n * 128 + 511 - 2 ^ 32).
        - apply Z.div_small. lia.
        - symmetry. rewrite <- (Z.mod_small (n * 128 + 511 - 2 ^ 32) (2 ^ 32)) by lia.
          replace (n * 128 + 511) with (n * 128 + 511 - 2 ^ 32 + 1 * 2 ^ 32) at 1 by lia. apply Z.mod_add. lia. }
      unfold u32 in Hcov. rewrite wrap_small in Hcov by lia. lia.
    - specialize (Hin (4 * s) ltac:(lia)). unfold u32 in Hin. rewrite wrap_small in Hin by lia. lia. }
  split; [done|]. unfold partition_array_sectors, u32. by rewrite !(wrap_small 32) by (rewrite ?wrap_small; lia).
Qed.

Section GptTheorems.
Context {W : Type} `{Win32Laws W}.
Variables (ctx : BOOTDIAG_CONTEXT) (disk : Z -> Z * list Z).
Hypothesis disk_stable : forall lba (p : Proc W), exists p',
  read_device_sector ctx lba 512 p = Ok (disk lba, p').

Lemma v1_table_pass r s1 n (p : Proc W) r' p' :
  0 <= n < 2 ^ 32 -> crc_static_ok (statics p) ->
  v1_table ctx r s1 n 128 p = Ok ((BOOTDIAG_RESULT_PASS, r'), p') ->
  n * 128 + 511 < 2 ^ 32 /\ exists table,
  (forall j, (j < Z.to_nat ((n * 128 + 511) / 512))%nat ->
    disk (2 + Z.of_nat j) = (0, take 512 (drop (512 * j) table))) /\
  field 4 88 s1 = crc32c_ref (take (Z.to_nat (n * 128)) table) /\
  (exists i, 0 <= i < n /\ take 16 (drop (Z.to_nat (i * 128)) table) = efi_sp_guid) /\
  (exists i, 0 <= i < n /\ take 16 (drop (Z.to_nat (i * 128)) table) = win_guid).
Proof.
  intros Hn Hst Hr. unfold v1_table in Hr. minv Hr.
  assert (statics p0 = statics p) as Hst0 by (unfold sys in E; destruct (malloc _ _); by simplify_eq).
  destruct v; cbn [negb] in Hr; [|done]. minv Hr. destruct v as [s|table]; [by minv Hr|].
  apply (table_loop_spec _ disk disk_stable) in E0 as (Hst1 & tl & -> & Hlen & Hb & Hd). cbn [app] in *.
  minv_mem Hr. apply rd_inv in E0 as [-> _]. minv_mem Hr. apply rd_bytes_inv in E0 as (-> & _ & _ & Hcov).
  minv Hr. apply crc_inv in E0 as (-> & _ & _). rewrite Hst1, Hst0 in Hr.
  destruct (crc32c_correct (take (Z.to_nat (u32 (n * 128))) tl) (statics p)) as [Hc _];
    [by apply Forall_take|done|].
  rewrite drop_0, Hc in Hr. destruct (Z.eqb_spec (crc32c_ref (take (Z.to_nat (u32 (n * 128))) tl))
    (le_val (take (Z.to_nat 4) (drop (Z.to_nat 88) s1)))) as [Hcrc|]; cbn [negb] in Hr; [|by minv Hr].
  minv_mem Hr. apply entry_loop_spec in E0 as (Hin & He & Ho). minv Hr.
  destruct (has_efi v) eqn:Ee, (has_os v) eqn:Eo; cbn [negb orb] in Hr; try done.
  rewrite Z2Nat.id in Hin, He, Ho by lia.
  assert (0 <= partition_array_sectors n 128) as Hs0.
  { unfold partition_array_sectors. apply Z.div_pos; [apply wrap_range|]; lia. }
  destruct (table_nowrap n (length tl)) as [Hnw Hs]; [done|lia|lia|intros; apply Hin; lia|].
  split; [done|]. exists tl. unfold u32 in Hcrc. rewrite (wrap_small 32 (n * 128)) in Hcrc by lia.
  split; [|split; [by symmetry|split]].
  - intros j Hj. rewrite <- Hs in Hj. specialize (Hd j Hj). unfold u32 in Hd.
    rewrite wrap_small in Hd; [done|]. rewrite Hs in Hj. assert ((n * 128 + 511) / 512 < 2 ^ 23) by (apply Z.div_lt_upper_bound; lia). lia.
  - destruct (He eq_refl) as [|(j & Hj & Ej)]; [done|]. exists j. split; [lia|].
    unfold u32 in Ej. rewrite wrap_small in Ej by lia. done.
  - destruct (Ho eq_refl) as [|(j & Hj & Ej)]; [done|]. exists j. split; [lia|].
    unfold u32 in Ej. rewrite wrap_small in Ej by lia. done.
Qed.

Lemma v1_header_pass r (p : Proc W) r' p' :
  crc_static_ok (statics p) ->
  v1_header ctx r p = Ok ((BOOTDIAG_RESULT_PASS, r'), p') ->
  exists s1 n table, forall s0, disk 0 = (0, s0) -> field 2 510 s0 = 0x55AA -> field 1 446 s0 = 0xEE ->
  GptGood disk s0 s1 table n.
Proof.
  intros Hst Hr. unfold v1_header in Hr. minv Hr. apply (disk_read_inv _ disk disk_stable) in E as [-> Hst0].
  destruct (disk 1) as [rc s1] eqn:E1. destruct (Z.eqb_spec rc 0) as [->|]; cbn [negb] in Hr; [|done].
  destruct (disk_sector _ disk disk_stable p _ _ E1) as [Hb Hl].
  minv_mem Hr. destruct v; cbn [negb] in Hr; [|done]. apply mem_is_inv in E as Hsig.
  minv_mem Hr. apply rd_inv in E0 as [-> _]. fold (field 4 12 s1) in Hr.
  destruct (Z.eqb_spec (field 4 12 s1) 92); cbn [negb] in Hr; [|done].
  minv_mem Hr. apply rd_inv in E0 as [-> _]. fold (field 8 24 s1) in Hr.
  destruct (Z.eqb_spec (field 8 24 s1) 1); cbn [negb] in Hr; [|done].
  minv_mem Hr. apply rd_inv in E0 as [-> _]. fold (field 8 32 s1) in Hr.
  destruct (Z.eqb_spec (field 8 32 s1) 0); [done|].
  minv_mem Hr. apply rd_inv in E0 as [-> _]. fold (field 4 16 s1) in Hr.
  minv_mem Hr. apply rd_bytes_inv in E0 as [-> _]. rewrite drop_0 in Hr.
  assert (length (take (Z.to_nat 92) s1) = 92%nat) as Hl92 by (rewrite length_take, Hl; done).
  minv_mem Hr. rewrite wr_ok in E0 by (rewrite ?Hl92, ?length_replicate; lia). injection E0 as <-.
  minv Hr. apply crc_inv in E0 as (-> & _ & Hst1). rewrite Hst0 in Hr, Hst1.
  destruct (crc32c_correct (copy_at (take (Z.to_nat 92) s1) (Z.to_nat 16) [0; 0; 0; 0]) (statics p)) as [Hc Hst2];
    [by repeat (apply Forall_app_2 || apply Forall_take || apply Forall_drop); auto; apply bytesb_ok|done|].
  rewrite Hc in Hr. rewrite <- Hst1 in Hst2.
  destruct (Z.eqb_spec (crc32c_ref (copy_at (take (Z.to_nat 92) s1) (Z.to_nat 16) [0; 0; 0; 0])) (field 4 16 s1)) as [Hcrc|];
    cbn [negb] in Hr; [|done].
  minv_mem Hr. apply rd_inv in E0 as [-> _]. minv_mem Hr. apply rd_inv in E0 as [-> _].
  fold (field 4 80 s1) (field 4 84 s1) in Hr.
  destruct (Z.eqb_spec (field 4 84 s1) 128) as [Hes|]; cbn [negb] in Hr; [|done]. rewrite Hes in Hr.
  pose proof (field_range 4 80 s1 ltac:(lia) Hb). apply v1_table_pass in Hr as (Hnw & table & ? & ? & ? & ?); [|done..].
  exists s1, (field 4 80 s1), table. intros s0 ???. by constructor.
Qed.

(** C13. V1 is sound. On a device that answers each sector read the same way, a
    run of [bootdiag_v1_gpt] that returns PASS has checked all of this: the
    signature word and the type byte of sector 0; in sector 1 the signature, a
    header of 92 bytes that names itself LBA 1 and a backup, and a stored
    checksum equal to the CRC-32C of the header with that field cleared; a
    table whose size does not overflow 32 bits, read sector by sector, whose
    checksum is the stored one; and in it an EFI system entry and a Windows
    entry among the declared entries. *)
Theorem v1_pass_sound r (p : Proc W) r' p' :
  crc_static_ok (statics p) ->
  bootdiag_v1_gpt ctx r p = Ok ((BOOTDIAG_RESULT_PASS, r'), p') ->
  exists s0 s1 table n, GptGood disk s0 s1 table n.
Proof.
  intros Hst Hr. unfold bootdiag_v1_gpt in Hr. minv Hr.
  apply (disk_read_inv _ disk disk_stable) in E as [-> Hst0].
  destruct (disk 0) as [rc s0] eqn:E0. destruct (Z.eqb_spec rc 0) as [->|]; cbn [negb] in Hr; [|done].
  minv_mem Hr. apply rd_inv in E as [-> _]. fold (field 2 510 s0) in Hr.
  destruct (Z.eqb_spec (field 2 510 s0) 0x55AA); cbn [negb] in Hr; [|done].
  minv_mem Hr. apply rd_inv in E as [-> _]. fold (field 1 446 s0) in Hr.
  destruct (Z.eqb_spec (field 1 446 s0) 0xEE); cbn [negb] in Hr; [|done].
  apply v1_header_pass in Hr as (s1 & n & table & Hg); [eauto 10|by rewrite Hst0].
Qed.

Lemma v1_standard_mbr r s0 (p : Proc W) :
  disk 0 = (0, s0) -> take 2 (drop 510 s0) = [0x55; 0xAA] ->
  exists p', bootdiag_v1_gpt ctx r p =
    Ok ((BOOTDIAG_RESULT_FAIL, set_error r 1002 (zstr "MBR signature invalid: 0xAA55 (expected 0x55AA)")), p').
Proof.
  intros Ed Hsig. unfold bootdiag_v1_gpt.
  destruct (disk_read ctx disk disk_stable p 0) as (p0 & E0 & _). rewrite (M_bind_run _ _ _ _ _ E0), Ed.
  destruct (disk_sector ctx disk disk_stable p _ _ Ed) as [Hb Hl].
  cbn [Z.eqb negb]. rewrite run_rd by lia. unfold field. change (Z.to_nat 2) with 2%nat.
  change (Z.to_nat 510) with 510%nat. rewrite Hsig. by exists p0.
Qed.
End GptTheorems.

(** ** V1 on any machine *)

Section GptAny.
Context {W : Type} `{Win32Laws W}.
Variable ctx : BOOTDIAG_CONTEXT.
(** No read of sector 1 declares a table of 2{^32} bytes. *)
Hypothesis small_table : forall (p : Proc W) s1 p',
  read_device_sector ctx 1 512 p = Ok ((0, s1), p') -> field 4 80 s1 * 128 + 511 < 2 ^ 32.

Lemma v1_table_concludes r s1 n (p : Proc W) :
  length s1 = 512%nat -> 0 <= n -> n * 128 + 511 < 2 ^ 32 -> concludes (v1_table ctx r s1 n 128) p.
Proof.
  intros Hl Hn Hnw. unfold concludes, v1_table. cbv zeta. rewrite M_bind_unfold. unfold sys at 1.
  destruct (malloc _ _) as [[] w]; cbn [negb]; [|apply concludes_fail].
  assert (partition_array_sectors n 128 = (n * 128 + 511) / 512) as Hs.
  { unfold partition_array_sectors, u32. by rewrite !(wrap_small 32) by (rewrite ?wrap_small; lia). }
  destruct (table_loop_total ctx (Z.to_nat (partition_array_sectors n 128)) 0 []
    (mkProc w (statics p))) as (x & q & E & Hx).
  rewrite (M_bind_run _ _ _ _ _ E). destruct x as [s|t]; [apply concludes_fail|].
  cbn [length] in Hx. rewrite Nat.add_0_l in Hx.
  assert (n * 128 <= Z.of_nat (length t)) as Hcov.
  { rewrite Hx, Hs. pose proof (Z.div_mod (n * 128 + 511) 512 ltac:(lia)).
    pose proof (Z.mod_pos_bound (n * 128 + 511) 512 ltac:(lia)). lia. }
  rewrite run_rd by lia. unfold u32. rewrite (wrap_small 32 (n * 128)) by lia.
  rewrite run_rd_bytes by lia. rewrite M_bind_unfold. unfold compute_crc32c at 1.
  destruct (bootdiag_compute_crc32c _ _) as [crc st]. destruct (crc =? _); cbn [negb]; [|apply concludes_fail].
  destruct (entry_loop_total (Z.to_nat n) 0 128 t (mkParts 0 false false false)) as [b Eb]; [lia|..].
  { intros j Hj. unfold u32. rewrite wrap_small; lia. }
  rewrite M_bind_unfold, Eb. unfold mem at 1. rewrite M_bind_unfold. unfold sys_ at 1.
  destruct (_ || _); [apply concludes_fail|apply concludes_pass].
Qed.

Lemma v1_header_concludes r (p : Proc W) : concludes (v1_header ctx r) p.
Proof.
  unfold concludes, v1_header.
  destruct (sector_any ctx 1 p) as (rc & s1 & p1 & E1 & Hs). rewrite (M_bind_run _ _ _ _ _ E1).
  destruct (Z.eqb_spec rc 0) as [->|]; cbn [negb]; [|apply concludes_fail].
  destruct (Hs eq_refl) as [Hl Hb]. pose proof (small_table _ _ _ E1) as Hn.
  assert (length (take (Z.to_nat 92) s1) = 92%nat) as Hl92 by (rewrite length_take, Hl; done).
  rewrite run_mem_is by (change (length (zstr "EFI PART")) with 8%nat; lia).
  destruct (bool_decide _); cbn [negb]; [|apply concludes_fail].
  rewrite run_rd by lia. destruct (_ =? 92); cbn [negb]; [|apply concludes_fail].
  rewrite run_rd by lia. destruct (_ =? 1); cbn [negb]; [|apply concludes_fail].
  rewrite run_rd by lia. destruct (_ =? 0); [apply concludes_fail|].
  rewrite run_rd, run_rd_bytes by lia. rewrite run_wr by (change (Z.to_nat 0) with 0%nat; rewrite ?drop_0, ?Hl92, ?length_replicate; lia).
  rewrite M_bind_unfold. unfold compute_crc32c at 1. destruct (bootdiag_compute_crc32c _ _) as [crc st].
  destruct (crc =? _); cbn [negb]; [|apply concludes_fail].
  rewrite !run_rd by lia. destruct (Z.eqb_spec (field 4 84 s1) 128) as [->|]; cbn [negb]; [|apply concludes_fail].
  apply v1_table_concludes; [done| |done]. apply (field_range 4); [lia|done].
Qed.

Lemma v1_concludes r (p : Proc W) : concludes (bootdiag_v1_gpt ctx r) p.
Proof.
  unfold concludes, bootdiag_v1_gpt.
  destruct (sector_any ctx 0 p) as (rc & s0 & p0 & E0 & Hs). rewrite (M_bind_run _ _ _ _ _ E0).
  destruct (Z.eqb_spec rc 0) as [->|]; cbn [negb]; [|apply concludes_fail].
  destruct (Hs eq_refl) as [Hl Hb].
  rewrite run_rd by lia. destruct (_ =? _); cbn [negb]; [|apply concludes_fail].
  rewrite run_rd by lia. destruct (_ =? _); cbn [negb]; [|apply concludes_fail].
  apply v1_header_concludes.
Qed.

(** V1 is memory safe and returns a verdict, whatever the sectors hold, also
    when they answer differently from one read to the next, and whatever reads
    or allocations fail, as long as no header read declares so many entries that
    the 32-bit size of the table wraps. (By [v1_pass_sound] a header that wraps is
    never passed; the run leaves the table buffer instead.) *)
Theorem v1_total r (p : Proc W) :
  exists code r' p', bootdiag_v1_gpt ctx r p = Ok ((code, r'), p') /\
  (code = BOOTDIAG_RESULT_PASS \/ code = BOOTDIAG_RESULT_FAIL).
Proof. apply v1_concludes. Qed.
End GptAny.

(** ** The file checks, on files that answer every read the same way *)

(** An image whose [e_lfanew] is 4091, with the PE signature there. *)
Definition overrun_image (h : list Z) : Prop :=
  field 1 0 h = 77 /\ field 1 1 h = 90 /\ field 4 60 h = 4091 /\ take 4 (drop 4091 h) = [80; 69; 0; 0].

Lemma v3_image_cases {W} `{Win32 W} r h (q : Proc W) : length h = 4096%nat -> Forall is_byte h ->
  overrun_image h \/ concludes (v3_image r h) q.
Proof.
  intros Hl Hb. unfold v3_image, concludes. rewrite !run_rd by lia.
  destruct (Z.eqb_spec (field 1 0 h) 77), (Z.eqb_spec (field 1 1 h) 90); cbn [negb orb]; try (right; apply concludes_fail).
  rewrite run_rd by lia. pose proof (field_range 4 60 h ltac:(lia) Hb) as Hf.
  destruct (Z.eqb_spec (field 4 60 h) 0), (Z.leb_spec 4092 (field 4 60 h)); cbn [orb]; try (right; apply concludes_fail).
  rewrite run_mem_is by (simpl length; lia). case_bool_decide as Hpe; cbn [negb]; [|right; apply concludes_fail].
  destruct (decide (field 4 60 h = 4091)) as [He|].
  { left. rewrite He in Hpe. done. }
  right. rewrite run_rd by lia. destruct (_ =? _); cbn [negb]; [|apply concludes_fail]. cbv zeta.
  destruct (Z.ltb_spec 4096 (field 4 60 h + 24 + 2)); [apply concludes_fail|].
  rewrite run_rd by lia. destruct (_ =? _); cbn [negb]; [|apply concludes_fail].
  destruct (Z.leb_spec (field 4 60 h + 24 + 68 + 2) 4096); [|apply concludes_pass].
  rewrite run_rd by lia. destruct (_ && _); [apply concludes_fail|apply concludes_pass].
Qed.

Section FileTheorems.
Context {W : Type} `{Win32Laws W}.
Variable files : list Z -> Z * list Z.
Hypothesis files_stable : forall path (p : Proc W), exists p',
  read_file_bytes path 0 4096 p = Ok (files path, p').

(** The file the search loop settles on. *)
Fixpoint chosen (paths : list (list Z)) : option (list Z) :=
  match paths with
  | [] => None
  | path :: rest => let '(rc, header) := files path in if rc =? 0 then Some header else chosen rest
  end.

Lemma read_file_bytes_spec path n (p : Proc W) rc buf p' :
  read_file_bytes path 0 n p = Ok ((rc, buf), p') ->
  rc = 0 -> Z.of_nat (length buf) = n /\ Forall is_byte buf.
Proof.
  unfold read_file_bytes, sys, sys_. rewrite M_bind_unfold.
  destruct (CreateFileA _ _) as [[h|] w1]; [|intros [= <- <- <-]; done].
  change (0 <? 0) with false. cbn match. rewrite M_bind_unfold. cbn [mret M_ret negb].
  rewrite M_bind_unfold. cbn [os statics]. destruct (ReadFile h n w1) as [[bs|] w3] eqn:E.
  - destruct (Z.eqb_spec (Z.of_nat (length bs)) n) as [Hl|]; cbn [negb];
      rewrite M_bind_unfold; intros [= <- <- <-]; [|done].
    intros _. split; [done|]. apply (ReadFile_bytes h n w1). by rewrite E.
  - rewrite M_bind_unfold. intros [= <- <- <-]. done.
Qed.

Lemma first_readable_run paths (p : Proc W) : exists p', first_readable paths p = Ok (chosen paths, p').
Proof.
  revert p. induction paths as [|path rest IH]; intros p; simpl; [by eexists|].
  destruct (files_stable path p) as [q E]. rewrite (M_bind_run _ _ _ _ _ E).
  destruct (files path) as [rc h]. destruct (rc =? 0); [by eexists|apply IH].
Qed.

Lemma chosen_length (p : Proc W) paths h : chosen paths = Some h -> length h = 4096%nat /\ Forall is_byte h.
Proof.
  induction paths as [|path rest IH]; simpl; [done|].
  destruct (files path) as [rc b] eqn:Ef. destruct (Z.eqb_spec rc 0) as [->|]; [|done].
  intros [= <-]. destruct (files_stable path p) as [q E]. rewrite Ef in E.
  apply read_file_bytes_spec in E; [|done]. split; [lia|tauto].
Qed.

(** The scan of V2 finds exactly the occurrences that end before the last byte
    of the block. *)
Definition occurs (guid header : list Z) (lo hi : Z) : Prop :=
  exists off, lo <= off < hi /\ off + 38 < 4096 /\ take 38 (drop (Z.to_nat off) header) = guid.

Lemma guid_at_run header off guid :
  length header = 4096%nat -> length guid = 38%nat -> 0 <= off ->
  guid_at header off guid = Ok (bool_decide (off + 38 < 4096 /\ take 38 (drop (Z.to_nat off) header) = guid)).
Proof.
  intros Hl Hg Ho. unfold guid_at. destruct (Z.ltb_spec (off + 38) 4096).
  - rewrite mem_is_ok by lia. rewrite Hg. f_equal. apply bool_decide_ext. tauto.
  - f_equal. symmetry. apply bool_decide_eq_false_2. lia.
Qed.

Lemma guid_brace guid header off :
  head guid = Some 123 -> take 38 (drop off header) = guid -> field 1 (Z.of_nat off) header = 123.
Proof.
  intros Hh <-. unfold field. rewrite Nat2Z.id. destruct (drop off header); simpl in *; simplify_eq; done.
Qed.

Lemma bcd_scan_run k off header b o :
  length header = 4096%nat -> 0 <= off -> off + Z.of_nat k <= 4096 ->
  exists b' o', bcd_scan k off header b o = Ok (b', o') /\
  (b' = true <-> b = true \/ occurs bootmgr_guid header off (off + Z.of_nat k)) /\
  (o' = true <-> o = true \/ occurs osloader_guid header off (off + Z.of_nat k)).
Proof.
  intros Hl. revert off b o. induction k as [|k IH]; intros off b o Ho Hk; simpl bcd_scan.
  { eexists _, _. split; [done|]. unfold occurs. split; (split; [tauto|]); intros [|(x & ? & _)]; auto; lia. }
  rewrite rd_ok by lia. cbn [res_bind]. fold (field 1 off header).
  assert (Hstep : forall g (v : bool), length g = 38%nat -> head g = Some 123 ->
    (v = true <-> off + 38 < 4096 /\ take 38 (drop (Z.to_nat off) header) = g) ->
    forall w : bool, (w || v = true \/ occurs g header (off + 1) (off + 1 + Z.of_nat k)) <->
                     (w = true \/ occurs g header off (off + Z.of_nat (S k)))).
  { intros g v Hg Hh Hv w. rewrite orb_true_iff, Hv. unfold occurs. split.
    - intros [[?|[? ?]]|(x & ? & ? & ?)]; [by left|right; exists off|right; exists x]; (split; [lia|done]).
    - intros [?|(x & ? & ? & ?)]; [by left; left|]. destruct (decide (x = off)) as [->|]; [by left; right|].
      right. exists x. split; [lia|done]. }
  destruct (Z.eqb_spec (field 1 off header) 123) as [Hc|Hc].
  - rewrite !guid_at_run by done. cbn [res_bind].
    destruct (IH (off + 1) (b || bool_decide (off + 38 < 4096 /\ take 38 (drop (Z.to_nat off) header) = bootmgr_guid))
      (o || bool_decide (off + 38 < 4096 /\ take 38 (drop (Z.to_nat off) header) = osloader_guid)))
      as (b' & o' & -> & Hb & Ho'); [lia..|].
    exists b', o'. split; [done|]. rewrite Hb, Ho'. split; apply Hstep; try done; apply bool_decide_eq_true.
  - destruct (IH (off + 1) b o) as (b' & o' & -> & Hb & Ho'); [lia..|].
    exists b', o'. split; [done|]. rewrite Hb, Ho'.
    assert (Hno : forall g, head g = Some 123 ->
      (false = true <-> off + 38 < 4096 /\ take 38 (drop (Z.to_nat off) header) = g)).
    { intros g Hh. split; [done|]. intros [_ Hx]. apply (guid_brace _ _ _ Hh) in Hx.
      by rewrite Z2Nat.id in Hx. }
    pose proof (Hstep bootmgr_guid false eq_refl eq_refl (Hno bootmgr_guid eq_refl) b) as Hb2.
    pose proof (Hstep osloader_guid false eq_refl eq_refl (Hno osloader_guid eq_refl) o) as Ho2.
    rewrite orb_false_r in Hb2, Ho2. done.
Qed.

(** V2 always returns a verdict, and passes exactly when one of the three
    boot configuration files can be read for 4096 bytes, starts with the hive
    signature, and holds both the boot manager and the OS loader identifier,
    each ending before the last byte read. *)
Theorem v2_outcome ctx r (p : Proc W) : exists code r' p',
  bootdiag_v2_bcd ctx r p = Ok ((code, r'), p') /\
  (code = BOOTDIAG_RESULT_PASS \/ code = BOOTDIAG_RESULT_FAIL) /\
  (code = BOOTDIAG_RESULT_PASS <-> exists h, chosen bcd_paths = Some h /\ take 4 h = zstr "regf" /\
     occurs bootmgr_guid h 0 4092 /\ occurs osloader_guid h 0 4092).
Proof.
  unfold bootdiag_v2_bcd. destruct (first_readable_run bcd_paths p) as [q E]. rewrite (M_bind_run _ _ _ _ _ E).
  destruct (chosen bcd_paths) as [h|] eqn:Ec.
  2:{ eexists _, _, _. split; [done|]. split; [by right|]. split; [done|]. by intros (h & ? & _). }
  destruct (chosen_length p _ _ Ec) as [Hl _]. rewrite run_mem_is by (change (length (zstr "regf")) with 4%nat; lia).
  change (drop (Z.to_nat 0) h) with h. change (length (zstr "regf")) with 4%nat.
  assert (Hout : forall code (r' : BOOTDIAG_RESULT), (code = BOOTDIAG_RESULT_PASS \/ code = BOOTDIAG_RESULT_FAIL) ->
    (code = BOOTDIAG_RESULT_PASS <-> take 4 h = zstr "regf" /\ occurs bootmgr_guid h 0 4092 /\ occurs osloader_guid h 0 4092) ->
    exists c' r'' p', (mret (code, r') : M W _) q = Ok ((c', r''), p') /\ (c' = BOOTDIAG_RESULT_PASS \/ c' = BOOTDIAG_RESULT_FAIL) /\
    (c' = BOOTDIAG_RESULT_PASS <-> exists h0, Some h = Some h0 /\ take 4 h0 = zstr "regf" /\
       occurs bootmgr_guid h0 0 4092 /\ occurs osloader_guid h0 0 4092)).
  { intros code r' Hc Hi. eexists _, _, _. split; [done|]. split; [done|]. rewrite Hi. split; [eauto|].
    intros (h0 & [= <-] & ?). done. }
  case_bool_decide as Hs; cbn [negb]; [|apply Hout; [by right|split; [done|tauto]]].
  destruct (bcd_scan_run 4092 0 h false false Hl) as (b & o & Es & Hb & Ho); [lia..|].
  rewrite M_bind_unfold. unfold mem at 1. rewrite Es. change (0 + Z.of_nat 4092) with 4092 in *.
  destruct b; cbn [negb]; [destruct o; cbn [negb]|]; (apply Hout; [by (left + right)|]).
  - assert (occurs bootmgr_guid h 0 4092) by (destruct (proj1 Hb eq_refl); done).
    assert (occurs osloader_guid h 0 4092) by (destruct (proj1 Ho eq_refl); done). tauto.
  - split; [done|]. intros (_ & _ & Hx). discriminate (proj2 Ho (or_intror Hx)).
  - split; [done|]. intros (_ & Hx & _). discriminate (proj2 Hb (or_intror Hx)).
Qed.

(** The image V3 does not survive. *)
Definition v3_overrun : Prop := exists h, chosen winload_paths = Some h /\ overrun_image h.

Lemma v3_fault_case ctx r (p : Proc W) : v3_overrun -> bootdiag_v3_winload ctx r p = Fault.
Proof.
  intros (h & Ec & (Hm & Hz & He & Hpe)). unfold bootdiag_v3_winload.
  destruct (first_readable_run winload_paths p) as [q E].
  rewrite (M_bind_run _ _ _ _ _ E), Ec. destruct (chosen_length p _ _ Ec) as [Hl Hb].
  unfold v3_image. rewrite !run_rd by lia. rewrite Hm, Hz. cbn [Z.eqb Pos.eqb negb orb].
  rewrite run_rd by lia. rewrite He. cbn [Z.eqb Z.leb Z.compare Pos.compare Pos.compare_cont orb].
  rewrite run_mem_is by (simpl length; lia). change (length [80; 69; 0; 0]) with 4%nat.
  change (Z.to_nat 4091) with 4091%nat. rewrite bool_decide_eq_true_2 by done. cbn [negb].
  rewrite M_bind_unfold. unfold mem at 1, rd, rd_bytes, in_block. by rewrite Hl.
Qed.

Lemma v3_cases ctx r (p : Proc W) : v3_overrun \/ concludes (bootdiag_v3_winload ctx r) p.
Proof.
  unfold concludes, bootdiag_v3_winload. destruct (first_readable_run winload_paths p) as [q E].
  rewrite (M_bind_run _ _ _ _ _ E). destruct (chosen winload_paths) as [h|] eqn:Ec; [|right; apply concludes_fail].
  destruct (chosen_length p _ _ Ec) as [Hl Hb]. destruct (v3_image_cases r h q Hl Hb); [left; by exists h|by right].
Qed.

(** V3 leaves its 4096-byte buffer in exactly one case: an image whose
    [e_lfanew] is 4091, with the PE signature there, has its machine word read
    at offsets 4095 and 4096. Every other file, and no file at all, gives a
    verdict. *)
Theorem v3_faults_exactly ctx r (p : Proc W) :
  (bootdiag_v3_winload ctx r p = Fault <-> v3_overrun) /\
  (~ v3_overrun -> exists code r' p', bootdiag_v3_winload ctx r p = Ok ((code, r'), p') /\
     (code = BOOTDIAG_RESULT_PASS \/ code = BOOTDIAG_RESULT_FAIL)).
Proof.
  destruct (v3_cases ctx r p) as [Ho|Hc].
  - split; [|done]. split; [done|]. apply v3_fault_case.
  - split; [|done]. split; [|apply v3_fault_case].
    destruct Hc as (c & r' & p' & E & _). by rewrite E.
Qed.

(** A hive V6 accepts. *)
Definition hive_good (paths : list (list Z)) : bool :=
  match chosen paths with
  | Some h => bool_decide (take 4 h = zstr "regf")
  | None => false
  end.

Lemma append_detail_run buf off text :
  0 <= off -> off + Z.of_nat (length text) <= 255 ->
  exists buf', append_detail (buf, off) text = Ok (buf', off + Z.of_nat (length text)).
Proof.
  intros. unfold append_detail. destruct (Z.ltb_spec off 0), (Z.ltb_spec 255 off); try lia. by eexists.
Qed.

Lemma hive_loop_run hs all buf off (p : Proc W) :
  Forall (fun h => (length h.1 <= 8)%nat) hs -> 0 <= off -> off + 32 * Z.of_nat (length hs) <= 255 ->
  exists buf' off' p', hive_loop hs all (buf, off) p =
    Ok ((all && forallb (fun h => hive_good h.2) hs, (buf', off')), p').
Proof.
  intros Hn. revert all buf off p. induction Hn as [|[name paths] hs Hname Hn IH]; intros all buf off p Ho Hk.
  { eexists _, _, _. by rewrite andb_true_r. }
  cbn [length fst] in *. cbn [hive_loop forallb snd]. unfold hive_good at 1.
  destruct (first_readable_run paths p) as [q E]. rewrite (M_bind_run _ _ _ _ _ E).
  assert (Hgo : forall text b, (length text <= 32)%nat -> exists buf' off' p',
    mbind (fun st => hive_loop hs b st) (mem (append_detail (buf, off) text)) q =
    Ok ((b && forallb (fun h => hive_good h.2) hs, (buf', off')), p')).
  { intros text b Ht. destruct (append_detail_run buf off text) as [buf' Ea]; [lia..|].
    rewrite M_bind_unfold. unfold mem at 1. rewrite Ea. apply IH; lia. }
  destruct (chosen paths) as [h|] eqn:Ec.
  2:{ rewrite andb_false_r. apply (Hgo _ false). rewrite length_app. simpl. lia. }
  destruct (chosen_length p _ _ Ec) as [Hl Hb]. rewrite run_mem_is by (change (length (zstr "regf")) with 4%nat; lia).
  change (take (length (zstr "regf")) (drop (Z.to_nat 0) h)) with (take 4 h).
  destruct (bool_decide (take 4 h = zstr "regf")); cbn [negb andb].
  2:{ rewrite andb_false_r. apply (Hgo _ false). rewrite length_app. simpl. lia. }
  rewrite !run_rd by lia. apply (Hgo _ all). rewrite !length_app.
  pose proof (fmt_u_length _ (field_range 4 20 h ltac:(lia) Hb)).
  pose proof (fmt_u_length _ (field_range 4 24 h ltac:(lia) Hb)). simpl. lia.
Qed.

(** V6 always returns a verdict: the four reports never run past the
    256-byte detail buffer whatever version numbers the hives carry, and it
    passes exactly when each of the four hives is readable at one of its three
    paths and starts with the hive signature. *)
Theorem v6_outcome ctx r (p : Proc W) : exists code r' p',
  bootdiag_v6_hive ctx r p = Ok ((code, r'), p') /\
  code = (if forallb (fun h => hive_good h.2) hives then BOOTDIAG_RESULT_PASS else BOOTDIAG_RESULT_FAIL).
Proof.
  unfold bootdiag_v6_hive.
  destruct (hive_loop_run hives true [] 0 p) as (buf & off & q & E);
    [repeat constructor; simpl; lia|lia|simpl; lia|].
  rewrite (M_bind_run _ _ _ _ _ E). cbn [andb].
  destruct (forallb _ _); cbn [negb]; eexists _, _, _; done.
Qed.
End FileTheorems.

(** ** V7 on a device that answers every read the same way *)

Section NtfsTheorems.
Context {W : Type} `{Win32Laws W}.
Variables (ctx : BOOTDIAG_CONTEXT) (disk : Z -> Z * list Z).
Hypothesis disk_stable : forall lba (p : Proc W), exists p',
  read_device_sector ctx lba 512 p = Ok (disk lba, p').

(** Where the $MFT is looked for: the byte at offset 13 is an exponent. *)
Lemma mft_lba_exact bps spc lcn c :
  bps = 512 \/ bps = 4096 -> 0 <= spc <= 19 -> 0 <= lcn -> lcn * (bps * 2 ^ spc) < 2 ^ 64 ->
  cluster_size bps spc = Ok c -> mft_lba lcn c bps = 2048 + lcn * 2 ^ spc.
Proof.
  intros Hbps Hspc Hlcn Hnw. unfold cluster_size. destruct (Z.leb_spec 32 spc); [done|]. intros [= <-].
  assert (1 <= 2 ^ spc <= 2 ^ 19) as Hp.
  { split; [apply (Z.pow_le_mono_r 2 0 spc); lia|apply Z.pow_le_mono_r; lia]. }
  rewrite Z.shiftl_1_l. unfold s32. rewrite sgn_small by lia. unfold u32. rewrite wrap_small by (destruct Hbps; lia).
  unfold mft_lba, u64. rewrite (wrap_small 64 (lcn * _)) by (destruct Hbps; nia).
  replace (lcn * (bps * 2 ^ spc)) with (lcn * 2 ^ spc * bps) by lia. rewrite Z.div_mul by (destruct Hbps; lia).
  apply wrap_small. destruct Hbps; nia.
Qed.

Lemma v7_sector_pass r s (p : Proc W) r' p' :
  length s = 512%nat -> Forall is_byte s ->
  v7_sector ctx r s p = Ok ((BOOTDIAG_RESULT_PASS, r'), p') ->
  let bps := field 2 11 s in let spc := field 1 13 s in let lcn := field 8 48 s in
  take 8 (drop 3 s) = zstr "NTFS    " /\ (bps = 512 \/ bps = 4096) /\ spc < 32 /\
  (spc <= 19 -> lcn * (bps * 2 ^ spc) < 2 ^ 64 ->
   exists m, disk (2048 + lcn * 2 ^ spc) = (0, m) /\ take 4 m = zstr "FILE").
Proof.
  intros Hl Hb Hr. cbv zeta. unfold v7_sector in Hr. minv_mem Hr. destruct v; cbn [negb] in Hr; [|by minv_mem Hr].
  apply mem_is_inv in E. rewrite !run_rd in Hr by lia.
  set (bps := field 2 11 s) in *. set (spc := field 1 13 s) in *. set (lcn := field 8 48 s) in *.
  assert (bps = 512 \/ bps = 4096) as Hbps.
  { destruct (Z.eqb_spec bps 512), (Z.eqb_spec bps 4096); auto. cbn [negb andb] in Hr. done. }
  replace (negb (bps =? 512) && negb (bps =? 4096)) with false in Hr by (by destruct Hbps as [-> | ->]).
  minv_mem Hr. minv Hr. apply (disk_read_inv _ disk disk_stable) in E1 as [-> _].
  destruct (disk (mft_lba lcn v bps)) as [rc m] eqn:Ed. destruct (Z.eqb_spec rc 0) as [->|]; cbn [negb] in Hr; [|done].
  minv_mem Hr. destruct v0; cbn [negb] in Hr; [|done]. apply mem_is_inv in E1.
  pose proof (field_range 1 13 s ltac:(lia) Hb) as Hspc. fold spc in Hspc.
  pose proof (field_range 8 48 s ltac:(lia) Hb) as Hlcn. fold lcn in Hlcn.
  split; [done|]. split; [done|]. split.
  - unfold cluster_size in E0. by destruct (Z.leb_spec 32 spc).
  - intros. rewrite (mft_lba_exact bps spc lcn v Hbps) in Ed by (done || lia). eauto.
Qed.

(** What a PASS of V7 means. The boot sector (sector 2048, or sector 0 when
    that cannot be read) is an NTFS one with 512 or 4096 bytes per sector, and
    the sector with the [FILE] record is the one at
    [2048 + lcn * 2 ^ (byte 13)]: the count of sectors per cluster is used as
    an exponent, so on a volume of 8 sectors per cluster the record is sought
    32 times too far. *)
Theorem v7_pass_location r (p : Proc W) r' p' :
  bootdiag_v7_ntfs ctx r p = Ok ((BOOTDIAG_RESULT_PASS, r'), p') ->
  exists s, (disk 2048 = (0, s) \/ (disk 2048).1 <> 0 /\ disk 0 = (0, s)) /\
  take 8 (drop 3 s) = zstr "NTFS    " /\ (field 2 11 s = 512 \/ field 2 11 s = 4096) /\ field 1 13 s < 32 /\
  (field 1 13 s <= 19 -> field 8 48 s * (field 2 11 s * 2 ^ field 1 13 s) < 2 ^ 64 ->
   exists m, disk (2048 + field 8 48 s * 2 ^ field 1 13 s) = (0, m) /\ take 4 m = zstr "FILE").
Proof.
  intros Hr. unfold bootdiag_v7_ntfs in Hr. minv Hr. apply (disk_read_inv _ disk disk_stable) in E as [-> _].
  destruct (disk 2048) as [rc s] eqn:E1. destruct (Z.eqb_spec rc 0) as [->|Hrc]; cbn [negb] in Hr.
  - destruct (disk_sector _ disk disk_stable p _ _ E1) as [Hb Hl]. exists s. split; [by left|].
    by eapply v7_sector_pass.
  - minv Hr. apply (disk_read_inv _ disk disk_stable) in E as [-> _]. destruct (disk 0) as [rc0 s0] eqn:E0.
    destruct (Z.eqb_spec rc0 0) as [->|]; cbn [negb] in Hr; [|done].
    destruct (disk_sector _ disk disk_stable p _ _ E0) as [Hb Hl]. exists s0. split; [by right|].
    by eapply v7_sector_pass.
Qed.
End NtfsTheorems.

(** ** V7 and the file checks on any machine *)

Section AnyReads.
Context {W : Type} `{Win32Laws W}.

Lemma v7_sector_concludes ctx r s (p : Proc W) :
  length s = 512%nat -> field 1 13 s < 32 -> concludes (v7_sector ctx r s) p.
Proof.
  intros Hl Hspc. unfold concludes, v7_sector.
  rewrite run_mem_is by (change (length (zstr "NTFS    ")) with 8%nat; lia).
  destruct (bool_decide _); cbn [negb]; [|rewrite run_rd_bytes by lia; apply concludes_fail].
  rewrite !run_rd by lia. destruct (_ && _); [apply concludes_fail|].
  rewrite M_bind_unfold. unfold mem at 1, cluster_size. destruct (Z.leb_spec 32 (field 1 13 s)); [lia|]. cbv zeta.
  match goal with |- context [read_device_sector ctx ?l 512] =>
    destruct (sector_any ctx l p) as (rc & m & p1 & E1 & Hm) end.
  rewrite (M_bind_run _ _ _ _ _ E1). destruct (Z.eqb_spec rc 0) as [->|]; cbn [negb]; [|apply concludes_fail].
  destruct (Hm eq_refl) as [Hlm _].
  rewrite run_mem_is by (change (length (zstr "FILE")) with 4%nat; lia).
  destruct (bool_decide _); cbn [negb]; [apply concludes_pass|apply concludes_fail].
Qed.

Lemma v7_concludes ctx r (p : Proc W) :
  (forall lba (p : Proc W) s p', lba = 0 \/ lba = 2048 -> read_device_sector ctx lba 512 p = Ok ((0, s), p') -> field 1 13 s < 32) ->
  concludes (bootdiag_v7_ntfs ctx r) p.
Proof.
  intros Hspc. unfold concludes, bootdiag_v7_ntfs.
  destruct (sector_any ctx 2048 p) as (rc & s & p1 & E1 & Hs). rewrite (M_bind_run _ _ _ _ _ E1).
  destruct (Z.eqb_spec rc 0) as [->|]; cbn [negb].
  - apply v7_sector_concludes; [by apply Hs|]. by eapply Hspc, E1; right.
  - destruct (sector_any ctx 0 p1) as (rc0 & s0 & p2 & E2 & Hs0). rewrite (M_bind_run _ _ _ _ _ E2).
    destruct (Z.eqb_spec rc0 0) as [->|]; cbn [negb]; [|apply concludes_fail].
    apply v7_sector_concludes; [by apply Hs0|]. by eapply Hspc, E2; left.
Qed.

(** The search loop gives a block some read returned, or nothing. *)
Lemma first_readable_any paths (p : Proc W) : exists o p', first_readable paths p = Ok (o, p') /\
  forall h, o = Some h -> length h = 4096%nat /\ Forall is_byte h /\
    exists path q q', path ∈ paths /\ read_file_bytes path 0 4096 q = Ok ((0, h), q').
Proof.
  revert p. induction paths as [|path rest IH]; intros p; simpl; [by eexists _, _|].
  assert (exists rc h q, read_file_bytes path 0 4096 p = Ok ((rc, h), q)) as (rc & h & q & E).
  { unfold read_file_bytes, sys, sys_. rewrite M_bind_unfold. destruct (CreateFileA _ _) as [[h|] w1]; [|by eexists _, _, _].
    change (0 <? 0) with false. cbn match. rewrite M_bind_unfold. cbn [mret M_ret negb].
    rewrite M_bind_unfold. cbn [os statics]. destruct (ReadFile h 4096 w1) as [[bs|] w3]; [|by eexists _, _, _].
    destruct (_ =? 4096); by eexists _, _, _. }
  rewrite (M_bind_run _ _ _ _ _ E). destruct (Z.eqb_spec rc 0) as [->|].
  - eexists _, _. split; [done|]. intros h' [= <-]. destruct (read_file_bytes_spec _ _ _ _ _ _ E eq_refl) as [Hl Hb].
    split; [lia|]. split; [done|]. exists path, p, q. split; [left|done].
  - destruct (IH q) as (o & p' & -> & Ho). exists o, p'. split; [done|]. intros h' Eh.
    destruct (Ho h' Eh) as (H1 & H2 & path' & q1 & q2 & Hin & Er). split_and!; try done. exists path', q1, q2. split; [by right|done].
Qed.

Lemma v2_concludes ctx r (p : Proc W) : concludes (bootdiag_v2_bcd ctx r) p.
Proof.
  unfold concludes, bootdiag_v2_bcd. destruct (first_readable_any bcd_paths p) as (o & q & E & Ho). rewrite (M_bind_run _ _ _ _ _ E).
  destruct o as [h|]; [|apply concludes_fail]. destruct (Ho h eq_refl) as (Hl & _).
  rewrite run_mem_is by (change (length (zstr "regf")) with 4%nat; lia). destruct (bool_decide _); cbn [negb]; [|apply concludes_fail].
  destruct (bcd_scan_run 4092 0 h false false Hl) as (b & o & Es & _); [lia..|]. rewrite M_bind_unfold, Es. unfold mem at 1.
  destruct b; cbn [negb]; [destruct o; cbn [negb]|]; [apply concludes_pass|apply concludes_fail..].
Qed.

Lemma v3_concludes ctx r (p : Proc W) :
  (forall path (q : Proc W) h q', path ∈ winload_paths -> read_file_bytes path 0 4096 q = Ok ((0, h), q') -> ~ overrun_image h) ->
  concludes (bootdiag_v3_winload ctx r) p.
Proof.
  intros Hno. unfold concludes, bootdiag_v3_winload. destruct (first_readable_any winload_paths p) as (o & q & E & Ho).
  rewrite (M_bind_run _ _ _ _ _ E). destruct o as [h|]; [|apply concludes_fail].
  destruct (Ho h eq_refl) as (Hl & Hb & path & q1 & q2 & Hin & Er). destruct (v3_image_cases r h q Hl Hb); [|done].
  by destruct (Hno path q1 h q2 Hin Er).
Qed.

Lemma hive_loop_any hs all buf off (p : Proc W) :
  Forall (fun h => (length h.1 <= 8)%nat) hs -> 0 <= off -> off + 32 * Z.of_nat (length hs) <= 255 ->
  exists b buf' off' p', hive_loop hs all (buf, off) p = Ok ((b, (buf', off')), p').
Proof.
  intros Hn. revert all buf off p. induction Hn as [|[name paths] hs Hname Hn IH]; intros all buf off p Ho Hk.
  { by eexists _, _, _, _. }
  cbn [length fst] in *. cbn [hive_loop].
  destruct (first_readable_any paths p) as (o & q & E & Hh). rewrite (M_bind_run _ _ _ _ _ E).
  assert (Hgo : forall text b, (length text <= 32)%nat -> exists b' buf' off' p',
    mbind (fun st => hive_loop hs b st) (mem (append_detail (buf, off) text)) q = Ok ((b', (buf', off')), p')).
  { intros text b Ht. destruct (append_detail_run buf off text) as [buf' Ea]; [lia..|].
    rewrite M_bind_unfold. unfold mem at 1. rewrite Ea. apply IH; lia. }
  destruct o as [h|]; [|apply Hgo; rewrite length_app; simpl; lia].
  destruct (Hh h eq_refl) as (Hl & Hb & _). rewrite run_mem_is by (change (length (zstr "regf")) with 4%nat; lia).
  destruct (bool_decide _); cbn [negb]; [|apply Hgo; rewrite length_app; simpl; lia].
  rewrite !run_rd by lia. apply Hgo. rewrite !length_app.
  pose proof (fmt_u_length _ (field_range 4 20 h ltac:(lia) Hb)).
  pose proof (fmt_u_length _ (field_range 4 24 h ltac:(lia) Hb)). simpl. lia.
Qed.

Lemma v6_concludes ctx r (p : Proc W) : concludes (bootdiag_v6_hive ctx r) p.
Proof.
  unfold concludes, bootdiag_v6_hive. destruct (hive_loop_any hives true [] 0 p) as (b & buf & off & q & E);
    [repeat constructor; simpl; lia|lia|simpl; lia|].
  rewrite (M_bind_run _ _ _ _ _ E). destruct b; cbn [negb]; [apply concludes_pass|apply concludes_fail].
Qed.
End AnyReads.

(** ** V4 and V5 always give a verdict *)

Section Probes.
Context {W : Type} `{Win32 W}.

Lemma probe_run sock lba f v l (p : Proc W) : length f = 64%nat ->
  exists f' v' l' p', probe sock lba (f, v, l) p = Ok ((f', v', l'), p') /\ length f' = 64%nat.
Proof.
  intros Hl. unfold probe.
  assert (Hw : forall m off src, 0 <= off -> length m = 64%nat -> off + Z.of_nat (length src) <= 64 ->
    length (copy_at m (Z.to_nat off) src) = 64%nat) by (intros; rewrite copy_at_length; lia).
  rewrite run_wr by (rewrite ?le_bytes_length; lia).
  set (f1 := copy_at f _ _). assert (length f1 = 64%nat) as H1 by (apply Hw; rewrite ?le_bytes_length; lia).
  rewrite run_wr by (rewrite ?le_bytes_length; lia).
  set (f2 := copy_at f1 _ _). assert (length f2 = 64%nat) as H2 by (apply Hw; rewrite ?le_bytes_length; lia).
  rewrite run_rd_bytes by lia. rewrite M_bind_unfold. unfold compute_crc32c at 1.
  destruct (bootdiag_compute_crc32c _ _) as [crc st]. rewrite run_wr by (rewrite ?le_bytes_length; lia).
  set (f3 := copy_at f2 _ _). assert (length f3 = 64%nat) as H3 by (apply Hw; rewrite ?le_bytes_length; lia).
  rewrite M_bind_unfold. unfold sys at 1. destruct (GetTickCount64 _) as [t1 w1].
  rewrite M_bind_unfold. unfold sys_ at 1. rewrite M_bind_unfold. unfold sys at 1. destruct (recv _ _ _) as [n w2].
  rewrite M_bind_unfold. unfold sys at 1. destruct (GetTickCount64 _) as [t2 w3].
  destruct (0 <? n); by eexists _, _, _, _.
Qed.

Lemma probe_loop_run sock lbas f v l (p : Proc W) : length f = 64%nat ->
  exists x p', probe_loop sock lbas (f, v, l) p = Ok (x, p').
Proof.
  revert f v l p. induction lbas as [|lba lbas IH]; intros f v l p Hl; simpl; [by eexists _, _|].
  destruct (probe_run sock lba f v l p Hl) as (f' & v' & l' & p' & E & Hl'). rewrite (M_bind_run _ _ _ _ _ E).
  by apply IH.
Qed.

Lemma v4_concludes ctx r (p : Proc W) : concludes (bootdiag_v4_block_read ctx r) p.
Proof.
  unfold concludes, bootdiag_v4_block_read. rewrite M_bind_unfold. unfold sys at 1. destruct (WSAStartup _) as [z w].
  destruct (z =? 0); cbn [negb]; [|apply concludes_fail]. rewrite M_bind_unfold. unfold sys at 1.
  destruct (socket _) as [s w1]. destruct (s <? 0); [apply concludes_fail|]. cbv zeta.
  do 2 (rewrite M_bind_unfold; unfold sys_ at 1). rewrite M_bind_unfold. unfold sys at 1.
  destruct (connect _ _ _ _) as [c w2]. destruct (c =? 0); cbn [negb]; [|apply concludes_fail].
  unfold v4_probes. rewrite M_bind_unfold. unfold mem at 1.
  destruct req_prepare as [f| |] eqn:Ef; [|by vm_compute in Ef..].
  assert (length f = 64%nat) as Hf by (vm_compute in Ef; by injection Ef as <-).
  match goal with |- context [mbind _ (probe_loop s test_lbas (f, 0, 0)) ?q] =>
    destruct (probe_loop_run s test_lbas f 0 0 q Hf) as ([[f' v] l] & p' & E) end.
  rewrite (M_bind_run _ _ _ _ _ E). do 2 (rewrite M_bind_unfold; unfold sys_ at 1).
  destruct (v <? 3); [apply concludes_fail|apply concludes_pass].
Qed.

Lemma first_open_run paths (p : Proc W) : exists h p', first_open paths p = Ok (h, p').
Proof.
  revert p. induction paths as [|path rest IH]; intros p; simpl; [by eexists _, _|].
  rewrite M_bind_unfold. unfold sys at 1. destruct (CreateFileA _ _) as [[h|] w]; [by eexists _, _|apply IH].
Qed.

Lemma v5_concludes ctx r (p : Proc W) : concludes (bootdiag_v5_paging_io ctx r) p.
Proof.
  unfold concludes, bootdiag_v5_paging_io. destruct (first_open_run alt_paths p) as (h & p' & E).
  rewrite (M_bind_run _ _ _ _ _ E). destruct h as [h|]; [|apply concludes_fail].
  rewrite M_bind_unfold. unfold sys at 1. destruct (ReadFile _ _ _) as [[bs|] w];
    rewrite M_bind_unfold; unfold sys_ at 1; [apply concludes_pass|apply concludes_fail].
Qed.
End Probes.


(** ** The checks on the concrete machine *)

Section SimReads.
Variable fs : FS.

(** What a read of [n] bytes at [off] of a file delivers. *)
Definition sim_block (path : list Z) (off n : Z) : Z * list Z :=
  match fs path with
  | None => (-1, [])
  | Some f =>
      let bs := u8 <$> take (Z.to_nat n) (f off n) in
      if Z.of_nat (length bs) =? n then (0, bs) else (-3, [])
  end.
Definition sim_disk (ctx : BOOTDIAG_CONTEXT) (lba : Z) : Z * list Z :=
  sim_block (device_path ctx) (s64 (lba * 512)) 512.
Definition sim_files (path : list Z) : Z * list Z := sim_block path 0 4096.

Lemma sim_disk_stable ctx lba (p : Proc (Sim fs)) : exists p',
  read_device_sector ctx lba 512 p = Ok (sim_disk ctx lba, p').
Proof.
  unfold read_device_sector, sim_disk, sim_block, sys, sys_. rewrite M_bind_unfold. simpl.
  destruct (fs (device_path ctx)) as [f|] eqn:E; [|by eexists].
  rewrite M_bind_unfold. simpl. rewrite M_bind_unfold. unfold sim_read. simpl. rewrite E.
  destruct (_ =? 512) eqn:El; simpl; rewrite M_bind_unfold; by eexists.
Qed.

Lemma sim_sector ctx lba (p : Proc (Sim fs)) rc s p' :
  read_device_sector ctx lba 512 p = Ok ((rc, s), p') -> s = (sim_disk ctx lba).2.
Proof. destruct (sim_disk_stable ctx lba p) as [q ->]. intros [= E _]. by rewrite E. Qed.

Lemma sim_files_stable path (p : Proc (Sim fs)) : exists p',
  read_file_bytes path 0 4096 p = Ok (sim_files path, p').
Proof.
  unfold read_file_bytes, sim_files, sim_block, sys, sys_. rewrite M_bind_unfold. simpl.
  destruct (fs path) as [f|] eqn:E; [|by eexists].
  rewrite M_bind_unfold. simpl. rewrite M_bind_unfold. unfold sim_read. simpl. rewrite E.
  destruct (_ =? 4096) eqn:El; simpl; rewrite M_bind_unfold; by eexists.
Qed.
End SimReads.

(** A disk that passes V1: four entries, an EFI system partition and a Windows
    one, with the signature bytes and the checksum the check asks for. *)
Definition demo_crc (bs : list Z) : list Z := le_bytes 4 (bootdiag_compute_crc32c bs crc_cold).1.
Definition demo_s0 : list Z :=
  copy_at (copy_at (replicate 512 0) 446 [0xEE]) 510 [0xAA; 0x55].
Definition demo_table : list Z :=
  copy_at (copy_at (replicate 512 0) 0 efi_sp_guid) 128 win_guid.
Definition demo_header0 : list Z :=
  zstr "EFI PART" ++ le_bytes 4 0x10000 ++ le_bytes 4 92 ++ le_bytes 4 0 ++ le_bytes 4 0 ++
  le_bytes 8 1 ++ le_bytes 8 100 ++ replicate 40 0 ++ le_bytes 4 4 ++ le_bytes 4 128 ++ demo_crc demo_table.
Definition demo_s1 : list Z := copy_at demo_header0 16 (demo_crc demo_header0) ++ replicate 420 0.
Definition demo_device (s0 : list Z) : FS := fun path =>
  if bool_decide (path = zstr "D")
  then Some (fun off n => if off =? 0 then s0 else if off =? 512 then demo_s1 else demo_table)
  else None.
Definition demo_ctx : BOOTDIAG_CONTEXT :=
  mkContext (zstr "D") (zstr "10.10.200.10") 9527 30 1 false [] [] 0 0 0 0 false.
Definition demo_result : BOOTDIAG_RESULT := mkResult 1 [] 0 0 [] 0.

Definition demo_run : (Z * BOOTDIAG_RESULT) * Proc (Sim (demo_device demo_s0)) :=
  match bootdiag_v1_gpt demo_ctx demo_result (sim_start (demo_device demo_s0)) with
  | Ok x => x
  | _ => ((9, demo_result), sim_start _)
  end.

Lemma v1_pass_sound_witness : exists s0 s1 table n,
  GptGood (sim_disk (demo_device demo_s0) demo_ctx) s0 s1 table n.
Proof.
  apply (v1_pass_sound demo_ctx _ (sim_disk_stable _ demo_ctx) demo_result
           (sim_start (demo_device demo_s0)) demo_run.1.2 demo_run.2); [done|vm_compute; reflexivity].
Defined.

Lemma v1_total_witness : exists code r' p',
  bootdiag_v1_gpt demo_ctx demo_result (sim_start (demo_device demo_s0)) = Ok ((code, r'), p') /\
  (code = BOOTDIAG_RESULT_PASS \/ code = BOOTDIAG_RESULT_FAIL).
Proof.
  apply (v1_total demo_ctx). intros p s1 p' Er. rewrite (sim_sector _ _ _ _ _ _ _ Er). by vm_compute.
Defined.

(** Files for the other checks: a boot configuration, a loader image whose
    header sits at the very end of the block, hives, and an NTFS volume. *)
Definition demo_bcd : list Z :=
  zstr "regf" ++ replicate 60 0 ++ bootmgr_guid ++ replicate 10 0 ++ osloader_guid ++ replicate 3946 0.
Definition demo_winload : list Z :=
  copy_at (copy_at (zstr "MZ" ++ replicate 4094 0) 60 (le_bytes 4 4091)) 4091 [80; 69; 0; 0].
Definition demo_files : FS := fun path =>
  if bool_decide (path ∈ bcd_paths) then Some (fun _ _ => demo_bcd)
  else if bool_decide (path ∈ winload_paths) then Some (fun _ _ => demo_winload)
  else None.
Definition demo_boot : list Z :=
  copy_at (copy_at (copy_at (replicate 512 0) 3 (zstr "NTFS    ")) 11 [0; 2; 3]) 48 (le_bytes 8 4).
Definition demo_volume : FS := fun path =>
  if bool_decide (path = zstr "D")
  then Some (fun off n => if off =? 2048 * 512 then demo_boot
                          else if off =? 2080 * 512 then zstr "FILE" ++ replicate 508 0 else replicate 512 0)
  else None.

Lemma v2_outcome_witness : exists code r' p',
  bootdiag_v2_bcd demo_ctx demo_result (sim_start demo_files) = Ok ((code, r'), p') /\
  (code = BOOTDIAG_RESULT_PASS \/ code = BOOTDIAG_RESULT_FAIL) /\
  (code = BOOTDIAG_RESULT_PASS <-> exists h, chosen (sim_files demo_files) bcd_paths = Some h /\
     take 4 h = zstr "regf" /\ occurs bootmgr_guid h 0 4092 /\ occurs osloader_guid h 0 4092).
Proof. apply (v2_outcome _ (sim_files_stable demo_files)). Defined.

Lemma v3_faults_exactly_witness : bootdiag_v3_winload demo_ctx demo_result (sim_start demo_files) = Fault.
Proof.
  apply (v3_faults_exactly _ (sim_files_stable demo_files) demo_ctx demo_result). exists demo_winload.
  repeat split; vm_compute; reflexivity.
Defined.

Lemma v6_outcome_witness : exists code r' p',
  bootdiag_v6_hive demo_ctx demo_result (sim_start demo_files) = Ok ((code, r'), p') /\
  code = (if forallb (fun h => hive_good (sim_files demo_files) h.2) hives
          then BOOTDIAG_RESULT_PASS else BOOTDIAG_RESULT_FAIL).
Proof. apply (v6_outcome _ (sim_files_stable demo_files)). Defined.

Definition demo_v7 : (Z * BOOTDIAG_RESULT) * Proc (Sim demo_volume) :=
  match bootdiag_v7_ntfs demo_ctx demo_result (sim_start demo_volume) with
  | Ok x => x
  | _ => ((9, demo_result), sim_start _)
  end.

Lemma v7_pass_location_witness : exists s, (sim_disk demo_volume demo_ctx 2048 = (0, s) \/
    (sim_disk demo_volume demo_ctx 2048).1 <> 0 /\ sim_disk demo_volume demo_ctx 0 = (0, s)) /\
  take 8 (drop 3 s) = zstr "NTFS    " /\ (field 2 11 s = 512 \/ field 2 11 s = 4096) /\ field 1 13 s < 32 /\
  (field 1 13 s <= 19 -> field 8 48 s * (field 2 11 s * 2 ^ field 1 13 s) < 2 ^ 64 ->
   exists m, sim_disk demo_volume demo_ctx (2048 + field 8 48 s * 2 ^ field 1 13 s) = (0, m) /\ take 4 m = zstr "FILE").
Proof.
  apply (v7_pass_location demo_ctx _ (sim_disk_stable demo_volume demo_ctx) demo_result
           (sim_start demo_volume) demo_v7.1.2 demo_v7.2). vm_compute. reflexivity.
Defined.
