(* ===== verification/BootMain.v ===== *)
(** * The boot diagnostic tool: options, runner, verdict

    The rest of src/tools/bootdiag/main.c: the command line, the loop over the
    seven checks with its retries, the tally, the boot.meta flags and the exit
    code that lets the boot go on or blocks it. *)

From S2P Require Import Prelude Crc32c BootEnv BootChecks.

(** ** The command line *)

(** [strncmp (s, lit, length lit) == 0], and what follows the prefix. *)
Fixpoint after_prefix (lit s : list Z) : option (list Z) :=
  match lit, s with
  | [], _ => Some s
  | a :: l, b :: r => if a =? b then after_prefix l r else None
  | _ :: _, [] => None
  end.

(** [atoi]: white space, a sign, digits; out of range it saturates. *)
Definition is_space (c : Z) : bool := (c =? 32) || ((9 <=? c) && (c <=? 13)).
Fixpoint skip_space (s : list Z) : list Z :=
  match s with
  | c :: r => if is_space c then skip_space r else s
  | [] => []
  end.
Fixpoint read_digits (acc : Z) (s : list Z) : Z :=
  match s with
  | c :: r => if (48 <=? c) && (c <=? 57) then read_digits (10 * acc + (c - 48)) r else acc
  | [] => acc
  end.
Definition saturate (z : Z) : Z := Z.max (- 2 ^ 31) (Z.min (2 ^ 31 - 1) z).
Definition atoi (s : list Z) : Z :=
  match skip_space s with
  | 45 :: r => saturate (- read_digits 0 r)
  | 43 :: r => saturate (read_digits 0 r)
  | r => saturate (read_digits 0 r)
  end.

(** [strtok] with the delimiter [","]: the non-empty fields, in order. *)
Fixpoint strtok_comma (cur s : list Z) : list (list Z) :=
  match s with
  | [] => if bool_decide (cur = []) then [] else [cur]
  | c :: r =>
      if c =? 44
      then (if bool_decide (cur = []) then strtok_comma [] r else cur :: strtok_comma [] r)
      else strtok_comma (cur ++ [c]) r
  end.

Record Options : Type := mkOptions {
  o_ctx : BOOTDIAG_CONTEXT;
  skip_checks : list bool;
  retry_count : Z;
}.

Definition mark_skip (skips : list bool) (tok : list Z) : list bool :=
  let id := atoi tok in
  if (1 <=? id) && (id <=? Z.of_nat BOOTDIAG_CHECK_COUNT) then <[Z.to_nat (id - 1) := true]> skips else skips.

Definition upd_ctx (o : Options) (dev srv : list Z) (port tmo out : Z) (verb : bool) (log : list Z) : Options :=
  let c := o_ctx o in
  mkOptions (mkContext dev srv port tmo out verb log (results c) (total_pass c) (total_fail c) (total_skip c)
               (total_elapsed_ms c) (bootdiag_executed c)) (skip_checks o) (retry_count o).

Definition output_of (t : list Z) (old : Z) : Z :=
  if bool_decide (t = zstr "com1") then BOOTDIAG_OUTPUT_COM1
  else if bool_decide (t = zstr "console") then BOOTDIAG_OUTPUT_CONSOLE
  else if bool_decide (t = zstr "file") then BOOTDIAG_OUTPUT_FILE
  else old.

(** One argument; [None] is [--help], which ends the program. *)
Definition parse_arg (o : Options) (a : list Z) : option Options :=
  let c := o_ctx o in
  match after_prefix (zstr "--device=") a with
  | Some v => Some (upd_ctx o (fits 256 v) (server_addr c) (server_port c) (timeout_sec c) (output_target c) (verbose c) (log_path c))
  | None =>
  match after_prefix (zstr "--server=") a with
  | Some v => Some (upd_ctx o (device_path c) (fits 64 v) (server_port c) (timeout_sec c) (output_target c) (verbose c) (log_path c))
  | None =>
  match after_prefix (zstr "--port=") a with
  | Some v => Some (upd_ctx o (device_path c) (server_addr c) (u16 (atoi v)) (timeout_sec c) (output_target c) (verbose c) (log_path c))
  | None =>
  match after_prefix (zstr "--timeout=") a with
  | Some v => Some (upd_ctx o (device_path c) (server_addr c) (server_port c) (u32 (atoi v)) (output_target c) (verbose c) (log_path c))
  | None =>
  match after_prefix (zstr "--output=") a with
  | Some v => Some (upd_ctx o (device_path c) (server_addr c) (server_port c) (timeout_sec c) (output_of v (output_target c)) (verbose c) (log_path c))
  | None =>
  match after_prefix (zstr "--log=") a with
  | Some v => Some (upd_ctx o (device_path c) (server_addr c) (server_port c) (timeout_sec c) (output_target c) (verbose c) (fits 260 v))
  | None =>
  if bool_decide (a = zstr "--verbose") then
    Some (upd_ctx o (device_path c) (server_addr c) (server_port c) (timeout_sec c) (output_target c) true (log_path c))
  else
  match after_prefix (zstr "--skip=") a with
  | Some v => Some (mkOptions c (foldl mark_skip (skip_checks o) (strtok_comma [] (fits 64 v))) (retry_count o))
  | None =>
  match after_prefix (zstr "--retry=") a with
  | Some v => Some (mkOptions c (skip_checks o) (u32 (atoi v)))
  | None => if bool_decide (a = zstr "--help") then None else Some o
  end end end end end end end end.

Fixpoint parse_args (o : Options) (args : list (list Z)) : option Options :=
  match args with
  | [] => Some o
  | a :: rest =>
      match parse_arg o a with
      | None => None
      | Some o => parse_args o rest
      end
  end.

Definition result0 : BOOTDIAG_RESULT := mkResult 0 [] 0 0 [] 0.
Definition options0 : Options :=
  mkOptions (mkContext (zstr "\\.\HyperDisk0") (zstr "10.10.200.10") 9527 30 BOOTDIAG_OUTPUT_CONSOLE false
               (zstr "C:\HyperDisk\diag\bootdiag.log") (replicate BOOTDIAG_CHECK_COUNT result0) 0 0 0 0 false)
            (replicate BOOTDIAG_CHECK_COUNT false) 0.

(** ** The verdict *)

Definition failed (r : BOOTDIAG_RESULT) : bool := result r =? BOOTDIAG_RESULT_FAIL.

Definition bootdiag_critical_fail_count (ctx : BOOTDIAG_CONTEXT) : Z :=
  Z.of_nat (length (filter (fun r => failed r = true) (take BOOTDIAG_CHECK_CRITICAL_COUNT (results ctx)))).
Definition bootdiag_gate_check (ctx : BOOTDIAG_CONTEXT) : Z :=
  if 0 <? bootdiag_critical_fail_count ctx then 1 else 0.
Definition bootdiag_is_critical_check (id : Z) : bool :=
  (1 <=? id) && (id <=? Z.of_nat BOOTDIAG_CHECK_CRITICAL_COUNT).

(** The loop of [bootdiag_update_boot_meta_flags] from check [i] on. *)
Fixpoint flag_loop (rs : list BOOTDIAG_RESULT) (i flags : Z) : Z :=
  match rs with
  | [] => flags
  | r :: rest => flag_loop rest (i + 1) (if failed r then u16 (Z.lor flags (Z.shiftl 1 (3 + i))) else flags)
  end.
Definition boot_meta_flags (ctx : BOOTDIAG_CONTEXT) : Z :=
  let flags := if bootdiag_executed ctx then u16 (Z.lor 0 (Z.shiftl 1 2)) else 0 in
  let flags := flag_loop (take BOOTDIAG_CHECK_COUNT (results ctx)) 0 flags in
  if (total_fail ctx =? 0) && (total_pass ctx =? Z.of_nat BOOTDIAG_CHECK_COUNT)
  then u16 (Z.lor flags (Z.shiftl 1 10)) else flags.

(** ** The runner *)

Definition check_names : list (list Z) :=
  [zstr "GPT Partition Table"; zstr "BCD Boot Configuration"; zstr "winload.efi Readable";
   zstr "Block Read (ImageServer)"; zstr "Paging IO Path"; zstr "Registry Hive"; zstr "NTFS Metadata"].

Definition set_results (c : BOOTDIAG_CONTEXT) (rs : list BOOTDIAG_RESULT) (dp df ds : Z) : BOOTDIAG_CONTEXT :=
  mkContext (device_path c) (server_addr c) (server_port c) (timeout_sec c) (output_target c) (verbose c)
    (log_path c) rs (u32 (total_pass c + dp)) (u32 (total_fail c + df)) (u32 (total_skip c + ds))
    (total_elapsed_ms c) (bootdiag_executed c).
Definition set_result (c : BOOTDIAG_CONTEXT) (i : nat) (r : BOOTDIAG_RESULT) : BOOTDIAG_CONTEXT :=
  mkContext (device_path c) (server_addr c) (server_port c) (timeout_sec c) (output_target c) (verbose c)
    (log_path c) (<[i := r]> (results c)) (total_pass c) (total_fail c) (total_skip c)
    (total_elapsed_ms c) (bootdiag_executed c).
Definition set_end (c : BOOTDIAG_CONTEXT) (ms : Z) (executed : bool) : BOOTDIAG_CONTEXT :=
  mkContext (device_path c) (server_addr c) (server_port c) (timeout_sec c) (output_target c) (verbose c)
    (log_path c) (results c) (total_pass c) (total_fail c) (total_skip c) ms executed.

Section Runner.
Context {W : Type} `{Win32 W}.

Definition bootdiag_update_boot_meta_flags (ctx : BOOTDIAG_CONTEXT) : M W () :=
  bootdiag_output ctx (zstr "boot.meta flags update: 0x" ++ fmt_X 4 (boot_meta_flags ctx)).

Definition usage : list (list Z) :=
  [zstr "bootdiag.exe — HTKIS HyperDisk X Boot Diagnostic Tool v1.0";
   zstr "Usage: bootdiag.exe [options]";
   zstr "Options:";
   zstr "  --device=<path>     Virtual disk device path";
   zstr "  --server=<addr>     ImageServer address (default: 10.10.200.10)";
   zstr "  --port=<port>       ImageServer port (default: 9527)";
   zstr "  --timeout=<sec>     Per-check timeout in seconds (default: 30)";
   zstr "  --output=<target>   Output target: com1|console|file (default: console)";
   zstr "  --log=<path>        Log file path (default: C:\HyperDisk\diag\bootdiag.log)";
   zstr "  --verbose           Verbose output mode";
   zstr "  --skip=<checks>     Skip checks (comma-separated: 1,2,3,4,5,6,7)";
   zstr "  --retry=<count>     Retry count for failed checks (default: 0)";
   zstr "  --help              Show this help"].
Definition print_usage : M W () := sys_ (fun w => foldl (fun w l => stdout_line l w) w usage).

(** The [do ... while] loop on check [i]. *)
Fixpoint attempts (fuel : nat) (check : Check) (i : nat) (retry attempt : Z) (ctx : BOOTDIAG_CONTEXT)
    : M W (Z * BOOTDIAG_CONTEXT) :=
  match fuel with
  | O => fun _ => NoFuel
  | S fuel' =>
      check_start ← sys GetTickCount64;
      r ← mem (of_opt (results ctx !! i));
      '(check_result, r) ← check ctx r;
      check_end ← sys GetTickCount64;
      let r := mkResult (check_id r) (check_name r) (u8 check_result) (u32 (check_end - check_start))
                 (detail r) (error_code r) in
      let ctx := set_result ctx i r in
      let attempt := u32 (attempt + 1) in
      if negb (check_result =? BOOTDIAG_RESULT_PASS) && (attempt <=? retry)
      then attempts fuel' check i retry attempt ctx
      else mret (check_result, ctx)
  end.

(** One turn of the main loop. *)
Definition run_one (fuel : nat) (check : Check) (name : list Z) (i : nat) (skip : bool) (retry : Z)
    (ctx : BOOTDIAG_CONTEXT) : M W BOOTDIAG_CONTEXT :=
  r ← mem (of_opt (results ctx !! i));
  if skip then
    let r := mkResult (u8 (Z.of_nat i + 1)) (fits 32 name) BOOTDIAG_RESULT_SKIP 0
               (fits 256 (zstr "Skipped by --skip option")) (error_code r) in
    let ctx := set_results ctx (<[i := r]> (results ctx)) 0 0 1 in
    _ ← bootdiag_output_result ctx r;
    mret ctx
  else
    let r := mkResult (u8 (Z.of_nat i + 1)) (fits 32 name) (result r) (elapsed_ms r) (detail r) (error_code r) in
    '(check_result, ctx) ← attempts fuel check i retry 0 (set_result ctx i r);
    let ctx := if check_result =? BOOTDIAG_RESULT_PASS then set_results ctx (results ctx) 1 0 0
               else set_results ctx (results ctx) 0 1 0 in
    r ← mem (of_opt (results ctx !! i));
    _ ← bootdiag_output_result ctx r;
    mret ctx.

Fixpoint run_checks (fuel : nat) (cs : list (Check * list Z * bool)) (i : nat) (retry : Z)
    (ctx : BOOTDIAG_CONTEXT) : M W BOOTDIAG_CONTEXT :=
  match cs with
  | [] => mret ctx
  | (check, name, skip) :: rest =>
      ctx ← run_one fuel check name i skip retry ctx;
      run_checks fuel rest (S i) retry ctx
  end.

(** The lines for failed checks, from number [i] on. *)
Fixpoint failure_lines (tag : list Z) (i : Z) (rs : list BOOTDIAG_RESULT) : list (list Z) :=
  match rs with
  | [] => []
  | r :: rest =>
      (if failed r then [tag ++ fmt_d (i + 1) ++ zstr " (" ++ check_name r ++ zstr "): " ++ detail r] else []) ++
      failure_lines tag (i + 1) rest
  end.

Definition rule : list Z := zstr "========================================".
Definition banner (ctx : BOOTDIAG_CONTEXT) : list (list Z) :=
  [rule; zstr "bootdiag.exe v1.0 — HTKIS HyperDisk X"; zstr "Device: " ++ device_path ctx;
   zstr "Server: " ++ server_addr ctx ++ zstr ":" ++ fmt_u (server_port ctx);
   zstr "Timeout: " ++ fmt_u (timeout_sec ctx) ++ zstr "s per check"; rule].

Definition summary (ctx : BOOTDIAG_CONTEXT) : list (list Z) :=
  [zstr "============================================";
   zstr "Total: " ++ fmt_u (total_pass ctx) ++ zstr "/7 PASSED, " ++ fmt_u (total_fail ctx) ++ zstr " FAILED, " ++
   fmt_u (total_skip ctx) ++ zstr " SKIPPED, Time: " ++ fmt_u (total_elapsed_ms ctx) ++ zstr "ms"] ++
  (if bootdiag_gate_check ctx =? 0 then
     if total_fail ctx =? 0 then [zstr "ALL CHECKS PASSED — safe to proceed to BootMgr"]
     else zstr "CRITICAL CHECKS PASSED — non-critical failures, degraded boot allowed" ::
          failure_lines (zstr "  WARN V") 3 (take 4 (drop BOOTDIAG_CHECK_CRITICAL_COUNT (results ctx)))
   else [zstr "CRITICAL CHECKS FAILED — blocking BootMgr startup"; zstr "Critical failures:"] ++
        failure_lines (zstr "  FAIL V") 0 (take BOOTDIAG_CHECK_CRITICAL_COUNT (results ctx))).

(** From the banner to the exit code. *)
Definition run_tool (fuel : nat) (o : Options) : M W (Z * BOOTDIAG_CONTEXT) :=
  let ctx := o_ctx o in
  _ ← output_lines ctx (banner ctx);
  total_start ← sys GetTickCount64;
  ctx ← run_checks fuel (zip (zip checks check_names) (skip_checks o)) 0 (retry_count o) ctx;
  total_end ← sys GetTickCount64;
  let ctx := set_end ctx (u64 (total_end - total_start)) (bootdiag_executed ctx) in
  _ ← output_lines ctx (summary ctx);
  let ctx := set_end ctx (total_elapsed_ms ctx) true in
  _ ← bootdiag_update_boot_meta_flags ctx;
  mret (bootdiag_gate_check ctx, ctx).

Definition main (fuel : nat) (args : list (list Z)) : M W Z :=
  match parse_args options0 args with
  | None => _ ← print_usage; mret 0
  | Some o => '(code, _) ← run_tool fuel o; mret code
  end.
End Runner.

(** ** Every check ends in PASS or FAIL *)

Section Verdicts.
Context {W : Type} `{Win32 W}.

Definition ends (c : M W (Z * BOOTDIAG_RESULT)) : Prop := forall p code r p',
  c p = Ok ((code, r), p') -> code = BOOTDIAG_RESULT_PASS \/ code = BOOTDIAG_RESULT_FAIL.

Lemma ends_bind {A} (c : M W A) k : (forall a, ends (k a)) -> ends (mbind k c).
Proof. intros Hk p code r p' E. apply M_bind_inv in E as (a & q & _ & E). by eapply Hk. Qed.

Lemma ends_fail r code d : ends (fail_with r code d).
Proof. intros p c r' p' [= <- <- <-]. by right. Qed.

Lemma ends_pass r : ends (mret (BOOTDIAG_RESULT_PASS, r)).
Proof. intros p c r' p' [= <- <- <-]. by left. Qed.

Ltac verdicts := cbv zeta; repeat match goal with
  | |- ends (fail_with _ _ _) => apply ends_fail
  | |- ends (mret _) => apply ends_pass
  | |- ends (if ?b then _ else _) => destruct b
  | |- ends (match ?x with _ => _ end) => destruct x
  | |- ends (mbind _ _) => apply ends_bind; intros ?
  end.

Lemma checks_end c ctx r : c ∈ checks -> ends (c ctx r).
Proof.
  unfold checks. rewrite !elem_of_cons, elem_of_nil. intros Hc. decompose [or] Hc; subst; try done.
  - unfold bootdiag_v1_gpt, v1_header, v1_table. verdicts.
  - unfold bootdiag_v2_bcd. verdicts.
  - unfold bootdiag_v3_winload, v3_image. verdicts.
  - unfold bootdiag_v4_block_read, v4_probes. verdicts.
  - unfold bootdiag_v5_paging_io. verdicts.
  - unfold bootdiag_v6_hive. verdicts.
  - unfold bootdiag_v7_ntfs, v7_sector. verdicts.
Qed.
End Verdicts.

(** ** The tool gives back what it takes *)

Section RunnerLedger.
Context {W : Type} `{Win32Laws W}.

Lemma keeps_attempts fuel (c : Check) i retry a ctx :
  (forall ctx r, keeps (c ctx r)) -> keeps (attempts fuel c i retry a ctx).
Proof.
  intros Hc. unfold keeps. revert a ctx.
  induction fuel as [|fuel IH]; intros a ctx; simpl; [done|]. cbv zeta. ledger.
Qed.

Lemma keeps_run_one fuel (c : Check) name i skip retry ctx :
  (forall ctx r, keeps (c ctx r)) -> keeps (run_one fuel c name i skip retry ctx).
Proof.
  intros Hc. unfold keeps, run_one. cbv zeta. apply owes_bind; [apply owes_mem|]. intros r.
  destruct skip; [ledger|]. apply owes_bind; [by apply keeps_attempts|]. intros ?. ledger.
Qed.

Lemma keeps_run_checks fuel (cs : list (Check * list Z * bool)) i retry ctx :
  Forall (fun c => forall ctx r, keeps (c.1.1 ctx r)) cs -> keeps (run_checks fuel cs i retry ctx).
Proof.
  unfold keeps. revert i ctx. induction cs as [|[[c n] s] cs IH]; intros i ctx Hc; simpl; [apply owes_ret|].
  apply Forall_cons in Hc as [Hc Hcs]. apply owes_bind; [by apply keeps_run_one|]. intros ?. by apply IH.
Qed.

Lemma zip_checks skips : Forall (fun c : Check * list Z * bool => c.1.1 ∈ checks) (zip (zip checks check_names) skips).
Proof.
  apply Forall_forall. intros [[c n] s] Hc. apply elem_of_zip_l, elem_of_zip_l in Hc. done.
Qed.

Lemma keeps_run_tool fuel o : keeps (run_tool fuel o).
Proof.
  unfold keeps, run_tool. cbv zeta. apply owes_bind; [apply keeps_output_lines|]. intros _.
  apply owes_sys_quiet; [intros; apply held_tick|]. intros t0. apply owes_bind.
  { apply keeps_run_checks. eapply Forall_impl; [apply zip_checks|]. intros c Hc ctx r. by apply keeps_checks. }
  intros ctx. unfold bootdiag_update_boot_meta_flags. ledger.
Qed.

Lemma keeps_usage : keeps print_usage.
Proof.
  apply owes_sys_last. intros w. rewrite take_one_none. generalize usage. intros ls. revert w.
  induction ls as [|l ls IH]; intros w; simpl; [done|]. by rewrite IH, held_stdout.
Qed.

(** The tool leaks nothing. On every machine that keeps count of what it
    hands out, a run of [main] that returns holds exactly what it held before:
    each file handle, heap block, Winsock reference, socket and log file it
    took, on any path through any check, has been given back. *)
Theorem boot_no_leak fuel args (p : Proc W) code p' :
  main fuel args p = Ok (code, p') -> held (os p') = held (os p).
Proof.
  intros E. cut (keeps (main fuel args)).
  { intros Hk. destruct (Hk _ _ _ E) as [Hh _]. by rewrite take_one_none in Hh. }
  unfold keeps, main. destruct (parse_args _ _).
  - apply owes_bind; [apply keeps_run_tool|]. intros [? ?]. ledger.
  - apply owes_bind; [apply keeps_usage|]. intros ?. ledger.
Qed.
End RunnerLedger.

(** ** The runner: what the results and the totals say *)

(** How many results carry a given code. *)
Definition tally (v : Z) (rs : list BOOTDIAG_RESULT) : Z :=
  Z.of_nat (length (filter (fun r => result r = v) rs)).

Section RunnerSpec.
Context {W : Type} `{Win32 W}.

(** [P] holds of every verdict the check gives on a device [dev]. *)
Definition always (P : Z -> Prop) (dev : list Z) (c : Check) : Prop := forall ctx r (p : Proc W) code r' p',
  device_path ctx = dev -> c ctx r p = Ok ((code, r'), p') -> P code.

Lemma sys_inv {A} (f : W -> A * W) p a p' : sys f p = Ok (a, p') -> statics p' = statics p.
Proof. unfold sys. destruct (f (os p)). by intros [= <- <-]. Qed.

Lemma attempts_spec P dev fuel (c : Check) i retry a ctx (p : Proc W) code ctx' p' :
  always P dev c -> device_path ctx = dev ->
  attempts fuel c i retry a ctx p = Ok ((code, ctx'), p') ->
  P code /\ exists r', ctx' = set_result ctx i r' /\ result r' = u8 code /\ (i < length (results ctx))%nat.
Proof.
  intros Hc. revert a ctx p. induction fuel as [|fuel IH]; intros a ctx p Hd Hr; [done|].
  cbn [attempts] in Hr. minv Hr. minv_mem Hr. minv Hr. destruct v1 as [cr r]. minv Hr.
  destruct (results ctx !! i) as [r1|] eqn:Ei; [|done]. apply lookup_lt_Some in Ei.
  destruct (negb _ && _).
  - apply IH in Hr as (HP & r' & -> & Hu & _); [|done]. split; [done|]. exists r'. split; [|done].
    unfold set_result; simpl. by rewrite list_insert_insert_eq.
  - injection Hr as <- <- <-. split; [by eapply Hc|]. eexists. done.
Qed.

(** What one turn of the main loop does to the context. *)
Lemma run_one_spec P dev fuel (c : Check) name i skip retry ctx (p : Proc W) ctx' p' :
  always P dev c -> device_path ctx = dev ->
  run_one fuel c name i skip retry ctx p = Ok (ctx', p') ->
  (i < length (results ctx))%nat /\ device_path ctx' = device_path ctx /\ bootdiag_executed ctx' = bootdiag_executed ctx /\
  exists r, results ctx' = <[i := r]> (results ctx) /\
  ((skip = true /\ result r = BOOTDIAG_RESULT_SKIP /\ total_pass ctx' = u32 (total_pass ctx + 0) /\
      total_fail ctx' = u32 (total_fail ctx + 0) /\ total_skip ctx' = u32 (total_skip ctx + 1))
   \/ (exists code, skip = false /\ P code /\ result r = u8 code /\
      total_pass ctx' = u32 (total_pass ctx + if code =? BOOTDIAG_RESULT_PASS then 1 else 0) /\
      total_fail ctx' = u32 (total_fail ctx + if code =? BOOTDIAG_RESULT_PASS then 0 else 1) /\
      total_skip ctx' = u32 (total_skip ctx + 0))).
Proof.
  intros Hc Hd Hr. unfold run_one in Hr. cbv zeta in Hr. minv_mem Hr.
  destruct (results ctx !! i) as [r1|] eqn:Ei; [|done]. apply lookup_lt_Some in Ei. split; [done|].
  destruct skip.
  - minv Hr. injection Hr as <- _. split; [done|]. split; [done|]. eexists. split; [done|]. by left.
  - minv Hr. destruct v0 as [code ctx1]. apply (attempts_spec P dev) in E0 as (HP & r' & -> & Hu & _); [|done..].
    minv_mem Hr. minv Hr. injection Hr as <- _.
    split; [by destruct (code =? _)|]. split; [by destruct (code =? _)|].
    exists r'. split; [by destruct (code =? _); simpl; rewrite list_insert_insert_eq|].
    right. exists code. split; [done|]. split; [done|]. split; [done|]. by destruct (code =? _).
Qed.

(** Which result a slot ends with: SKIP when skipped, otherwise a verdict of
    its check. *)
Definition slot_ok (Q : Check (W:=W) * list Z * bool -> Z -> Prop) (c : Check * list Z * bool) (r : BOOTDIAG_RESULT) : Prop :=
  (c.2 = true /\ result r = BOOTDIAG_RESULT_SKIP) \/ (c.2 = false /\ Q c (result r)).

Definition verdict (z : Z) : Prop := z = BOOTDIAG_RESULT_PASS \/ z = BOOTDIAG_RESULT_FAIL.

Lemma tally_cons v r rs : tally v (r :: rs) = (if result r =? v then 1 else 0) + tally v rs.
Proof.
  unfold tally. rewrite filter_cons. destruct (Z.eqb_spec (result r) v); case_decide; try done. simpl. lia.
Qed.

Lemma run_checks_spec Q dev fuel (cs : list (Check * list Z * bool)) i retry ctx (p : Proc W) ctx' p' :
  Forall (fun c => always (Q c) dev c.1.1 /\ forall z, Q c z -> verdict z) cs -> device_path ctx = dev ->
  length (results ctx) = (i + length cs)%nat ->
  0 <= total_pass ctx -> 0 <= total_fail ctx -> 0 <= total_skip ctx ->
  total_pass ctx + total_fail ctx + total_skip ctx + Z.of_nat (length cs) < 2 ^ 32 ->
  run_checks fuel cs i retry ctx p = Ok (ctx', p') ->
  exists new, results ctx' = take i (results ctx) ++ new /\ Forall2 (slot_ok Q) cs new /\
  total_pass ctx' = total_pass ctx + tally BOOTDIAG_RESULT_PASS new /\
  total_fail ctx' = total_fail ctx + tally BOOTDIAG_RESULT_FAIL new /\
  total_skip ctx' = total_skip ctx + tally BOOTDIAG_RESULT_SKIP new.
Proof.
  intros Hcs. revert i ctx p. induction Hcs as [|[[c name] skip] cs [Hc Hv] Hcs IH];
    intros i ctx p Hd Hlen Hp Hf Hs Hb Hr; cbn [run_checks length] in *.
  { injection Hr as <- <-. exists []. rewrite app_nil_r, take_ge by lia. unfold tally; simpl.
    split; [done|]. split; [constructor|]. lia. }
  minv Hr. cbn [fst snd] in Hc. apply (run_one_spec _ dev _ _ _ _ _ _ _ _ _ _ Hc Hd) in E as (Hi & Hd1 & _ & r & Hres & Hcase).
  assert (Hslot : slot_ok Q (c, name, skip) r /\
    total_pass v = total_pass ctx + (if result r =? 0 then 1 else 0) /\
    total_fail v = total_fail ctx + (if result r =? 1 then 1 else 0) /\
    total_skip v = total_skip ctx + (if result r =? 2 then 1 else 0)).
  { destruct Hcase as [(-> & Hr2 & Ep & Ef & Es)|(code & -> & HQ & Hr2 & Ep & Ef & Es)].
    - rewrite Ep, Ef, Es, Hr2. unfold u32. rewrite !wrap_small by lia. simpl. split; [by left|lia].
    - destruct (Hv _ HQ) as [-> | ->]; (rewrite Ep, Ef, Es, Hr2; unfold u32; rewrite !wrap_small by (simpl; lia);
        split; [right; rewrite Hr2; done|simpl; lia]). }
  destruct Hslot as (Hslot & Ep & Ef & Es).
  apply IH in Hr as (new & Hnew & HF & Hp' & Hf' & Hs');
    [|congruence|rewrite Hres, length_insert; lia|repeat case_match; lia..].
  exists (r :: new). split.
  - rewrite Hnew, Hres. rewrite (take_S_r _ _ r); [|by rewrite list_lookup_insert_eq].
    rewrite take_insert_ge by lia. by rewrite <- app_assoc.
  - split; [by constructor|]. rewrite !tally_cons, Hp', Hf', Hs', Ep, Ef, Es.
    change BOOTDIAG_RESULT_PASS with 0. change BOOTDIAG_RESULT_FAIL with 1. change BOOTDIAG_RESULT_SKIP with 2. lia.
Qed.
End RunnerSpec.

(** The command line leaves the results and the totals alone. *)
Record Fresh (o : Options) : Prop := {
  fresh_results : results (o_ctx o) = replicate 7 result0;
  fresh_pass : total_pass (o_ctx o) = 0;
  fresh_fail : total_fail (o_ctx o) = 0;
  fresh_skip : total_skip (o_ctx o) = 0;
  fresh_skips : length (skip_checks o) = 7%nat;
  fresh_retry : 0 <= retry_count o < 2 ^ 32;
}.

Lemma mark_skip_length toks skips : length (foldl mark_skip skips toks) = length skips.
Proof.
  revert skips. induction toks as [|t toks IH]; intros skips; simpl; [done|]. rewrite IH.
  unfold mark_skip. case_match; [|done]. apply length_insert.
Qed.

Lemma parse_arg_fresh o a o' : Fresh o -> parse_arg o a = Some o' -> Fresh o'.
Proof.
  intros [?????]. unfold parse_arg. repeat case_match; intros [= <-]; constructor; simpl; try done.
  - by rewrite mark_skip_length.
  - apply (wrap_range 32). lia.
Qed.

Lemma parse_args_fresh args o o' : Fresh o -> parse_args o args = Some o' -> Fresh o'.
Proof.
  revert o. induction args as [|a args IH]; intros o Ho; simpl; [by intros [= <-]|].
  destruct (parse_arg o a) eqn:E; [|done]. eauto using parse_arg_fresh.
Qed.

Lemma options0_fresh : Fresh options0.
Proof. by constructor. Qed.

(** The exit code is decided by the first three results. *)
Lemma gate_check_iff ctx :
  bootdiag_gate_check ctx = 1 <->
  exists i r, (i < 3)%nat /\ results ctx !! i = Some r /\ result r = BOOTDIAG_RESULT_FAIL.
Proof.
  unfold bootdiag_gate_check, bootdiag_critical_fail_count.
  destruct (filter _ _) as [|r l] eqn:E; simpl.
  - split; [done|]. intros (i & r & Hi & Hr & Hf).
    assert (r ∈ filter (fun r => failed r = true) (take BOOTDIAG_CHECK_CRITICAL_COUNT (results ctx))) as Hin.
    { apply list_elem_of_filter. split; [unfold failed; by rewrite Hf|].
      apply list_elem_of_lookup. exists i. by rewrite lookup_take_lt. }
    rewrite E in Hin. by apply elem_of_nil in Hin.
  - split; [|done]. intros _.
    assert (r ∈ filter (fun r => failed r = true) (take BOOTDIAG_CHECK_CRITICAL_COUNT (results ctx))) as Hin
      by (rewrite E; left).
    apply list_elem_of_filter in Hin as [Hf Hin]. apply list_elem_of_lookup in Hin as [i Hi].
    apply lookup_take_Some in Hi as [Hi ?]. exists i, r. unfold failed in Hf. bool_props. done.
Qed.

Lemma gate_check_01 ctx : bootdiag_gate_check ctx = 0 \/ bootdiag_gate_check ctx = 1.
Proof. unfold bootdiag_gate_check. destruct (_ <? _); auto. Qed.

Lemma tally_total (rs : list BOOTDIAG_RESULT) :
  Forall (fun r => result r = BOOTDIAG_RESULT_SKIP \/ verdict (result r)) rs ->
  tally BOOTDIAG_RESULT_PASS rs + tally BOOTDIAG_RESULT_FAIL rs + tally BOOTDIAG_RESULT_SKIP rs = Z.of_nat (length rs).
Proof.
  induction 1 as [|r rs Hr _ IH]; [done|]. rewrite !tally_cons. simpl length.
  destruct Hr as [-> |[-> | ->]]; cbn [Z.eqb BOOTDIAG_RESULT_PASS BOOTDIAG_RESULT_FAIL BOOTDIAG_RESULT_SKIP Pos.eqb]; lia.
Qed.

Section ToolSpec.
Context {W : Type} `{Win32 W}.

(** The context [run_tool] ends with, and its exit code. *)
Lemma run_tool_spec Q args o fuel (p : Proc W) code ctx' p' :
  parse_args options0 args = Some o ->
  Forall (fun c => always (Q c) (device_path (o_ctx o)) c.1.1 /\ forall z, Q c z -> verdict z)
    (zip (zip checks check_names) (skip_checks o)) ->
  run_tool fuel o p = Ok ((code, ctx'), p') ->
  Forall2 (slot_ok Q) (zip (zip checks check_names) (skip_checks o)) (results ctx') /\
  length (results ctx') = 7%nat /\ bootdiag_executed ctx' = true /\
  total_pass ctx' = tally BOOTDIAG_RESULT_PASS (results ctx') /\
  total_fail ctx' = tally BOOTDIAG_RESULT_FAIL (results ctx') /\
  total_skip ctx' = tally BOOTDIAG_RESULT_SKIP (results ctx') /\
  code = bootdiag_gate_check ctx'.
Proof.
  intros Hp HQ Hr. destruct (parse_args_fresh _ _ _ options0_fresh Hp) as [Hres Htp Htf Hts Hsk _].
  unfold run_tool in Hr. cbv zeta in Hr. minv Hr. minv Hr. minv Hr. minv Hr. minv Hr. minv Hr.
  injection Hr as <- <- _.
  assert (length (zip (zip (checks (W:=W)) check_names) (skip_checks o)) = 7%nat) as Hl
    by (rewrite !length_zip, Hsk; done).
  eapply run_checks_spec in E1 as (new & Hnew & HF & Hp1 & Hf1 & Hs1);
    [|exact HQ|done|rewrite Hres, Hl; done|rewrite ?Htp, ?Htf, ?Hts, ?Hl; lia..].
  simpl in *. rewrite Htp in Hp1. rewrite Htf in Hf1. rewrite Hts in Hs1. rewrite Z.add_0_l in *.
  rewrite Hnew. pose proof (Forall2_length _ _ _ HF). repeat split; try done; congruence.
Qed.

Lemma checks_always dev skips :
  Forall (fun c : Check * list Z * bool => always verdict dev c.1.1 /\ forall z, verdict z -> verdict z)
    (zip (zip (checks (W:=W)) check_names) skips).
Proof.
  eapply Forall_impl; [apply zip_checks|]. intros c Hc. split; [|done].
  intros ctx r p code r' p' _ E. exact (checks_end _ ctx r Hc p code r' p' E).
Qed.

(** C9. The gate as it is coded. Whatever the command line (other than [--help])
    and the machine do, a run that ends has put one result per check: SKIP exactly
    for the skipped ones, PASS or FAIL for the others; the three totals count them
    and add up to seven; and the exit code is 1 exactly when one of the first
    three results is FAIL, otherwise 0. So a run in which checks 4 to 7 fail, or
    in which all are skipped, exits with 0 like one that passes them all, while
    README.md and section 9.1 of docs/usage.md say that all seven must pass
    before the boot goes on. *)
Theorem boot_gate args o fuel (p : Proc W) code ctx' p' :
  parse_args options0 args = Some o ->
  run_tool fuel o p = Ok ((code, ctx'), p') ->
  (forall i r, results ctx' !! i = Some r ->
     exists s, skip_checks o !! i = Some s /\
     if (s : bool) then result r = BOOTDIAG_RESULT_SKIP else verdict (result r)) /\
  total_pass ctx' = tally BOOTDIAG_RESULT_PASS (results ctx') /\
  total_fail ctx' = tally BOOTDIAG_RESULT_FAIL (results ctx') /\
  total_skip ctx' = tally BOOTDIAG_RESULT_SKIP (results ctx') /\
  total_pass ctx' + total_fail ctx' + total_skip ctx' = 7 /\
  (code = 0 \/ code = 1) /\
  (code = 1 <-> exists i r, (i < 3)%nat /\ results ctx' !! i = Some r /\ result r = BOOTDIAG_RESULT_FAIL).
Proof.
  intros Hp Hr. apply (run_tool_spec (fun _ => verdict) args o) in Hr as (HF & Hl & _ & Htp & Htf & Hts & ->);
    [|done|apply checks_always].
  split; [|split; [done|split; [done|split; [done|split; [|split; [apply gate_check_01|apply gate_check_iff]]]]]].
  - intros i r Hi. destruct (Forall2_lookup_r _ _ _ _ _ HF Hi) as ([[c n] s] & Hz & Hs).
    exists s. apply lookup_zip_Some in Hz as [_ Hz]. split; [done|].
    destruct Hs as [[Hs ?]|[Hs ?]]; cbn [snd] in Hs; by subst s.
  - rewrite Htp, Htf, Hts, tally_total, Hl; [done|].
    apply Forall_forall. intros r [i Hi]%list_elem_of_lookup.
    destruct (Forall2_lookup_r _ _ _ _ _ HF Hi) as (c & _ & [[_ ?]|[_ ?]]); auto.
Qed.
End ToolSpec.

(** ** The flags word *)

Lemma u16_or_bit flags k j : 0 <= k < 16 -> 0 <= j ->
  Z.testbit (u16 (Z.lor flags (Z.shiftl 1 k))) j = (j <? 16) && (Z.testbit flags j || (j =? k)).
Proof.
  intros Hk Hj. unfold u16, wrap. destruct (Z.ltb_spec j 16).
  - rewrite Z.mod_pow2_bits_low, Z.lor_spec, Z.shiftl_1_l by lia. cbn [andb]. f_equal.
    rewrite Z.pow2_bits_eqb by lia. apply Z.eqb_sym.
  - by rewrite Z.mod_pow2_bits_high by lia.
Qed.

Lemma flag_loop_bits rs i flags j :
  0 <= i -> i + Z.of_nat (length rs) <= 13 -> 0 <= j < 16 ->
  Z.testbit (flag_loop rs i flags) j = Z.testbit flags j ||
    ((3 + i <=? j) && match rs !! Z.to_nat (j - 3 - i) with Some r => failed r | None => false end).
Proof.
  revert i flags. induction rs as [|r rs IH]; intros i flags Hi Hl Hj; simpl.
  { by rewrite ?lookup_nil, andb_false_r, orb_false_r. }
  simpl length in Hl. rewrite IH by lia.
  assert (Z.testbit (if failed r then u16 (Z.lor flags (Z.shiftl 1 (3 + i))) else flags) j =
          Z.testbit flags j || ((j =? 3 + i) && failed r)) as ->.
  { destruct (failed r); [|by rewrite andb_false_r, orb_false_r]. rewrite u16_or_bit by lia.
    rewrite (proj2 (Z.ltb_lt j 16)) by lia. by rewrite andb_true_r. }
  rewrite <- orb_assoc. f_equal.
  destruct (Z.eqb_spec j (3 + i)) as [->|Hne].
  - rewrite (proj2 (Z.leb_gt (3 + (i + 1)) (3 + i))), (proj2 (Z.leb_le (3 + i) (3 + i))) by lia.
    replace (Z.to_nat (3 + i - 3 - i)) with O by lia. simpl. by rewrite orb_false_r.
  - destruct (Z.leb_spec (3 + i) j); destruct (Z.leb_spec (3 + (i + 1)) j); try done; try lia.
    replace (Z.to_nat (j - 3 - i)) with (S (Z.to_nat (j - 3 - (i + 1)))) by lia. done.
Qed.

(** The flags word, bit by bit: bit 2 says the tool ran, bit [3 + i] that
    check [i + 1] failed, bit 10 that none failed and all seven passed; every
    other bit is clear. *)
Theorem boot_flags_exact ctx j :
  length (results ctx) = 7%nat -> 0 <= j < 16 ->
  Z.testbit (boot_meta_flags ctx) j =
    ((j =? 2) && bootdiag_executed ctx)
    || ((3 <=? j) && match results ctx !! Z.to_nat (j - 3) with Some r => failed r | None => false end)
    || ((j =? 10) && (total_fail ctx =? 0) && (total_pass ctx =? 7)).
Proof.
  intros Hl Hj. unfold boot_meta_flags. cbv zeta.
  set (f0 := if bootdiag_executed ctx then _ else _).
  assert (Z.testbit f0 j = (j =? 2) && bootdiag_executed ctx) as Hf0.
  { unfold f0. destruct (bootdiag_executed ctx); [|by rewrite Z.testbit_0_l, andb_false_r].
    rewrite u16_or_bit, Z.testbit_0_l by lia. rewrite (proj2 (Z.ltb_lt j 16)) by lia. by rewrite andb_true_r. }
  assert (Hloop : Z.testbit (flag_loop (take BOOTDIAG_CHECK_COUNT (results ctx)) 0 f0) j =
    ((j =? 2) && bootdiag_executed ctx)
    || ((3 <=? j) && match results ctx !! Z.to_nat (j - 3) with Some r => failed r | None => false end)).
  { rewrite take_ge by (rewrite Hl; done). rewrite flag_loop_bits by (rewrite ?Hl; lia). rewrite Hf0.
    replace (j - 3 - 0) with (j - 3) by lia. done. }
  rewrite <- andb_assoc. change (Z.of_nat BOOTDIAG_CHECK_COUNT) with 7.
  destruct ((total_fail ctx =? 0) && (total_pass ctx =? 7)).
  - rewrite u16_or_bit by lia. rewrite (proj2 (Z.ltb_lt j 16)) by lia. rewrite Hloop, andb_true_r. done.
  - by rewrite Hloop, andb_false_r, orb_false_r.
Qed.

Definition demo_end : BOOTDIAG_CONTEXT :=
  mkContext [] [] 0 0 1 false []
    [mkResult 1 [] 1 0 [] 1002; mkResult 2 [] 0 0 [] 0; mkResult 3 [] 0 0 [] 0; mkResult 4 [] 1 0 [] 4004;
     mkResult 5 [] 0 0 [] 0; mkResult 6 [] 2 0 [] 0; mkResult 7 [] 0 0 [] 0] 4 2 1 0 true.

Lemma boot_flags_exact_witness : boot_meta_flags demo_end = 0x4C /\ Z.testbit (boot_meta_flags demo_end) 6 = true.
Proof.
  split; [reflexivity|]. rewrite (boot_flags_exact demo_end 6); [reflexivity|reflexivity|lia].
Defined.

(** ** Retries *)

Section Retries.
Context {W : Type} `{Win32 W}.

(** A check that always returns on a device, whatever it returns. *)
Definition returns (dev : list Z) (c : Check (W:=W)) : Prop := forall ctx r p, device_path ctx = dev ->
  exists code r' p', c ctx r p = Ok ((code, r'), p').

Lemma attempts_enough dev (c : Check) i retry k a ctx (p : Proc W) :
  returns dev c -> device_path ctx = dev -> (i < length (results ctx))%nat -> 0 <= a -> retry < 2 ^ 32 - 1 -> a + Z.of_nat k = retry + 1 ->
  (0 < k)%nat -> exists code ctx' p', attempts k c i retry a ctx p = Ok ((code, ctx'), p').
Proof.
  intros Hc. revert a ctx p. induction k as [|k IH]; intros a ctx p Hd Hi Ha Hre Hk Hpos; [lia|]. cbn [attempts].
  rewrite M_bind_unfold. unfold sys at 1. destruct (GetTickCount64 _) as [t0 w0].
  destruct (lookup_lt_is_Some_2 _ _ Hi) as [r Er]. rewrite Er. rewrite M_bind_unfold. cbn [of_opt mem].
  match goal with |- context [mbind _ (c ctx r) ?q] => destruct (Hc ctx r q Hd) as (code & r' & p1 & E) end.
  rewrite (M_bind_run _ _ _ _ _ E). rewrite M_bind_unfold. unfold sys at 1. destruct (GetTickCount64 _) as [t1 w1].
  cbv zeta. replace (u32 (a + 1)) with (a + 1) by (symmetry; apply (wrap_small 32); lia).
  destruct (negb _ && (a + 1 <=? retry)) eqn:Eb; [|by eexists _, _, _].
  bool_props. apply IH; simpl; rewrite ?length_insert; (done || lia).
Qed.

Lemma attempts_forever dev (c : Check) i fuel a ctx (p : Proc W) :
  returns dev c -> device_path ctx = dev -> (forall ctx r p code r' p', c ctx r p = Ok ((code, r'), p') -> code <> BOOTDIAG_RESULT_PASS) ->
  (i < length (results ctx))%nat -> attempts fuel c i (2 ^ 32 - 1) a ctx p = NoFuel.
Proof.
  intros Hc Hd0 Hn. revert a ctx p Hd0. induction fuel as [|fuel IH]; intros a ctx p Hd Hi; [done|]. cbn [attempts].
  rewrite M_bind_unfold. unfold sys at 1. destruct (GetTickCount64 _) as [t0 w0].
  destruct (lookup_lt_is_Some_2 _ _ Hi) as [r Er]. rewrite Er. rewrite M_bind_unfold. cbn [of_opt mem].
  match goal with |- context [mbind _ (c ctx r) ?q] => destruct (Hc ctx r q Hd) as (code & r' & p1 & E) end.
  rewrite (M_bind_run _ _ _ _ _ E). rewrite M_bind_unfold. unfold sys at 1. destruct (GetTickCount64 _) as [t1 w1].
  cbv zeta. apply Hn in E. destruct (Z.eqb_spec code BOOTDIAG_RESULT_PASS); [done|]. cbn [negb andb].
  pose proof (wrap_range 32 (a + 1) ltac:(lia)) as Hw.
  destruct (Z.leb_spec (u32 (a + 1)) (2 ^ 32 - 1)) as [_|Hx]; [|unfold u32 in Hx; lia].
  apply IH; [done|]. simpl. by rewrite length_insert.
Qed.

(** The retry loop. For every count below the largest, [retry_count + 1]
    attempts are enough for the loop to end, whatever a check that returns
    answers. With the largest count, which [--retry=-1] sets, the 32-bit attempt
    counter wraps round and a check that never passes is repeated for ever. *)
Theorem boot_retry (c : Check) i retry ctx (p : Proc W) :
  returns (device_path ctx) c -> (i < length (results ctx))%nat -> 0 <= retry < 2 ^ 32 ->
  (retry < 2 ^ 32 - 1 ->
   exists code ctx' p', attempts (Z.to_nat (retry + 1)) c i retry 0 ctx p = Ok ((code, ctx'), p')) /\
  (retry = 2 ^ 32 - 1 ->
   (forall ctx r p code r' p', c ctx r p = Ok ((code, r'), p') -> code <> BOOTDIAG_RESULT_PASS) ->
   forall fuel, attempts fuel c i retry 0 ctx p = NoFuel) /\
  (retry_count <$> parse_args options0 [zstr "--retry=-1"]) = Some (2 ^ 32 - 1).
Proof.
  intros Hc Hi Hr. split; [|split; [|reflexivity]].
  - intros Hlt. eapply attempts_enough; [done..|lia|lia|lia|lia].
  - intros -> Hn fuel. by eapply attempts_forever.
Qed.
End Retries.

(** ** The tool on a standard disk *)

Section StandardDisk.
Context {W : Type} `{Win32Laws W}.

Lemma read_device_sector_path ctx1 ctx2 lba n :
  device_path ctx1 = device_path ctx2 -> read_device_sector (W:=W) ctx1 lba n = read_device_sector ctx2 lba n.
Proof. intros E. unfold read_device_sector. by rewrite E. Qed.

(** Every verdict is PASS or FAIL, and the first check's is FAIL. *)
Definition mbr_verdict (c : Check (W:=W) * list Z * bool) (z : Z) : Prop :=
  verdict z /\ (c.1.2 = zstr "GPT Partition Table" -> z = BOOTDIAG_RESULT_FAIL).

Lemma mbr_always dev skips disk s0 ctx0 :
  device_path ctx0 = dev ->
  (forall lba (p : Proc W), exists p', read_device_sector ctx0 lba 512 p = Ok (disk lba, p')) ->
  disk 0 = (0, s0) -> take 2 (drop 510 s0) = [0x55; 0xAA] ->
  Forall (fun c => always (mbr_verdict c) dev c.1.1 /\ forall z, mbr_verdict c z -> verdict z)
    (zip (zip checks check_names) skips).
Proof.
  intros Hd0 Hdisk Hs0 Hsig. apply Forall_forall. intros [[c name] s] Hc. split; [|by intros z [? _]].
  intros ctx r p code r' p' Hd E. split.
  { apply elem_of_zip_l, elem_of_zip_l in Hc. exact (checks_end _ ctx r Hc p code r' p' E). }
  cbn [fst snd] in *. apply elem_of_zip_l in Hc. cbn [zip zip_with checks check_names] in Hc. intros ->.
  rewrite !elem_of_cons, elem_of_nil in Hc. decompose [or] Hc; simplify_eq; try done.
  destruct (v1_standard_mbr ctx disk) with (r := r) (s0 := s0) (p := p) as [q Eq]; [|done..|].
  - intros lba q. rewrite (read_device_sector_path ctx ctx0) by congruence. apply Hdisk.
  - rewrite E in Eq. by simplify_eq.
Qed.

(** The tool blocks every boot from a standard disk. If sector 0 of the
    device carries the signature bytes 55 AA that every MBR has, and check 1 is
    not skipped, then whatever else the disk, the machine and the command line
    hold, a run that ends exits with 1: the word is assembled little-endian and
    compared with 0x55AA, so V1 reports error 1002. *)
Theorem boot_standard_mbr_blocks args o fuel disk s0 (p : Proc W) code ctx' p' :
  parse_args options0 args = Some o -> skip_checks o !! 0%nat = Some false ->
  (forall lba (p : Proc W), exists p', read_device_sector (o_ctx o) lba 512 p = Ok (disk lba, p')) ->
  disk 0 = (0, s0) -> take 2 (drop 510 s0) = [0x55; 0xAA] ->
  run_tool fuel o p = Ok ((code, ctx'), p') -> code = 1.
Proof.
  intros Hp Hsk Hdisk Hs0 Hsig Hr.
  apply (run_tool_spec mbr_verdict args o) in Hr as (HF & Hl & _ & _ & _ & _ & ->);
    [|done|by eapply mbr_always].
  apply gate_check_iff. destruct (results ctx') as [|r0 rs] eqn:Er; [done|]. exists 0%nat, r0.
  split; [lia|]. split; [done|].
  destruct (skip_checks o) as [|sk sks]; [done|]. simpl in Hsk. injection Hsk as ->.
  inversion HF as [|? ? ? ? Hs]; subst. destruct Hs as [[? _]|[_ [_ Hs]]]; [done|]. by apply Hs.
Qed.
End StandardDisk.

(** ** The tool ends *)

Section Termination.
Context {W : Type} `{Win32Laws W}.

Lemma output_run ctx text (p : Proc W) : exists p', bootdiag_output ctx text p = Ok ((), p').
Proof.
  unfold bootdiag_output. rewrite M_bind_unfold.
  assert (exists q, (if (output_target ctx =? BOOTDIAG_OUTPUT_CONSOLE) || verbose ctx
    then sys_ (stdout_line (fits 1024 text)) else mret ()) p = Ok ((), q)) as [q ->] by (destruct (_ || _); by eexists).
  destruct (_ && _); [|by eexists]. rewrite M_bind_unfold. unfold sys at 1.
  destruct (fopen_a _ _) as [[] w]; [|by eexists]. rewrite M_bind_unfold. by eexists.
Qed.

Lemma output_result_run ctx r (p : Proc W) : exists p', bootdiag_output_result ctx r p = Ok ((), p').
Proof.
  unfold bootdiag_output_result. edestruct output_run as [q E]. rewrite (M_bind_run _ _ _ _ _ E).
  destruct (bool_decide _); [by eexists|apply output_run].
Qed.

Lemma output_lines_run ctx ls (p : Proc W) : exists p', output_lines ctx ls p = Ok ((), p').
Proof.
  revert p. induction ls as [|l ls IH]; intros p; simpl; [by eexists|].
  edestruct output_run as [q E]. rewrite (M_bind_run _ _ _ _ _ E). apply IH.
Qed.

Lemma run_one_total dev fuel (c : Check) name i skip retry ctx (p : Proc W) :
  returns dev c -> device_path ctx = dev -> (i < length (results ctx))%nat ->
  0 <= retry < 2 ^ 32 - 1 -> fuel = Z.to_nat (retry + 1) ->
  exists ctx' p', run_one fuel c name i skip retry ctx p = Ok (ctx', p') /\
  device_path ctx' = dev /\ length (results ctx') = length (results ctx).
Proof.
  intros Hc Hd Hi Hr ->. unfold run_one. cbv zeta.
  destruct (lookup_lt_is_Some_2 _ _ Hi) as [r Er]. rewrite Er. rewrite M_bind_unfold. cbn [of_opt mem].
  destruct skip.
  - edestruct output_result_run as [q E]. rewrite (M_bind_run _ _ _ _ _ E). eexists _, _. split; [done|].
    simpl. by rewrite length_insert.
  - match goal with |- context [attempts _ c i retry 0 ?ctx1] =>
      destruct (attempts_enough dev c i retry (Z.to_nat (retry + 1)) 0 ctx1 p) as (code & ctx2 & p2 & E);
        [done|done|by simpl; rewrite length_insert|lia..|] end.
    rewrite (M_bind_run _ _ _ _ _ E).
    apply (attempts_spec (fun _ => True) dev) in E as (_ & r2 & -> & _ & _); [|done|done].
    assert (Hl : length (<[i := r2]> (<[i := mkResult (u8 (Z.of_nat i + 1)) (fits 32 name) (result r) (elapsed_ms r)
      (detail r) (error_code r)]> (results ctx))) = length (results ctx)) by (by rewrite !length_insert).
    destruct (code =? _); simpl; rewrite list_lookup_insert_eq by (rewrite length_insert; lia);
      rewrite M_bind_unfold; cbn [of_opt mem]; edestruct output_result_run as [q E2];
      rewrite (M_bind_run _ _ _ _ _ E2); eexists _, _; (split; [done|]; split; [done|exact Hl]).
Qed.

Lemma run_checks_total dev fuel (cs : list (Check * list Z * bool)) i retry ctx (p : Proc W) :
  Forall (fun c => returns dev c.1.1) cs -> device_path ctx = dev ->
  (i + length cs <= length (results ctx))%nat -> 0 <= retry < 2 ^ 32 - 1 -> fuel = Z.to_nat (retry + 1) ->
  exists ctx' p', run_checks fuel cs i retry ctx p = Ok (ctx', p').
Proof.
  intros Hcs. revert i ctx p. induction Hcs as [|[[c n] s] cs Hc Hcs IH]; intros i ctx p Hd Hl Hr Hf; simpl;
    [by eexists _, _|]. simpl in Hl.
  destruct (run_one_total dev fuel c n i s retry ctx p) as (ctx' & p' & E & Hd' & Hl'); [done|done|lia|done..|].
  rewrite (M_bind_run _ _ _ _ _ E). apply IH; try done. lia.
Qed.

(** A machine on which no check leaves its buffers. Reads may fail and may
    answer differently from one time to the next; but none of sector 1 declares a
    partition table of 2{^32} bytes, none of the loader gives the image of
    [overrun_image], and none of the boot sector a cluster exponent above 31. *)
Record Tame (dev : list Z) : Prop := {
  tame_gpt : forall ctx (p : Proc W) s p', device_path ctx = dev ->
    read_device_sector ctx 1 512 p = Ok ((0, s), p') -> field 4 80 s * 128 + 511 < 2 ^ 32;
  tame_winload : forall path (p : Proc W) h p', path ∈ winload_paths ->
    read_file_bytes path 0 4096 p = Ok ((0, h), p') -> ~ overrun_image h;
  tame_ntfs : forall ctx lba (p : Proc W) s p', device_path ctx = dev -> lba = 0 \/ lba = 2048 ->
    read_device_sector ctx lba 512 p = Ok ((0, s), p') -> field 1 13 s < 32;
}.

Lemma tame_returns dev c : Tame dev -> c ∈ checks -> returns dev c.
Proof.
  intros [Hgpt Hwin Hntfs] Hc ctx r p Hd.
  cut (concludes (c ctx r) p); [intros (code & r' & p' & E & _); eauto|].
  unfold checks in Hc. rewrite !elem_of_cons, elem_of_nil in Hc. decompose [or] Hc; subst; try done.
  - by eapply v1_concludes; eauto.
  - apply v2_concludes.
  - by apply v3_concludes.
  - apply v4_concludes.
  - apply v5_concludes.
  - apply v6_concludes.
  - apply v7_concludes. eauto.
Qed.

(** Attempts a command line allows each check. *)
Definition passes (args : list (list Z)) : nat :=
  match parse_args options0 args with
  | Some o => Z.to_nat (retry_count o + 1)
  | None => 0
  end.

Lemma run_tool_ends args o (p : Proc W) :
  parse_args options0 args = Some o -> Tame (device_path (o_ctx o)) -> retry_count o < 2 ^ 32 - 1 ->
  exists code ctx' p', run_tool (Z.to_nat (retry_count o + 1)) o p = Ok ((code, ctx'), p').
Proof.
  intros Hp Ht Hr. destruct (parse_args_fresh _ _ _ options0_fresh Hp) as [Hres _ _ _ Hsk Hre].
  unfold run_tool. cbv zeta. edestruct output_lines_run as [q0 E0]. rewrite (M_bind_run _ _ _ _ _ E0).
  rewrite M_bind_unfold. unfold sys at 1. destruct (GetTickCount64 _) as [t0 w0].
  edestruct (run_checks_total (device_path (o_ctx o)) (Z.to_nat (retry_count o + 1))
    (zip (zip checks check_names) (skip_checks o)) 0) as (ctx1 & q1 & E1);
    [|done| | |done|rewrite (M_bind_run _ _ _ _ _ E1)].
  - eapply Forall_impl; [apply zip_checks|]. intros c Hc. by eapply tame_returns.
  - rewrite !length_zip, Hsk, Hres. done.
  - lia.
  - rewrite M_bind_unfold. unfold sys at 1. destruct (GetTickCount64 _) as [t1 w1].
    edestruct output_lines_run as [q2 E2]. rewrite (M_bind_run _ _ _ _ _ E2).
    unfold bootdiag_update_boot_meta_flags. edestruct output_run as [q3 E3]. rewrite (M_bind_run _ _ _ _ _ E3).
    by eexists _, _, _.
Qed.

(** C30. The tool ends. For every command line, [--help] included, whose retry
    count is not 2{^32} - 1 (there a check that always fails is tried for ever),
    and on every machine whose reads, whether they fail, succeed or change their
    answers, do not drive a check out of its buffers ([Tame]: no partition table
    of 2{^32} bytes, no loader image with its header at 4091, no cluster exponent
    above 31), the program returns an exit code, with no more than the retry
    count plus one attempts at any check. *)
Theorem boot_terminates args (p : Proc W) :
  (forall o, parse_args options0 args = Some o -> Tame (device_path (o_ctx o)) /\ retry_count o < 2 ^ 32 - 1) ->
  exists code p', main (passes args) args p = Ok (code, p').
Proof.
  intros Ho. unfold main, passes. destruct (parse_args options0 args) as [o|] eqn:E.
  - destruct (Ho o eq_refl) as [Ht Hr]. destruct (run_tool_ends args o p E Ht Hr) as (code & ctx' & p' & Er).
    rewrite (M_bind_run _ _ _ _ _ Er). by eexists _, _.
  - rewrite M_bind_unfold. by eexists _, _.
Qed.
End Termination.

(** ** The tool on the concrete machine *)

Definition std_s0 : list Z := copy_at (copy_at (replicate 512 0) 450 [0xEE]) 510 [0x55; 0xAA].
Definition std_fs : FS := fun path =>
  if bool_decide (path = zstr "\\.\HyperDisk0")
  then Some (fun off n => if off =? 0 then std_s0 else if off =? 512 then demo_s1
                          else if off =? 1024 then demo_table else replicate 512 0)
  else None.
Definition run_end {fs} (o : Options) (c : M (Sim fs) (Z * BOOTDIAG_CONTEXT)) : (Z * BOOTDIAG_CONTEXT) * Proc (Sim fs) :=
  match c (sim_start fs) with
  | Ok x => x
  | _ => ((9, o_ctx o), sim_start fs)
  end.
Definition std_run : (Z * BOOTDIAG_CONTEXT) * Proc (Sim std_fs) := run_end options0 (run_tool 1 options0).

Lemma boot_standard_mbr_blocks_witness : std_run.1.1 = 1.
Proof.
  apply (boot_standard_mbr_blocks [] options0 1 (sim_disk std_fs (o_ctx options0)) std_s0 (sim_start std_fs)
           std_run.1.1 std_run.1.2 std_run.2);
    [reflexivity|reflexivity|apply sim_disk_stable|vm_compute; reflexivity|vm_compute; reflexivity|
     vm_compute; reflexivity].
Defined.

Lemma boot_gate_witness :
  (std_run.1.1 = 0 \/ std_run.1.1 = 1) /\
  total_pass std_run.1.2 + total_fail std_run.1.2 + total_skip std_run.1.2 = 7.
Proof.
  destruct (boot_gate [] options0 1 (sim_start std_fs) std_run.1.1 std_run.1.2 std_run.2)
    as (_ & _ & _ & _ & Hs & Hc & _); [reflexivity|vm_compute; reflexivity|]. split; [exact Hc|exact Hs].
Defined.

Lemma boot_no_leak_witness : held (os std_run.2) = none_held.
Proof.
  change none_held with (held (os (sim_start std_fs))).
  apply (boot_no_leak 1 [] (sim_start std_fs) std_run.1.1). vm_compute. reflexivity.
Defined.

Definition never_passes {W} : Check (W:=W) := fun _ r => fail_with r 1 [].

Lemma boot_retry_witness :
  attempts 1000 never_passes 0 (2 ^ 32 - 1) 0 (o_ctx options0) (sim_start std_fs) = NoFuel.
Proof.
  destruct (boot_retry never_passes 0 (2 ^ 32 - 1) (o_ctx options0) (sim_start std_fs)) as (_ & Hr & _);
    [by eexists _, _, _|simpl; lia|lia|]. apply Hr; [reflexivity|]. by intros ctx r p c r' p' [= <- <- <-].
Defined.

Lemma std_tame : Tame (W:=Sim std_fs) (device_path (o_ctx options0)).
Proof.
  assert (forall ctx lba (p : Proc (Sim std_fs)) s p', device_path ctx = device_path (o_ctx options0) ->
    read_device_sector ctx lba 512 p = Ok ((0, s), p') -> s = (sim_disk std_fs (o_ctx options0) lba).2) as Hrd.
  { intros ctx lba p s p' Hd. rewrite (read_device_sector_path ctx (o_ctx options0)) by exact Hd.
    apply sim_sector. }
  constructor.
  - intros ctx p s p' Hd E. rewrite (Hrd _ _ _ _ _ Hd E). by vm_compute.
  - intros path p h p' Hin E. destruct (sim_files_stable std_fs path p) as [q Eq]. rewrite E in Eq.
    unfold winload_paths in Hin. rewrite !elem_of_cons, elem_of_nil in Hin.
    decompose [or] Hin; subst; try done; vm_compute in Eq; discriminate Eq.
  - intros ctx lba p s p' Hd Hl E. rewrite (Hrd _ _ _ _ _ Hd E). destruct Hl as [-> | ->]; by vm_compute.
Qed.

Lemma boot_terminates_witness :
  (exists code p', main (passes []) [] (sim_start std_fs) = Ok (code, p')) /\
  (exists code p', main (passes [zstr "--help"]) [zstr "--help"] (sim_start std_fs) = Ok (code, p')).
Proof.
  split.
  - apply (boot_terminates [] (sim_start std_fs)). intros o [= <-]. split; [apply std_tame|reflexivity].
  - apply (boot_terminates [zstr "--help"] (sim_start std_fs)). intros o Ho. vm_compute in Ho. discriminate Ho.
Defined.
