(* ===== verification/Text.v ===== *)
(** * Text

    The string functions of the C and C++ run time that the client and the tools
    use: [std::stoi], searching, and the hexadecimal formats in lower case.
    Strings are lists of character codes. *)

From S2P Require Import Prelude BootEnv.
#[local] Open Scope Z_scope.

Definition lower (c : Z) : Z := if 65 <=? c then c + 32 else c.
Definition fmt_x (width : nat) (z : Z) : list Z := lower <$> fmt_X width z.

(** [std::stoi]: blanks, a sign, digits; [Fault] is an exception nobody
    catches. *)
Definition is_blank (c : Z) : bool := (c =? 32) || ((9 <=? c) && (c <=? 13)).
Fixpoint skip_blanks (s : list Z) : list Z :=
  match s with
  | [] => []
  | c :: r => if is_blank c then skip_blanks r else s
  end.
Definition is_digit (c : Z) : bool := (48 <=? c) && (c <=? 57).
Fixpoint digits_val (s : list Z) (acc : option Z) : option Z :=
  match s with
  | [] => acc
  | c :: r => if is_digit c then digits_val r (Some (10 * default 0 acc + (c - 48))) else acc
  end.
Definition stoi (s : list Z) : res Z :=
  let s := skip_blanks s in
  let '(neg, s) := match s with 45 :: r => (true, r) | 43 :: r => (false, r) | _ => (false, s) end in
  match digits_val s None with
  | Some v => let v := if neg : bool then - v else v in
              if (- 2 ^ 31 <=? v) && (v <? 2 ^ 31) then Ok v else Fault
  | None => Fault
  end.

(** The position of the last path separator: [find_last_of] with a backslash and
    a slash. *)
Fixpoint last_sep (s : list Z) (i : nat) (found : option nat) : option nat :=
  match s with
  | [] => found
  | c :: r => last_sep r (S i) (if (c =? 92) || (c =? 47) then Some i else found)
  end.

(** [std::string::rfind] and [find] of one character. *)
Fixpoint last_char (c : Z) (s : list Z) (i : nat) (found : option nat) : option nat :=
  match s with
  | [] => found
  | x :: r => last_char c r (S i) (if x =? c then Some i else found)
  end.
Definition rfind (c : Z) (s : list Z) : option nat := last_char c s 0 None.
Fixpoint find (c : Z) (s : list Z) : option nat :=
  match s with
  | [] => None
  | x :: r => if x =? c then Some 0%nat else S <$> find c r
  end.

(** [std::find] of a string: the position of its first occurrence. *)
Fixpoint find_str (t s : list Z) : option nat :=
  if bool_decide (take (length t) s = t) then Some 0%nat
  else match s with
       | [] => None
       | _ :: r => S <$> find_str t r
       end.

Lemma last_char_spec c s i found :
  last_char c s i found =
  match rfind c s with Some k => Some (i + k)%nat | None => found end.
Proof.
  unfold rfind. revert i found. induction s as [|x s IH]; intros i found; [done|]. cbn [last_char].
  rewrite (IH (S i)), (IH 1%nat). destruct (last_char c s 0 None) as [k|]; [f_equal; lia|].
  destruct (x =? c); [f_equal; lia|done].
Qed.

Lemma rfind_cons c x s :
  rfind c (x :: s) = match rfind c s with Some k => Some (S k) | None => if x =? c then Some 0%nat else None end.
Proof. unfold rfind at 1. cbn [last_char]. by rewrite last_char_spec. Qed.

(** What [rfind] finds: the character, and none after it. *)
Lemma rfind_split c s :
  match rfind c s with
  | Some k => exists a b, s = a ++ c :: b /\ length a = k /\ c ∉ b
  | None => c ∉ s
  end.
Proof.
  induction s as [|x s IH]; [by cbn; apply not_elem_of_nil|]. rewrite rfind_cons.
  destruct (rfind c s) as [k|].
  - destruct IH as (a & b & -> & <- & Hb). by exists (x :: a), b.
  - destruct (Z.eqb_spec x c) as [->|Hne]; [by exists [], s|]. apply not_elem_of_cons. by split.
Qed.

(** What [find] finds: the character, and none before it. *)
Lemma find_char_split c s :
  match find c s with
  | Some k => exists a b, s = a ++ c :: b /\ length a = k /\ c ∉ a
  | None => c ∉ s
  end.
Proof.
  induction s as [|x s IH]; [by cbn; apply not_elem_of_nil|]. cbn [find].
  destruct (Z.eqb_spec x c) as [->|Hne]; [exists [], s; split_and!; [done|done|apply not_elem_of_nil]|].
  destruct (find c s) as [k|]; cbn.
  - destruct IH as (a & b & -> & <- & Ha). exists (x :: a), b. split_and!; [done|done|]. apply not_elem_of_cons. by split.
  - apply not_elem_of_cons. by split.
Qed.

Lemma find_char_app c a b : c ∉ a -> find c (a ++ c :: b) = Some (length a).
Proof.
  induction a as [|x a IH]; intros Ha; cbn; [by rewrite Z.eqb_refl|].
  apply not_elem_of_cons in Ha as [Hx Ha]. rewrite (proj2 (Z.eqb_neq _ _)) by congruence. by rewrite IH.
Qed.

Lemma find_char_none c s : c ∉ s -> find c s = None.
Proof.
  intros Hs. pose proof (find_char_split c s) as H. destruct (find c s); [|done]. destruct H as (a & b & -> & _). set_solver.
Qed.

(** ** Decimal numbers *)

Fixpoint dec_digits (acc : Z) (s : list Z) : Z :=
  match s with
  | c :: r => if (48 <=? c) && (c <=? 57) then dec_digits (10 * acc + (c - 48)) r else acc
  | [] => acc
  end.

Lemma digits_of_spec fuel z l acc :
  0 <= z < 10 ^ Z.of_nat fuel -> (0 < fuel)%nat ->
  exists ds, digits_of 10 fuel z l = ds ++ l /\ Forall (fun c => 48 <= c <= 57) ds /\ ds <> [] /\
    dec_digits acc (ds ++ l) = dec_digits (acc * 10 ^ Z.of_nat (length ds) + z) l.
Proof.
  revert z l. induction fuel as [|k IH]; intros z l Hz Hf; [lia|]. cbn [digits_of].
  pose proof (Z.mod_pos_bound z 10 ltac:(lia)) as Hd.
  rewrite (proj2 (Z.ltb_lt (z mod 10) 10)) by lia. destruct (Z.ltb_spec z 10).
  - exists [48 + z mod 10]. rewrite Z.mod_small by lia. split_and!; [done|repeat constructor; lia|done|].
    cbn [app dec_digits length]. rewrite (proj2 (Z.leb_le _ _)), (proj2 (Z.leb_le _ _)) by lia. cbn [andb].
    f_equal. change (10 ^ Z.of_nat 1) with 10. lia.
  - destruct k as [|k]; [change (10 ^ Z.of_nat 1) with 10 in Hz; lia|].
    rewrite Nat2Z.inj_succ, Z.pow_succ_r in Hz by lia.
    destruct (IH (z / 10) ((48 + z mod 10) :: l)) as (ds & E & Hds & Hne & Hv);
      [split; [apply Z.div_pos; lia|apply Z.div_lt_upper_bound; lia]|lia|].
    exists (ds ++ [48 + z mod 10]). rewrite E, <- app_assoc. split_and!; [done| |by destruct ds|].
    { apply Forall_app. split; [done|]. repeat constructor; lia. }
    cbn [app]. rewrite Hv. cbn [dec_digits]. rewrite (proj2 (Z.leb_le _ _)), (proj2 (Z.leb_le _ _)) by lia. cbn [andb].
    f_equal. rewrite length_app. cbn [length]. rewrite Nat2Z.inj_add. change (Z.of_nat 1) with 1.
    rewrite Z.pow_add_r by lia. Z.div_mod_to_equations. nia.
Qed.

Lemma fmt_u_spec z : 0 <= z < 2 ^ 64 ->
  Forall (fun c => 48 <= c <= 57) (fmt_u z) /\ fmt_u z <> [] /\ dec_digits 0 (fmt_u z) = z.
Proof.
  intros Hz. unfold fmt_u. destruct (digits_of_spec 20 z [] 0) as (ds & -> & Hds & Hne & Hv); [|lia|].
  { change (10 ^ Z.of_nat 20) with 100000000000000000000. lia. }
  rewrite Hv, !app_nil_r. done.
Qed.

Lemma fmt_d_pos z : 0 <= z -> fmt_d z = fmt_u z.
Proof. intros. unfold fmt_d. by rewrite (proj2 (Z.ltb_ge _ _)) by lia. Qed.

Lemma fmt_u_ne z d : 0 <= z < 2 ^ 64 -> d < 48 -> Forall (fun c => c <> d) (fmt_u z).
Proof. intros Hz Hd. destruct (fmt_u_spec z Hz) as (H & _). eapply Forall_impl; [exact H|]. simpl. lia. Qed.

Lemma digits_val_spec ds acc :
  Forall (fun c => 48 <= c <= 57) ds -> digits_val ds (Some acc) = Some (dec_digits acc ds).
Proof.
  intros H. revert acc. induction H as [|c ds Hc _ IH]; intros acc; [done|]. cbn [digits_val dec_digits]. unfold is_digit.
  rewrite !(proj2 (Z.leb_le _ _)) by lia. cbn [andb default]. apply IH.
Qed.

(** Reading a number back. *)
Lemma stoi_fmt_d z : 0 <= z < 2 ^ 31 -> stoi (fmt_d z) = Ok z.
Proof.
  intros Hz. rewrite fmt_d_pos by lia. destruct (fmt_u_spec z) as (Hd & Hne & Hv); [lia|]. unfold stoi.
  destruct (fmt_u z) as [|c r]; [done|]. pose proof Hd as Hd'. apply Forall_cons in Hd as [Hc _].
  assert (skip_blanks (c :: r) = c :: r) as ->.
  { cbn [skip_blanks]. unfold is_blank. destruct (Z.eqb_spec c 32); [lia|].
    destruct (Z.leb_spec 9 c), (Z.leb_spec c 13); try lia; done. }
  assert (match c :: r with 45 :: r0 => (true, r0) | 43 :: r0 => (false, r0) | _ => (false, c :: r) end = (false, c :: r)) as ->.
  { destruct (decide (c = 45)) as [->|]; [lia|]. destruct (decide (c = 43)) as [->|]; [lia|].
    destruct c as [|p|p]; try lia. do 6 (destruct p as [p|p|]; try lia; try done). }
  assert (digits_val (c :: r) None = Some (dec_digits 0 (c :: r))) as ->.
  { rewrite <- digits_val_spec by done. cbn [digits_val]. unfold is_digit. by rewrite !(proj2 (Z.leb_le _ _)) by lia. }
  rewrite Hv. cbv beta iota zeta. by rewrite (proj2 (Z.leb_le _ _)), (proj2 (Z.ltb_lt _ _)) by lia.
Qed.
