(* ===== verification/Stats.v ===== *)
(** * Percentiles

    Both analyzers (src/tools/blackbox_analyzer, src/tools/replay_recorder) sort a
    list of latencies and take the element at [n * q / 100]. What that element
    is, proved once for both. *)

From stdpp Require Import sorting.
From S2P Require Import Prelude.
#[local] Open Scope Z_scope.

Lemma sorted_rank s i (x : Z) :
  StronglySorted Z.le s -> s !! i = Some x -> (i < length (filter (fun y : Z => (y <= x)%Z) s))%nat.
Proof.
  revert i. induction s as [|a s IH]; intros i Hs Hi; [done|]. apply StronglySorted_inv in Hs as [Hs Ha].
  destruct i as [|i]; cbn in Hi.
  - injection Hi as ->. rewrite filter_cons_True by lia. cbn. lia.
  - rewrite Forall_forall in Ha. specialize (Ha x (list_elem_of_lookup_2 _ _ _ Hi)).
    rewrite filter_cons_True by done. cbn. specialize (IH i Hs Hi). lia.
Qed.

Lemma merge_sorted l : StronglySorted Z.le (merge_sort Z.le l).
Proof. apply StronglySorted_merge_sort; [intros x y z; lia|intros x y; lia]. Qed.

(** The value at [n * q / 100] of the sorted latencies is one of them, and more
    than [q] percent are no larger. *)
Definition percentile (q x : Z) (lats : list Z) : Prop :=
  x ∈ lats /\ Z.of_nat (length lats) * q < 100 * Z.of_nat (length (filter (fun y : Z => (y <= x)%Z) lats)).

Lemma percentile_found q lats :
  lats <> [] -> 0 <= q < 100 ->
  exists x, merge_sort Z.le lats !! Z.to_nat (Z.of_nat (length lats) * q / 100) = Some x /\ percentile q x lats.
Proof.
  intros Hl Hq. set (s := merge_sort Z.le lats). assert (s ≡ₚ lats) as Hp by apply merge_sort_Permutation.
  set (i := Z.to_nat _). assert (0 < length lats)%nat by (destruct lats; [done|cbn; lia]).
  assert (i < length s)%nat as Hi.
  { rewrite Hp. unfold i. pose proof (Z.div_lt_upper_bound (Z.of_nat (length lats) * q) 100 (Z.of_nat (length lats))). 
    pose proof (Z.div_pos (Z.of_nat (length lats) * q) 100). nia. }
  apply lookup_lt_is_Some in Hi as [x Hx]. exists x. split; [done|]. split.
  - rewrite <- Hp. by apply (list_elem_of_lookup_2 _ i).
  - pose proof (sorted_rank s i x (merge_sorted lats) Hx) as Hr. rewrite Hp in Hr.
    pose proof (Z.div_pos (Z.of_nat (length lats) * q) 100). pose proof (Z.mul_succ_div_gt (Z.of_nat (length lats) * q) 100). lia.
Qed.
