(* ===== verification/Files.v ===== *)
(** * The file system under the user-mode client and tools

    The POSIX calls and the C++ streams the client uses, as a class ([Posix]);
    what their documentation promises, as laws over a view of the machine (the
    contents of the files and the offsets of the open descriptors); and a
    concrete machine that satisfies them. [PosixLaws] allows calls to fail and
    to write less than asked; [PosixReliable] says that they do not. *)

From S2P Require Import Prelude.

Notation path := (list Z) (only parsing).

(** The [open] flags in use. *)
Inductive OpenMode : Type := O_RDONLY | O_RDWR_CREAT | O_WRONLY_CREAT_TRUNC | O_RDWR_CREAT_TRUNC.

#[export] Instance OpenMode_eq : EqDecision OpenMode.
Proof. solve_decision. Defined.

(** [p_open] is [None] for -1. [p_write] gives the count or -1, [p_read] is
    [None] for -1. [f_load] is a stream opened for reading and what it holds;
    [f_save] opens a stream for writing, truncating ([None] when it cannot),
    and gives the number of bytes that reached the file. *)
Class Posix (W : Type) : Type := {
  p_open : path -> OpenMode -> W -> option Z * W;
  p_fstat : Z -> W -> option Z * W;
  p_write : Z -> list Z -> W -> Z * W;
  p_read : Z -> Z -> W -> option (list Z) * W;
  p_rewind : Z -> W -> W;
  p_fsync : Z -> W -> W;
  p_close : Z -> W -> W;
  p_mkdirs : path -> W -> W;
  p_clock : W -> Z * W;
  f_load : path -> W -> option (list Z) * W;
  f_save : path -> list Z -> W -> option Z * W;
}.

(** ** The view *)

Record Fs : Type := mkFs {
  files : gmap (list Z) (list Z);
  fds : gmap Z (list Z * nat);
}.

(** Bytes written at an offset; a gap reads as zeros. *)
Definition fs_patch (c : list Z) (off : nat) (bs : list Z) : list Z :=
  take off c ++ replicate (off - length c) 0 ++ bs ++ drop (off + length bs) c.

Definition fs_open (p : path) (m : OpenMode) (fd : Z) (v : Fs) : Fs :=
  mkFs (match m with
        | O_RDONLY => files v
        | O_RDWR_CREAT => <[p := default [] (files v !! p)]> (files v)
        | O_WRONLY_CREAT_TRUNC | O_RDWR_CREAT_TRUNC => <[p := []]> (files v)
        end)
       (<[fd := (p, 0%nat)]> (fds v)).

Definition fs_write (fd : Z) (bs : list Z) (v : Fs) : Fs :=
  match fds v !! fd with
  | Some (p, off) =>
      mkFs (<[p := fs_patch (default [] (files v !! p)) off bs]> (files v))
           (<[fd := (p, (off + length bs)%nat)]> (fds v))
  | None => v
  end.

Definition fs_contents (fd : Z) (v : Fs) : option (list Z * nat) :=
  match fds v !! fd with
  | Some (p, off) => Some (default [] (files v !! p), off)
  | None => None
  end.
Definition fs_seek (fd : Z) (off : nat) (v : Fs) : Fs :=
  match fds v !! fd with
  | Some (p, _) => mkFs (files v) (<[fd := (p, off)]> (fds v))
  | None => v
  end.
Definition fs_close (fd : Z) (v : Fs) : Fs := mkFs (files v) (delete fd (fds v)).

Class PosixLaws (W : Type) `{Posix W} : Type := {
  view : W -> Fs;
  open_some p m w fd w' : p_open p m w = (Some fd, w') ->
    0 <= fd /\ fds (view w) !! fd = None /\ (m = O_RDONLY -> is_Some (files (view w) !! p)) /\
    view w' = fs_open p m fd (view w);
  open_none p m w w' : p_open p m w = (None, w') -> view w' = view w;
  fstat_law fd w : view (p_fstat fd w).2 = view w /\
    forall n, (p_fstat fd w).1 = Some n -> exists c off, fs_contents fd (view w) = Some (c, off) /\ n = Z.of_nat (length c);
  write_law fd bs w k w' : p_write fd bs w = (k, w') ->
    (k = -1 /\ view w' = view w) \/
    (0 <= k <= Z.of_nat (length bs) /\ view w' = fs_write fd (take (Z.to_nat k) bs) (view w));
  read_some fd n w bs w' : p_read fd n w = (Some bs, w') ->
    exists c off, fs_contents fd (view w) = Some (c, off) /\ bs `prefix_of` take (Z.to_nat n) (drop off c) /\
      view w' = fs_seek fd (off + length bs) (view w);
  read_none fd n w w' : p_read fd n w = (None, w') -> view w' = view w;
  rewind_law fd w : view (p_rewind fd w) = fs_seek fd 0 (view w);
  fsync_law fd w : view (p_fsync fd w) = view w;
  close_law fd w : view (p_close fd w) = fs_close fd (view w);
  mkdirs_law p w : view (p_mkdirs p w) = view w;
  clock_law w : view (p_clock w).2 = view w /\ 0 <= (p_clock w).1 < 2 ^ 63;
  load_law p w : view (f_load p w).2 = view w /\
    (forall c, (f_load p w).1 = Some c -> files (view w) !! p = Some c);
  save_law p bs w k w' : f_save p bs w = (k, w') ->
    match k with
    | None => view w' = view w
    | Some k => 0 <= k <= Z.of_nat (length bs) /\
        view w' = mkFs (<[p := take (Z.to_nat k) bs]> (files (view w))) (fds (view w))
    end;
}.

Class PosixReliable (W : Type) `{PosixLaws W} : Prop := {
  reliable_open p m w : (m = O_RDONLY -> is_Some (files (view w) !! p)) -> is_Some (p_open p m w).1;
  reliable_fstat fd w : is_Some (fds (view w) !! fd) -> is_Some (p_fstat fd w).1;
  reliable_write fd bs w : is_Some (fds (view w) !! fd) -> (p_write fd bs w).1 = Z.of_nat (length bs);
  reliable_read fd n w c off : fs_contents fd (view w) = Some (c, off) ->
    (p_read fd n w).1 = Some (take (Z.to_nat n) (drop off c));
  reliable_load p w : (f_load p w).1 = files (view w) !! p;
  reliable_save p bs w : (f_save p bs w).1 = Some (Z.of_nat (length bs));
}.

(** ** Lemmas: writing at the end *)

Lemma fs_patch_end c bs : fs_patch c (length c) bs = c ++ bs.
Proof.
  unfold fs_patch. rewrite take_ge, drop_ge by lia. rewrite Nat.sub_diag. simpl. by rewrite app_nil_r.
Qed.

Lemma fs_patch_start c bs : fs_patch c 0 bs = bs ++ drop (length bs) c.
Proof. done. Qed.

(** ** Concrete machines

    [SimFs None] does everything it is asked to; [SimFs (Some n)] writes at most
    [n] bytes at a time. *)

Record SimFs (lim : option nat) : Type := mkSimFs { sf_view : Fs; sf_clock : Z }.
Arguments mkSimFs {lim} sf_view sf_clock.
Arguments sf_view {lim} s.
Arguments sf_clock {lim} s.

Definition free_fd (v : Fs) : Z := Z.of_N (fresh (set_map Z.to_N (dom (fds v)) : gset N)).

Lemma free_fd_ok v : 0 <= free_fd v /\ fds v !! free_fd v = None.
Proof.
  unfold free_fd. split; [lia|]. apply not_elem_of_dom. intros Hin.
  apply (is_fresh (set_map Z.to_N (dom (fds v)) : gset N)).
  apply elem_of_map. eexists. split; [|exact Hin]. by rewrite N2Z.id.
Qed.

Definition with_view {lim} (w : SimFs lim) (v : Fs) : SimFs lim := mkSimFs v (sf_clock w).
Definition limited (lim : option nat) (bs : list Z) : list Z := match lim with Some n => take n bs | None => bs end.

#[export] Instance SimFs_Posix lim : Posix (SimFs lim) := {
  p_open p m w :=
    let fd := free_fd (sf_view w) in
    if bool_decide (m = O_RDONLY /\ files (sf_view w) !! p = None) then (None, w)
    else (Some fd, with_view w (fs_open p m fd (sf_view w)));
  p_fstat fd w := ((fun co => Z.of_nat (length co.1)) <$> fs_contents fd (sf_view w), w);
  p_write fd bs w := if bool_decide (fds (sf_view w) !! fd = None) then (-1, w)
    else let bs := limited lim bs in (Z.of_nat (length bs), with_view w (fs_write fd bs (sf_view w)));
  p_read fd n w :=
    match fs_contents fd (sf_view w) with
    | Some (c, off) =>
        let bs := take (Z.to_nat n) (drop off c) in
        (Some bs, with_view w (fs_seek fd (off + length bs) (sf_view w)))
    | None => (None, w)
    end;
  p_rewind fd w := with_view w (fs_seek fd 0 (sf_view w));
  p_fsync fd w := w;
  p_close fd w := with_view w (fs_close fd (sf_view w));
  p_mkdirs p w := w;
  p_clock w := (sf_clock w mod 2 ^ 63, mkSimFs (sf_view w) (sf_clock w + 1));
  f_load p w := (files (sf_view w) !! p, w);
  f_save p bs w := let bs := limited lim bs in
    (Some (Z.of_nat (length bs)), with_view w (mkFs (<[p := bs]> (files (sf_view w))) (fds (sf_view w))));
}.

Lemma limited_take lim bs :
  (length (limited lim bs) <= length bs)%nat /\ limited lim bs = take (length (limited lim bs)) bs.
Proof.
  destruct lim as [n|]; simpl; [|by rewrite firstn_all].
  rewrite length_take. split; [lia|]. destruct (decide (n <= length bs)%nat).
  - by rewrite Nat.min_l by lia.
  - rewrite Nat.min_r by lia. by rewrite !take_ge by lia.
Qed.

#[export] Program Instance SimFs_laws lim : PosixLaws (SimFs lim) := { view := sf_view }.
Next Obligation.
  intros lim p m w fd w'. simpl. case_bool_decide as Hm; [done|]. intros [= <- <-].
  destruct (free_fd_ok (sf_view w)). split_and!; try done. intros ->.
  destruct (files (sf_view w) !! p) eqn:E; [eauto|]. by destruct Hm.
Qed.
Next Obligation. intros lim p m w w'. simpl. case_bool_decide; by intros [= <-]. Qed.
Next Obligation.
  intros lim fd w. simpl. split; [done|]. destruct (fs_contents fd (sf_view w)) as [[c off]|]; [|done].
  intros n [= <-]. eauto.
Qed.
Next Obligation.
  intros lim fd bs w k w'. simpl. case_bool_decide; intros [= <- <-]; [by left|]. right.
  destruct (limited_take lim bs) as [Hl Ht]. rewrite Nat2Z.id, <- Ht. split; [lia|done].
Qed.
Next Obligation.
  intros lim fd n w bs w'. simpl. destruct (fs_contents fd (sf_view w)) as [[c off]|] eqn:E; [|done].
  intros [= <- <-]. by exists c, off.
Qed.
Next Obligation.
  intros lim fd n w w'. simpl. by destruct (fs_contents fd (sf_view w)) as [[c off]|]; intros [=<-].
Qed.
Next Obligation. done. Qed.
Next Obligation. done. Qed.
Next Obligation. done. Qed.
Next Obligation. done. Qed.
Next Obligation. intros lim w. simpl. split; [done|]. apply Z.mod_pos_bound. lia. Qed.
Next Obligation. intros lim p w. simpl. by split. Qed.
Next Obligation.
  intros lim p bs w k w'. simpl. intros [= <- <-]. simpl.
  destruct (limited_take lim bs) as [Hl Ht]. rewrite Nat2Z.id, <- Ht. split; [lia|done].
Qed.

#[export] Instance SimFs_reliable : PosixReliable (SimFs None).
Proof.
  split; simpl.
  - intros p m w Hm. case_bool_decide as E; [|done]. destruct E as [E1 E2].
    destruct (Hm E1) as [? E]. by rewrite E in E2.
  - intros fd w [[p off] E]. unfold fs_contents. by rewrite E.
  - intros fd bs w [[p off] E]. by rewrite E.
  - intros fd n w c off E. by rewrite E.
  - done.
  - done.
Qed.

(** A machine with no open file. *)
Definition sim_fs (lim : option nat) (fs : gmap (list Z) (list Z)) : SimFs lim := mkSimFs (mkFs fs ∅) 1000.
