(* ===== verification/WalEntry.v ===== *)
(** * The entries of the client's write-ahead log
    (src/client/overlay_mgr/wal_enhanced.h, wal_enhanced.cpp)

    The checksum with its table, the builder, validator and parser of one
    entry, and the scan that recovers the entries of a segment after a crash.
    The computations are those of the monad [M] of [BootEnv], whose statics are
    the checksum table.

    The table is an object declared [const] and filled through a [const_cast].
    C++ leaves such a store undefined, so what it does is a parameter about which
    nothing is assumed ([ConstObjects]): it may trap, be without effect, or leave
    any words in the array. [wal_table] is what the initialisation leaves, and the
    format is that of the checksum with this table ([walcrc]), which is CRC-32C
    only when every store took effect. *)

From S2P Require Import Prelude Crc32c BootEnv.

(** ** Constants and data *)

Definition WAL_MAGIC : Z := 0x48445857.
Definition WAL_VERSION : Z := 1.
Definition WAL_HEADER_SIZE : Z := 6.
Definition WAL_SEQID_SIZE : Z := 8.
Definition WAL_CRC_SIZE : Z := 4.
Definition WAL_PAYLOADLEN_SIZE : Z := 4.

Record WalEntry : Type := mkWalEntry {
  e_magic : Z;
  e_version : Z;
  e_seq_id : Z;
  e_header_crc : Z;
  e_payload_len : Z;
  e_payload : list Z;
  e_footer_crc : Z;
}.

Inductive WalEntryStatus : Type := WAL_OK | TORN_WRITE_DETECTED | SEQ_ID_VIOLATION | CRC_MISMATCH.
#[export] Instance WalEntryStatus_eq : EqDecision WalEntryStatus.
Proof. solve_decision. Defined.

Record WalEntryCheckResult : Type := mkCheck {
  c_status : WalEntryStatus;
  c_seq_id : Z;
  c_error_msg : string;
}.

(** ** The checksum *)

(** What a store through [const_cast] into an array declared [const] does;
    [None]: the process is killed. *)
Class ConstObjects : Type := { const_store : list Z -> nat -> Z -> option (list Z) }.

Section Checksum.
Context `{CO : ConstObjects} {W : Type}.

(** One turn of the inner loop, and one value of the table. *)
Definition wal_crc_bit (crc : Z) : Z :=
  Z.lxor (Z.shiftr crc 1) (if negb (Z.land crc 1 =? 0) then 0x82F63B78 else 0).

Fixpoint wal_fill_table (n : nat) (t : list Z) : option (list Z) :=
  match n with
  | O => Some t
  | S i => t' ← wal_fill_table i t; const_store t' i (Nat.iter 8 wal_crc_bit (Z.of_nat i))
  end.

Definition InitCrc32cTable : M W () := fun p =>
  if crc32c_table_init (statics p) then Ok ((), p)
  else let* t := of_opt (wal_fill_table 256 (crc32c_table (statics p))) in
       Ok ((), mkProc (os p) (mkCrcStatic t true)).

(** The array holds 32-bit words, whatever was stored. *)
Definition wal_crc_step (table : list Z) (crc b : Z) : Z :=
  Z.lxor (u32 (table !!! Z.to_nat (Z.land (Z.lxor crc b) 0xFF))) (Z.shiftr crc 8).

Definition ComputeCrc32c (data : list Z) : M W Z :=
  _ ← InitCrc32cTable;
  ((fun p => Ok (Z.lxor (foldl (wal_crc_step (crc32c_table (statics p))) 0xFFFFFFFF data) 0xFFFFFFFF, p)) : M W Z).
End Checksum.

(** ** One entry *)

(** The size of an entry: the sum is evaluated at 32 bits, as [payload_len] is
    a [uint32_t] and the constants are promoted to [int]. *)
Definition wal_total (payload_len : Z) : Z :=
  u32 (WAL_HEADER_SIZE + WAL_SEQID_SIZE + WAL_CRC_SIZE + WAL_PAYLOADLEN_SIZE + payload_len + WAL_CRC_SIZE).
Definition wal_align (total : Z) : Z := Z.land (total + 7) (Z.lnot 7).

Section Entry.
Context `{CO : ConstObjects} {W : Type}.

(** [payload] is [None] for a null pointer. *)
Definition Build (seq_id : Z) (payload : option (list Z)) (payload_len : Z) : M W (list Z) :=
  let buf := replicate (Z.to_nat (wal_align (wal_total payload_len))) 0 in
  buf ← mem (wr buf 0 (le_bytes 4 WAL_MAGIC));
  buf ← mem (wr buf 4 (le_bytes 2 WAL_VERSION));
  buf ← mem (wr buf 6 (le_bytes 8 seq_id));
  hdr ← mem (rd_bytes buf 0 14);
  header_crc ← ComputeCrc32c (hdr ++ le_bytes 4 payload_len);
  buf ← mem (wr buf 14 (le_bytes 4 header_crc));
  buf ← mem (wr buf 18 (le_bytes 4 payload_len));
  '(buf, off) ← match payload with
    | Some src =>
        if 0 <? payload_len then
          src ← mem (rd_bytes src 0 payload_len);
          buf ← mem (wr buf 22 src);
          mret (buf, 22 + payload_len)
        else mret (buf, 22)
    | None => mret (buf, 22)
    end;
  all ← mem (rd_bytes buf 0 off);
  footer_crc ← ComputeCrc32c all;
  mem (wr buf off (le_bytes 4 footer_crc)).

Definition torn (seq_id : Z) (msg : string) : M W WalEntryCheckResult :=
  mret (mkCheck TORN_WRITE_DETECTED seq_id msg).

Definition Validate (data : list Z) (len : Z) : M W WalEntryCheckResult :=
  if len <? WAL_HEADER_SIZE + WAL_SEQID_SIZE + WAL_CRC_SIZE + WAL_PAYLOADLEN_SIZE + WAL_CRC_SIZE
  then torn 0 "Entry too short"
  else
  magic ← mem (rd 4 data 0);
  if negb (magic =? WAL_MAGIC) then torn 0 "Magic mismatch" else
  seq_id ← mem (rd 8 data 6);
  stored_header_crc ← mem (rd 4 data 14);
  payload_len ← mem (rd 4 data 18);
  let expected_len := wal_total payload_len in
  if len <? expected_len then torn seq_id "Payload truncated" else
  hdr ← mem (rd_bytes data 0 (WAL_HEADER_SIZE + WAL_SEQID_SIZE));
  computed_header_crc ← ComputeCrc32c (hdr ++ le_bytes 4 payload_len);
  if negb (computed_header_crc =? stored_header_crc)
  then torn seq_id "Header CRC mismatch (torn write)" else
  let footer_off := u64 (expected_len - WAL_CRC_SIZE) in
  stored_footer_crc ← mem (rd 4 data footer_off);
  all ← mem (rd_bytes data 0 footer_off);
  computed_footer_crc ← ComputeCrc32c all;
  if negb (computed_footer_crc =? stored_footer_crc)
  then torn seq_id "Footer CRC mismatch (torn write)"
  else mret (mkCheck WAL_OK seq_id "").

Definition Parse (data : list Z) : res WalEntry :=
  let* magic := rd 4 data 0 in
  let* version := rd 2 data 4 in
  let* seq_id := rd 8 data 6 in
  let* header_crc := rd 4 data 14 in
  let* payload_len := rd 4 data 18 in
  let* payload := (if 0 <? payload_len then rd_bytes data 22 payload_len else Ok []) in
  let* footer_crc := rd 4 data (22 + payload_len) in
  Ok (mkWalEntry magic version seq_id header_crc payload_len payload footer_crc).

(** The loop of [WalSegment::ReadAllEntries] over the [n] bytes read. *)
Fixpoint scan_entries (fuel : nat) (data : list Z) (n offset : Z) (entries : list WalEntry)
  : M W (list WalEntry) :=
  match fuel with
  | O => fun _ => NoFuel
  | S k =>
      if negb (offset <? n) then mret entries else
      result ← Validate (drop (Z.to_nat offset) data) (n - offset);
      if negb (bool_decide (c_status result = WAL_OK)) then mret entries else
      entry ← mem (Parse (drop (Z.to_nat offset) data));
      let entry_size := wal_align (wal_total (e_payload_len entry)) in
      scan_entries k data n (offset + entry_size) (entries ++ [entry])
  end.
End Entry.

(** ** The table and the checksum it gives *)

(** The table the initialisation leaves, unless it kills the process. *)
Definition wal_table `{CO : ConstObjects} : option (list Z) := wal_fill_table 256 (replicate 256 0).

Class TableOf : Type := the_table : list Z.
Class Filled `{CO : ConstObjects, TT : TableOf} : Prop := table_filled : wal_table = Some the_table.

Definition walcrc {TT : TableOf} (data : list Z) : Z :=
  Z.lxor (foldl (wal_crc_step the_table) 0xFFFFFFFF data) 0xFFFFFFFF.

Lemma walcrc_range {TT : TableOf} data : Forall is_byte data -> 0 <= walcrc data < 2 ^ 32.
Proof.
  intros _. unfold walcrc. apply lxor_range; [|lia].
  cut (forall c, 0 <= c < 2 ^ 32 -> 0 <= foldl (wal_crc_step the_table) c data < 2 ^ 32); [intros Hc; apply Hc; lia|].
  induction data as [|b data IH]; intros c Hc; [done|]. apply IH. unfold wal_crc_step. apply lxor_range.
  - apply wrap_range. lia.
  - rewrite Z.shiftr_div_pow2 by lia. change (2 ^ 8) with 256. Z.div_mod_to_equations. lia.
Qed.

Section Format.
Context {TT : TableOf}.

(** ** The format as a byte string

    [wal_raw] lays out given fields, [wal_record] is an entry without its
    padding, [wal_image] with it, and [wal_entry] what it stands for. *)
Definition wal_hdr (version seq_id : Z) : list Z :=
  le_bytes 4 WAL_MAGIC ++ le_bytes 2 version ++ le_bytes 8 seq_id.
Definition wal_hcrc (version seq_id n : Z) : Z := walcrc (wal_hdr version seq_id ++ le_bytes 4 n).
Definition wal_body (version seq_id : Z) (payload : list Z) : list Z :=
  let n := Z.of_nat (length payload) in
  wal_hdr version seq_id ++ le_bytes 4 (wal_hcrc version seq_id n) ++ le_bytes 4 n ++ payload.
Definition wal_raw (version seq_id header_crc : Z) (payload : list Z) (footer_crc : Z) : list Z :=
  wal_hdr version seq_id ++ le_bytes 4 header_crc ++ le_bytes 4 (Z.of_nat (length payload)) ++ payload ++
  le_bytes 4 footer_crc.
Definition wal_record (version seq_id : Z) (payload : list Z) : list Z :=
  wal_body version seq_id payload ++ le_bytes 4 (walcrc (wal_body version seq_id payload)).
Definition wal_pad (n : nat) : nat := Z.to_nat (wal_align (Z.of_nat n) - Z.of_nat n).
Definition wal_image (seq_id : Z) (payload : list Z) : list Z :=
  let r := wal_record WAL_VERSION seq_id payload in r ++ replicate (wal_pad (length r)) 0.
Definition wal_entry (version seq_id : Z) (payload : list Z) : WalEntry :=
  let n := Z.of_nat (length payload) in
  mkWalEntry WAL_MAGIC version seq_id (wal_hcrc version seq_id n) n payload
    (walcrc (wal_body version seq_id payload)).

#[local] Arguments wal_raw : simpl never.
#[local] Arguments wal_record : simpl never.
#[local] Arguments wal_image : simpl never.

(** A payload whose entry has a size that fits 32 bits. *)
Definition wal_fits (payload : list Z) : Prop :=
  Forall is_byte payload /\ 26 + Z.of_nat (length payload) < 2 ^ 32.

(** ** Lemmas: computations that return a known value *)

(** The statics in every state: as at the start, or as initialised. *)
Definition crc_ready `{CO : ConstObjects} (st : CrcStatic) : Prop :=
  if crc32c_table_init st then wal_table = Some (crc32c_table st) else crc32c_table st = replicate 256 0.

Definition gives `{CO : ConstObjects} {W A} (c : M W A) (a : A) : Prop := forall p, crc_ready (statics p) ->
  exists st, c p = Ok (a, mkProc (os p) st) /\ crc_ready st.

Section Gives.
Context `{CO : ConstObjects} {W : Type}.

Lemma gives_ret {A} (a : A) : gives (W:=W) (mret a) a.
Proof. intros [w st] Hst. by exists st. Qed.

Lemma gives_ret_eq {A} (a b : A) : a = b -> gives (W:=W) (mret a) b.
Proof. intros ->. apply gives_ret. Qed.

Lemma gives_mem {A} (r : res A) a : r = Ok a -> gives (W:=W) (mem r) a.
Proof. intros -> [w st] Hst. by exists st. Qed.

Lemma gives_bind {A B} (c : M W A) (k : A -> M W B) a b :
  gives c a -> gives (k a) b -> gives (mbind k c) b.
Proof.
  intros Hc Hk p Hp. destruct (Hc p Hp) as (st & E & Hst). rewrite (M_bind_run _ _ _ _ _ E).
  destruct (Hk (mkProc (os p) st) Hst) as (st' & E' & Hst'). eauto.
Qed.

Lemma crc_ready_cold : crc_ready crc_cold.
Proof. done. Qed.
End Gives.

Lemma run_mem {W A} (r : res A) (p : Proc W) a : r = Ok a -> mem r p = Ok (a, p).
Proof. by intros ->. Qed.

Section ChecksumLemmas.
Context `{CO : ConstObjects} {CW : Filled} {W : Type}.

Lemma gives_init p : crc_ready (statics p) ->
  (InitCrc32cTable : M W ()) p = Ok ((), mkProc (os p) (mkCrcStatic the_table true)) /\
  crc_ready (mkCrcStatic the_table true).
Proof.
  destruct p as [w [t i]]. intros Hr. split; [|exact table_filled].
  unfold InitCrc32cTable, crc_ready in *. cbn [statics crc32c_table_init crc32c_table os] in *. destruct i.
  - rewrite table_filled in Hr. by injection Hr as <-.
  - subst t. fold wal_table. by rewrite table_filled.
Qed.

Lemma gives_crc data : Forall is_byte data -> gives (W:=W) (ComputeCrc32c data) (walcrc data).
Proof.
  intros Hd p Hp. destruct (gives_init p Hp) as [E Hr]. eexists. split; [|exact Hr].
  unfold ComputeCrc32c. by rewrite (M_bind_run _ _ _ _ _ E).
Qed.
End ChecksumLemmas.





(** ** Lemmas: the format *)

Lemma wal_align_spec t : wal_align t = 8 * ((t + 7) / 8).
Proof.
  unfold wal_align. rewrite <- Z.ldiff_land. change 7 with (Z.ones 3) at 2. rewrite Z.ldiff_ones_r by lia.
  rewrite Z.shiftl_mul_pow2, Z.shiftr_div_pow2 by lia. change (2 ^ 3) with 8. lia.
Qed.

Lemma wal_align_bounds t : t <= wal_align t < t + 8.
Proof. rewrite wal_align_spec. Z.div_mod_to_equations. lia. Qed.

Lemma wal_total_fits payload :
  wal_fits payload -> wal_total (Z.of_nat (length payload)) = 26 + Z.of_nat (length payload).
Proof.
  intros [_ Hn]. unfold wal_total, u32, WAL_HEADER_SIZE, WAL_SEQID_SIZE, WAL_CRC_SIZE, WAL_PAYLOADLEN_SIZE.
  rewrite wrap_small; lia.
Qed.

Lemma wal_hdr_length v s : length (wal_hdr v s) = 14%nat.
Proof. done. Qed.

Lemma wal_body_length v s p : length (wal_body v s p) = (22 + length p)%nat.
Proof. done. Qed.

Lemma wal_record_length v s p : length (wal_record v s p) = (26 + length p)%nat.
Proof. unfold wal_record. rewrite length_app, wal_body_length, le_bytes_length. lia. Qed.

Lemma wal_image_length s p : Z.of_nat (length (wal_image s p)) = wal_align (26 + Z.of_nat (length p)).
Proof.
  unfold wal_image, wal_pad. rewrite length_app, length_replicate, wal_record_length.
  replace (Z.of_nat (26 + length p)) with (26 + Z.of_nat (length p)) by lia.
  pose proof (wal_align_bounds (26 + Z.of_nat (length p))). lia.
Qed.

Lemma wal_hdr_bytes v s : Forall is_byte (wal_hdr v s).
Proof. unfold wal_hdr. rewrite !Forall_app. auto using le_bytes_bytes. Qed.

Lemma wal_body_bytes v s p : Forall is_byte p -> Forall is_byte (wal_body v s p).
Proof. intros. unfold wal_body. rewrite !Forall_app. auto 6 using le_bytes_bytes, wal_hdr_bytes. Qed.
#[local] Hint Resolve wal_hdr_bytes wal_body_bytes le_bytes_bytes : hd.

Lemma wr_fill_at pre src n off :
  off = Z.of_nat (length pre) -> (length src <= n)%nat ->
  wr (pre ++ replicate n 0) off src = Ok ((pre ++ src) ++ replicate (n - length src) 0).
Proof. intros ->. apply wr_fill. Qed.

Lemma rd_bytes_at a b c off n :
  off = Z.of_nat (length a) -> n = Z.of_nat (length b) -> rd_bytes (a ++ b ++ c) off n = Ok b.
Proof. intros -> ->. apply rd_bytes_app. Qed.

Lemma rd_bytes_prefix a c n : n = Z.of_nat (length a) -> rd_bytes (a ++ c) 0 n = Ok a.
Proof. intros ->. apply (rd_bytes_app []). Qed.

Lemma rd_bytes_all a n : n = Z.of_nat (length a) -> rd_bytes a 0 n = Ok a.
Proof. intros ->. rewrite <- (app_nil_r a) at 1. by apply rd_bytes_prefix. Qed.

Lemma rd_at a b c off n :
  off = Z.of_nat (length a) -> n = Z.of_nat (length b) -> rd n (a ++ b ++ c) off = Ok (le_val b).
Proof. intros -> ->. apply rd_app. Qed.

Lemma rd_le a k z c off n :
  off = Z.of_nat (length a) -> n = Z.of_nat k -> 0 <= z < 2 ^ (8 * n) ->
  rd n (a ++ le_bytes k z ++ c) off = Ok z.
Proof.
  intros Ha -> Hz. rewrite (rd_at a) by (rewrite ?le_bytes_length; done).
  by rewrite le_val_le_bytes, Z.mod_small.
Qed.

Lemma wal_hcrc_range v s n : 0 <= wal_hcrc v s n < 2 ^ 32.
Proof. apply walcrc_range. rewrite Forall_app. auto with hd. Qed.

(** The fields of an entry, whatever follows it. *)
Section Fields.
Context (v s hc fc : Z) (p rest : list Z).
Notation data := (wal_raw v s hc p fc ++ rest).
Notation n := (Z.of_nat (length p)).
Notation body := (wal_hdr v s ++ le_bytes 4 hc ++ le_bytes 4 n ++ p).

Lemma rec_magic : rd 4 data 0 = Ok WAL_MAGIC.
Proof. unfold wal_raw, wal_hdr. rewrite <- ?app_assoc. by apply (rd_le []). Qed.

Lemma rec_version : 0 <= v < 2 ^ 16 -> rd 2 data 4 = Ok v.
Proof. intros. unfold wal_raw, wal_hdr. rewrite <- ?app_assoc. by apply (rd_le (le_bytes 4 WAL_MAGIC)). Qed.

Lemma rec_seq : 0 <= s < 2 ^ 64 -> rd 8 data 6 = Ok s.
Proof.
  intros. unfold wal_raw, wal_hdr. rewrite <- ?app_assoc, app_assoc.
  by apply (rd_le (le_bytes 4 WAL_MAGIC ++ le_bytes 2 v)).
Qed.

Lemma rec_hcrc : 0 <= hc < 2 ^ 32 -> rd 4 data 14 = Ok hc.
Proof. intros. unfold wal_raw. rewrite <- !app_assoc. by apply (rd_le (wal_hdr v s)). Qed.

Lemma rec_len : wal_fits p -> rd 4 data 18 = Ok n.
Proof.
  intros [_ Hn]. unfold wal_raw. rewrite <- !app_assoc, app_assoc.
  apply (rd_le (wal_hdr v s ++ le_bytes 4 hc)); [done..|]. lia.
Qed.

Lemma rec_payload : rd_bytes data 22 n = Ok p.
Proof.
  unfold wal_raw. rewrite <- !app_assoc. rewrite (app_assoc (wal_hdr v s)), (app_assoc (wal_hdr v s ++ _)).
  by apply (rd_bytes_at ((wal_hdr v s ++ le_bytes 4 hc) ++ le_bytes 4 n)).
Qed.

Lemma raw_split : data = body ++ le_bytes 4 fc ++ rest.
Proof. unfold wal_raw. by rewrite <- !app_assoc. Qed.

Lemma rec_footer : 0 <= fc < 2 ^ 32 -> rd 4 data (22 + n) = Ok fc.
Proof.
  intros. rewrite raw_split. apply (rd_le body); [|done..].
  rewrite !length_app, !le_bytes_length, wal_hdr_length. lia.
Qed.

Lemma rec_hdr : rd_bytes data 0 14 = Ok (wal_hdr v s).
Proof. unfold wal_raw. rewrite <- !app_assoc. by apply rd_bytes_prefix. Qed.

Lemma rec_body : rd_bytes data 0 (22 + n) = Ok body.
Proof.
  rewrite raw_split. apply rd_bytes_prefix. rewrite !length_app, !le_bytes_length, wal_hdr_length. lia.
Qed.
End Fields.

Lemma wal_record_raw v s p :
  wal_record v s p = wal_raw v s (wal_hcrc v s (Z.of_nat (length p))) p (walcrc (wal_body v s p)).
Proof. unfold wal_record, wal_raw, wal_body at 1. cbv zeta. by rewrite <- !app_assoc. Qed.

Lemma wal_raw_length v s hc p fc : length (wal_raw v s hc p fc) = (26 + length p)%nat.
Proof. unfold wal_raw. rewrite !length_app, !le_bytes_length, wal_hdr_length. lia. Qed.

Section EntryLemmas.
Context `{CO : ConstObjects} {CW : Filled} {W : Type}.

Ltac gbind := eapply gives_bind; [apply gives_mem|].

Lemma gives_build s p :
  wal_fits p -> gives (W:=W) (Build s (Some p) (Z.of_nat (length p))) (wal_image s p).
Proof.
  intros Hp. pose proof Hp as [Hb Hn]. unfold Build. cbv zeta. rewrite wal_total_fits by done.
  pose proof (wal_align_bounds (26 + Z.of_nat (length p))) as HN.
  set (N := Z.to_nat (wal_align (26 + Z.of_nat (length p)))). assert (26 + length p <= N)%nat by lia.
  gbind; [by apply (wr_fill_at [] _ N); [|rewrite le_bytes_length; lia]|].
  gbind; [by apply wr_fill_at; [|rewrite !le_bytes_length; lia]|].
  gbind; [by apply wr_fill_at; [|rewrite !le_bytes_length; lia]|].
  rewrite app_nil_l, <- (app_assoc (le_bytes 4 _) (le_bytes 2 _)). fold (wal_hdr WAL_VERSION s).
  gbind; [by apply rd_bytes_prefix|].
  eapply gives_bind; [apply gives_crc; rewrite Forall_app; auto with hd|].
  gbind; [by apply wr_fill_at; [|rewrite !le_bytes_length; lia]|].
  gbind; [by apply wr_fill_at; [|rewrite !le_bytes_length; lia]|].
  rewrite !le_bytes_length.
  apply (gives_bind _ _ (wal_body WAL_VERSION s p ++ replicate (N - (22 + length p)) 0, 22 + Z.of_nat (length p))).
  { unfold wal_body, wal_hcrc. destruct (Z.ltb_spec 0 (Z.of_nat (length p))).
    - gbind; [by apply rd_bytes_all|].
      gbind; [by apply wr_fill_at; [|lia]|].
      apply gives_ret_eq. f_equal. rewrite <- !app_assoc. do 5 f_equal. lia.
    - destruct p; [|simpl in *; lia].
      apply gives_ret_eq. by f_equal. }
  gbind; [by apply rd_bytes_prefix; rewrite wal_body_length; lia|].
  eapply gives_bind; [apply gives_crc; auto with hd|].
  apply gives_mem. rewrite wr_fill_at; [|rewrite wal_body_length; lia|rewrite le_bytes_length; lia].
  f_equal. unfold wal_image, wal_record, wal_pad. do 2 f_equal.
  rewrite le_bytes_length, length_app, wal_body_length, le_bytes_length.
  replace (Z.of_nat (22 + length p + 4)) with (26 + Z.of_nat (length p)) by lia. subst N. lia.
Qed.

(** Validation of a well-framed entry, whatever its checksum fields hold and
    whatever is behind it: the outcome in full. *)
Definition raw_verdict (v s hc : Z) (p : list Z) (fc : Z) : WalEntryCheckResult :=
  if negb (wal_hcrc v s (Z.of_nat (length p)) =? hc)
  then mkCheck TORN_WRITE_DETECTED s "Header CRC mismatch (torn write)"
  else if negb (walcrc (wal_body v s p) =? fc)
  then mkCheck TORN_WRITE_DETECTED s "Footer CRC mismatch (torn write)"
  else mkCheck WAL_OK s "".

Lemma gives_validate_raw v s hc p fc rest :
  wal_fits p -> 0 <= s < 2 ^ 64 -> 0 <= hc < 2 ^ 32 -> 0 <= fc < 2 ^ 32 ->
  gives (W:=W) (Validate (wal_raw v s hc p fc ++ rest) (Z.of_nat (length (wal_raw v s hc p fc ++ rest))))
    (raw_verdict v s hc p fc).
Proof.
  intros Hp Hs Hhc Hfc. pose proof Hp as [Hb Hn].
  assert (Z.of_nat (length (wal_raw v s hc p fc ++ rest)) = 26 + Z.of_nat (length p) + Z.of_nat (length rest)) as Hlen.
  { rewrite length_app, wal_raw_length. lia. }
  rewrite Hlen. unfold Validate, WAL_HEADER_SIZE, WAL_SEQID_SIZE, WAL_CRC_SIZE, WAL_PAYLOADLEN_SIZE.
  rewrite (proj2 (Z.ltb_ge _ _)) by lia.
  gbind; [apply rec_magic|]. simpl negb. cbv iota.
  gbind; [by apply rec_seq|]. gbind; [by apply rec_hcrc|]. gbind; [by apply rec_len|].
  cbv zeta. rewrite wal_total_fits by done. rewrite (proj2 (Z.ltb_ge _ _)) by lia.
  gbind; [apply rec_hdr|].
  eapply gives_bind; [apply gives_crc; rewrite Forall_app; auto with hd|].
  unfold raw_verdict, wal_hcrc. destruct (_ =? hc) eqn:E; cbn [negb]; [|apply gives_ret]. bool_props.
  assert (u64 (26 + Z.of_nat (length p) - 4) = 22 + Z.of_nat (length p)) as -> by (unfold u64; rewrite wrap_small; lia).
  gbind; [by apply rec_footer|]. gbind; [apply rec_body|].
  eapply gives_bind; [apply gives_crc; rewrite !Forall_app; auto 6 with hd|].
  unfold wal_body, wal_hcrc. rewrite E. destruct (_ =? fc); apply gives_ret.
Qed.

Lemma wal_footer_range v s p : Forall is_byte p -> 0 <= walcrc (wal_body v s p) < 2 ^ 32.
Proof. intros. apply walcrc_range. auto with hd. Qed.

Lemma raw_verdict_ok v s p :
  raw_verdict v s (wal_hcrc v s (Z.of_nat (length p))) p (walcrc (wal_body v s p)) = mkCheck WAL_OK s "".
Proof. unfold raw_verdict. by rewrite !Z.eqb_refl. Qed.

Lemma gives_validate v s p rest :
  wal_fits p -> 0 <= s < 2 ^ 64 ->
  gives (W:=W) (Validate (wal_record v s p ++ rest) (Z.of_nat (length (wal_record v s p ++ rest)))) (mkCheck WAL_OK s "").
Proof.
  intros Hp Hs. rewrite wal_record_raw, <- (raw_verdict_ok v s p).
  apply gives_validate_raw; [exact Hp|exact Hs|apply wal_hcrc_range|apply wal_footer_range, Hp].
Qed.
End EntryLemmas.

Lemma parse_record v s p rest :
  wal_fits p -> 0 <= v < 2 ^ 16 -> 0 <= s < 2 ^ 64 -> Parse (wal_record v s p ++ rest) = Ok (wal_entry v s p).
Proof.
  intros Hp Hv Hs. pose proof Hp as [Hb Hn]. rewrite wal_record_raw. unfold Parse.
  rewrite rec_magic, rec_version, rec_seq, (rec_hcrc _ _ _ _ _ _ (wal_hcrc_range v s _)), rec_len by done.
  cbn [res_bind]. match goal with |- context [if ?b then ?c else _] => assert ((if b then c else Ok []) = Ok p) as -> end.
  { destruct (Z.ltb_spec 0 (Z.of_nat (length p))); [apply rec_payload|]. destruct p; [done|simpl in *; lia]. }
  cbn [res_bind]. rewrite (rec_footer _ _ _ _ _ _ (wal_footer_range v s p Hb)). reflexivity.
Qed.

(** ** Lemmas: what an accepted entry is *)

Lemma gives_inv `{CO : ConstObjects} {W A} (c : M W A) a p b q :
  gives c a -> crc_ready (statics p) -> c p = Ok (b, q) -> b = a /\ crc_ready (statics q).
Proof. intros Hc Hp E. destruct (Hc p Hp) as (st & E' & Hst). rewrite E' in E. by simplify_eq. Qed.

Lemma rd_le_inv k m off z :
  Forall is_byte m -> rd (Z.of_nat k) m off = Ok z ->
  take k (drop (Z.to_nat off) m) = le_bytes k z /\ 0 <= z < 2 ^ (8 * Z.of_nat k).
Proof.
  intros Hm E. apply rd_inv in E as (-> & H1 & _ & H2). rewrite Nat2Z.id.
  assert (length (take k (drop (Z.to_nat off) m)) = k) as Hl by (rewrite length_take, length_drop; lia).
  assert (Forall is_byte (take k (drop (Z.to_nat off) m))) as Hb by by apply Forall_sub.
  split; [|rewrite <- Hl at 3; by apply le_val_bound].
  rewrite <- Hl at 2. by rewrite le_bytes_le_val.
Qed.

Lemma take_split {A} a b (l : list A) : take (a + b) l = take a l ++ take b (drop a l).
Proof. by rewrite take_take_drop. Qed.

Section Sound.
Context `{CO : ConstObjects} {CW : Filled} {W : Type}.

Lemma validate_sound data (p : Proc W) r q :
  Forall is_byte data -> crc_ready (statics p) ->
  Validate data (Z.of_nat (length data)) p = Ok (r, q) -> c_status r = WAL_OK ->
  26 + le_val (take 4 (drop 18 data)) < 2 ^ 32 ->
  exists v s payload rest, data = wal_record v s payload ++ rest /\
    0 <= v < 2 ^ 16 /\ 0 <= s < 2 ^ 64 /\ wal_fits payload /\ r = mkCheck WAL_OK s "".
Proof.
  intros Hd Hp E Hst Hlen. unfold Validate in E.
  destruct (_ <? _) eqn:E26 in E; [by injection E as <- <-|]. bool_props.
  unfold WAL_HEADER_SIZE, WAL_SEQID_SIZE, WAL_CRC_SIZE, WAL_PAYLOADLEN_SIZE in *.
  minv_mem E. destruct (v =? WAL_MAGIC) eqn:Em; [|by injection E as <- <-]. bool_props. subst v.
  minv_mem E. rename v into s. minv_mem E. rename v into hc. minv_mem E. rename v into n. cbv zeta in E.
  apply (rd_le_inv 4) in E0 as [F0 _]; [|done]. apply (rd_le_inv 8) in E1 as [F1 Hs]; [|done].
  apply (rd_le_inv 4) in E2 as [F2 Hhc]; [|done]. pose proof E3 as E3'. apply (rd_le_inv 4) in E3 as [F3 Hn]; [|done].
  change (Z.to_nat 18) with 18%nat in F3.
  rewrite F3, le_val_le_bytes, Z.mod_small in Hlen by done. clear E3'.
  assert (wal_total n = 26 + n) as Ht.
  { unfold wal_total, u32, WAL_HEADER_SIZE, WAL_SEQID_SIZE, WAL_CRC_SIZE, WAL_PAYLOADLEN_SIZE.
    rewrite wrap_small; lia. }
  rewrite Ht in E. destruct (_ <? _) eqn:El in E; [by injection E as <- <-|]. bool_props.
  minv_mem E. apply rd_bytes_inv in E0 as [-> _].
  minv E. apply (gives_inv _ (walcrc (take 14 data ++ le_bytes 4 n))) in E0 as [-> Hq];
    [|apply gives_crc; rewrite Forall_app; split; [by apply (Forall_sub _ 14 0)|auto with hd]|done].
  destruct (_ =? hc) eqn:Ehc in E; [|by injection E as <- <-]. bool_props.
  assert (u64 (26 + n - 4) = 22 + n) as Hu by (unfold u64; rewrite wrap_small; lia). rewrite Hu in E.
  minv_mem E. rename v into fc. apply (rd_le_inv 4) in E0 as [F4 Hfc]; [|done].
  minv_mem E. apply rd_bytes_inv in E0 as [-> _].
  minv E. apply (gives_inv _ (walcrc (take (Z.to_nat (22 + n)) data))) in E0 as [-> Hq'];
    [|apply gives_crc, (Forall_sub _ _ 0); done|done].
  destruct (_ =? fc) eqn:Efc in E; [|by injection E as <- <-]. bool_props. injection E as <- <-.
  set (payload := take (Z.to_nat n) (drop 22 data)).
  assert (Z.of_nat (length payload) = n) as Hpl by (unfold payload; rewrite length_take, length_drop; lia).
  pose proof (le_bytes_le_val (take 2 (drop 4 data)) (Forall_sub _ _ _ _ Hd)) as Hv.
  pose proof (le_val_bound (take 2 (drop 4 data)) (Forall_sub _ _ _ _ Hd)) as Hvr.
  rewrite (length_take_le (drop 4 data)) in Hv, Hvr by (rewrite length_drop; lia).
  set (ver := le_val (take 2 (drop 4 data))) in *.
  assert (take 14 data = wal_hdr ver s) as Hhdr.
  { unfold wal_hdr. rewrite Hv, <- F0, <- F1, (take_split 4 10), (take_split 2 8), drop_drop. done. }
  assert (take (Z.to_nat (22 + n)) data = wal_body ver s payload) as Hbody.
  { unfold wal_body, wal_hcrc. rewrite Hpl, <- Hhdr, Ehc, <- F2, <- F3.
    replace (Z.to_nat (22 + n)) with (14 + (4 + (4 + Z.to_nat n)))%nat by lia.
    rewrite !take_split, !drop_drop. done. }
  exists ver, s, payload, (drop (Z.to_nat (26 + n)) data). split_and!; try done; try lia.
  - rewrite <- (take_drop (Z.to_nat (26 + n)) data) at 1. f_equal. unfold wal_record.
    rewrite <- Hbody, Efc, <- F4. replace (Z.to_nat (26 + n)) with (Z.to_nat (22 + n) + 4)%nat by lia.
    by rewrite take_split.
  - split; [by apply Forall_sub|lia].
Qed.
End Sound.

(** ** Lemmas: the scan *)

Lemma rd_bytes_take m k off n :
  off + n <= Z.of_nat k -> (k <= length m)%nat -> rd_bytes (take k m) off n = rd_bytes m off n.
Proof.
  intros Hk Hm. unfold rd_bytes. destruct (in_block m off n) eqn:E.
  - apply in_block_true in E as (? & ? & ?).
    rewrite (proj2 (in_block_true _ _ _)) by (rewrite length_take; lia).
    rewrite skipn_firstn_comm, take_take. do 2 f_equal. lia.
  - destruct (in_block (take k m) off n) eqn:E'; [|done]. apply in_block_true in E' as (? & ? & H3).
    rewrite length_take in H3. rewrite (proj2 (in_block_true m off n)) in E; [done|lia].
Qed.

Lemma rd_take m k off n :
  off + n <= Z.of_nat k -> (k <= length m)%nat -> rd n (take k m) off = rd n m off.
Proof. intros. unfold rd. by rewrite rd_bytes_take. Qed.

(** A segment as written, and what a prefix of it holds. *)
Definition wal_log (es : list (Z * list Z)) : list Z := concat ((fun e => wal_image e.1 e.2) <$> es).
Definition wal_entries (es : list (Z * list Z)) : list WalEntry := (fun e => wal_entry WAL_VERSION e.1 e.2) <$> es.
Definition wal_ok (e : Z * list Z) : Prop := 0 <= e.1 < 2 ^ 64 /\ wal_fits e.2.
Fixpoint wal_durable (m : nat) (es : list (Z * list Z)) : list (Z * list Z) :=
  match es with
  | [] => []
  | e :: r => if decide (26 + length e.2 <= m)%nat then e :: wal_durable (m - length (wal_image e.1 e.2)) r else []
  end.

Lemma wal_durable_short m es : (8 * length (wal_durable m es) <= m)%nat.
Proof.
  revert m; induction es as [|[s p] es IH]; intros m; cbn [wal_durable length fst snd]; [lia|].
  destruct (decide _); cbn [length]; [|lia]. specialize (IH (m - length (wal_image s p))%nat).
  pose proof (wal_image_length s p) as Hl. pose proof (wal_align_bounds (26 + Z.of_nat (length p))). lia.
Qed.

Lemma wal_durable_prefix m es : wal_durable m es `prefix_of` es.
Proof.
  revert m; induction es as [|e es IH]; intros m; cbn [wal_durable]; [done|].
  destruct (decide _); [by apply prefix_cons|apply prefix_nil].
Qed.

Lemma wal_durable_all m es : (length (wal_log es) <= m)%nat -> wal_durable m es = es.
Proof.
  revert m; induction es as [|[s p] es IH]; intros m Hm; [done|].
  unfold wal_log in *. cbn [fmap list_fmap concat wal_durable fst snd] in *.
  rewrite length_app in Hm. pose proof (wal_image_length s p) as Hl.
  pose proof (wal_align_bounds (26 + Z.of_nat (length p))).
  rewrite decide_True by lia. f_equal. apply IH. lia.
Qed.

Lemma wal_durable_take m es : wal_durable (length (take m (wal_log es))) es = wal_durable m es.
Proof.
  rewrite length_take. destruct (decide (length (wal_log es) <= m)%nat).
  - by rewrite !wal_durable_all by lia.
  - by rewrite Nat.min_l by lia.
Qed.

Lemma wal_version_range : 0 <= WAL_VERSION < 2 ^ 16.
Proof. done. Qed.

Section Scan.
Context `{CO : ConstObjects} {CW : Filled} {W : Type}.

Lemma gives_torn s p k rest :
  wal_ok (s, p) -> (k < 26 + length p)%nat ->
  exists r, c_status r = TORN_WRITE_DETECTED /\
    gives (W:=W) (Validate (take k (wal_record WAL_VERSION s p ++ rest)) (Z.of_nat k)) r.
Proof.
  intros [Hs Hp] Hk. simpl in Hs, Hp. pose proof (wal_record_length WAL_VERSION s p) as Hl.
  unfold Validate, WAL_HEADER_SIZE, WAL_SEQID_SIZE, WAL_CRC_SIZE, WAL_PAYLOADLEN_SIZE.
  destruct (Z.ltb_spec (Z.of_nat k) (6 + 8 + 4 + 4 + 4)).
  { eexists; split; [|apply gives_ret]; done. }
  assert (k <= length (wal_record WAL_VERSION s p ++ rest))%nat by (rewrite length_app; lia).
  exists (mkCheck TORN_WRITE_DETECTED s "Payload truncated"). split; [done|].
  rewrite wal_record_raw in *.
  eapply gives_bind; [apply gives_mem; rewrite rd_take by lia; apply rec_magic|]. simpl negb. cbv iota.
  eapply gives_bind; [apply gives_mem; rewrite rd_take by lia; by apply rec_seq|].
  eapply gives_bind; [apply gives_mem; rewrite rd_take by lia; apply rec_hcrc, wal_hcrc_range|].
  eapply gives_bind; [apply gives_mem; rewrite rd_take by lia; by apply rec_len|].
  cbv zeta. rewrite wal_total_fits by done. rewrite (proj2 (Z.ltb_lt _ _)) by lia. apply gives_ret.
Qed.

Lemma scan_stop k data n off acc : n <= off -> gives (W:=W) (scan_entries (S k) data n off acc) acc.
Proof. intros. cbn [scan_entries]. rewrite (proj2 (Z.ltb_ge _ _)) by lia. apply gives_ret. Qed.

Lemma scan_prefix es pre m fuel acc :
  Forall wal_ok es -> (length (wal_durable m es) < fuel)%nat ->
  gives (W:=W)
    (scan_entries fuel (pre ++ take m (wal_log es)) (Z.of_nat (length (pre ++ take m (wal_log es))))
       (Z.of_nat (length pre)) acc)
    (acc ++ wal_entries (wal_durable m es)).
Proof.
  intros Hes. revert pre m fuel acc. induction Hes as [|[s p] es [Hs Hp] Hes IH]; intros pre m fuel acc Hf.
  { destruct fuel as [|k]; [lia|]. change (wal_log []) with (@nil Z). rewrite take_nil, app_nil_r.
    change (wal_entries _) with (@nil WalEntry). rewrite app_nil_r. by apply scan_stop. }
  destruct fuel as [|k]; [lia|]. simpl in Hs, Hp.
  destruct (decide (m = 0%nat)) as [->|Hm].
  { rewrite take_0, app_nil_r. cbn [wal_durable]. rewrite decide_False by lia. unfold wal_entries. rewrite fmap_nil, app_nil_r. by apply scan_stop. }
  pose proof (wal_image_length s p) as Hil. pose proof (wal_align_bounds (26 + Z.of_nat (length p))) as Hal.
  pose proof (wal_record_length WAL_VERSION s p) as Hrl.
  assert (wal_log ((s, p) :: es) = wal_image s p ++ wal_log es) as Hlog by done.
  cbn [scan_entries]. rewrite (proj2 (Z.ltb_lt _ _)).
  2: { rewrite length_app, length_take, Hlog, length_app. lia. }
  cbn [negb]. rewrite Nat2Z.id, drop_app_length.
  replace (Z.of_nat (length (pre ++ take m (wal_log ((s, p) :: es)))) - Z.of_nat (length pre))
    with (Z.of_nat (length (take m (wal_log ((s, p) :: es))))) by (rewrite length_app; lia).
  cbn [wal_durable] in *. cbn [fst snd] in *. destruct (decide (26 + length p <= m)%nat) as [Hle|Hgt].
  - assert (exists rest, take m (wal_log ((s, p) :: es)) = wal_record WAL_VERSION s p ++ rest) as [rest Hrest].
    { rewrite Hlog. unfold wal_image. rewrite <- app_assoc, take_app. rewrite (take_ge (wal_record _ _ _)) by lia. eauto. }
    rewrite Hrest. eapply gives_bind; [exact (gives_validate _ _ _ _ Hp Hs)|].
    cbn [c_status]. rewrite bool_decide_eq_true_2 by done. cbn [negb].
    eapply gives_bind; [exact (gives_mem _ _ (parse_record _ _ _ _ Hp wal_version_range Hs))|]. cbv zeta.
    cbn [wal_entry e_payload_len]. rewrite wal_total_fits by done. rewrite <- Hil, <- Hrest.
    destruct (decide (m <= length (wal_image s p))%nat) as [Hml|Hml].
    + assert (wal_durable (m - length (wal_image s p)) es = []) as Hd.
      { replace (m - length (wal_image s p))%nat with 0%nat by lia. destruct es; [done|]. cbn [wal_durable]. by rewrite decide_False by lia. }
      rewrite Hd in *. destruct k as [|k]; [simpl in Hf; lia|]. apply scan_stop.
      rewrite length_app, length_take. lia.
    + rewrite Hlog, take_app. rewrite (take_ge (wal_image s p)) by lia.
      cbn [length] in Hf. specialize (IH (pre ++ wal_image s p) (m - length (wal_image s p))%nat k
        (acc ++ [wal_entry WAL_VERSION s p]) ltac:(lia)).
      rewrite <- !app_assoc in IH. rewrite <- Nat2Z.inj_add, <- length_app. exact IH.
  - assert (m < length (wal_log ((s, p) :: es)))%nat by (rewrite Hlog, length_app; lia).
    rewrite length_take, Nat.min_l by lia. rewrite Hlog. unfold wal_image. rewrite <- app_assoc.
    destruct (gives_torn s p m (replicate (wal_pad (length (wal_record WAL_VERSION s p))) 0 ++ wal_log es))
      as (r & Hr & Hg); [by split|lia|].
    eapply gives_bind; [exact Hg|]. rewrite Hr. change (wal_entries []) with (@nil WalEntry).
    rewrite app_nil_r. apply gives_ret.
Qed.
End Scan.

(** ** Lemmas: corrupted entries *)




(** ** Lemmas: the scan ends *)

(** [ends c]: [c] never runs out of fuel, and keeps the table. *)
Definition ends `{CO : ConstObjects} {W A} (c : M W A) : Prop := forall p, crc_ready (statics p) ->
  c p <> NoFuel /\ (forall a q, c p = Ok (a, q) -> crc_ready (statics q)).

Lemma rd_fuel n m off : rd n m off <> NoFuel.
Proof. unfold rd, rd_bytes. by destruct (in_block _ _ _). Qed.

Section Ends.
Context `{CO : ConstObjects} {CW : Filled} {W : Type}.

Lemma ends_ret {A} (a : A) : ends (W:=W) (mret a).
Proof. intros p Hp. split; [done|]. intros b q [= <- <-]. done. Qed.

Lemma ends_mem {A} (r : res A) : r <> NoFuel -> ends (W:=W) (mem r).
Proof. intros Hr p Hp. unfold mem. destruct r; [|done..]. split; [done|]. intros b q [= <- <-]. done. Qed.

Lemma ends_mbind {A B} (c : M W A) (k : A -> M W B) : ends c -> (forall a, ends (k a)) -> ends (mbind k c).
Proof.
  intros Hc Hk p Hp. rewrite M_bind_unfold. destruct (Hc p Hp) as [H1 H2].
  destruct (c p) as [[a q]| |]; [|done..]. apply Hk. by eapply H2.
Qed.

Lemma ends_crc data : ends (W:=W) (ComputeCrc32c data).
Proof.
  intros p Hp. destruct (gives_init p Hp) as [E Hr]. unfold ComputeCrc32c.
  rewrite (M_bind_run _ _ _ _ _ E). split; [done|]. intros a q [= <- <-]. exact Hr.
Qed.

Lemma ends_validate data len : ends (W:=W) (Validate data len).
Proof.
  unfold Validate, torn. repeat first
    [ apply ends_ret
    | apply ends_mbind; [first [apply ends_crc | apply ends_mem, rd_fuel | apply ends_mem, rd_bytes_fuel]|intros ?]
    | match goal with |- ends (if ?b then _ else _) => destruct b end ].
Qed.

Lemma parse_fuel data : Parse data <> NoFuel.
Proof.
  unfold Parse. repeat match goal with
  | |- context [rd ?n ?m ?o] => pose proof (rd_fuel n m o); destruct (rd n m o); [cbn [res_bind]|done..]
  end.
  match goal with |- context [if ?b then _ else _] => destruct b end; cbn [res_bind].
  - pose proof (rd_bytes_fuel data 22 a3). destruct (rd_bytes data 22 a3); [cbn [res_bind]|done..].
    pose proof (rd_fuel 4 data (22 + a3)). by destruct (rd 4 data (22 + a3)).
  - pose proof (rd_fuel 4 data (22 + a3)). by destruct (rd 4 data (22 + a3)).
Qed.

Lemma parse_len data e : Parse data = Ok e -> rd 4 data 18 = Ok (e_payload_len e).
Proof.
  unfold Parse. intros E. repeat match type of E with
  | res_bind ?r _ = Ok _ => destruct r eqn:?; [cbn [res_bind] in E|done..]
  end. by injection E as <-.
Qed.

(** An accepted entry moves the scan forward. *)
Lemma validate_progress data len (p : Proc W) r q n :
  Z.of_nat (length data) < 2 ^ 63 -> Validate data len p = Ok (r, q) -> c_status r = WAL_OK ->
  rd 4 data 18 = Ok n -> 8 <= wal_align (wal_total n).
Proof.
  intros Hl E Hst Hn. unfold Validate in E. destruct (_ <? _) in E; [by injection E as <- <-|].
  minv_mem E. destruct (negb _) in E; [by injection E as <- <-|].
  minv_mem E. minv_mem E. minv_mem E. rewrite Hn in E3. injection E3 as ->. cbv zeta in E.
  destruct (_ <? _) in E; [by injection E as <- <-|]. minv_mem E. minv E.
  destruct (negb _) in E; [by injection E as <- <-|]. minv_mem E. apply rd_inv in E5 as (_ & _ & _ & Hoff).
  assert (0 <= wal_total v2 < 2 ^ 32) as Ht by (unfold wal_total, u32; apply wrap_range; lia).
  unfold WAL_CRC_SIZE in Hoff. rewrite wal_align_spec.
  set (t := wal_total v2) in *. clearbody t. clear - Hoff Hl Ht.
  destruct (Z.ltb_spec t 4); [|Z.div_mod_to_equations; lia]. exfalso. mach.
Qed.

Lemma ends_scan fuel data n off acc :
  0 <= off -> Z.of_nat (length data) < 2 ^ 63 -> n - off < 8 * (Z.of_nat fuel - 1) + 1 -> (0 < fuel)%nat ->
  ends (W:=W) (scan_entries fuel data n off acc).
Proof.
  revert off acc. induction fuel as [|k IH]; intros off acc Ho Hl Hn Hf; [lia|]. cbn [scan_entries].
  destruct (Z.ltb_spec off n); cbn [negb]; [|apply ends_ret].
  intros p Hp. rewrite M_bind_unfold. destruct (ends_validate (drop (Z.to_nat off) data) (n - off) p Hp) as [H1 H2].
  destruct (Validate _ _ p) as [[r q]| |] eqn:Ev; [|done..]. specialize (H2 _ _ eq_refl).
  destruct (bool_decide (c_status r = WAL_OK)) eqn:Es; cbn [negb]; [|by apply ends_ret].
  apply bool_decide_eq_true in Es. rewrite M_bind_unfold. unfold mem.
  pose proof (parse_fuel (drop (Z.to_nat off) data)) as Hpf.
  destruct (Parse (drop (Z.to_nat off) data)) as [e| |] eqn:Ep; [|done..]. apply parse_len in Ep.
  apply validate_progress with (n := e_payload_len e) in Ev; [|rewrite length_drop; lia|done|done].
  cbv zeta. apply IH; [lia|done|lia|lia|done].
Qed.
End Ends.

End Format.
#[global] Arguments wal_raw : simpl never.
#[global] Arguments wal_record {TT} : simpl never.
#[global] Arguments wal_image {TT} : simpl never.
#[export] Hint Resolve wal_hdr_bytes wal_body_bytes le_bytes_bytes : hd.

(** ** Instances of the parameter *)

(** The table in writable memory; in a read-only section; read from a copy made
    when the program was compiled. *)
Definition plain_objects : ConstObjects := {| const_store t i v := if (i <? length t)%nat then Some (<[i := v]> t) else None |}.
Definition rodata_objects : ConstObjects := {| const_store _ _ _ := None |}.
Definition folded_objects : ConstObjects := {| const_store t _ _ := Some t |}.

Lemma plain_table : @wal_table plain_objects = Some full_table.
Proof. by vm_compute. Qed.

(** An entry with a length field of 0xFFFFFFFF and both checksums right. *)
Definition crafted_body : list Z := wal_hdr WAL_VERSION 153 ++ le_bytes 4 (wal_hcrc (TT := full_table) WAL_VERSION 153 0xFFFFFFFF) ++ [255; 255; 255].
Definition crafted_entry : list Z := crafted_body ++ le_bytes 4 (crc32c_ref crafted_body) ++ [0].

(** A process that has just started. *)
Definition wal_start {W} (w : W) : Proc W := mkProc w crc_cold.

(** ** Lemmas: a table that cannot be stored to *)

Lemma crc_killed `{CO : ConstObjects} {W} (w : W) data : wal_table = None -> ComputeCrc32c data (wal_start w) = Fault.
Proof. intros Ht. unfold ComputeCrc32c. rewrite M_bind_unfold. unfold InitCrc32cTable.
  cbn [crc32c_table_init crc32c_table statics wal_start crc_cold]. fold wal_table. by rewrite Ht. Qed.

(** The first checksum the log computes kills the process: nothing is ever
    written or validated. *)
Lemma build_killed `{CO : ConstObjects} {W} (w : W) s payload :
  wal_table = None -> wal_fits payload ->
  Build s (Some payload) (Z.of_nat (length payload)) (wal_start w) = Fault.
Proof.
  intros Ht Hp. unfold Build. cbv zeta. rewrite wal_total_fits by done.
  pose proof (wal_align_bounds (26 + Z.of_nat (length payload))).
  set (N := Z.to_nat (wal_align (26 + Z.of_nat (length payload)))). assert (26 <= N)%nat by lia.
  change (replicate N 0) with ([] ++ replicate N 0).
  do 3 (rewrite M_bind_unfold; erewrite run_mem by (apply wr_fill_at; [done|rewrite ?length_app, ?le_bytes_length; lia])).
  rewrite M_bind_unfold. erewrite run_mem by (by apply rd_bytes_prefix). rewrite M_bind_unfold. by rewrite crc_killed.
Qed.


(** ** Properties *)

(** C7. Round trip, whatever the stores into the table declared [const] do: an
    entry built from a payload (any that keeps the size of the entry below 2^32)
    is accepted, with its sequence number, and parses to the payload, whatever
    bytes follow it in the segment, and the entry fills a whole number of
    eight-byte units; unless the stores kill the process, and then building an
    entry does. *)
Theorem wal_roundtrip `{CO : ConstObjects} {W} (w : W) s payload rest :
  wal_fits payload -> 0 <= s < 2 ^ 64 ->
  match wal_table with
  | Some _ => exists buf st1 st2,
      Build s (Some payload) (Z.of_nat (length payload)) (wal_start w) = Ok (buf, mkProc w st1) /\
      Validate (buf ++ rest) (Z.of_nat (length (buf ++ rest))) (mkProc w st1) = Ok (mkCheck WAL_OK s "", mkProc w st2) /\
      (exists e, Parse (buf ++ rest) = Ok e /\ e_seq_id e = s /\ e_payload e = payload /\ e_version e = WAL_VERSION) /\
      Z.of_nat (length buf) mod 8 = 0
  | None => Build s (Some payload) (Z.of_nat (length payload)) (wal_start w) = Fault
  end.
Proof.
  intros Hp Hs. destruct wal_table as [t|] eqn:Ht; [|by apply build_killed].
  assert (Filled (TT := t)) as CW by exact Ht.
  destruct (gives_build (TT := t) s payload Hp (wal_start w) crc_ready_cold) as (st1 & E1 & R1).
  set (pad := replicate (wal_pad (length (wal_record (TT := t) WAL_VERSION s payload))) 0 ++ rest).
  assert (wal_image (TT := t) s payload ++ rest = wal_record (TT := t) WAL_VERSION s payload ++ pad) as Himg.
  { unfold wal_image, pad. by rewrite <- app_assoc. }
  destruct (gives_validate (TT := t) WAL_VERSION s payload pad Hp Hs (mkProc w st1) R1) as (st2 & E2 & R2).
  exists (wal_image (TT := t) s payload), st1, st2. rewrite !Himg. split_and!; [exact E1|exact E2| |].
  - exists (wal_entry (TT := t) WAL_VERSION s payload). split; [exact (parse_record _ _ _ _ Hp wal_version_range Hs)|].
    cbn [wal_entry e_seq_id e_payload e_version]. auto.
  - rewrite wal_image_length, wal_align_spec, Z.mul_comm. by apply Z.mod_mul.
Qed.

(** What validation accepts is exactly the format: bytes are accepted if and
    only if they start with a record whose two checksums are the checksums,
    with the table as it is, of what they cover (of any version: the version is not looked
    at), provided the length field is not within 26 of 2^32; and then they
    parse to that record. *)
Theorem wal_validate_exact `{CO : ConstObjects} {TT : TableOf} {CW : Filled} {W} (p : Proc W) data :
  Forall is_byte data -> crc_ready (statics p) -> 26 + le_val (take 4 (drop 18 data)) < 2 ^ 32 ->
  (exists r q, Validate data (Z.of_nat (length data)) p = Ok (r, q) /\ c_status r = WAL_OK) <->
  (exists v s payload rest, data = wal_record v s payload ++ rest /\ Parse data = Ok (wal_entry v s payload) /\
     0 <= s < 2 ^ 64 /\ wal_fits payload).
Proof.
  intros Hd Hp Hn. split.
  - intros (r & q & E & Hr). destruct (validate_sound data p r q Hd Hp E Hr Hn) as (v & s & pl & rest & -> & Hv & Hs & Hf & _).
    exists v, s, pl, rest. split; [done|]. split; [by apply parse_record|done].
  - intros (v & s & pl & rest & -> & _ & Hs & Hf).
    destruct (gives_validate (W:=W) v s pl rest Hf Hs p Hp) as (st & E & _). eauto.
Qed.

(** Crash recovery of a segment: whatever number of bytes of the log reached
    the disk, the scan returns exactly the entries that are complete there,
    in order, and stops at the torn one; nothing is invented and, when all
    bytes are there, nothing is lost. *)
Theorem wal_scan_recovers `{CO : ConstObjects} {TT : TableOf} {CW : Filled} {W} (w : W) es m :
  Forall wal_ok es ->
  let data := take m (wal_log es) in
  (exists st, scan_entries (S (Z.to_nat (Z.of_nat (length data) / 8))) data (Z.of_nat (length data)) 0 [] (wal_start w) =
     Ok (wal_entries (wal_durable m es), mkProc w st)) /\
  wal_durable m es `prefix_of` es /\ (m = length (wal_log es) -> wal_durable m es = es).
Proof.
  intros Hes data. split_and!; [|apply wal_durable_prefix|intros ->; by apply wal_durable_all].
  pose proof (wal_durable_short (length data) es) as Hs. unfold data in Hs. rewrite wal_durable_take in Hs.
  destruct (scan_prefix (W:=W) es [] m (S (Z.to_nat (Z.of_nat (length data) / 8))) [] Hes) with (p := wal_start w)
    as (st & E & _); [|apply crc_ready_cold|by exists st].
  unfold data. Z.div_mod_to_equations. lia.
Qed.

(** The scan ends on every file, whatever it holds: each accepted entry moves
    it forward by at least eight bytes, so one turn per eight bytes of the file
    is enough. *)
Theorem wal_scan_ends `{CO : ConstObjects} {TT : TableOf} {CW : Filled} {W} (w : W) data :
  Z.of_nat (length data) < 2 ^ 63 ->
  scan_entries (S (S (Z.to_nat (Z.of_nat (length data) / 8)))) data (Z.of_nat (length data)) 0 [] (wal_start w)
    <> NoFuel.
Proof.
  intros Hl. apply ends_scan; [lia|done| |lia|apply crc_ready_cold]. Z.div_mod_to_equations. lia.
Qed.


(** An entry whose length field is 0xFFFFFFFF: the size is computed at 32
    bits and wraps to 25, the entry passes validation with both checksums
    right, and parsing it reads outside the file. *)
Theorem wal_crafted_entry_overreads :
  (exists st, Validate (CO := plain_objects) crafted_entry 26 (wal_start ()) = Ok (mkCheck WAL_OK 153 "", mkProc () st)) /\
  length crafted_entry = 26%nat /\ Forall is_byte crafted_entry /\ Parse crafted_entry = Fault.
Proof.
  split_and!; [|vm_compute; reflexivity|apply bytesb_ok; vm_compute; reflexivity|vm_compute; reflexivity].
  eexists. vm_compute. reflexivity.
Qed.

(** ** Witnesses *)

Lemma small_fits l : bytesb l && (Z.of_nat (length l) <? 1000) = true -> wal_fits l.
Proof. intros E. bool_props. split; [by apply bytesb_ok|lia]. Qed.

Lemma wal_roundtrip_witness :
  exists buf st1 st2,
    Build (CO := folded_objects) 7 (Some [1; 2; 3]) 3 (wal_start ()) = Ok (buf, mkProc () st1) /\
    Validate (CO := folded_objects) (buf ++ [9]) (Z.of_nat (length (buf ++ [9]))) (mkProc () st1) =
      Ok (mkCheck WAL_OK 7 "", mkProc () st2) /\
    (exists e, Parse (buf ++ [9]) = Ok e /\ e_seq_id e = 7 /\ e_payload e = [1; 2; 3] /\ e_version e = WAL_VERSION) /\
    Z.of_nat (length buf) mod 8 = 0.
Proof. apply (wal_roundtrip (CO := folded_objects)); [by apply small_fits|done]. Defined.

Lemma wal_validate_exact_witness :
  (exists r q, Validate (CO := plain_objects) (wal_record (TT := full_table) 2 5 [8]) 27 (wal_start ()) = Ok (r, q) /\ c_status r = WAL_OK) <->
  (exists v s payload rest, wal_record (TT := full_table) 2 5 [8] = wal_record (TT := full_table) v s payload ++ rest /\
     Parse (wal_record (TT := full_table) 2 5 [8]) = Ok (wal_entry (TT := full_table) v s payload) /\ 0 <= s < 2 ^ 64 /\ wal_fits payload).
Proof.
  apply (wal_validate_exact (CW := plain_table) (wal_start ()) (wal_record (TT := full_table) 2 5 [8]));
    [apply bytesb_ok; vm_compute; reflexivity|apply crc_ready_cold|vm_compute; reflexivity].
Defined.

Lemma wal_scan_recovers_witness :
  let es := [(1, [1; 2]); (2, [3])] in
  let data := take 40 (wal_log (TT := full_table) es) in
  (exists st, scan_entries (CO := plain_objects) 6 data 40 0 [] (wal_start ()) =
     Ok (wal_entries (TT := full_table) (wal_durable (TT := full_table) 40 es), mkProc () st)) /\
  wal_durable (TT := full_table) 40 es `prefix_of` es /\
  (40%nat = length (wal_log (TT := full_table) es) -> wal_durable (TT := full_table) 40 es = es).
Proof.
  apply (wal_scan_recovers (CW := plain_table) () [(1, [1; 2]); (2, [3])] 40).
  repeat constructor; try done; by apply bytesb_ok.
Defined.

Lemma wal_scan_ends_witness :
  scan_entries (CO := plain_objects) 5 crafted_entry 26 0 [] (wal_start ()) <> NoFuel.
Proof. apply (wal_scan_ends (CW := plain_table) () crafted_entry). vm_compute. reflexivity. Defined.

