(* ===== verification/Wal.v ===== *)
(** * The client's write-ahead log: segments and manager
    (src/client/overlay_mgr/wal_enhanced.h, wal_enhanced.cpp)

    [WalSegment] is one log file, [WalManager] the sequence of segments with the
    sequence numbers and the checkpoint file. Both run on the file system class
    of [Files] and the entry format of [WalEntry]. The manager's mutex makes its
    methods atomic; the log promises an append-only list of payloads, and
    [wal_manager_refines] says when it keeps that promise, the theorems after
    it when it does not. *)

From S2P Require Import Prelude Crc32c BootEnv Text Files WalEntry.

Definition WAL_SEGMENT_SIZE : Z := 64 * 1024 * 1024.
Definition WAL_MAX_ENTRIES : Z := 500000.

(** ** Library functions the code calls *)

(** ["%06d"] of an unsigned argument, read as an [int]. *)
Definition fmt_06d (z : Z) : list Z :=
  let z := s32 z in
  if z <? 0 then let s := fmt_u (- z) in 45 :: replicate (5 - length s) 48 ++ s
  else let s := fmt_u z in replicate (6 - length s) 48 ++ s.

(** [strtok_r]: skip delimiters, take up to the next one. The second result is
    what the saved pointer designates. *)
Fixpoint skip_delim (d : Z) (s : list Z) : list Z :=
  match s with
  | c :: r => if c =? d then skip_delim d r else s
  | [] => []
  end.
Fixpoint upto_delim (d : Z) (s : list Z) : list Z * list Z :=
  match s with
  | c :: r => if c =? d then ([], r) else let '(t, q) := upto_delim d r in (c :: t, q)
  | [] => ([], [])
  end.
Definition strtok_r (s : list Z) (d : Z) : option (list Z) * list Z :=
  match skip_delim d s with
  | [] => (None, [])
  | s' => let '(t, q) := upto_delim d s' in (Some t, q)
  end.

(** [strtoull] in base ten: white space, a sign, digits; too large saturates. *)
Definition is_space (c : Z) : bool := (c =? 32) || ((9 <=? c) && (c <=? 13)).
Fixpoint skip_space (s : list Z) : list Z :=
  match s with
  | c :: r => if is_space c then skip_space r else s
  | [] => []
  end.
Definition sat64 (z : Z) : Z := if z <? 2 ^ 64 then z else 2 ^ 64 - 1.
Definition strtoull (s : list Z) : Z :=
  match skip_space s with
  | 45 :: r => let z := dec_digits 0 r in if z <? 2 ^ 64 then u64 (- z) else 2 ^ 64 - 1
  | 43 :: r => sat64 (dec_digits 0 r)
  | r => sat64 (dec_digits 0 r)
  end.

(** ** Sequence numbers *)

(** [SequenceFence] is its counter [next_seq_id_]. *)
Definition fence_Next (next : Z) : Z * Z := (next, u64 (next + 1)).
Definition fence_Current (next : Z) : Z := u64 (next - 1).
Definition CheckMonotonic (next seq_id : Z) : bool := fence_Current next <? seq_id.

(** ** Segments *)

Record WalSegment : Type := mkSeg {
  sg_path : list Z;
  sg_start_seq_id : Z;
  sg_last_seq_id : Z;
  sg_entry_count : Z;
  sg_file_size : Z;
  sg_is_sealed : bool;
  sg_read_only : bool;
  sg_fd : Z;
}.

Record Checkpoint : Type := mkCheckpoint {
  cp_flushed_seq_id : Z;
  cp_timestamp_ms : Z;
  cp_segment_path : list Z;
}.

Record WalManager : Type := mkMgr {
  mg_data_dir : list Z;
  mg_seq_fence : Z;
  mg_active : option WalSegment;
  mg_sealed : list WalSegment;
  mg_next_segment_number : Z;
  mg_is_open : bool;
}.

Section Wal.
Context `{CO : ConstObjects} {W : Type} `{PX : Posix W}.

Definition WalSegment_new (path : list Z) (start_seq_id : Z) (read_only : bool) : M W WalSegment :=
  fd ← sys (p_open path (if read_only then O_RDONLY else O_RDWR_CREAT));
  match fd with
  | None => mret (mkSeg path start_seq_id start_seq_id 0 0 read_only read_only (-1))
  | Some fd =>
      st ← sys (p_fstat fd);
      mret (mkSeg path start_seq_id start_seq_id 0 (u64 (default 0 st)) read_only read_only fd)
  end.

Definition WalSegment_delete (s : WalSegment) : M W () :=
  if 0 <=? sg_fd s then sys_ (p_close (sg_fd s)) else mret ().

Definition seg_WriteEntry (s : WalSegment) (seq_id : Z) (payload : option (list Z)) (payload_len : Z)
  : M W (bool * WalSegment) :=
  if sg_is_sealed s || sg_read_only s || (sg_fd s <? 0) then mret (false, s) else
  buf ← Build seq_id payload payload_len;
  n ← sys (p_write (sg_fd s) buf);
  if negb (n =? Z.of_nat (length buf)) then mret (false, s) else
  _ ← sys_ (p_fsync (sg_fd s));
  mret (true, mkSeg (sg_path s) (sg_start_seq_id s) seq_id (u32 (sg_entry_count s + 1))
                (u64 (sg_file_size s + Z.of_nat (length buf))) (sg_is_sealed s) (sg_read_only s) (sg_fd s)).

(** The vector [data] has [file_size_] bytes, zero where nothing was read. *)
Definition ReadAllEntries (s : WalSegment) : M W (list WalEntry) :=
  if sg_fd s <? 0 then mret [] else
  _ ← sys_ (p_rewind (sg_fd s));
  r ← sys (p_read (sg_fd s) (sg_file_size s));
  match r with
  | None => mret []
  | Some bs =>
      let data := bs ++ replicate (Z.to_nat (sg_file_size s) - length bs) 0 in
      let n := Z.of_nat (length bs) in
      scan_entries (S (S (Z.to_nat (n / 8)))) data n 0 []
  end.

Definition IsFull (s : WalSegment) : bool :=
  (WAL_SEGMENT_SIZE <=? sg_file_size s) || (WAL_MAX_ENTRIES <=? sg_entry_count s).

Definition seg_Fsync (s : WalSegment) : M W () :=
  if 0 <=? sg_fd s then sys_ (p_fsync (sg_fd s)) else mret ().

Definition Seal (s : WalSegment) : M W WalSegment :=
  if sg_is_sealed s then mret s else
  _ ← seg_Fsync s;
  mret (mkSeg (sg_path s) (sg_start_seq_id s) (sg_last_seq_id s) (sg_entry_count s) (sg_file_size s)
          true (sg_read_only s) (sg_fd s)).

(** ** The manager *)

Definition WalManager_new (data_dir : list Z) : WalManager := mkMgr data_dir 1 None [] 1 false.

Definition SegmentPath (m : WalManager) (seg_num : Z) : list Z :=
  mg_data_dir m ++ zstr "/" ++ fits 64 (zstr "wal-seg-" ++ fmt_06d seg_num ++ zstr ".log").
Definition CheckpointPath (m : WalManager) : list Z := mg_data_dir m ++ zstr "/wal.ckpt".

Definition set_active (m : WalManager) (s : option WalSegment) : WalManager :=
  mkMgr (mg_data_dir m) (mg_seq_fence m) s (mg_sealed m) (mg_next_segment_number m) (mg_is_open m).

Definition WriteCheckpoint (m : WalManager) (flushed_seq_id : Z) : M W bool :=
  fd ← sys (p_open (CheckpointPath m) O_WRONLY_CREAT_TRUNC);
  match fd with
  | None => mret false
  | Some fd =>
      now ← sys p_clock;
      let line := fmt_u flushed_seq_id ++ zstr "," ++ fmt_d now ++ zstr "," ++
                  match mg_active m with Some s => sg_path s | None => [] end ++ [10] in
      n ← sys (p_write fd line);
      _ ← sys_ (p_close fd);
      mret (0 <? n)
  end.

(** The three calls of [strtok_r] on the text read. *)
Definition parse_checkpoint (buf : list Z) : Checkpoint :=
  let '(t1, save) := strtok_r buf 44 in
  let '(t2, save) := strtok_r save 44 in
  let '(t3, save) := strtok_r save 10 in
  mkCheckpoint (from_option strtoull 0 t1) (from_option strtoull 0 t2) (default [] t3).

Definition ReadCheckpoint (m : WalManager) : M W Checkpoint :=
  fd ← sys (p_open (CheckpointPath m) O_RDONLY);
  match fd with
  | None => mret (mkCheckpoint 0 0 [])
  | Some fd =>
      r ← sys (p_read fd 1023);
      _ ← sys_ (p_close fd);
      match r with
      | None | Some [] => mret (mkCheckpoint 0 0 [])
      | Some bs => mret (parse_checkpoint (c_chars bs))
      end
  end.

Definition Open (m : WalManager) : M W (bool * WalManager) :=
  _ ← sys_ (p_mkdirs (mg_data_dir m));
  cp ← ReadCheckpoint m;
  let fence := u64 (cp_flushed_seq_id cp + 1) in
  seg ← WalSegment_new (SegmentPath m (mg_next_segment_number m)) (fence_Current fence) false;
  _ ← match mg_active m with Some old => WalSegment_delete old | None => mret () end;
  mret (true, mkMgr (mg_data_dir m) fence (Some seg) (mg_sealed m) (mg_next_segment_number m) true).

Fixpoint delete_all (ss : list WalSegment) : M W () :=
  match ss with
  | [] => mret ()
  | s :: r => _ ← WalSegment_delete s; delete_all r
  end.

Definition Close (m : WalManager) : M W WalManager :=
  _ ← match mg_active m with
      | Some s => s ← Seal s; WalSegment_delete s
      | None => mret ()
      end;
  _ ← delete_all (mg_sealed m);
  mret (mkMgr (mg_data_dir m) (mg_seq_fence m) None [] (mg_next_segment_number m) false).

Definition TriggerSegmentRollover (m : WalManager) : M W WalManager :=
  sealed ← match mg_active m with
           | Some s => s ← Seal s; mret (mg_sealed m ++ [s])
           | None => mret (mg_sealed m)
           end;
  let num := u32 (mg_next_segment_number m + 1) in
  seg ← WalSegment_new (SegmentPath m num) (fence_Current (mg_seq_fence m)) false;
  mret (mkMgr (mg_data_dir m) (mg_seq_fence m) (Some seg) sealed num (mg_is_open m)).

Definition RollOverIfNeeded (m : WalManager) : M W (bool * WalManager) :=
  match mg_active m with
  | Some s => if IsFull s then m' ← TriggerSegmentRollover m; mret (true, m') else mret (false, m)
  | None => mret (false, m)
  end.

Definition mgr_WriteEntry (m : WalManager) (payload : option (list Z)) (payload_len : Z) : M W (Z * WalManager) :=
  match mg_active m with
  | Some s =>
      if negb (mg_is_open m) then mret (0, m) else
      let '(seq_id, fence) := fence_Next (mg_seq_fence m) in
      let m := mkMgr (mg_data_dir m) fence (Some s) (mg_sealed m) (mg_next_segment_number m) (mg_is_open m) in
      '(ok, s) ← seg_WriteEntry s seq_id payload payload_len;
      if negb ok then mret (0, set_active m (Some s)) else
      '(_, m) ← RollOverIfNeeded (set_active m (Some s));
      mret (seq_id, m)
  | None => mret (0, m)
  end.

Fixpoint read_segments (ss : list WalSegment) : M W (list WalEntry) :=
  match ss with
  | [] => mret []
  | s :: r => es ← ReadAllEntries s; fs ← read_segments r; mret (es ++ fs)
  end.

Definition CollectEntriesForReplay (m : WalManager) : M W (list WalEntry) :=
  es ← read_segments (mg_sealed m);
  fs ← match mg_active m with Some s => ReadAllEntries s | None => mret [] end;
  mret (es ++ fs).

(** The loop of [CrashReplay]: [prev_seq_id] over the entries. *)
Definition replay_step (last_flushed prev_seq_id : Z) (e : WalEntry) : Z :=
  if e_seq_id e <=? last_flushed then prev_seq_id
  else if e_seq_id e <=? prev_seq_id then e_seq_id e
  else e_seq_id e.

Definition CrashReplay (m : WalManager) : M W bool :=
  cp ← ReadCheckpoint m;
  entries ← CollectEntriesForReplay m;
  let prev_seq_id := foldl (replay_step (cp_flushed_seq_id cp)) 0 entries in
  _ ← WriteCheckpoint m prev_seq_id;
  mret true.
End Wal.

Section WithTable.
Context {TT : TableOf}.

(** ** Lemmas: decimal numbers *)

Lemma dec_digits_zeros n acc s : acc = 0 -> dec_digits acc (replicate n 48 ++ s) = dec_digits 0 s.
Proof. intros ->. induction n as [|n IH]; [done|]. cbn [replicate app dec_digits]. exact IH. Qed.

Lemma strtoull_fmt_u z : 0 <= z < 2 ^ 64 -> strtoull (fmt_u z) = z.
Proof.
  intros Hz. destruct (fmt_u_spec z Hz) as (Hd & Hne & Hv). unfold strtoull.
  destruct (fmt_u z) as [|c r] eqn:E; [done|]. apply Forall_cons in Hd as [Hc _].
  assert (skip_space (c :: r) = c :: r) as ->.
  { cbn [skip_space]. unfold is_space. destruct (Z.eqb_spec c 32); [lia|].
    destruct (Z.leb_spec 9 c), (Z.leb_spec c 13); try lia; done. }
  assert (sat64 (dec_digits 0 (c :: r)) = z) as Hs.
  { rewrite Hv. unfold sat64. by rewrite (proj2 (Z.ltb_lt _ _)) by lia. }
  destruct (decide (c = 45)) as [->|]; [lia|]. destruct (decide (c = 43)) as [->|]; [lia|].
  destruct c as [|c|c]; [done| |lia]. do 7 (try destruct c as [c|c|]; try done).
Qed.

Lemma fmt_06d_value z : 0 <= z < 2 ^ 31 -> dec_digits 0 (fmt_06d z) = z.
Proof.
  intros Hz. unfold fmt_06d. assert (s32 z = z) as -> by (unfold s32; apply sgn_small; lia).
  cbv zeta. rewrite (proj2 (Z.ltb_ge _ _)) by lia. rewrite dec_digits_zeros by done. apply fmt_u_spec. lia.
Qed.

Lemma fmt_06d_length z : 0 <= z < 2 ^ 31 -> (length (fmt_06d z) <= 10)%nat.
Proof.
  intros Hz. unfold fmt_06d. assert (s32 z = z) as -> by (unfold s32; apply sgn_small; lia).
  cbv zeta. rewrite (proj2 (Z.ltb_ge _ _)) by lia. rewrite length_app, length_replicate.
  pose proof (fmt_u_length z ltac:(lia)). lia.
Qed.

(** ** Lemmas: paths *)

Lemma seg_name_fits z : 0 <= z < 2 ^ 31 ->
  fits 64 (zstr "wal-seg-" ++ fmt_06d z ++ zstr ".log") = zstr "wal-seg-" ++ fmt_06d z ++ zstr ".log".
Proof.
  intros Hz. unfold fits. apply take_ge. pose proof (fmt_06d_length z Hz). rewrite !length_app.
  change (length (zstr "wal-seg-")) with 8%nat. change (length (zstr ".log")) with 4%nat. lia.
Qed.

Lemma SegmentPath_inj m a b : 0 <= a < 2 ^ 31 -> 0 <= b < 2 ^ 31 -> SegmentPath m a = SegmentPath m b -> a = b.
Proof.
  intros Ha Hb. unfold SegmentPath. rewrite !seg_name_fits by done. intros E.
  do 3 apply app_inv_head in E. apply app_inv_tail in E.
  rewrite <- (fmt_06d_value a Ha), <- (fmt_06d_value b Hb). by f_equal.
Qed.

Lemma CheckpointPath_ne m a : 0 <= a < 2 ^ 31 -> CheckpointPath m <> SegmentPath m a.
Proof.
  intros Ha E. unfold CheckpointPath, SegmentPath in E. rewrite seg_name_fits in E by done.
  apply app_inv_head in E. discriminate E.
Qed.

(** ** Total correctness of computations over the view

    [triple P c Q]: started in a machine whose file system satisfies [P], [c]
    returns, and result and file system satisfy [Q]. *)

Definition triple `{CO : ConstObjects} {W A} `{PosixLaws W} (P : Fs -> Prop) (c : M W A) (Q : A -> Fs -> Prop) : Prop :=
  forall p, crc_ready (statics p) -> P (view (os p)) ->
  exists a q, c p = Ok (a, q) /\ crc_ready (statics q) /\ Q a (view (os q)).

Section Triples.
Context `{CO : ConstObjects} {W : Type} `{PosixReliable W}.

Lemma triple_conseq {A} (P P' : Fs -> Prop) (c : M W A) (Q Q' : A -> Fs -> Prop) :
  triple P c Q -> (forall v, P' v -> P v) -> (forall a v, Q a v -> Q' a v) -> triple P' c Q'.
Proof. intros Hc HP HQ p Hp Hv. destruct (Hc p Hp (HP _ Hv)) as (a & q & E & Hq & HQa). eauto 6. Qed.

Lemma triple_ret {A} (P : Fs -> Prop) (a : A) (Q : A -> Fs -> Prop) : (forall v, P v -> Q a v) -> triple P (mret a) Q.
Proof. intros HQ p Hp Hv. exists a, p. auto. Qed.

Lemma triple_bind {A B} P (R : A -> Fs -> Prop) (c : M W A) (k : A -> M W B) Q :
  triple P c R -> (forall a, triple (R a) (k a) Q) -> triple P (mbind k c) Q.
Proof.
  intros Hc Hk p Hp Hv. destruct (Hc p Hp Hv) as (a & q & E & Hq & HR).
  rewrite (M_bind_run _ _ _ _ _ E). by apply Hk.
Qed.

Lemma triple_map {A B} P (c : M W A) (f : A -> B) R :
  triple P c R -> triple P (mbind (fun a => mret (f a)) c) (fun b v => exists a, b = f a /\ R a v).
Proof. intros Hc. eapply triple_bind; [exact Hc|]. intros a. apply triple_ret. eauto. Qed.

Lemma triple_gives {A B} P (c : M W A) a (k : A -> M W B) Q :
  gives c a -> triple P (k a) Q -> triple P (mbind k c) Q.
Proof.
  intros Hc Hk p Hp Hv. destruct (Hc p Hp) as (st & E & Hst). rewrite (M_bind_run _ _ _ _ _ E). by apply Hk.
Qed.

(** A system call whose answer and effect on the view are known. *)
Lemma triple_sys {A B} (P : Fs -> Prop) (f : W -> A * W) (R : A -> Fs -> Prop) (k : A -> M W B) Q :
  (forall w, P (view w) -> R (f w).1 (view (f w).2)) -> (forall a, triple (R a) (k a) Q) ->
  triple P (mbind k (sys f)) Q.
Proof.
  intros Hf. apply triple_bind. intros p Hp Hv. unfold sys. specialize (Hf (os p) Hv).
  destruct (f (os p)) as [a w]. exists a, (mkProc w (statics p)). auto.
Qed.

Lemma triple_sys_ {B} (P R : Fs -> Prop) (f : W -> W) (k : () -> M W B) Q :
  (forall w, P (view w) -> R (view (f w))) -> triple R (k ()) Q -> triple P (mbind k (sys_ f)) Q.
Proof.
  intros Hf Hk. apply (triple_bind _ (fun _ => R)); [|by intros []].
  intros p Hp Hv. exists (), (mkProc (f (os p)) (statics p)). split; [done|]. split; [done|]. by apply Hf.
Qed.

Lemma triple_open {B} P path mode (k : option Z -> M W B) Q :
  (forall v, P v -> mode = O_RDONLY -> is_Some (files v !! path)) ->
  (forall fd, triple (fun v' => exists v, P v /\ 0 <= fd /\ fds v !! fd = None /\ v' = fs_open path mode fd v)
                (k (Some fd)) Q) ->
  triple P (mbind k (sys (p_open path mode))) Q.
Proof.
  intros HP Hk p Hp Hv. rewrite M_bind_unfold. unfold sys.
  destruct (reliable_open path mode (os p) (HP _ Hv)) as [fd Efd].
  destruct (p_open path mode (os p)) as [o w] eqn:E. simpl in Efd. subst o.
  apply Hk; [done|]. simpl. apply open_some in E as (Hfd & Hfree & _ & Hview). eauto 6.
Qed.

Lemma triple_open_missing {B} (P : Fs -> Prop) path (k : option Z -> M W B) Q :
  (forall v, P v -> files v !! path = None) -> triple P (k None) Q ->
  triple P (mbind k (sys (p_open path O_RDONLY))) Q.
Proof.
  intros HP Hk p Hp Hv. rewrite M_bind_unfold. unfold sys.
  destruct (p_open path O_RDONLY (os p)) as [[fd|] w] eqn:E.
  - apply open_some in E as (_ & _ & Hex & _). destruct (Hex eq_refl) as [? Ex]. by rewrite HP in Ex.
  - apply Hk; [done|]. simpl. by rewrite (open_none _ _ _ _ E).
Qed.
End Triples.

(** ** The invariant of the log

    [seg_holds v s es]: the file of segment [s] holds exactly the entries [es].
    [log_inv m v ss es]: the sealed segments hold [ss], the active one holds
    [es] and its offset is at the end, the paths are those of the segment
    numbers in order, and no later segment file exists. *)

Definition seg_holds (v : Fs) (s : WalSegment) (es : list (Z * list Z)) : Prop :=
  Forall wal_ok es /\ 0 <= sg_fd s /\ (exists off, fds v !! sg_fd s = Some (sg_path s, off)) /\
  files v !! sg_path s = Some (wal_log es) /\ sg_file_size s = Z.of_nat (length (wal_log es)).

Definition seg_at_end (v : Fs) (s : WalSegment) (es : list (Z * list Z)) : Prop :=
  seg_holds v s es /\ fds v !! sg_fd s = Some (sg_path s, length (wal_log es)) /\
  sg_is_sealed s = false /\ sg_read_only s = false /\
  sg_entry_count s = Z.of_nat (length es) /\ IsFull s = false.

Definition seg_number (m : WalManager) (i : nat) : list Z := SegmentPath m (1 + Z.of_nat i).

Record log_inv (m : WalManager) (v : Fs) (ss : list (list (Z * list Z))) (es : list (Z * list Z)) : Prop := {
  li_open : mg_is_open m = true;
  li_sealed : Forall2 (seg_holds v) (mg_sealed m) ss;
  li_paths : forall i s, mg_sealed m !! i = Some s -> sg_path s = seg_number m i;
  li_active : exists s, mg_active m = Some s /\ sg_path s = seg_number m (length (mg_sealed m)) /\ seg_at_end v s es;
  li_num : mg_next_segment_number m = 1 + Z.of_nat (length (mg_sealed m));
  li_fresh : forall i, (length (mg_sealed m) < i)%nat -> 1 + Z.of_nat i < 2 ^ 31 -> files v !! seg_number m i = None;
  li_few : 1 + Z.of_nat (length (mg_sealed m)) < 2 ^ 31;
}.

(** Writing at the end of one path, and opening another, leave the other
    segments alone. *)
Lemma seg_holds_write v fd p off bs s es :
  fds v !! fd = Some (p, off) -> sg_path s <> p -> seg_holds v s es -> seg_holds (fs_write fd bs v) s es.
Proof.
  intros Hfd Hne (H1 & H2 & [o H3] & H4 & H5). unfold fs_write. rewrite Hfd.
  assert (sg_fd s <> fd) by (intros Efd; congruence).
  repeat split; simpl; try done.
  - exists o. by rewrite lookup_insert_ne.
  - by rewrite lookup_insert_ne.
Qed.

Lemma seg_holds_open v fd p s es :
  fds v !! fd = None -> sg_path s <> p -> seg_holds v s es -> seg_holds (fs_open p O_RDWR_CREAT fd v) s es.
Proof.
  intros Hfd Hne (H1 & H2 & [o H3] & H4 & H5). unfold fs_open.
  assert (sg_fd s <> fd) by (intros Efd; congruence).
  repeat split; simpl; try done.
  - exists o. by rewrite lookup_insert_ne.
  - by rewrite lookup_insert_ne.
Qed.

Lemma seg_holds_seek v fd off s es : seg_holds v s es -> seg_holds (fs_seek fd off v) s es.
Proof.
  intros (H1 & H2 & [o H3] & H4 & H5). unfold fs_seek.
  destruct (fds v !! fd) as [[q o']|] eqn:E; [|by repeat split; eauto].
  repeat split; simpl; try done. destruct (decide (sg_fd s = fd)) as [<-|].
  - rewrite H3 in E. injection E as <- <-. exists off. by rewrite lookup_insert_eq.
  - exists o. by rewrite lookup_insert_ne.
Qed.

Lemma wal_log_app es fs : wal_log (es ++ fs) = wal_log es ++ wal_log fs.
Proof. unfold wal_log. by rewrite fmap_app, concat_app. Qed.

Lemma wal_log_snoc es s p : wal_log (es ++ [(s, p)]) = wal_log es ++ wal_image s p.
Proof. rewrite wal_log_app. unfold wal_log at 2. cbn [fmap list_fmap concat fst snd]. by rewrite app_nil_r. Qed.

Lemma fs_seek_seek fd a b v : fs_seek fd b (fs_seek fd a v) = fs_seek fd b v.
Proof.
  unfold fs_seek. destruct (fds v !! fd) as [[p o]|] eqn:E; simpl; [|by rewrite E].
  by rewrite lookup_insert_eq, insert_insert_eq.
Qed.

Section SegmentTriples.
Context `{CO : ConstObjects} {CW : Filled} {W : Type} `{PR : PosixReliable W}.

Lemma triple_new_any v0 path start :
  triple (W:=W) (eq v0) (WalSegment_new path start false) (fun s v =>
    exists fd, 0 <= fd /\ fds v0 !! fd = None /\ v = fs_open path O_RDWR_CREAT fd v0 /\
      s = mkSeg path start start 0 (u64 (Z.of_nat (length (default [] (files v0 !! path))))) false false fd).
Proof.
  unfold WalSegment_new. apply triple_open; [done|]. intros fd.
  apply (triple_sys _ _ (fun st v => st = Some (Z.of_nat (length (default [] (files v0 !! path)))) /\
    0 <= fd /\ fds v0 !! fd = None /\ v = fs_open path O_RDWR_CREAT fd v0)).
  - intros w (v & <- & Hfd & Hfree & Hv). destruct (fstat_law fd w) as [Hview Hsize].
    assert (is_Some (fds (view w) !! fd)) as Hs by (rewrite Hv; simpl; rewrite lookup_insert_eq; eauto).
    destruct (reliable_fstat fd w Hs) as [n En]. destruct (Hsize n En) as (c & off & Hc & ->).
    rewrite En, Hview. split; [|done]. do 2 f_equal. unfold fs_contents in Hc.
    rewrite Hv in Hc. simpl in Hc. rewrite lookup_insert_eq in Hc. simpl in Hc.
    rewrite lookup_insert_eq in Hc. simpl in Hc. by injection Hc as <- <-.
  - intros st. apply triple_ret. intros v (-> & Hfd & Hfree & ->). exists fd. done.
Qed.

Lemma triple_new v0 path start :
  files v0 !! path = None ->
  triple (W:=W) (eq v0) (WalSegment_new path start false) (fun s v =>
    exists fd, 0 <= fd /\ fds v0 !! fd = None /\ v = fs_open path O_RDWR_CREAT fd v0 /\
      s = mkSeg path start start 0 0 false false fd).
Proof.
  intros Hnew. eapply triple_conseq; [apply triple_new_any|done|].
  intros s v (fd & Hfd & Hfree & -> & ->). rewrite Hnew. eauto 6.
Qed.

(** A write to an open segment, wherever its offset is. *)
Lemma triple_seg_write v0 s seq payload :
  0 <= sg_fd s -> is_Some (fds v0 !! sg_fd s) -> sg_is_sealed s = false -> sg_read_only s = false -> wal_fits payload ->
  triple (W:=W) (eq v0) (seg_WriteEntry s seq (Some payload) (Z.of_nat (length payload))) (fun r v =>
    r = (true, mkSeg (sg_path s) (sg_start_seq_id s) seq (u32 (sg_entry_count s + 1))
                 (u64 (sg_file_size s + Z.of_nat (length (wal_image seq payload)))) false false (sg_fd s)) /\
    v = fs_write (sg_fd s) (wal_image seq payload) v0).
Proof.
  intros Hfd0 Hfd Hns Hro Hp. unfold seg_WriteEntry. rewrite Hns, Hro, (proj2 (Z.ltb_ge _ _)) by lia. cbn [orb].
  apply (triple_gives _ _ (wal_image seq payload)); [by apply gives_build|].
  apply (triple_sys _ _ (fun n v => n = Z.of_nat (length (wal_image seq payload)) /\
    v = fs_write (sg_fd s) (wal_image seq payload) v0)).
  { intros w ->. pose proof (reliable_write (sg_fd s) (wal_image seq payload) w Hfd) as Hk.
    destruct (p_write _ _ w) as [k w'] eqn:E. cbn [fst] in Hk. subst k. split; [done|]. cbn [snd].
    apply write_law in E as [[E _]|[_ ->]]; [lia|]. by rewrite Nat2Z.id, take_ge by lia. }
  intros n p Hpr [-> Hv]. rewrite Z.eqb_refl. cbn [negb].
  eexists _, (mkProc (p_fsync (sg_fd s) (os p)) (statics p)). split; [reflexivity|].
  split; [done|]. simpl os. by rewrite fsync_law.
Qed.

Lemma triple_seg_append v0 s es seq payload :
  seg_at_end v0 s es -> wal_ok (seq, payload) ->
  triple (W:=W) (eq v0) (seg_WriteEntry s seq (Some payload) (Z.of_nat (length payload))) (fun r v =>
    r = (true, mkSeg (sg_path s) (sg_start_seq_id s) seq (sg_entry_count s + 1)
                 (Z.of_nat (length (wal_log (es ++ [(seq, payload)])))) false false (sg_fd s)) /\
    v = fs_write (sg_fd s) (wal_image seq payload) v0).
Proof.
  intros ((Hok & Hfd0 & _ & Hfile & Hsize) & Hfd & Hns & Hro & Hcnt & Hfull) [Hseq Hp]. cbn [fst snd] in Hseq, Hp.
  eapply triple_conseq; [apply (triple_seg_write v0 s seq payload); eauto|done|].
  intros r v [-> ->]. split; [|done]. unfold IsFull, WAL_SEGMENT_SIZE, WAL_MAX_ENTRIES in Hfull. bool_props.
  rewrite wal_log_snoc, length_app. do 2 f_equal.
  - unfold u32. apply wrap_small. lia.
  - unfold u64. rewrite wrap_small; [lia|]. rewrite wal_image_length.
    pose proof (wal_align_bounds (26 + Z.of_nat (length payload))). destruct Hp as [_ Hp]. lia.
Qed.

Lemma triple_seg_read v0 s es :
  seg_holds v0 s es ->
  triple (W:=W) (eq v0) (ReadAllEntries s) (fun r v =>
    r = wal_entries es /\ v = fs_seek (sg_fd s) (length (wal_log es)) v0).
Proof.
  intros (Hok & Hfd0 & [off Hfd] & Hfile & Hsize). unfold ReadAllEntries.
  rewrite (proj2 (Z.ltb_ge _ _)) by lia.
  apply (triple_sys_ _ (eq (fs_seek (sg_fd s) 0 v0))); [by intros w ->; rewrite rewind_law|].
  assert (fs_contents (sg_fd s) (fs_seek (sg_fd s) 0 v0) = Some (wal_log es, 0%nat)) as Hc.
  { unfold fs_contents, fs_seek. rewrite Hfd. simpl. rewrite lookup_insert_eq. by rewrite Hfile. }
  apply (triple_sys _ _ (fun r v => r = Some (wal_log es) /\ v = fs_seek (sg_fd s) (length (wal_log es)) v0)).
  { intros w Hw. rewrite Hw in Hc. pose proof (reliable_read (sg_fd s) (sg_file_size s) w _ _ Hc) as Hr.
    rewrite drop_0, take_ge in Hr by lia. destruct (p_read _ _ w) as [r w'] eqn:E. cbn [fst] in Hr. subst r.
    split; [done|]. cbn [snd]. apply read_some in E as (c & o & Hc' & _ & ->). rewrite Hc in Hc'. injection Hc' as <- <-.
    by rewrite <- Hw, fs_seek_seek. }
  intros r p Hpr [-> Hv]. cbv zeta.
  rewrite Hsize, Nat2Z.id, Nat.sub_diag. cbn [replicate]. rewrite app_nil_r.
  pose proof (scan_prefix (W:=W) es [] (length (wal_log es)) (S (S (Z.to_nat (Z.of_nat (length (wal_log es)) / 8)))) [] Hok) as Hg.
  rewrite firstn_all, !wal_durable_all in Hg by done.
  destruct (Hg ltac:(pose proof (wal_durable_short (length (wal_log es)) es) as Hs; rewrite wal_durable_all in Hs by done;
    Z.div_mod_to_equations; lia) p Hpr) as (st & E & Hst).
  exists (wal_entries es), (mkProc (os p) st). split; [exact E|]. auto.
Qed.
End SegmentTriples.

Lemma seg_number_inj m i j :
  1 + Z.of_nat i < 2 ^ 31 -> 1 + Z.of_nat j < 2 ^ 31 -> seg_number m i = seg_number m j -> i = j.
Proof. intros Hi Hj E. apply SegmentPath_inj in E; lia. Qed.

(** The segments other than the one at [seg_number m n]. *)
Lemma sealed_other m n ss v i s es :
  (forall i s, mg_sealed m !! i = Some s -> sg_path s = seg_number m i) -> length (mg_sealed m) = n ->
  1 + Z.of_nat n < 2 ^ 31 -> Forall2 (seg_holds v) (mg_sealed m) ss ->
  mg_sealed m !! i = Some s -> ss !! i = Some es -> sg_path s <> seg_number m n.
Proof.
  intros Hp Hn Hlt _ Hs _ E. rewrite (Hp _ _ Hs) in E. apply lookup_lt_Some in Hs.
  apply seg_number_inj in E; lia.
Qed.

Definition written (s : WalSegment) (seq : Z) (es : list (Z * list Z)) : WalSegment :=
  mkSeg (sg_path s) (sg_start_seq_id s) seq (sg_entry_count s + 1) (Z.of_nat (length (wal_log es))) false false (sg_fd s).

(** What one appended entry does to the view. *)
Lemma log_inv_append m v0 ss es s seq payload :
  log_inv m v0 ss es -> mg_active m = Some s -> wal_ok (seq, payload) ->
  let v := fs_write (sg_fd s) (wal_image seq payload) v0 in
  let es' := es ++ [(seq, payload)] in
  seg_holds v (written s seq es') es' /\ fds v !! sg_fd s = Some (sg_path s, length (wal_log es')) /\
  Forall2 (seg_holds v) (mg_sealed m) ss /\
  (forall i, (length (mg_sealed m) < i)%nat -> 1 + Z.of_nat i < 2 ^ 31 -> files v !! seg_number m i = None).
Proof.
  intros Hinv Hs Hok v es'. destruct (li_active _ _ _ _ Hinv) as (s' & Hs' & Hpath & Hend).
  rewrite Hs in Hs'. injection Hs' as <-. destruct Hend as ((Hoks & Hfd0 & _ & Hfile & Hsize) & Hfd & _).
  assert (v = mkFs (<[sg_path s := wal_log es']> (files v0)) (<[sg_fd s := (sg_path s, length (wal_log es'))]> (fds v0))) as Hv.
  { unfold v, fs_write, es'. rewrite Hfd, Hfile. cbn [default from_option]. rewrite fs_patch_end, wal_log_snoc, length_app. done. }
  pose proof (li_few _ _ _ _ Hinv) as Hfew.
  split_and!.
  - rewrite Hv. repeat split; simpl; try done.
    + apply Forall_app. split; [done|by apply Forall_singleton].
    + exists (length (wal_log es')). by rewrite lookup_insert_eq.
    + by rewrite lookup_insert_eq.
  - rewrite Hv. simpl. by rewrite lookup_insert_eq.
  - apply Forall2_same_length_lookup. pose proof (li_sealed _ _ _ _ Hinv) as HF.
    split; [by eapply Forall2_length|]. intros i t es1 Ht He.
    apply (seg_holds_write _ _ (sg_path s) (length (wal_log es))); [done| |by eapply Forall2_lookup_lr].
    rewrite Hpath. eapply sealed_other; eauto using li_paths.
  - intros i Hi Hlt. rewrite Hv. simpl. rewrite lookup_insert_ne.
    + by apply (li_fresh _ _ _ _ Hinv).
    + rewrite Hpath. intros E. apply seg_number_inj in E; lia.
Qed.

Definition sealed_of (s : WalSegment) : WalSegment :=
  mkSeg (sg_path s) (sg_start_seq_id s) (sg_last_seq_id s) (sg_entry_count s) (sg_file_size s) true (sg_read_only s) (sg_fd s).

(** The invariant after the active segment was sealed and the next one opened. *)
Lemma log_inv_rolled m v ss es s fd cur fence :
  Forall2 (seg_holds v) (mg_sealed m) ss -> seg_holds v s es ->
  (forall i t, mg_sealed m !! i = Some t -> sg_path t = seg_number m i) ->
  sg_path s = seg_number m (length (mg_sealed m)) ->
  (forall i, (length (mg_sealed m) < i)%nat -> 1 + Z.of_nat i < 2 ^ 31 -> files v !! seg_number m i = None) ->
  0 <= fd -> fds v !! fd = None ->
  2 + Z.of_nat (length (mg_sealed m)) < 2 ^ 31 ->
  let path := seg_number m (S (length (mg_sealed m))) in
  log_inv (mkMgr (mg_data_dir m) fence (Some (mkSeg path cur cur 0 0 false false fd))
             (mg_sealed m ++ [sealed_of s]) (1 + Z.of_nat (length (mg_sealed m)) + 1) true)
          (fs_open path O_RDWR_CREAT fd v) (ss ++ [es]) [].
Proof.
  intros Hseal Hs Hpaths Hpath Hfresh Hfd Hfree Hfew path.
  assert (files v !! path = None) as Hnew by (apply Hfresh; lia).
  assert (forall i, 1 + Z.of_nat i < 2 ^ 31 -> i <> S (length (mg_sealed m)) -> seg_number m i <> path) as Hne.
  { intros i Hi Hn E. apply seg_number_inj in E; lia. }
  split; simpl.
  - done.
  - apply Forall2_app.
    + apply Forall2_same_length_lookup. split; [by eapply Forall2_length|]. intros i t es1 Ht He.
      apply seg_holds_open; [done| |by eapply Forall2_lookup_lr].
      rewrite (Hpaths _ _ Ht). apply lookup_lt_Some in Ht. apply Hne; lia.
    + apply Forall2_cons. split; [|done].
      apply (seg_holds_open v fd path s es Hfree); [|done]. rewrite Hpath. apply Hne; lia.
  - intros i t Ht. apply lookup_app_Some in Ht as [Ht|[Hi Ht]]; [by apply Hpaths|].
    apply list_lookup_singleton_Some in Ht as [Hz <-]. simpl. rewrite Hpath. by replace i with (length (mg_sealed m)) by lia.
  - eexists. split; [done|]. rewrite length_app. simpl. rewrite Nat.add_1_r. split; [done|].
    split; [|by simpl; rewrite lookup_insert_eq].
    repeat split; simpl; try done.
    + exists 0%nat. by rewrite lookup_insert_eq.
    + by rewrite lookup_insert_eq, Hnew.
  - rewrite length_app. simpl. lia.
  - intros i Hi Hlt. rewrite length_app in Hi. simpl in Hi. rewrite lookup_insert_ne.
    + apply Hfresh; lia.
    + apply not_eq_sym, Hne; lia.
  - rewrite length_app. simpl. lia.
Qed.

Section ManagerTriples.
Context `{CO : ConstObjects} {CW : Filled} {W : Type} `{PR : PosixReliable W}.

Lemma triple_conseq_pre {A} (P : Fs -> Prop) (c : M W A) (Q : A -> Fs -> Prop) :
  (forall v, P v -> triple (eq v) c Q) -> triple P c Q.
Proof. intros Hc p Hp Hv. by apply (Hc _ Hv p Hp). Qed.

Lemma triple_rollover m v s :
  mg_active m = Some s -> sg_is_sealed s = false -> 0 <= sg_fd s ->
  0 <= mg_next_segment_number m -> mg_next_segment_number m + 1 < 2 ^ 31 ->
  files v !! SegmentPath m (mg_next_segment_number m + 1) = None ->
  triple (W:=W) (eq v) (TriggerSegmentRollover m) (fun m' v' => exists fd cur,
    0 <= fd /\ fds v !! fd = None /\
    v' = fs_open (SegmentPath m (mg_next_segment_number m + 1)) O_RDWR_CREAT fd v /\
    m' = mkMgr (mg_data_dir m) (mg_seq_fence m)
           (Some (mkSeg (SegmentPath m (mg_next_segment_number m + 1)) cur cur 0 0 false false fd))
           (mg_sealed m ++ [sealed_of s]) (mg_next_segment_number m + 1) (mg_is_open m)).
Proof.
  intros Hs Hns Hfd Hlo Hhi Hnew. unfold TriggerSegmentRollover. rewrite Hs. unfold Seal, seg_Fsync.
  rewrite Hns, (proj2 (Z.leb_le _ _)) by lia.
  apply (triple_bind _ (fun r v' => r = mg_sealed m ++ [sealed_of s] /\ v' = v)).
  { apply (triple_bind _ (fun r v' => r = sealed_of s /\ v' = v)).
    - apply (triple_sys_ _ (eq v)); [by intros w ->; rewrite fsync_law|]. apply triple_ret. by intros ? <-.
    - intros r. apply triple_ret. by intros ? [-> ->]. }
  intros r. apply triple_conseq_pre. intros v' [-> ->]. cbv zeta.
  assert (u32 (mg_next_segment_number m + 1) = mg_next_segment_number m + 1) as -> by (unfold u32; rewrite wrap_small; lia).
  eapply triple_bind; [by apply triple_new|]. intros seg. apply triple_ret.
  intros v' (fd & H1' & H2' & H3' & ->). eauto 8.
Qed.

Lemma triple_mgr_write m v0 ss es payload :
  log_inv m v0 ss es -> wal_ok (mg_seq_fence m, payload) -> mg_seq_fence m + 1 < 2 ^ 64 ->
  2 + Z.of_nat (length (mg_sealed m)) < 2 ^ 31 ->
  triple (W:=W) (eq v0) (mgr_WriteEntry m (Some payload) (Z.of_nat (length payload))) (fun r v =>
    r.1 = mg_seq_fence m /\ mg_seq_fence r.2 = mg_seq_fence m + 1 /\ mg_data_dir r.2 = mg_data_dir m /\
    (length (mg_sealed r.2) <= S (length (mg_sealed m)))%nat /\
    exists ss' es', log_inv r.2 v ss' es' /\ concat ss' ++ es' = (concat ss ++ es) ++ [(mg_seq_fence m, payload)]).
Proof.
  intros Hinv Hok Hseq Hfew. destruct (li_active _ _ _ _ Hinv) as (s & Hs & Hpath & Hend).
  unfold mgr_WriteEntry. rewrite Hs, (li_open _ _ _ _ Hinv). cbn [negb fence_Next].
  pose proof (log_inv_append m v0 ss es s _ payload Hinv Hs Hok) as (Hh & Hfd & Hseal & Hfresh).
  eapply triple_bind; [by apply triple_seg_append|]. intros r. apply triple_conseq_pre. intros v [-> ->]. cbv beta iota.
  fold (written s (mg_seq_fence m) (es ++ [(mg_seq_fence m, payload)])).
  set (s' := written _ _ _) in *. set (v := fs_write _ _ _) in *. cbn [negb].
  assert (u64 (mg_seq_fence m + 1) = mg_seq_fence m + 1) as Hu.
  { destruct Hok as [Hr _]. simpl in Hr. unfold u64. rewrite wrap_small; lia. }
  rewrite Hu. unfold RollOverIfNeeded, set_active. cbn [mg_active mg_data_dir mg_seq_fence mg_sealed mg_next_segment_number mg_is_open].
  destruct (IsFull s') eqn:Efull.
  - pose proof (li_num _ _ _ _ Hinv) as Hnum. assert (0 <= sg_fd s') as Hfd0 by apply Hh.
    set (m1 := mkMgr (mg_data_dir m) (mg_seq_fence m + 1) (Some s') (mg_sealed m) (mg_next_segment_number m) true).
    assert (SegmentPath m1 (mg_next_segment_number m + 1) = seg_number m (S (length (mg_sealed m)))) as Hp1.
    { unfold seg_number. rewrite Hnum. change (SegmentPath m1) with (SegmentPath m). f_equal. lia. }
    eapply triple_bind.
    { eapply triple_map, (triple_rollover m1 _ s'); [done|done|done|cbn; lia|cbn; lia|].
      cbn [m1 mg_next_segment_number]. rewrite Hp1. apply Hfresh; lia. }
    intros [b m']. apply triple_ret. intros v' (m2 & [= _ ->] & fd & cur & Hf0 & Hfree & -> & ->).
    cbn [m1 mg_next_segment_number mg_seq_fence mg_data_dir mg_sealed fst snd]. rewrite Hp1.
    split_and!; [done..|rewrite length_app; cbn [length]; lia|].
    exists (ss ++ [es ++ [(mg_seq_fence m, payload)]]), [].
    split; [|by rewrite concat_app; simpl; rewrite !app_nil_r, app_assoc].
    rewrite Hnum. apply (log_inv_rolled m v ss _ s' fd cur); try done. apply Hinv.
  - apply (triple_gives _ _ _ _ _ (gives_ret _)). apply triple_ret. intros v' <-. simpl.
    split_and!; [done..|lia|]. exists ss, (es ++ [(mg_seq_fence m, payload)]). split; [|by rewrite app_assoc].
    split; simpl; try done; try by apply Hinv.
    exists s'. split_and!; [done..|]. split; [done|]. split_and!; try done.
    destruct Hend as (_ & _ & _ & _ & Hcnt & _). simpl. rewrite Hcnt, length_app. simpl. lia.
Qed.

Lemma triple_read_segments v0 segs ss :
  Forall2 (seg_holds v0) segs ss ->
  triple (W:=W) (eq v0) (read_segments segs) (fun r v =>
    r = wal_entries (concat ss) /\ forall s es, seg_holds v0 s es -> seg_holds v s es).
Proof.
  intros HF. assert (forall v, (forall s es, seg_holds v0 s es -> seg_holds v s es) ->
    triple (W:=W) (eq v) (read_segments segs) (fun r v' =>
      r = wal_entries (concat ss) /\ forall s es, seg_holds v0 s es -> seg_holds v' s es)) as Hgen; [|by apply Hgen].
  induction HF as [|s es segs ss Hs HF IH]; intros v Hv; cbn [read_segments].
  { apply triple_ret. intros v' <-. done. }
  eapply triple_bind; [apply triple_seg_read, Hv, Hs|]. intros r. apply triple_conseq_pre. intros v' [-> ->].
  eapply triple_bind; [apply IH|].
  - intros t ts Ht. apply seg_holds_seek, Hv, Ht.
  - intros r. apply triple_ret. intros v' [-> Hv']. split; [|done].
    unfold wal_entries. cbn [concat]. by rewrite fmap_app.
Qed.

Lemma triple_collect m v0 ss es :
  log_inv m v0 ss es ->
  triple (W:=W) (eq v0) (CollectEntriesForReplay m) (fun r v => r = wal_entries (concat ss ++ es)).
Proof.
  intros Hinv. unfold CollectEntriesForReplay. destruct (li_active _ _ _ _ Hinv) as (s & -> & _ & Hend).
  eapply triple_bind; [apply triple_read_segments, Hinv|]. intros r. apply triple_conseq_pre. intros v [-> Hv].
  eapply triple_bind; [apply triple_seg_read, Hv, Hend|]. intros r. apply triple_ret. intros v' [-> _].
  unfold wal_entries. by rewrite fmap_app.
Qed.

(** A client that writes payloads one after the other. *)
Fixpoint write_all (m : WalManager) (ps : list (list Z)) : M W (list Z * WalManager) :=
  match ps with
  | [] => mret ([], m)
  | p :: r =>
      '(id, m) ← mgr_WriteEntry m (Some p) (Z.of_nat (length p));
      '(ids, m) ← write_all m r;
      mret (id :: ids, m)
  end.

Lemma triple_write_all ps m v0 ss es :
  log_inv m v0 ss es -> Forall wal_fits ps -> 0 <= mg_seq_fence m ->
  mg_seq_fence m + Z.of_nat (length ps) < 2 ^ 64 ->
  2 + Z.of_nat (length (mg_sealed m)) + Z.of_nat (length ps) < 2 ^ 31 ->
  triple (W:=W) (eq v0) (write_all m ps) (fun r v =>
    r.1 = seqZ (mg_seq_fence m) (Z.of_nat (length ps)) /\
    exists ss' es', log_inv r.2 v ss' es' /\
      concat ss' ++ es' = (concat ss ++ es) ++ zip (seqZ (mg_seq_fence m) (Z.of_nat (length ps))) ps).
Proof.
  intros Hinv Hps Hf Hseq Hfew. revert m v0 ss es Hinv Hf Hseq Hfew.
  induction Hps as [|p ps Hp Hps IH]; intros m v0 ss es Hinv Hf Hseq Hfew; cbn [write_all].
  { apply triple_ret. intros v <-. split; [done|]. exists ss, es. split; [done|]. simpl. by rewrite app_nil_r. }
  cbn [length] in *. rewrite (seqZ_cons _ (Z.of_nat (S (length ps)))) by lia.
  replace (Z.pred (Z.of_nat (S (length ps)))) with (Z.of_nat (length ps)) by lia.
  eapply triple_bind; [apply triple_mgr_write; [exact Hinv|split; [simpl; lia|exact Hp]|lia|lia]|].
  intros [id m']. apply triple_conseq_pre. intros v (Hid & Hfence & _ & Hlen & ss' & es' & Hinv' & Hcat).
  simpl in Hid, Hfence, Hlen, Hinv'. subst id.
  eapply triple_bind; [apply (IH m' v ss' es' Hinv'); lia|]. intros [ids m2]. apply triple_ret.
  intros v2 (Hids & ss2 & es2 & Hinv2 & Hcat2). simpl in Hids, Hinv2. subst ids. simpl. rewrite Hfence, <- Z.add_1_r.
  split; [done|]. exists ss2, es2. split; [done|]. rewrite Hcat2, Hcat, Hfence. by rewrite <- !app_assoc.
Qed.

Lemma triple_open_empty dir v0 :
  let m := WalManager_new dir in
  files v0 !! CheckpointPath m = None ->
  (forall i, 1 + Z.of_nat i < 2 ^ 31 -> files v0 !! seg_number m i = None) ->
  triple (W:=W) (eq v0) (Open m) (fun r v =>
    r.1 = true /\ mg_seq_fence r.2 = 1 /\ mg_sealed r.2 = [] /\ log_inv r.2 v [] []).
Proof.
  intros m Hck Hsegs. unfold Open.
  apply (triple_sys_ _ (eq v0)); [by intros w ->; rewrite mkdirs_law|].
  apply (triple_bind _ (fun cp v => cp = mkCheckpoint 0 0 [] /\ v = v0)).
  { unfold ReadCheckpoint. apply triple_open_missing; [by intros v <-|]. apply triple_ret. by intros v <-. }
  intros cp. apply triple_conseq_pre. intros v [-> ->]. cbv zeta.
  eapply triple_bind; [apply triple_new; apply (Hsegs 0%nat); lia|]. intros seg. apply triple_conseq_pre.
  intros v (fd & Hfd & Hfree & -> & ->). apply (triple_gives _ _ _ _ _ (gives_ret _)). apply triple_ret.
  intros v <-. cbn [fst snd mg_seq_fence mg_sealed]. split_and!; [done..|].
  change (SegmentPath m (mg_next_segment_number m)) with (seg_number m 0).
  split; cbn [mg_is_open mg_sealed mg_active mg_next_segment_number]; try done.
  - eexists. split; [reflexivity|]. split; [done|]. split; [|simpl; by rewrite lookup_insert_eq].
    repeat split; simpl; try done.
    + exists 0%nat. by rewrite lookup_insert_eq.
    + rewrite lookup_insert_eq. by rewrite (Hsegs 0%nat ltac:(lia)).
  - intros i Hi Hlt. cbn [fs_open files]. rewrite lookup_insert_ne; [by apply Hsegs|].
    intros E. apply (seg_number_inj m) in E; [simpl in *; lia|lia..].
Qed.
End ManagerTriples.

(** ** Lemmas: the checkpoint file *)

Lemma upto_delim_app d t r : Forall (fun c => c <> d) t -> upto_delim d (t ++ d :: r) = (t, r).
Proof.
  induction 1 as [|c t Hc _ IH]; cbn [app upto_delim]; [by rewrite Z.eqb_refl|].
  rewrite (proj2 (Z.eqb_neq _ _) Hc), IH. done.
Qed.

Lemma strtok_r_app d t r : t <> [] -> Forall (fun c => c <> d) t -> strtok_r (t ++ d :: r) d = (Some t, r).
Proof.
  intros Hne Ht. unfold strtok_r. destruct t as [|c t]; [done|]. pose proof Ht as Ht'. apply Forall_cons in Ht' as [Hc _].
  cbn [app skip_delim]. rewrite (proj2 (Z.eqb_neq _ _) Hc).
  change (c :: t ++ d :: r) with ((c :: t) ++ d :: r). by rewrite upto_delim_app.
Qed.

(** The text of a checkpoint, and the paths it can carry. *)
Definition ckpt_line (flushed now : Z) (p : list Z) : list Z :=
  fmt_u flushed ++ zstr "," ++ fmt_d now ++ zstr "," ++ p ++ [10].
Definition ckpt_path_ok (p : list Z) : Prop :=
  Forall (fun c => 0 < c < 256 /\ c <> 10) p /\ (length p <= 900)%nat.

Lemma c_chars_id l : Forall (fun c => 0 < c < 256) l -> c_chars l = l.
Proof.
  induction 1 as [|c l Hc _ IH]; [done|]. cbn [c_chars]. rewrite (proj2 (Z.eqb_neq _ _)) by lia. rewrite IH.
  f_equal. unfold u8. apply wrap_small. change (2 ^ 8) with 256. lia.
Qed.

Lemma parse_ckpt_line f now p :
  0 <= f < 2 ^ 64 -> 0 <= now < 2 ^ 63 -> ckpt_path_ok p ->
  parse_checkpoint (ckpt_line f now p) = mkCheckpoint f now p.
Proof.
  intros Hf Hn [Hp _]. unfold ckpt_line, parse_checkpoint. rewrite fmt_d_pos by lia.
  assert (0 <= now < 2 ^ 64) as Hn' by lia.
  destruct (fmt_u_spec f Hf) as (_ & Hne1 & _), (fmt_u_spec now Hn') as (_ & Hne2 & _).
  change (zstr ",") with [44]. cbn [app].
  rewrite strtok_r_app by (try done; apply fmt_u_ne; lia).
  rewrite strtok_r_app by (try done; apply fmt_u_ne; lia).
  cbn [from_option]. rewrite !strtoull_fmt_u by lia.
  destruct p as [|c p]; [done|]. rewrite strtok_r_app; [done..|].
  eapply Forall_impl; [exact Hp|]. simpl. lia.
Qed.

Lemma ckpt_line_short f now p :
  0 <= f < 2 ^ 64 -> 0 <= now < 2 ^ 63 -> ckpt_path_ok p ->
  (length (ckpt_line f now p) <= 1023)%nat /\ c_chars (ckpt_line f now p) = ckpt_line f now p /\ ckpt_line f now p <> [].
Proof.
  intros Hf Hn [Hp Hl]. unfold ckpt_line. rewrite fmt_d_pos by lia.
  assert (0 <= now < 2 ^ 64) as Hn' by lia.
  assert (forall z, 0 <= z < 2 ^ 64 -> (length (fmt_u z) <= 20)%nat) as Hdig.
  { intros z Hz. apply (digits_of_length 20 20 z []); [|lia].
    change (10 ^ Z.of_nat 20) with 100000000000000000000. lia. }
  destruct (fmt_u_spec f Hf) as (Hd1 & Hne1 & _), (fmt_u_spec now Hn') as (Hd2 & _ & _).
  split_and!.
  - rewrite !length_app. pose proof (Hdig f Hf). pose proof (Hdig now Hn'). cbn [length zstr]. lia.
  - apply c_chars_id. rewrite !Forall_app. split_and!; try (repeat constructor; lia).
    + eapply Forall_impl; [exact Hd1|]. simpl. lia.
    + eapply Forall_impl; [exact Hd2|]. simpl. lia.
    + eapply Forall_impl; [exact Hp|]. simpl. lia.
  - by destruct (fmt_u f).
Qed.

Section CheckpointTriples.
Context `{CO : ConstObjects} {W : Type} `{PR : PosixReliable W}.

Lemma triple_read_ckpt m v0 c :
  files v0 !! CheckpointPath m = Some c -> c <> [] -> (length c <= 1023)%nat ->
  triple (W:=W) (eq v0) (ReadCheckpoint m) (fun r v => r = parse_checkpoint (c_chars c) /\ v = v0).
Proof.
  intros Hc Hne Hlen. unfold ReadCheckpoint. apply triple_open; [intros v <- _; eauto|]. intros fd.
  apply triple_conseq_pre. intros v1 (v & <- & Hfd & Hfree & ->).
  set (v1 := fs_open (CheckpointPath m) O_RDONLY fd v0).
  assert (fs_contents fd v1 = Some (c, 0%nat)) as Hcont.
  { unfold fs_contents, v1, fs_open. cbn [fds files]. rewrite lookup_insert_eq. by rewrite Hc. }
  apply (triple_sys _ _ (fun r v => r = Some c /\ v = fs_seek fd (length c) v1)).
  { intros w Hw. rewrite Hw in Hcont. pose proof (reliable_read fd 1023 w _ _ Hcont) as Hr.
    change (Z.to_nat 1023) with 1023%nat in Hr. rewrite drop_0, take_ge in Hr by lia.
    destruct (p_read fd 1023 w) as [r w'] eqn:E. cbn [fst] in Hr. subst r. split; [done|]. cbn [snd].
    apply read_some in E as (c' & o & Hc' & _ & ->). rewrite Hcont in Hc'. injection Hc' as <- <-. by rewrite Hw. }
  intros r. apply (triple_sys_ _ (fun v => r = Some c /\ v = v0)).
  - intros w [-> Hw]. split; [done|]. rewrite close_law, Hw. unfold fs_close, fs_seek, v1, fs_open. cbn [fds files].
    rewrite lookup_insert_eq. cbn [files fds]. rewrite insert_insert_eq, delete_insert_id by done. by destruct v0.
  - apply triple_conseq_pre. intros v [-> ->]. destruct c as [|x c]; [done|]. apply triple_ret. by intros v <-.
Qed.

Lemma triple_write_ckpt m v0 f :
  0 <= f < 2 ^ 64 ->
  triple (W:=W) (eq v0) (WriteCheckpoint m f) (fun r v =>
    r = true /\ exists now, 0 <= now < 2 ^ 63 /\
      v = mkFs (<[CheckpointPath m := ckpt_line f now (match mg_active m with Some s => sg_path s | None => [] end)]>
                 (files v0)) (fds v0)).
Proof.
  intros Hf. unfold WriteCheckpoint. apply triple_open; [done|]. intros fd.
  apply triple_conseq_pre. intros v1 (v & <- & Hfd & Hfree & ->).
  set (v1 := fs_open _ _ fd v0).
  apply (triple_sys _ _ (fun now v => 0 <= now < 2 ^ 63 /\ v = v1)).
  { intros w ->. by destruct (clock_law w) as [-> ?]. }
  intros now. apply triple_conseq_pre. intros v [Hnow ->]. cbv zeta. fold (ckpt_line f now).
  set (p := match mg_active m with Some s => sg_path s | None => [] end).
  change (fmt_u f ++ zstr "," ++ fmt_d now ++ zstr "," ++ p ++ [10]) with (ckpt_line f now p).
  apply (triple_sys _ _ (fun n v => n = Z.of_nat (length (ckpt_line f now p)) /\ v = fs_write fd (ckpt_line f now p) v1)).
  { intros w Hw. assert (is_Some (fds (view w) !! fd)) as Hs by (rewrite <- Hw; simpl; rewrite lookup_insert_eq; eauto).
    pose proof (reliable_write fd (ckpt_line f now p) w Hs) as Hk.
    destruct (p_write _ _ w) as [k w'] eqn:E. cbn [fst] in Hk. subst k. split; [done|]. cbn [snd].
    apply write_law in E as [[E _]|[_ ->]]; [lia|]. by rewrite Nat2Z.id, take_ge, <- Hw by lia. }
  intros n. apply (triple_sys_ _ (fun v => n = Z.of_nat (length (ckpt_line f now p)) /\
    v = mkFs (<[CheckpointPath m := ckpt_line f now p]> (files v0)) (fds v0))).
  { intros w [-> Hw]. split; [done|]. rewrite close_law, Hw. unfold fs_close, fs_write, v1, fs_open. cbn [fds files].
    rewrite lookup_insert_eq. cbn [files fds]. rewrite lookup_insert_eq, insert_insert_eq. change (default [] (Some [])) with (@nil Z).
    rewrite insert_insert_eq, delete_insert_id by done. rewrite fs_patch_start, drop_nil, app_nil_r. done. }
  apply triple_ret. intros v [-> ->]. split; [|eauto].
  apply Z.ltb_lt. unfold ckpt_line. rewrite length_app. destruct (fmt_u_spec f Hf) as (_ & Hne & _).
  destruct (fmt_u f); [done|]. cbn [length]. lia.
Qed.

Lemma triple_ckpt_back m f path :
  0 <= f < 2 ^ 64 -> ckpt_path_ok path ->
  triple (W:=W) (fun v => exists now, 0 <= now < 2 ^ 63 /\ files v !! CheckpointPath m = Some (ckpt_line f now path))
    (ReadCheckpoint m) (fun r v => exists now, r = mkCheckpoint f now path).
Proof.
  intros Hf Hp. apply triple_conseq_pre. intros v (now & Hnow & Hv).
  destruct (ckpt_line_short f now path Hf Hnow Hp) as (Hl & Hc & Hne).
  eapply triple_conseq; [by apply triple_read_ckpt|done|]. intros a v' [-> _]. exists now. rewrite Hc.
  by apply parse_ckpt_line.
Qed.
End CheckpointTriples.

(** ** Sessions and what they show *)

Section Sessions.
Context `{CO : ConstObjects} {W : Type} `{PX : Posix W}.

(** Open an empty directory, write, and read back for replay. *)
Definition session (dir : list Z) (ps : list (list Z)) : M W (list Z * list WalEntry) :=
  '(_, m) ← Open (WalManager_new dir);
  '(ids, m) ← write_all m ps;
  es ← CollectEntriesForReplay m;
  mret (ids, es).

(** A restart: a new manager on a directory an earlier one has used. *)
Definition restart (dir : list Z) (payload : list Z) : M W Z :=
  '(_, m) ← Open (WalManager_new dir);
  '(id, _) ← mgr_WriteEntry m (Some payload) (Z.of_nat (length payload));
  mret id.

(** The value [CrashReplay] writes to the checkpoint, as a specification: the
    last entry that is newer than the checkpoint, zero when there is none. *)
Definition replay_spec (last_flushed : Z) (seqs : list Z) : Z :=
  default 0 (last (filter (fun s => last_flushed < s) seqs)).
End Sessions.

Lemma replay_fold last prev es :
  foldl (replay_step last) prev es = default prev (list.last (filter (fun s => last < s) (e_seq_id <$> es))).
Proof.
  revert prev; induction es as [|e es IH]; intros prev; [done|]. cbn [foldl]. rewrite IH. clear IH.
  rewrite fmap_cons, filter_cons. unfold replay_step. destruct (Z.leb_spec (e_seq_id e) last).
  - by rewrite decide_False by lia.
  - rewrite decide_True by lia. replace (if e_seq_id e <=? prev then e_seq_id e else e_seq_id e) with (e_seq_id e)
      by (by destruct (_ <=? _)).
    destruct (filter _ _) as [|x l]; [done|]. rewrite last_cons_cons. by destruct (list.last (x :: l)) eqn:E; [|apply last_None in E].
Qed.

Section SessionTriples.
Context `{CO : ConstObjects} {CW : Filled} {W : Type} `{PR : PosixReliable W}.

Lemma triple_session dir v0 ps :
  files v0 !! CheckpointPath (WalManager_new dir) = None ->
  (forall i, 1 + Z.of_nat i < 2 ^ 31 -> files v0 !! seg_number (WalManager_new dir) i = None) ->
  Forall wal_fits ps -> 2 + Z.of_nat (length ps) < 2 ^ 31 ->
  triple (W:=W) (eq v0) (session dir ps) (fun r v =>
    r = (seqZ 1 (Z.of_nat (length ps)), wal_entries (zip (seqZ 1 (Z.of_nat (length ps))) ps))).
Proof.
  intros Hck Hsegs Hps Hn. unfold session.
  eapply triple_bind; [by apply triple_open_empty|]. intros [ok m]. apply triple_conseq_pre.
  intros v (_ & Hf & Hse & Hinv). cbn [fst snd] in *.
  eapply triple_bind; [apply (triple_write_all ps m v [] [] Hinv Hps); rewrite ?Hse, ?Hf; simpl; lia|].
  intros [ids m']. apply triple_conseq_pre. intros v' (Hids & ss & es & Hinv' & Hcat). cbn [fst snd] in *.
  eapply triple_bind; [by apply triple_collect|]. intros r. apply triple_ret. intros v2 ->.
  rewrite Hcat, Hids, Hf. done.
Qed.

Lemma triple_reopen dir v0 :
  let m := WalManager_new dir in
  files v0 !! CheckpointPath m = None ->
  triple (W:=W) (eq v0) (Open m) (fun r v => exists fd, 0 <= fd /\ fds v0 !! fd = None /\
    v = fs_open (seg_number m 0) O_RDWR_CREAT fd v0 /\
    r = (true, mkMgr dir 1 (Some (mkSeg (seg_number m 0) 0 0 0
            (u64 (Z.of_nat (length (default [] (files v0 !! seg_number m 0))))) false false fd)) [] 1 true)).
Proof.
  intros m Hck. unfold Open. apply (triple_sys_ _ (eq v0)); [by intros w ->; rewrite mkdirs_law|].
  apply (triple_bind _ (fun cp v => cp = mkCheckpoint 0 0 [] /\ v = v0)).
  { unfold ReadCheckpoint. apply triple_open_missing; [by intros v <-|]. apply triple_ret. by intros v <-. }
  intros cp. apply triple_conseq_pre. intros v [-> ->]. cbv zeta.
  eapply triple_bind; [apply triple_new_any|]. intros s. apply (triple_gives _ _ _ _ _ (gives_ret _)).
  apply triple_ret. intros v (fd & Hfd & Hfree & -> & ->). exists fd. done.
Qed.

Lemma triple_restart dir v0 c payload :
  files v0 !! CheckpointPath (WalManager_new dir) = None ->
  files v0 !! seg_number (WalManager_new dir) 0 = Some c ->
  wal_fits payload -> Z.of_nat (length c + length (wal_image 1 payload)) < WAL_SEGMENT_SIZE ->
  triple (W:=W) (eq v0) (restart dir payload) (fun r v => r = 1 /\
    files v !! seg_number (WalManager_new dir) 0 =
      Some (wal_image 1 payload ++ drop (length (wal_image 1 payload)) c)).
Proof.
  intros Hck Hseg Hp Hsize. unfold restart, WAL_SEGMENT_SIZE in *.
  eapply triple_bind; [by apply triple_reopen|]. intros [ok m]. apply triple_conseq_pre.
  intros v (fd & Hfd & Hfree & -> & [= -> ->]). rewrite Hseg. change (default [] (Some c)) with c.
  assert (u64 (Z.of_nat (length c)) = Z.of_nat (length c)) as -> by (unfold u64; rewrite wrap_small; lia).
  set (m0 := WalManager_new dir) in *. set (v1 := fs_open _ _ _ _).
  assert (fds v1 !! fd = Some (seg_number m0 0, 0%nat)) as Hfd1 by (unfold v1; simpl; by rewrite lookup_insert_eq).
  assert (files v1 !! seg_number m0 0 = Some c) as Hc1 by (unfold v1; simpl; by rewrite lookup_insert_eq, Hseg).
  clearbody v1. unfold mgr_WriteEntry. cbn [mg_active mg_is_open negb fence_Next mg_seq_fence].
  apply (triple_bind _ (fun r v => r.1 = 1 /\ v = fs_write fd (wal_image 1 payload) v1)).
  { eapply triple_bind; [apply triple_seg_write; cbn [sg_fd sg_is_sealed sg_read_only]; eauto|].
    intros r. apply triple_conseq_pre. intros v [-> ->]. cbn [negb].
    unfold RollOverIfNeeded, set_active. cbn [mg_active].
    assert (IsFull (mkSeg (seg_number m0 0) 0 1 (u32 (0 + 1))
      (u64 (Z.of_nat (length c) + Z.of_nat (length (wal_image 1 payload)))) false false fd) = false) as Hnf.
    { unfold IsFull, WAL_SEGMENT_SIZE, WAL_MAX_ENTRIES. cbn [sg_file_size sg_entry_count].
      unfold u64. rewrite wrap_small by lia. rewrite (proj2 (Z.leb_gt _ _)) by lia. done. }
    cbn [sg_path sg_start_seq_id sg_entry_count sg_file_size sg_fd]. rewrite Hnf.
    apply (triple_gives _ _ _ _ _ (gives_ret _)). apply triple_ret. by intros v <-. }
  intros [id m]. apply triple_ret. intros v [Hid ->]. split; [done|].
  unfold fs_write. rewrite Hfd1, Hc1. cbn [files]. by rewrite lookup_insert_eq.
Qed.
End SessionTriples.

Lemma replay_spec_range f seqs : Forall (fun s => 0 <= s < 2 ^ 64) seqs -> 0 <= replay_spec f seqs < 2 ^ 64.
Proof.
  intros Hs. unfold replay_spec. destruct (list.last _) as [z|] eqn:E; simpl; [|lia].
  apply last_Some_elem_of, list_elem_of_filter in E as [_ E]. by eapply Forall_forall in Hs.
Qed.

Lemma entries_seqs es : e_seq_id <$> wal_entries es = fst <$> es.
Proof. unfold wal_entries. rewrite <- list_fmap_compose. by apply list_fmap_ext. Qed.

Lemma triple_replay `{CO : ConstObjects} {CW : Filled} {W} `{PR : PosixReliable W} m v0 ss es c f ts p :
  log_inv m v0 ss es -> files v0 !! CheckpointPath m = Some c ->
  c <> [] -> (length c <= 1023)%nat -> parse_checkpoint (c_chars c) = mkCheckpoint f ts p ->
  let path := match mg_active m with Some s => sg_path s | None => [] end in
  ckpt_path_ok path ->
  triple (W:=W) (eq v0) (_ ← CrashReplay m; ReadCheckpoint m) (fun r v => exists now,
    r = mkCheckpoint (replay_spec f (fst <$> (concat ss ++ es))) now path).
Proof.
  intros Hinv Hc Hne Hlen Hparse path Hp.
  assert (0 <= replay_spec f (fst <$> (concat ss ++ es)) < 2 ^ 64) as Hr.
  { apply replay_spec_range, Forall_fmap, Forall_app. split.
    - apply Forall_concat. pose proof (li_sealed _ _ _ _ Hinv) as HF.
      apply Forall_forall. intros es1 Hin. apply list_elem_of_lookup in Hin as [i Hi].
      destruct (Forall2_lookup_r _ _ _ _ _ HF Hi) as (s & _ & Hok & _).
      eapply Forall_impl; [exact Hok|]. by intros [] [? _].
    - destruct (li_active _ _ _ _ Hinv) as (s & _ & _ & (Hok & _) & _).
      eapply Forall_impl; [exact Hok|]. by intros [] [? _]. }
  apply (triple_bind _ (fun _ v => exists now, 0 <= now < 2 ^ 63 /\
    files v !! CheckpointPath m = Some (ckpt_line (replay_spec f (fst <$> (concat ss ++ es))) now path))).
  - unfold CrashReplay. eapply triple_bind; [by apply triple_read_ckpt|]. intros cp. apply triple_conseq_pre.
    intros v [-> ->]. eapply triple_bind; [by apply triple_collect|]. intros r. apply triple_conseq_pre. intros v ->.
    cbv zeta. rewrite Hparse. cbn [cp_flushed_seq_id]. rewrite replay_fold, entries_seqs.
    eapply triple_bind; [by apply triple_write_ckpt|]. intros ok. apply triple_ret.
    intros v' (_ & now & Hnow & ->). exists now. split; [done|]. simpl. apply lookup_insert_eq.
  - intros _. by apply triple_ckpt_back.
Qed.

(** A table whose stores kill the process. *)
Lemma write_killed `{CO : ConstObjects} {W} `{PR : PosixReliable W} (w : W) m v ss es p :
  wal_table = None -> log_inv m v ss es -> wal_fits p ->
  mgr_WriteEntry m (Some p) (Z.of_nat (length p)) (wal_start w) = Fault.
Proof.
  intros Ht Hinv Hp. destruct (li_active _ _ _ _ Hinv) as (s & Ha & _ & (Hh & _ & H1 & H2 & _)).
  destruct Hh as (_ & Hfd & _).
  unfold mgr_WriteEntry. rewrite Ha, (li_open _ _ _ _ Hinv). cbn [negb]. destruct (fence_Next _) as [id f].
  rewrite M_bind_unfold. unfold seg_WriteEntry. rewrite H1, H2, (proj2 (Z.ltb_ge _ _)) by done. cbn [orb].
  rewrite M_bind_unfold. by rewrite build_killed.
Qed.

Lemma session_killed `{CO : ConstObjects} {W} `{PR : PosixReliable W} (w : W) dir ps :
  files (view w) !! CheckpointPath (WalManager_new dir) = None ->
  (forall i, 1 + Z.of_nat i < 2 ^ 31 -> files (view w) !! seg_number (WalManager_new dir) i = None) ->
  Forall wal_fits ps -> wal_table = None -> ps <> [] -> session dir ps (wal_start w) = Fault.
Proof.
  intros Hck Hsegs Hps Ht Hne. destruct ps as [|p ps]; [done|]. apply Forall_cons in Hps as [Hp _].
  destruct (triple_open_empty dir (view w) Hck Hsegs (wal_start w) crc_ready_cold eq_refl)
    as ([ok m] & q & E & Hq & _ & _ & _ & Hinv).
  unfold session. rewrite (M_bind_run _ _ _ _ _ E). cbn [snd] in Hinv. cbn [write_all].
  assert (q = wal_start (os q)) as ->.
  { destruct q as [w' [t i]]. unfold crc_ready in Hq. cbn [statics crc32c_table_init crc32c_table] in Hq. rewrite Ht in Hq. destruct i; [done|]. by subst t. }
  rewrite !M_bind_unfold. by rewrite (write_killed _ m _ [] [] p Ht Hinv Hp).
Qed.

End WithTable.

(** ** Properties *)

(** C2. Refinement: on a machine whose file calls succeed, a new log in an empty
    directory is an append-only list. Whatever payloads are written (fewer than
    2^31 of them, each of a size that keeps its entry below 2^32 bytes), across
    however many segment files, the identifiers returned are 1, 2, 3, ... and the
    replay collects exactly the payloads written, in order, with their
    identifiers. This holds whatever the stores into the checksum table declared
    [const] leave there; when they kill the process, the first write does. *)
Theorem wal_manager_refines `{CO : ConstObjects} {W} `{PR : PosixReliable W} (w : W) dir ps :
  files (view w) !! CheckpointPath (WalManager_new dir) = None ->
  (forall i, 1 + Z.of_nat i < 2 ^ 31 -> files (view w) !! seg_number (WalManager_new dir) i = None) ->
  Forall wal_fits ps -> 2 + Z.of_nat (length ps) < 2 ^ 31 ->
  match wal_table with
  | Some t => exists q, session dir ps (wal_start w) =
      Ok ((seqZ 1 (Z.of_nat (length ps)), wal_entries (TT := t) (zip (seqZ 1 (Z.of_nat (length ps))) ps)), q)
  | None => ps <> [] -> session dir ps (wal_start w) = Fault
  end.
Proof.
  intros Hck Hsegs Hps Hn. destruct wal_table as [t|] eqn:Ht; [|intros Hne; by apply (session_killed (TT := []))].
  assert (Filled (TT := t)) as CW by exact Ht.
  destruct (triple_session (TT := t) dir (view w) ps Hck Hsegs Hps Hn (wal_start w) crc_ready_cold eq_refl)
    as (r & q & E & _ & ->). eauto.
Qed.

(** A restart overwrites the log: a new manager on a directory without a
    checkpoint opens segment 1 again with its offset at zero, gives out the
    identifier 1 again, and its first write replaces the beginning of what the
    earlier run had logged. *)
Theorem wal_restart_overwrites `{CO : ConstObjects} {TT : TableOf} {CW : Filled} {W} `{PR : PosixReliable W} (w : W) dir c payload :
  files (view w) !! CheckpointPath (WalManager_new dir) = None ->
  files (view w) !! seg_number (WalManager_new dir) 0 = Some c ->
  wal_fits payload -> Z.of_nat (length c + length (wal_image 1 payload)) < WAL_SEGMENT_SIZE ->
  exists q, restart dir payload (wal_start w) = Ok (1, q) /\
    files (view (os q)) !! seg_number (WalManager_new dir) 0 =
      Some (wal_image 1 payload ++ drop (length (wal_image 1 payload)) c).
Proof.
  intros Hck Hseg Hp Hs.
  destruct (triple_restart dir (view w) c payload Hck Hseg Hp Hs (wal_start w) crc_ready_cold eq_refl)
    as (r & q & E & _ & -> & Hf). eauto.
Qed.

(** Checkpoints round-trip: what [WriteCheckpoint] stores, [ReadCheckpoint]
    returns, up to a segment path of 900 bytes without control characters. *)
Theorem wal_checkpoint_roundtrip `{CO : ConstObjects} {W} `{PR : PosixReliable W} (w : W) m f :
  0 <= f < 2 ^ 64 -> ckpt_path_ok (match mg_active m with Some s => sg_path s | None => [] end) ->
  exists now q, (_ ← WriteCheckpoint m f; ReadCheckpoint m) (wal_start w) =
    Ok (mkCheckpoint f now (match mg_active m with Some s => sg_path s | None => [] end), q).
Proof.
  intros Hf Hp.
  assert (triple (W:=W) (eq (view w)) (_ ← WriteCheckpoint m f; ReadCheckpoint m) (fun r v => exists now,
    r = mkCheckpoint f now (match mg_active m with Some s => sg_path s | None => [] end))) as Ht.
  { apply (triple_bind _ (fun _ v => exists now, 0 <= now < 2 ^ 63 /\ files v !! CheckpointPath m =
      Some (ckpt_line f now (match mg_active m with Some s => sg_path s | None => [] end)))).
    - eapply triple_conseq; [by apply triple_write_ckpt|done|]. intros a v (_ & now & Hnow & ->).
      exists now. split; [done|]. simpl. apply lookup_insert_eq.
    - intros _. by apply triple_ckpt_back. }
  destruct (Ht (wal_start w) crc_ready_cold eq_refl) as (r & q & E & _ & now & ->). eauto.
Qed.

(** What crash replay records: the checkpoint it writes is the sequence number
    of the last entry newer than the old checkpoint, and zero when there is no
    such entry, so a second replay after a complete one moves the checkpoint
    back to zero. *)
Theorem wal_replay_checkpoint `{CO : ConstObjects} {TT : TableOf} {CW : Filled} {W} `{PR : PosixReliable W} (w : W) m ss es c f ts p :
  log_inv m (view w) ss es -> files (view w) !! CheckpointPath m = Some c ->
  c <> [] -> (length c <= 1023)%nat -> parse_checkpoint (c_chars c) = mkCheckpoint f ts p ->
  ckpt_path_ok (match mg_active m with Some s => sg_path s | None => [] end) ->
  exists now q, (_ ← CrashReplay m; ReadCheckpoint m) (wal_start w) =
    Ok (mkCheckpoint (replay_spec f (fst <$> (concat ss ++ es))) now
          (match mg_active m with Some s => sg_path s | None => [] end), q).
Proof.
  intros Hinv Hc Hne Hlen Hparse Hp.
  destruct (triple_replay m (view w) ss es c f ts p Hinv Hc Hne Hlen Hparse Hp (wal_start w) crc_ready_cold eq_refl)
    as (r & q & E & _ & now & ->). eauto.
Qed.

(** A short write hides everything after it: on a machine that transfers at
    most 32 bytes per call the first entry (40 bytes) is reported as failed but
    its first 32 bytes stay in the file; the second entry is reported as
    written, and replay then finds neither. *)
Theorem wal_short_write_hides_later :
  exists q, session (CO := plain_objects) (zstr "d") [[1; 2; 3; 4; 5; 6; 7; 8; 9; 10]; [5]]
              (wal_start (sim_fs (Some 32%nat) ∅)) = Ok (([0; 2], []), q).
Proof. eexists. vm_compute. reflexivity. Qed.

(** ** Witnesses *)

Lemma wal_manager_refines_witness :
  exists q, session (CO := plain_objects) (zstr "d") [[1; 2]; [3]] (wal_start (sim_fs None ∅)) =
    Ok (([1; 2], wal_entries (TT := full_table) [(1, [1; 2]); (2, [3])]), q).
Proof.
  apply (wal_manager_refines (CO := plain_objects) (sim_fs None ∅) (zstr "d") [[1; 2]; [3]]);
    [reflexivity|intros i _; reflexivity|repeat (apply Forall_cons; split; [by apply small_fits|]); apply Forall_nil; exact I|reflexivity].
Defined.

Definition used_dir : SimFs None := sim_fs None {[ seg_number (WalManager_new (zstr "d")) 0 := wal_image (TT := full_table) 1 [7; 7] ]}.

Lemma wal_restart_overwrites_witness :
  exists q, restart (CO := plain_objects) (zstr "d") [9] (wal_start used_dir) = Ok (1, q) /\
    files (view (os q)) !! seg_number (WalManager_new (zstr "d")) 0 =
      Some (wal_image (TT := full_table) 1 [9] ++ drop (length (wal_image (TT := full_table) 1 [9])) (wal_image (TT := full_table) 1 [7; 7])).
Proof.
  apply (wal_restart_overwrites (CW := plain_table) used_dir (zstr "d") (wal_image (TT := full_table) 1 [7; 7]) [9]);
    [vm_compute; reflexivity|apply lookup_singleton_eq|by apply small_fits|vm_compute; reflexivity].
Defined.

Lemma wal_checkpoint_roundtrip_witness :
  exists now q, (_ ← WriteCheckpoint (WalManager_new (zstr "d")) 5; ReadCheckpoint (WalManager_new (zstr "d")))
    (wal_start (sim_fs None ∅)) = Ok (mkCheckpoint 5 now [], q).
Proof.
  apply (wal_checkpoint_roundtrip (CO := plain_objects) (sim_fs None ∅) (WalManager_new (zstr "d")) 5);
    [lia|split; [constructor|simpl; lia]].
Defined.

(** A log of one entry whose checkpoint says that it is flushed. *)
Definition flushed_mgr : WalManager :=
  mkMgr (zstr "d") 2 (Some (mkSeg (seg_number (WalManager_new (zstr "d")) 0) 0 1 1 32 false false 3)) [] 1 true.
Definition flushed_dir : SimFs None := mkSimFs
  (mkFs (<[seg_number flushed_mgr 0 := wal_log (TT := full_table) [(1, [7])]]> {[ CheckpointPath flushed_mgr := ckpt_line 1 5 [] ]})
        {[ 3 := (seg_number flushed_mgr 0, 32%nat) ]}) 9.

Lemma flushed_log_inv : log_inv (TT := full_table) flushed_mgr (view flushed_dir) [] [(1, [7])].
Proof.
  split; try done.
  - eexists. split; [reflexivity|]. split; [reflexivity|].
    assert (length (wal_log (TT := full_table) [(1, [7])]) = 32%nat) as Hl by (vm_compute; reflexivity).
    split; [|simpl view; by rewrite Hl].
    split; [apply Forall_singleton; split; [simpl; lia|by apply small_fits]|].
    split; [simpl; lia|]. split; [exists 32%nat; apply lookup_singleton_eq|].
    split; [apply lookup_insert_eq|]. by rewrite Hl.
  - intros i Hi Hlt. simpl in Hi. simpl view. cbn [sf_view flushed_dir files].
    rewrite lookup_insert_ne, lookup_singleton_ne; [done| |].
    + apply CheckpointPath_ne. lia.
    + intros E. apply seg_number_inj in E; lia.
Qed.

Lemma ckpt_pathb_ok p :
  forallb (fun c => (0 <? c) && (c <? 256) && negb (c =? 10)) p && (length p <=? 900)%nat = true -> ckpt_path_ok p.
Proof.
  rewrite andb_true_iff, forallb_forall, Nat.leb_le. intros [Hp Hl]. split; [|done].
  apply Forall_forall. intros c Hc. apply list_elem_of_In, Hp in Hc. bool_props. lia.
Qed.

Lemma wal_replay_checkpoint_witness :
  exists now q, (_ ← CrashReplay (CO := plain_objects) flushed_mgr; ReadCheckpoint flushed_mgr) (wal_start flushed_dir) =
    Ok (mkCheckpoint 0 now (seg_number flushed_mgr 0), q).
Proof.
  apply (wal_replay_checkpoint (CW := plain_table) flushed_dir flushed_mgr [] [(1, [7])] (ckpt_line 1 5 []) 1 5 []);
    [apply flushed_log_inv|vm_compute; reflexivity|discriminate|simpl; lia|vm_compute; reflexivity|].
  apply ckpt_pathb_ok. vm_compute. reflexivity.
Defined.
