(* ===== verification/TinyLfu.v ===== *)
(** * The client's W-TinyLFU cache
    (src/client/smart_cache/w_tinylfu.h, w_tinylfu.cpp)

    A count-min sketch that estimates how often a key was used ([CountMinSketch]),
    the frequency filter that resets it now and then ([TinyLFU]), and the cache
    with its three queues ([WTinyLFUCache]). The mutex of the cache makes its
    methods atomic. The hash table is a finite map, the queues are lists; an
    index outside a vector and a division by zero are a [Fault]. *)

From S2P Require Import Prelude.

Definition UINT32_MAX : Z := 2 ^ 32 - 1.

(** ** The sketch *)

Record CountMinSketch : Type := mkCms {
  cm_width : Z;
  cm_depth : Z;
  cm_table : list (list Z);
  cm_seeds : list Z;
}.

Definition cm_new (width depth : Z) : CountMinSketch :=
  mkCms width depth (replicate (Z.to_nat depth) (replicate (Z.to_nat width) 0))
    ((fun i => u32 (2654435761 * (i + 1))) <$> seqZ 0 depth).

(** One multiplication round, on 64 bits. *)
Definition hash_round (h : Z) : Z := u64 (Z.lxor (Z.shiftr h 16) h * 0x45d9f3b).

Definition Hash (s : CountMinSketch) (key seed : Z) : res Z :=
  let h := Z.lxor key seed in
  let h := hash_round h in
  let h := hash_round h in
  let h := Z.lxor (Z.shiftr h 16) h in
  if cm_width s =? 0 then Fault else Ok (u32 (h mod cm_width s)).

(** The cell of row [d] that [key] hashes to. *)
Definition cell_of (s : CountMinSketch) (key : Z) (d : nat) : res (list Z * nat * Z) :=
  let* seed := of_opt (cm_seeds s !! d) in
  let* idx := Hash s key seed in
  let* row := of_opt (cm_table s !! d) in
  let* c := of_opt (row !! Z.to_nat idx) in
  Ok (row, Z.to_nat idx, c).

(** The loop of [Add], from row [d] for [n] rows. *)
Fixpoint add_rows (n : nat) (d : nat) (s : CountMinSketch) (key count : Z) : res CountMinSketch :=
  match n with
  | O => Ok s
  | S n' =>
      let* (row, i, c) := cell_of s key d in
      add_rows n' (S d)
        (mkCms (cm_width s) (cm_depth s) (<[d := <[i := u32 (c + count)]> row]> (cm_table s)) (cm_seeds s)) key count
  end.
Definition cm_Add (s : CountMinSketch) (key count : Z) : res CountMinSketch :=
  add_rows (Z.to_nat (cm_depth s)) 0 s key count.

Fixpoint min_rows (n : nat) (d : nat) (s : CountMinSketch) (key m : Z) : res Z :=
  match n with
  | O => Ok m
  | S n' => let* (_, _, c) := cell_of s key d in min_rows n' (S d) s key (Z.min m c)
  end.
Definition cm_Estimate (s : CountMinSketch) (key : Z) : res Z :=
  min_rows (Z.to_nat (cm_depth s)) 0 s key UINT32_MAX.

Definition cm_Reset (s : CountMinSketch) : CountMinSketch :=
  mkCms (cm_width s) (cm_depth s) ((fun row : list Z => replicate (length row) 0) <$> cm_table s) (cm_seeds s).

(** ** The frequency filter *)

Record TinyLFU : Type := mkLfu {
  lfu_cm : CountMinSketch;
  lfu_total_access : Z;
  lfu_reset_threshold : Z;
}.

Definition lfu_new (capacity width depth : Z) : TinyLFU := mkLfu (cm_new width depth) 0 (u32 (capacity * 10)).

Definition lfu_Access (t : TinyLFU) (key : Z) : res TinyLFU :=
  let* cm := cm_Add (lfu_cm t) key 1 in
  let total := u64 (lfu_total_access t + 1) in
  if lfu_reset_threshold t <=? total then Ok (mkLfu (cm_Reset cm) 0 (lfu_reset_threshold t))
  else Ok (mkLfu cm total (lfu_reset_threshold t)).

Definition lfu_Estimate (t : TinyLFU) (key : Z) : res Z := cm_Estimate (lfu_cm t) key.
Definition lfu_Reset (t : TinyLFU) : TinyLFU := mkLfu (cm_Reset (lfu_cm t)) 0 (lfu_reset_threshold t).

(** ** The cache *)

Inductive QueueType : Type := Window | Probation | Protected.
#[export] Instance QueueType_eq : EqDecision QueueType.
Proof. solve_decision. Defined.

(** [e_data] is [None] for a null pointer. *)
Record Entry : Type := mkEntry {
  e_key : Z;
  e_data : option (list Z);
  e_size : Z;
  e_queue : QueueType;
}.

Record WTinyLFUCache : Type := mkCache {
  window_capacity : Z;
  protected_capacity : Z;
  probation_capacity : Z;
  total_capacity : Z;
  entries : gmap Z Entry;
  window_queue : list Z;
  probation_queue : list Z;
  protected_queue : list Z;
  tinylfu : TinyLFU;
  hit_count : Z;
  miss_count : Z;
  eviction_count : Z;
  insert_count : Z;
  total_size : Z;
}.

Definition at_least_1 (z : Z) : Z := if z =? 0 then 1 else z.

Definition WTinyLFUCache_new (capacity window_ratio protected_ratio : Z) : WTinyLFUCache :=
  let w := u32 (capacity * window_ratio) / 100 in
  let p := u32 (capacity * protected_ratio) / 100 in
  let b := u32 (capacity - w - p) in
  mkCache (at_least_1 w) (at_least_1 p) (at_least_1 b) capacity ∅ [] [] [] (lfu_new capacity 256 4) 0 0 0 0 0.

(** Field updates. *)
Definition with_entries (c : WTinyLFUCache) (m : gmap Z Entry) : WTinyLFUCache :=
  mkCache (window_capacity c) (protected_capacity c) (probation_capacity c) (total_capacity c) m (window_queue c)
    (probation_queue c) (protected_queue c) (tinylfu c) (hit_count c) (miss_count c) (eviction_count c)
    (insert_count c) (total_size c).
Definition with_queues (c : WTinyLFUCache) (w b p : list Z) : WTinyLFUCache :=
  mkCache (window_capacity c) (protected_capacity c) (probation_capacity c) (total_capacity c) (entries c) w b p
    (tinylfu c) (hit_count c) (miss_count c) (eviction_count c) (insert_count c) (total_size c).
Definition with_lfu (c : WTinyLFUCache) (t : TinyLFU) : WTinyLFUCache :=
  mkCache (window_capacity c) (protected_capacity c) (probation_capacity c) (total_capacity c) (entries c)
    (window_queue c) (probation_queue c) (protected_queue c) t (hit_count c) (miss_count c) (eviction_count c)
    (insert_count c) (total_size c).
Definition with_counts (c : WTinyLFUCache) (h m e i s : Z) : WTinyLFUCache :=
  mkCache (window_capacity c) (protected_capacity c) (probation_capacity c) (total_capacity c) (entries c)
    (window_queue c) (probation_queue c) (protected_queue c) (tinylfu c) h m e i s.

(** [erase (find key)] on a vector. *)
Fixpoint erase_key (k : Z) (l : list Z) : list Z :=
  match l with
  | [] => []
  | x :: r => if x =? k then r else x :: erase_key k r
  end.

Definition set_queue (e : Entry) (q : QueueType) : Entry := mkEntry (e_key e) (e_data e) (e_size e) q.

(** The scan of the first 16 probation keys: the victim and its index. *)
Fixpoint scan_probation (n i : nat) (t : TinyLFU) (q : list Z) (min_freq : Z) (best : option (Z * nat))
  : res (option (Z * nat)) :=
  match n, q with
  | S n', k :: r =>
      let* f := lfu_Estimate t k in
      if f <? min_freq then
        if f =? 0 then Ok (Some (k, i)) else scan_probation n' (S i) t r f (Some (k, i))
      else scan_probation n' (S i) t r min_freq best
  | _, _ => Ok best
  end.

(** The choice of the victim: the key and the queues without it. *)
Definition pick_victim (c : WTinyLFUCache) : res (option (Z * WTinyLFUCache)) :=
  match window_queue c with
  | k :: w => Ok (Some (k, with_queues c w (probation_queue c) (protected_queue c)))
  | [] =>
      match probation_queue c with
      | _ :: _ =>
          let* v := scan_probation 16 0 (tinylfu c) (probation_queue c) UINT32_MAX None in
          match v with
          | Some (k, i) =>
              Ok (Some (k, with_queues c [] (delete i (probation_queue c)) (protected_queue c)))
          | None => Ok None
          end
      | [] =>
          match protected_queue c with
          | k :: p => Ok (Some (k, with_queues c [] [] p))
          | [] => Ok None
          end
      end
  end.

Definition EvictOne (c : WTinyLFUCache) : res (bool * WTinyLFUCache) :=
  let* v := pick_victim c in
  match v with
  | None => Ok (false, c)
  | Some (k, c) =>
      match entries c !! k with
      | Some e =>
          Ok (true, with_entries
                (with_counts c (hit_count c) (miss_count c) (u64 (eviction_count c + 1)) (insert_count c)
                   (u64 (total_size c - e_size e)))
                (delete k (entries c)))
      | None => Ok (true, c)
      end
  end.

(** [while (entries_.size() >= total_capacity_) if (!EvictOne()) break;] *)
Fixpoint evict_loop (fuel : nat) (c : WTinyLFUCache) : res WTinyLFUCache :=
  match fuel with
  | O => NoFuel
  | S n =>
      if Z.of_nat (size (entries c)) <? total_capacity c then Ok c else
      let* (ok, c') := EvictOne c in
      if (ok : bool) then evict_loop n c' else Ok c'
  end.

Definition queued (c : WTinyLFUCache) : list Z := window_queue c ++ probation_queue c ++ protected_queue c.

(** [data] is [None] for a null pointer; [alloc] is the answer of [malloc]. *)
Definition Put (c : WTinyLFUCache) (key : Z) (data : option (list Z)) (sz : Z) (alloc : bool)
  : res (bool * WTinyLFUCache) :=
  match entries c !! key with
  | Some e =>
      let* t := lfu_Access (tinylfu c) key in
      let c := with_lfu c t in
      match e_data e with
      | Some old =>
          if 0 <? sz then
            let* src := of_opt data in
            let* bs := rd_bytes src 0 (Z.min sz (e_size e)) in
            let* new := wr old 0 bs in
            Ok (true, with_entries c (<[key := mkEntry (e_key e) (Some new) (e_size e) (e_queue e)]> (entries c)))
          else Ok (true, c)
      | None => Ok (true, c)
      end
  | None =>
      let* c := evict_loop (S (length (queued c))) c in
      let* block := match data with
                    | Some src => if (0 <? sz) && alloc then let* bs := rd_bytes src 0 sz in Ok (Some bs) else Ok None
                    | None => Ok None
                    end in
      let e := mkEntry key block sz Window in
      let c := with_entries c (<[key := e]> (entries c)) in
      let c := with_queues c (window_queue c ++ [key]) (probation_queue c) (protected_queue c) in
      let c := with_counts c (hit_count c) (miss_count c) (eviction_count c) (u64 (insert_count c + 1))
                 (u64 (total_size c + sz)) in
      let* t := lfu_Access (tinylfu c) key in
      Ok (true, with_lfu c t)
  end.

(** The demotion loop of [Get]. *)
Fixpoint demote_loop (fuel : nat) (c : WTinyLFUCache) : res WTinyLFUCache :=
  match fuel with
  | O => NoFuel
  | S n =>
      if Z.of_nat (length (protected_queue c)) <? protected_capacity c then Ok c else
      match protected_queue c with
      | [] => Fault
      | d :: p =>
          match entries c !! d with
          | Some e => demote_loop n (with_queues (with_entries c (<[d := set_queue e Probation]> (entries c)))
                                       (window_queue c) (probation_queue c ++ [d]) p)
          | None => demote_loop n (with_queues c (window_queue c) (probation_queue c) p)
          end
      end
  end.

(** Result: found, [out_size], and the bytes copied to the buffer, if any. *)
Definition Get (c : WTinyLFUCache) (key : Z) (buffer : bool) (buffer_size : Z)
  : res (bool * Z * option (list Z) * WTinyLFUCache) :=
  match entries c !! key with
  | None => Ok (false, 0, None,
                with_counts c (hit_count c) (u64 (miss_count c + 1)) (eviction_count c) (insert_count c) (total_size c))
  | Some e =>
      let* t := lfu_Access (tinylfu c) key in
      let c := with_lfu c t in
      let c := with_counts c (u64 (hit_count c + 1)) (miss_count c) (eviction_count c) (insert_count c) (total_size c) in
      let* copied := match e_data e with
                     | Some d => if buffer && (e_size e <=? buffer_size)
                                 then let* bs := rd_bytes d 0 (e_size e) in Ok (Some bs) else Ok None
                     | None => Ok None
                     end in
      if bool_decide (e_queue e = Probation) then
        let c := with_queues c (window_queue c) (erase_key key (probation_queue c)) (protected_queue c) in
        let c := with_entries c (<[key := set_queue e Protected]> (entries c)) in
        let* c := demote_loop (S (length (protected_queue c))) c in
        Ok (true, e_size e, copied, with_queues c (window_queue c) (probation_queue c) (protected_queue c ++ [key]))
      else Ok (true, e_size e, copied, c)
  end.

Definition Contains (c : WTinyLFUCache) (key : Z) : bool := bool_decide (is_Some (entries c !! key)).

Definition Remove (c : WTinyLFUCache) (key : Z) : bool * WTinyLFUCache :=
  match entries c !! key with
  | None => (false, c)
  | Some e =>
      let c := with_counts c (hit_count c) (miss_count c) (eviction_count c) (insert_count c)
                 (u64 (total_size c - e_size e)) in
      let c := match e_queue e with
               | Window => with_queues c (erase_key key (window_queue c)) (probation_queue c) (protected_queue c)
               | Probation => with_queues c (window_queue c) (erase_key key (probation_queue c)) (protected_queue c)
               | Protected => with_queues c (window_queue c) (probation_queue c) (erase_key key (protected_queue c))
               end in
      (true, with_entries c (delete key (entries c)))
  end.

Definition Clear (c : WTinyLFUCache) : WTinyLFUCache :=
  with_counts (with_queues (with_entries c ∅) [] [] []) (hit_count c) (miss_count c) (eviction_count c)
    (insert_count c) 0.

Definition Count (c : WTinyLFUCache) : Z := u32 (Z.of_nat (size (entries c))).
Definition ResetStats (c : WTinyLFUCache) : WTinyLFUCache := with_counts c 0 0 0 0 (total_size c).

(** The statistics; the rate is the pair of its numerator and denominator. *)
Record CacheStats : Type := mkStats {
  st_hit : Z; st_miss : Z; st_evict : Z; st_insert : Z; st_rate : Z * Z;
}.
Definition GetStats (c : WTinyLFUCache) : CacheStats :=
  let total := u64 (hit_count c + miss_count c) in
  mkStats (hit_count c) (miss_count c) (eviction_count c) (insert_count c)
    (if 0 <? total then (hit_count c, total) else (0, 1)).

(** ** Lemmas: the sketch *)

Definition mix (key seed : Z) : Z :=
  let h := hash_round (hash_round (Z.lxor key seed)) in Z.lxor (Z.shiftr h 16) h.

(** A sketch whose vectors have the sizes its fields say. *)
Record cm_ok (s : CountMinSketch) : Prop := {
  ok_width : 0 < cm_width s < 2 ^ 32;
  ok_depth : 0 < cm_depth s;
  ok_rows : length (cm_table s) = Z.to_nat (cm_depth s);
  ok_seeds : length (cm_seeds s) = Z.to_nat (cm_depth s);
  ok_row : Forall (fun row : list Z => length row = Z.to_nat (cm_width s)) (cm_table s);
}.

(** The cell of row [d] for [key], and its value. *)
Definition slot (s : CountMinSketch) (key : Z) (d : nat) : nat :=
  Z.to_nat (mix key (cm_seeds s !!! d) mod cm_width s).
Definition cval (s : CountMinSketch) (d j : nat) : Z := default 0 (cm_table s !! d ≫= lookup j).

#[global] Arguments slot : simpl never.
#[global] Arguments mix : simpl never.

Lemma slot_range s key d : cm_ok s -> (slot s key d < Z.to_nat (cm_width s))%nat.
Proof.
  intros H. destruct (ok_width s H). unfold slot.
  pose proof (Z.mod_pos_bound (mix key (cm_seeds s !!! d)) (cm_width s)). lia.
Qed.

Lemma cell_of_ok s key d : cm_ok s -> (d < Z.to_nat (cm_depth s))%nat ->
  exists row, cm_table s !! d = Some row /\ length row = Z.to_nat (cm_width s) /\
    cell_of s key d = Ok (row, slot s key d, cval s d (slot s key d)).
Proof.
  intros H Hd. destruct (lookup_lt_is_Some_2 (cm_table s) d) as [row Hrow]; [rewrite ok_rows; done|].
  destruct (lookup_lt_is_Some_2 (cm_seeds s) d) as [seed Hseed]; [rewrite ok_seeds; done|].
  assert (length row = Z.to_nat (cm_width s)) as Hlen by (by eapply Forall_lookup_1 in Hrow; [|apply ok_row]).
  exists row. split_and!; [done..|]. pose proof (slot_range s key d H) as Hs.
  destruct (lookup_lt_is_Some_2 row (slot s key d)) as [c Hc]; [lia|].
  unfold cell_of. rewrite Hseed. cbn [of_opt res_bind]. unfold Hash. cbv zeta.
  destruct (ok_width s H) as [Hw Hw']. rewrite (proj2 (Z.eqb_neq _ _)) by lia. cbn [res_bind].
  fold (mix key seed).
  change (Z.lxor _ (hash_round (hash_round (Z.lxor key seed)))) with (mix key seed).
  assert (u32 (mix key seed mod cm_width s) = mix key seed mod cm_width s) as ->.
  { unfold u32. apply wrap_small. pose proof (Z.mod_pos_bound (mix key seed) (cm_width s)). lia. }
  rewrite Hrow. cbn [of_opt res_bind].
  assert (Z.to_nat (mix key seed mod cm_width s) = slot s key d) as ->.
  { unfold slot. by rewrite (list_lookup_total_correct _ _ _ Hseed). }
  rewrite Hc. cbn [of_opt res_bind]. unfold cval. rewrite Hrow. cbn [mbind option_bind]. by rewrite Hc.
Qed.

(** Equal shape: everything but the cells. *)
Definition same_shape (s s' : CountMinSketch) : Prop :=
  cm_width s' = cm_width s /\ cm_depth s' = cm_depth s /\ cm_seeds s' = cm_seeds s.

Lemma same_shape_slot s s' key d : same_shape s s' -> slot s' key d = slot s key d.
Proof. intros (Hw & _ & Hs). unfold slot. by rewrite Hw, Hs. Qed.

Lemma add_rows_spec n d s key count :
  cm_ok s -> (d + n <= Z.to_nat (cm_depth s))%nat ->
  exists s', add_rows n d s key count = Ok s' /\ cm_ok s' /\ same_shape s s' /\
    forall d' j, cval s' d' j =
      if decide ((d <= d' < d + n)%nat /\ j = slot s key d') then u32 (cval s d' j + count) else cval s d' j.
Proof.
  revert d s. induction n as [|n IH]; intros d s H Hd.
  { exists s. split_and!; [done..|]. intros d' j. by rewrite decide_False by lia. }
  destruct (cell_of_ok s key d H) as (row & Hrow & Hlen & Hcell); [lia|]. cbn [add_rows]. rewrite Hcell. cbn [res_bind].
  set (s1 := mkCms _ _ _ _). assert (same_shape s s1) as Hsh by done.
  assert (d < length (cm_table s))%nat as Hdl by (by eapply lookup_lt_Some).
  assert (cm_ok s1) as H1.
  { destruct H as [HA HB HC HD HE]. unfold s1. split; cbn [cm_width cm_depth cm_table cm_seeds];
      [exact HA|exact HB|by rewrite length_insert|exact HD|].
    apply Forall_insert; [exact HE|]. by rewrite length_insert. }
  destruct (IH (S d) s1 H1) as (s' & E & H' & Hsh' & Hv); [cbn [s1 cm_depth]; lia|].
  exists s'. split; [exact E|]. split; [exact H'|]. split; [exact Hsh'|].
  intros d' j. rewrite Hv, (same_shape_slot s s1 key d' Hsh).
  assert (cval s1 d' j = if decide (d' = d /\ j = slot s key d) then u32 (cval s d j + count) else cval s d' j) as Hc1.
  { unfold cval, s1. cbn [cm_table]. destruct (decide (d' = d)) as [->|Hne].
    - rewrite list_lookup_insert_eq, Hrow by done. cbn [mbind option_bind].
      destruct (decide (j = slot s key d)) as [->|Hj].
      + rewrite decide_True by done. rewrite list_lookup_insert_eq by (rewrite Hlen; by apply slot_range).
        unfold cval. rewrite Hrow. done.
      + rewrite decide_False by tauto. by rewrite list_lookup_insert_ne.
    - rewrite list_lookup_insert_ne by done. by rewrite decide_False by tauto. }
  rewrite Hc1. destruct (decide (d' = d)) as [->|Hne].
  - rewrite (decide_False (P := (S d <= d < S d + n)%nat /\ _)) by lia.
    destruct (decide (j = slot s key d)) as [->|].
    + rewrite decide_True by done. by rewrite decide_True by lia.
    + rewrite decide_False by tauto. by rewrite decide_False by tauto.
  - rewrite (decide_False (P := d' = d /\ _)) by tauto.
    destruct (decide (j = slot s key d' /\ (S d <= d' < S d + n)%nat)) as [[-> ?]|].
    + rewrite decide_True by lia. by rewrite decide_True by lia.
    + rewrite decide_False by tauto. rewrite decide_False; [done|]. intros [? ->]. lia.
Qed.

Lemma min_rows_spec n d s key m :
  cm_ok s -> (d + n <= Z.to_nat (cm_depth s))%nat ->
  exists r, min_rows n d s key m = Ok r /\ r <= m /\
    (forall d', (d <= d' < d + n)%nat -> r <= cval s d' (slot s key d')) /\
    (r = m \/ exists d', (d <= d' < d + n)%nat /\ r = cval s d' (slot s key d')).
Proof.
  revert d m. induction n as [|n IH]; intros d m H Hd.
  { exists m. split_and!; [done|lia|intros; lia|by left]. }
  destruct (cell_of_ok s key d H) as (row & _ & _ & Hcell); [lia|]. cbn [min_rows]. rewrite Hcell. cbn [res_bind].
  destruct (IH (S d) (Z.min m (cval s d (slot s key d))) H) as (r & E & Hle & Hall & Hex); [lia|].
  exists r. split_and!; [done|lia| |].
  - intros d' Hd'. destruct (decide (d' = d)) as [->|]; [lia|]. apply Hall. lia.
  - destruct Hex as [->|(d' & Hd' & ->)].
    + destruct (Z.min_spec m (cval s d (slot s key d))) as [[_ ->]|[_ ->]]; [by left|]. right. exists d. split; [lia|done].
    + right. exists d'. split; [lia|done].
Qed.

Lemma cm_new_ok width depth : 0 < width < 2 ^ 32 -> 0 < depth -> cm_ok (cm_new width depth).
Proof.
  intros Hw Hd. split; simpl; try done.
  - by rewrite length_replicate.
  - by rewrite length_fmap, length_seqZ.
  - apply Forall_replicate. by rewrite length_replicate.
Qed.

Lemma cm_reset_ok s : cm_ok s -> cm_ok (cm_Reset s) /\ same_shape s (cm_Reset s) /\ forall d j, cval (cm_Reset s) d j = 0.
Proof.
  intros H. split_and!; [|done|].
  - destruct H. split; simpl; try done; [by rewrite length_fmap|].
    apply Forall_fmap. eapply Forall_impl; [done|]. intros row Hr. simpl. by rewrite length_replicate.
  - intros d j. unfold cval. simpl. rewrite list_lookup_fmap. destruct (cm_table s !! d) as [row|]; [|done].
    simpl. destruct (decide (j < length row)%nat).
    + by rewrite lookup_replicate_2.
    + by rewrite lookup_ge_None_2 by (rewrite length_replicate; lia).
Qed.

(** ** The filter and the window of keys it remembers

    [remembers t ks]: the sketch counts, cell by cell, exactly the keys [ks]
    used since the last reset. *)

Definition hits (s : CountMinSketch) (d j : nat) (ks : list Z) : Z :=
  Z.of_nat (length (filter (fun k => slot s k d = j) ks)).

Record remembers (t : TinyLFU) (ks : list Z) : Prop := {
  re_ok : cm_ok (lfu_cm t);
  re_cells : forall d j, (d < Z.to_nat (cm_depth (lfu_cm t)))%nat -> cval (lfu_cm t) d j = hits (lfu_cm t) d j ks;
  re_total : lfu_total_access t = Z.of_nat (length ks);
  re_thr : 0 <= lfu_reset_threshold t < 2 ^ 32;
  re_short : ks = [] \/ Z.of_nat (length ks) < lfu_reset_threshold t;
}.

(** The specification of one access. *)
Definition recall (threshold : Z) (ks : list Z) (k : Z) : list Z :=
  if threshold <=? Z.of_nat (length ks) + 1 then [] else ks ++ [k].

Lemma hits_snoc s d j ks k : hits s d j (ks ++ [k]) = hits s d j ks + (if decide (slot s k d = j) then 1 else 0).
Proof.
  unfold hits. rewrite filter_app, length_app. rewrite filter_cons, filter_nil.
  destruct (decide (slot s k d = j)); cbn [length]; lia.
Qed.

Lemma hits_bound s d j ks : 0 <= hits s d j ks <= Z.of_nat (length ks).
Proof. unfold hits. pose proof (length_filter (fun k => slot s k d = j) ks). lia. Qed.

Lemma hits_shape s s' d j ks : same_shape s s' -> hits s' d j ks = hits s d j ks.
Proof.
  intros Hs. unfold hits. do 2 f_equal. apply list_filter_iff. intros k. by rewrite (same_shape_slot s s').
Qed.

Lemma access_recall t ks k :
  remembers t ks -> exists t', lfu_Access t k = Ok t' /\ remembers t' (recall (lfu_reset_threshold t) ks k) /\
    lfu_reset_threshold t' = lfu_reset_threshold t.
Proof.
  intros [Hok Hc Ht Hth Hsh]. unfold lfu_Access, cm_Add.
  destruct (add_rows_spec (Z.to_nat (cm_depth (lfu_cm t))) 0 (lfu_cm t) k 1 Hok) as (s' & -> & Hok' & Hshape & Hv); [lia|].
  cbn [res_bind]. assert (Z.of_nat (length ks) < 2 ^ 32) as Hlen by (destruct Hsh as [->|]; simpl; lia).
  assert (u64 (lfu_total_access t + 1) = Z.of_nat (length ks) + 1) as -> by (rewrite Ht; unfold u64; rewrite wrap_small; lia).
  unfold recall. destruct (Z.leb_spec (lfu_reset_threshold t) (Z.of_nat (length ks) + 1)).
  - eexists. split; [reflexivity|]. split; [|done]. destruct (cm_reset_ok s' Hok') as (Hr & Hrs & Hz).
    split; cbn [lfu_cm lfu_total_access lfu_reset_threshold]; [done| |done|done|by left].
    intros d j Hd. by rewrite Hz.
  - eexists. split; [reflexivity|]. split; [|done]. destruct Hshape as (Hw & Hdep & Hse).
    split; cbn [lfu_cm lfu_total_access lfu_reset_threshold]; [done| |rewrite length_app; simpl; lia|done|].
    + intros d j Hd. rewrite Hdep in Hd. rewrite (hits_shape (lfu_cm t)) by done.
      rewrite hits_snoc, Hv, Hc by done. pose proof (hits_bound (lfu_cm t) d j ks).
      destruct (decide (slot (lfu_cm t) k d = j)) as [<-|Hj].
      * rewrite decide_True by (split; [lia|done]). unfold u32. rewrite wrap_small; lia.
      * rewrite decide_False by (intros [_ ->]; done). lia.
    + right. rewrite length_app. simpl. lia.
Qed.

Lemma estimate_bounds t ks k :
  remembers t ks -> exists e, lfu_Estimate t k = Ok e /\
    Z.of_nat (length (filter (fun x => x = k) ks)) <= e <= Z.of_nat (length ks).
Proof.
  intros [Hok Hc Ht Hth Hsh]. unfold lfu_Estimate, cm_Estimate.
  destruct (min_rows_spec (Z.to_nat (cm_depth (lfu_cm t))) 0 (lfu_cm t) k UINT32_MAX Hok) as (e & -> & Hle & Hall & Hex); [lia|].
  exists e. split; [done|].
  assert (Z.of_nat (length ks) < 2 ^ 32) as Hlen by (destruct Hsh as [->|]; simpl; lia).
  assert (forall d, Z.of_nat (length (filter (fun x => x = k) ks)) <= hits (lfu_cm t) d (slot (lfu_cm t) k d) ks) as Hf.
  { intros d. unfold hits. apply inj_le, submseteq_length, sublist_submseteq.
    clear. induction ks as [|x ks IH]; [done|]. rewrite !filter_cons. destruct (decide (x = k)) as [->|].
    - rewrite decide_True by done. by apply sublist_skip.
    - destruct (decide _); [by apply sublist_cons|done]. }
  pose proof (ok_depth _ Hok) as Hd. split.
  - destruct Hex as [->|(d & Hd' & ->)].
    + pose proof (length_filter (fun x => x = k) ks). unfold UINT32_MAX. lia.
    + rewrite Hc by lia. apply Hf.
  - specialize (Hall 0%nat ltac:(lia)). rewrite Hc in Hall by lia. pose proof (hits_bound (lfu_cm t) 0 (slot (lfu_cm t) k 0) ks). lia.
Qed.

Lemma lfu_new_remembers capacity width depth :
  0 < width < 2 ^ 32 -> 0 < depth -> remembers (lfu_new capacity width depth) [].
Proof.
  intros Hw Hd. split; cbn [lfu_new lfu_cm lfu_total_access lfu_reset_threshold]; [by apply cm_new_ok| |done| |by left].
  - intros d j _. unfold cval, cm_new. cbn [cm_table]. destruct (_ !! d) as [row|] eqn:E; [|done].
    apply lookup_replicate in E as [-> _]. cbn [mbind option_bind].
    destruct (replicate _ 0 !! j) as [z|] eqn:E; [|done]. by apply lookup_replicate in E as [-> _].
  - unfold u32. apply wrap_range. lia.
Qed.

(** ** The invariant of the cache

    [in_step m w b p]: the three queues hold the keys of the map, each once, in
    the queue its entry names. *)

Definition tags (w b p : list Z) : list (Z * QueueType) :=
  ((fun k => (k, Window)) <$> w) ++ ((fun k => (k, Probation)) <$> b) ++ ((fun k => (k, Protected)) <$> p).
Definition map_tags (m : gmap Z Entry) : list (Z * QueueType) :=
  (fun ke : Z * Entry => (ke.1, e_queue ke.2)) <$> map_to_list m.
Definition in_step (m : gmap Z Entry) (w b p : list Z) : Prop := tags w b p ≡ₚ map_tags m.

Definition sum_sizes (m : gmap Z Entry) : Z := map_fold (fun _ e s => e_size e + s) 0 m.

Definition entry_ok (k : Z) (e : Entry) : Prop :=
  e_key e = k /\ 0 <= e_size e /\ forall d, e_data e = Some d -> Z.of_nat (length d) = e_size e.

Record cache_wf (c : WTinyLFUCache) : Prop := {
  wf_step : in_step (entries c) (window_queue c) (probation_queue c) (protected_queue c);
  wf_entry : map_Forall entry_ok (entries c);
  wf_size : total_size c = u64 (sum_sizes (entries c));
  wf_lfu : exists ks, remembers (tinylfu c) ks;
  wf_cap : 1 <= protected_capacity c;
}.

(** *** Queues and map *)

Lemma map_tags_insert m k e : m !! k = None -> map_tags (<[k := e]> m) ≡ₚ (k, e_queue e) :: map_tags m.
Proof. intros. unfold map_tags. by rewrite map_to_list_insert. Qed.

Lemma map_tags_delete m k e : m !! k = Some e -> map_tags m ≡ₚ (k, e_queue e) :: map_tags (delete k m).
Proof. intros. unfold map_tags. by rewrite <- (map_to_list_delete m k e) by done. Qed.

Lemma map_tags_update m k e e' :
  m !! k = Some e -> map_tags (<[k := e']> m) ≡ₚ (k, e_queue e') :: map_tags (delete k m).
Proof. intros. rewrite <- insert_delete_eq. apply map_tags_insert, lookup_delete_eq. Qed.

Lemma elem_tags k q w b p :
  (k, q) ∈ tags w b p <-> match q with Window => k ∈ w | Probation => k ∈ b | Protected => k ∈ p end.
Proof.
  unfold tags. rewrite !elem_of_app, !list_elem_of_fmap. destruct q; split.
  all: try (intros [(x & [=] & Hx)|[(x & [=] & Hx)|(x & [=] & Hx)]]; by subst).
  all: eauto 6.
Qed.

Lemma in_step_elem m w b p k e : in_step m w b p -> m !! k = Some e ->
  match e_queue e with Window => k ∈ w | Probation => k ∈ b | Protected => k ∈ p end.
Proof.
  intros Hs Hk. unfold in_step in Hs. apply elem_tags. rewrite Hs. unfold map_tags. apply list_elem_of_fmap.
  exists (k, e). split; [done|]. by apply elem_of_map_to_list.
Qed.

Lemma in_step_lookup m w b p k q : in_step m w b p ->
  match q with Window => k ∈ w | Probation => k ∈ b | Protected => k ∈ p end ->
  exists e, m !! k = Some e /\ e_queue e = q.
Proof.
  intros Hs Hk. unfold in_step in Hs. apply elem_tags in Hk. rewrite Hs in Hk. unfold map_tags in Hk.
  apply list_elem_of_fmap in Hk as ([k' e] & [= -> ->] & Hin). apply elem_of_map_to_list in Hin. eauto.
Qed.

Lemma in_step_length m w b p : in_step m w b p -> size m = (length w + length b + length p)%nat.
Proof.
  intros Hs. apply Permutation_length in Hs. unfold tags, map_tags in Hs.
  rewrite !length_app, !length_fmap, length_map_to_list in Hs. lia.
Qed.

Lemma erase_key_perm k l : k ∈ l -> l ≡ₚ k :: erase_key k l.
Proof.
  induction l as [|x l IH]; intros Hk; [by apply not_elem_of_nil in Hk|]. cbn [erase_key].
  destruct (Z.eqb_spec x k) as [->|Hx]; [done|].
  apply elem_of_cons in Hk as [->|Hk]; [done|]. rewrite (IH Hk) at 1. by rewrite Permutation_swap.
Qed.

#[export] Instance tags_perm : Proper ((≡ₚ) ==> (≡ₚ) ==> (≡ₚ) ==> (≡ₚ)) tags.
Proof. intros w w' Hw b b' Hb p p' Hp. unfold tags. by rewrite Hw, Hb, Hp. Qed.

Lemma tags_window k w b p : tags (k :: w) b p = (k, Window) :: tags w b p.
Proof. done. Qed.
Lemma tags_probation k w b p : tags w (k :: b) p ≡ₚ (k, Probation) :: tags w b p.
Proof. unfold tags. rewrite fmap_cons. simpl. symmetry. apply Permutation_middle. Qed.
Lemma tags_protected k w b p : tags w b (k :: p) ≡ₚ (k, Protected) :: tags w b p.
Proof. unfold tags. rewrite fmap_cons, !app_assoc. symmetry. apply Permutation_middle. Qed.

(** Taking one key out of the queue its entry names, and putting it into a
    queue again. *)
Definition unqueue (q : QueueType) (k : Z) (w b p : list Z) : list Z * list Z * list Z :=
  match q with
  | Window => (erase_key k w, b, p)
  | Probation => (w, erase_key k b, p)
  | Protected => (w, b, erase_key k p)
  end.

Lemma in_step_remove m w b p k e :
  in_step m w b p -> m !! k = Some e ->
  let '(w', b', p') := unqueue (e_queue e) k w b p in in_step (delete k m) w' b' p'.
Proof.
  intros Hs Hk. pose proof (in_step_elem _ _ _ _ _ _ Hs Hk) as Hin. unfold in_step in *.
  rewrite (map_tags_delete m k e Hk) in Hs.
  destruct (e_queue e) eqn:Eq; simpl; apply (Permutation_cons_inv (a := (k, e_queue e))); rewrite Eq, <- Hs.
  - rewrite <- tags_window. by rewrite <- (erase_key_perm k w Hin).
  - rewrite <- tags_probation. by rewrite <- (erase_key_perm k b Hin).
  - rewrite <- tags_protected. by rewrite <- (erase_key_perm k p Hin).
Qed.

Lemma in_step_update m w b p k e e' :
  in_step m w b p -> m !! k = Some e -> e_queue e' = e_queue e -> in_step (<[k := e']> m) w b p.
Proof.
  intros Hs Hk Hq. unfold in_step in *. rewrite Hs, (map_tags_update m k e e' Hk), Hq. by apply map_tags_delete.
Qed.

Lemma in_step_perm m w b p w' b' p' :
  in_step m w b p -> w ≡ₚ w' -> b ≡ₚ b' -> p ≡ₚ p' -> in_step m w' b' p'.
Proof. intros Hs Hw Hb Hp. unfold in_step in *. by rewrite <- Hw, <- Hb, <- Hp. Qed.

(** *** Sizes *)

Lemma sum_insert m k e : m !! k = None -> sum_sizes (<[k := e]> m) = e_size e + sum_sizes m.
Proof. intros. unfold sum_sizes. rewrite map_fold_insert_L; [done|intros; lia|done]. Qed.

Lemma sum_delete m k e : m !! k = Some e -> sum_sizes m = e_size e + sum_sizes (delete k m).
Proof. intros Hk. rewrite <- (insert_delete_id m k e Hk) at 1. apply sum_insert, lookup_delete_eq. Qed.

Lemma sum_update m k e e' : m !! k = Some e -> e_size e' = e_size e -> sum_sizes (<[k := e']> m) = sum_sizes m.
Proof.
  intros Hk He. rewrite <- insert_delete_eq, sum_insert by apply lookup_delete_eq. by rewrite (sum_delete m k e Hk), He.
Qed.

(** *** Eviction *)

Lemma estimate_small t ks k : remembers t ks -> exists f, lfu_Estimate t k = Ok f /\ 0 <= f < UINT32_MAX.
Proof.
  intros H. destruct (estimate_bounds t ks k H) as (f & E & Hf). exists f. split; [done|].
  pose proof (re_thr _ _ H). destruct (re_short _ _ H) as [->|]; unfold UINT32_MAX; simpl in *; lia.
Qed.

Lemma scan_probation_spec n i t ks q m best :
  remembers t ks ->
  exists r, scan_probation n i t q m best = Ok r /\
    (r = best \/ exists k j, r = Some (k, (i + j)%nat) /\ q !! j = Some k) /\
    (m = UINT32_MAX -> best = None -> n <> 0%nat -> q <> [] -> r <> None).
Proof.
  intros Ht. revert i q m best. induction n as [|n IH]; intros i q m best; [by exists best; split_and!; [|left|]|].
  destruct q as [|k q]; [by exists best; split_and!; [|left|]|]. cbn [scan_probation].
  destruct (estimate_small t ks k Ht) as (f & -> & Hf). cbn [res_bind].
  destruct (Z.ltb_spec f m) as [Hlt|Hge].
  - destruct (f =? 0).
    { exists (Some (k, i)). split; [done|]. split; [|done]. right. exists k, 0%nat. by rewrite Nat.add_0_r. }
    destruct (IH (S i) q f (Some (k, i))) as (r & E & Hr & _). exists r. split; [done|]. split.
    + right. destruct Hr as [->|(k' & j & -> & Hj)].
      * exists k, 0%nat. by rewrite Nat.add_0_r.
      * exists k', (S j). by rewrite Nat.add_succ_r.
    + intros _ _ _ _. by destruct Hr as [->|(? & ? & -> & _)].
  - destruct (IH (S i) q m best) as (r & E & Hr & _). exists r. split; [done|]. split; [|unfold UINT32_MAX in *; lia].
    destruct Hr as [->|(k' & j & -> & Hj)]; [by left|]. right. exists k', (S j). by rewrite Nat.add_succ_r.
Qed.

Lemma in_step_empty_iff m w b p : in_step m w b p -> (m = ∅ <-> w = [] /\ b = [] /\ p = []).
Proof.
  intros Hs. apply in_step_length in Hs. rewrite <- map_size_empty_iff, Hs. split.
  - intros Hz. destruct w, b, p; simpl in Hz; try lia. done.
  - by intros (-> & -> & ->).
Qed.

Lemma pick_victim_spec c : cache_wf c ->
  if decide (entries c = ∅) then pick_victim c = Ok None
  else exists k e w b p, pick_victim c = Ok (Some (k, with_queues c w b p)) /\ entries c !! k = Some e /\
         in_step (delete k (entries c)) w b p /\
         (window_queue c <> [] -> window_queue c = k :: w /\ b = probation_queue c /\ p = protected_queue c).
Proof.
  intros [Hs _ _ [ks Hks] _]. unfold pick_victim. pose proof (in_step_empty_iff _ _ _ _ Hs) as Hemp.
  destruct (decide (entries c = ∅)) as [He|He].
  { apply Hemp in He as (-> & -> & ->). done. }
  destruct (window_queue c) as [|k w] eqn:Ew.
  2: { destruct (in_step_lookup _ _ _ _ k Window Hs) as (e & Hk & Hq); [left|].
       exists k, e, w, (probation_queue c), (protected_queue c). split_and!; [done..| |done].
       pose proof (in_step_remove _ _ _ _ k e Hs Hk) as Hr. rewrite Hq in Hr. simpl in Hr.
       by rewrite Z.eqb_refl in Hr. }
  destruct (probation_queue c) as [|k0 b0] eqn:Eb.
  - destruct (protected_queue c) as [|k p] eqn:Ep; [by exfalso; apply He, Hemp|].
    destruct (in_step_lookup _ _ _ _ k Protected Hs) as (e & Hk & Hq); [left|].
    exists k, e, [], [], p. split_and!; [done..| |done].
    pose proof (in_step_remove _ _ _ _ k e Hs Hk) as Hr. rewrite Hq in Hr. simpl in Hr.
    by rewrite Z.eqb_refl in Hr.
  - destruct (scan_probation_spec 16 0 (tinylfu c) ks (k0 :: b0) UINT32_MAX None Hks) as (r & -> & Hr & Hne).
    specialize (Hne eq_refl eq_refl ltac:(done) ltac:(done)). cbn [res_bind].
    destruct Hr as [->|(k & j & -> & Hj)]; [done|]. rewrite Nat.add_0_l.
    assert (k ∈ k0 :: b0) as Hin by (by eapply list_elem_of_lookup_2).
    destruct (in_step_lookup _ _ _ _ k Probation Hs) as (e & Hk & Hq); [done|].
    exists k, e, [], (delete j (k0 :: b0)), (protected_queue c). split_and!; [done..| |done].
    pose proof (in_step_remove _ _ _ _ k e Hs Hk) as Hr. rewrite Hq in Hr. simpl in Hr.
    eapply in_step_perm; [exact Hr|done| |done]. apply (Permutation_cons_inv (a := k)).
    rewrite <- (delete_Permutation _ _ _ Hj). symmetry. by apply (erase_key_perm k (k0 :: b0)).
Qed.

(** What an eviction leaves alone. *)
Definition same_settings (c c' : WTinyLFUCache) : Prop :=
  total_capacity c' = total_capacity c /\ protected_capacity c' = protected_capacity c /\
  tinylfu c' = tinylfu c /\ hit_count c' = hit_count c /\ miss_count c' = miss_count c /\ insert_count c' = insert_count c.

Lemma u64_sub_mod a b : u64 (u64 a - b) = u64 (a - b).
Proof. unfold u64. apply wrap_sub_l. Qed.

Lemma u64_add_mod a b : u64 (u64 a + b) = u64 (a + b).
Proof. unfold u64. apply wrap_add_l. Qed.

Lemma EvictOne_spec c : cache_wf c ->
  if decide (entries c = ∅) then EvictOne c = Ok (false, c)
  else exists k e c', EvictOne c = Ok (true, c') /\ cache_wf c' /\ same_settings c c' /\
         entries c !! k = Some e /\ entries c' = delete k (entries c) /\
         (window_queue c <> [] -> window_queue c = k :: window_queue c' /\
            probation_queue c' = probation_queue c /\ protected_queue c' = protected_queue c).
Proof.
  intros Hwf. pose proof (pick_victim_spec c Hwf) as Hp. unfold EvictOne.
  destruct (decide (entries c = ∅)); [by rewrite Hp|].
  destruct Hp as (k & e & w & b & p & -> & Hk & Hs & Hw). cbn [res_bind entries with_queues]. rewrite Hk.
  destruct Hwf as [_ He Hsz Hl Hcap].
  exists k, e. eexists. split; [reflexivity|]. split_and!; try done.
  split; cbn [entries with_entries window_queue probation_queue protected_queue with_counts with_queues total_size tinylfu
              protected_capacity]; try done.
  - by apply map_Forall_delete.
  - rewrite Hsz, u64_sub_mod. f_equal. rewrite (sum_delete _ _ _ Hk). lia.
Qed.

Lemma evict_loop_spec fuel c :
  cache_wf c -> (size (entries c) < fuel)%nat ->
  exists c', evict_loop fuel c = Ok c' /\ cache_wf c' /\ same_settings c c' /\ entries c' ⊆ entries c /\
    (Z.of_nat (size (entries c')) < total_capacity c \/ entries c' = ∅).
Proof.
  revert c. induction fuel as [|n IH]; intros c Hwf Hf; [lia|]. cbn [evict_loop].
  destruct (Z.ltb_spec (Z.of_nat (size (entries c))) (total_capacity c)) as [Hlt|Hge].
  { exists c. split_and!; try done. by left. }
  pose proof (EvictOne_spec c Hwf) as He. destruct (decide (entries c = ∅)) as [Hemp|Hne].
  { rewrite He. exists c. cbn [res_bind]. split_and!; try done. by right. }
  destruct He as (k & e & c1 & -> & Hwf1 & Hset & Hk & Hent & _). cbn [res_bind].
  assert (size (entries c1) < size (entries c))%nat as Hsz.
  { rewrite Hent, map_size_delete_Some by eauto. assert (size (entries c) <> 0%nat) by (by rewrite map_size_empty_iff). lia. }
  destruct (IH c1 Hwf1) as (c2 & E & Hwf2 & Hset2 & Hsub & Hend); [lia|].
  exists c2. split_and!; try done.
  - unfold same_settings in *. intuition congruence.
  - rewrite Hsub, Hent. apply delete_subseteq.
  - destruct Hset as [Hc _]. by rewrite <- Hc.
Qed.

(** *** Put *)

(** The caller's obligation: [data] has [sz] bytes, and is not null when an
    existing block is overwritten. *)
Definition put_args (c : WTinyLFUCache) (key : Z) (data : option (list Z)) (sz : Z) : Prop :=
  0 <= sz /\ (forall d, data = Some d -> sz <= Z.of_nat (length d)) /\ (0 < sz -> is_Some data \/ entries c !! key = None).

Definition new_block (data : option (list Z)) (sz : Z) (alloc : bool) : option (list Z) :=
  match data with Some d => if (0 <? sz) && alloc then Some (take (Z.to_nat sz) d) else None | None => None end.

Lemma Put_new c key data sz alloc :
  cache_wf c -> entries c !! key = None -> put_args c key data sz ->
  exists c1 c', evict_loop (S (length (queued c))) c = Ok c1 /\ Put c key data sz alloc = Ok (true, c') /\ cache_wf c' /\
    entries c1 !! key = None /\ entries c' = <[key := mkEntry key (new_block data sz alloc) sz Window]> (entries c1) /\
    window_queue c' = window_queue c1 ++ [key] /\ probation_queue c' = probation_queue c1 /\
    protected_queue c' = protected_queue c1 /\ total_capacity c' = total_capacity c /\
    (Z.of_nat (size (entries c1)) < total_capacity c \/ entries c1 = ∅).
Proof.
  intros Hwf Hk (Hsz & Hd & _). unfold Put. rewrite Hk.
  destruct (evict_loop_spec (S (length (queued c))) c Hwf) as (c1 & E & Hwf1 & Hset & Hsub & Hend).
  { unfold queued. rewrite !length_app. pose proof (in_step_length _ _ _ _ (wf_step c Hwf)). lia. }
  rewrite E. cbn [res_bind].
  assert (match data with
          | Some src => if (0 <? sz) && alloc then let* bs := rd_bytes src 0 sz in Ok (Some bs) else Ok None
          | None => Ok None end = Ok (new_block data sz alloc)) as Hb.
  { unfold new_block. destruct data as [d|]; [|done]. destruct ((0 <? sz) && alloc); [|done].
    specialize (Hd d eq_refl). by rewrite rd_bytes_ok by lia. }
  rewrite Hb. cbn [res_bind tinylfu with_counts with_queues with_entries].
  destruct (wf_lfu c1 Hwf1) as [ks Hks]. destruct (access_recall _ ks key Hks) as (t & -> & Ht & _). cbn [res_bind].
  assert (entries c1 !! key = None) as Hk1.
  { destruct (entries c1 !! key) as [e|] eqn:Ee; [|done]. by rewrite (lookup_weaken _ _ _ _ Ee Hsub) in Hk. }
  exists c1. eexists. split_and!; try done; [|by destruct Hset].
  destruct Hwf1 as [Hs1 He1 Hsz1 _ Hcap1].
  split; cbn [entries with_entries window_queue probation_queue protected_queue with_counts with_queues total_size tinylfu
              protected_capacity with_lfu]; try done.
  - unfold in_step in *. rewrite map_tags_insert by done. cbn [e_queue].
    rewrite (Permutation_app_comm (window_queue c1) [key]). simpl. rewrite tags_window. by rewrite Hs1.
  - apply map_Forall_insert_2; [|done]. split; [done|]. split; [done|]. cbn [e_data e_size]. intros d Hnd.
    unfold new_block in Hnd. destruct data as [d0|]; [|done]. destruct ((0 <? sz) && alloc) eqn:Ez; [|done].
    injection Hnd as <-. specialize (Hd d0 eq_refl). rewrite length_take. lia.
  - rewrite Hsz1, u64_add_mod. f_equal. rewrite sum_insert by done. cbn [e_size]. lia.
  - eauto.
Qed.

Lemma Put_old c key data sz alloc e :
  cache_wf c -> entries c !! key = Some e -> put_args c key data sz ->
  exists c' e', Put c key data sz alloc = Ok (true, c') /\ cache_wf c' /\ entries c' = <[key := e']> (entries c) /\
    e_size e' = e_size e /\ e_queue e' = e_queue e /\ total_capacity c' = total_capacity c /\
    window_queue c' = window_queue c /\ probation_queue c' = probation_queue c /\
    protected_queue c' = protected_queue c /\
    e_data e' = match e_data e, data with
                | Some old, Some d => if 0 <? sz then let n := Z.to_nat (Z.min sz (e_size e)) in
                                        Some (take n d ++ drop n old) else Some old
                | o, _ => o end.
Proof.
  intros Hwf Hk (Hsz & Hd & Hnull). unfold Put. rewrite Hk. pose proof Hwf as [Hs He Hts [ks Hks] Hcap].
  destruct (access_recall _ ks key Hks) as (t & -> & Ht & _). cbn [res_bind].
  pose proof (map_Forall_lookup_1 _ _ _ _ He Hk) as Heok. pose proof Heok as (Hek & Hes & Hed).
  assert (forall e', e_size e' = e_size e -> e_queue e' = e_queue e -> entry_ok key e' ->
    cache_wf (with_entries (with_lfu c t) (<[key := e']> (entries c)))) as Hup.
  { intros e' H1 H2 H3. split; cbn [entries with_entries window_queue probation_queue protected_queue total_size tinylfu
      protected_capacity with_lfu]; try done; [by eapply in_step_update|by apply map_Forall_insert_2| |eauto].
    by rewrite Hts, (sum_update _ _ e). }
  assert (with_lfu c t = with_entries (with_lfu c t) (<[key := e]> (entries c))) as Hsame.
  { unfold with_entries, with_lfu. cbn. by rewrite insert_id. }
  destruct (e_data e) as [old|] eqn:Eold.
  - specialize (Hed old eq_refl). destruct (Z.ltb_spec 0 sz) as [Hpos|].
    + destruct (Hnull Hpos) as [[d ->]|]; [|congruence]. specialize (Hd d eq_refl). cbn [of_opt res_bind].
      rewrite rd_bytes_ok by lia. cbn [res_bind]. change (Z.to_nat 0) with 0%nat. rewrite drop_0.
      set (n := Z.to_nat (Z.min sz (e_size e))).
      rewrite wr_ok by (rewrite ?length_take; lia). cbn [res_bind]. unfold copy_at. change (Z.to_nat 0) with 0%nat.
      rewrite take_0. cbn [app]. rewrite length_take, (Nat.min_l n) by lia. cbn [Nat.add].
      eexists _, (mkEntry (e_key e) (Some (take n d ++ drop n old)) (e_size e) (e_queue e)).
      split; [reflexivity|]. split_and!; try done. apply Hup; [done..|]. split; [done|]. split; [done|].
      cbn [e_data e_size]. intros x [= <-]. rewrite length_app, length_take, length_drop. lia.
    + eexists _, e. split; [reflexivity|]. rewrite Hsame. split_and!; try done. { by apply Hup. }
      rewrite Eold. by destruct data.
  - eexists _, e. split; [reflexivity|]. rewrite Hsame. split_and!; try done. by apply Hup.
Qed.

(** *** Get *)

(** The contents of the cache, apart from the queues. *)
Definition contents (c : WTinyLFUCache) (k : Z) : option (option (list Z) * Z) :=
  (fun e => (e_data e, e_size e)) <$> entries c !! k.

Lemma contents_requeue (m : gmap Z Entry) (k : Z) (e : Entry) (q : QueueType) (k' : Z) :
  m !! k = Some e ->
  (fun e => (e_data e, e_size e)) <$> (<[k := set_queue e q]> m) !! k' = (fun e => (e_data e, e_size e)) <$> m !! k'.
Proof.
  intros Hk. destruct (decide (k' = k)) as [->|]; [|by rewrite lookup_insert_ne].
  by rewrite lookup_insert_eq, Hk.
Qed.

(** The state inside the demotion loop: [key] is in the map but in no queue. *)
Record demoting (key : Z) (ek : Entry) (c : WTinyLFUCache) : Prop := {
  dm_step : in_step (delete key (entries c)) (window_queue c) (probation_queue c) (protected_queue c);
  dm_key : entries c !! key = Some ek;
  dm_entry : map_Forall entry_ok (entries c);
  dm_size : total_size c = u64 (sum_sizes (entries c));
  dm_cap : 1 <= protected_capacity c;
}.

Lemma demote_one key ek c d p e :
  demoting key ek c -> protected_queue c = d :: p -> entries c !! d = Some e ->
  demoting key ek (with_queues (with_entries c (<[d := set_queue e Probation]> (entries c)))
                     (window_queue c) (probation_queue c ++ [d]) p).
Proof.
  intros [Hs Hk He Hsz Hcap] Hp Hd.
  destruct (in_step_lookup _ _ _ _ d Protected Hs) as (e' & Hd' & Hq); [rewrite Hp; left|].
  assert (d <> key) as Hne by (intros ->; by rewrite lookup_delete_eq in Hd').
  rewrite lookup_delete_ne in Hd' by done. rewrite Hd in Hd'. injection Hd' as <-.
  split; cbn [entries with_entries window_queue probation_queue protected_queue with_queues total_size protected_capacity]; try done.
  - rewrite delete_insert_ne by done. rewrite Hp in Hs. unfold in_step in *.
    rewrite (map_tags_update _ d e) by (by rewrite lookup_delete_ne). cbn [set_queue e_queue].
    rewrite (Permutation_app_comm (probation_queue c) [d]). simpl. rewrite tags_probation.
    apply Permutation_cons; [done|]. apply (Permutation_cons_inv (a := (d, Protected))).
    rewrite <- tags_protected, Hs. rewrite (map_tags_delete _ d e) by (by rewrite lookup_delete_ne). by rewrite Hq.
  - by rewrite lookup_insert_ne.
  - apply map_Forall_insert_2; [|done]. by apply (map_Forall_lookup_1 _ _ _ _ He Hd).
  - by rewrite Hsz, (sum_update _ _ e).
Qed.

Lemma demote_loop_spec key ek fuel c :
  demoting key ek c -> (length (protected_queue c) < fuel)%nat ->
  exists c', demote_loop fuel c = Ok c' /\ demoting key ek c' /\ tinylfu c' = tinylfu c /\
    total_capacity c' = total_capacity c /\ window_queue c' = window_queue c /\
    Z.of_nat (length (protected_queue c')) < protected_capacity c' /\ forall k, contents c' k = contents c k.
Proof.
  revert c. induction fuel as [|n IH]; intros c Hd Hf; [lia|]. cbn [demote_loop].
  destruct (Z.ltb_spec (Z.of_nat (length (protected_queue c))) (protected_capacity c)) as [Hlt|Hge].
  { exists c. by split_and!. }
  destruct (protected_queue c) as [|d p] eqn:Ep; [pose proof (dm_cap _ _ _ Hd); simpl in *; lia|].
  destruct (in_step_lookup _ _ _ _ d Protected (dm_step _ _ _ Hd)) as (e & He & _); [rewrite Ep; left|].
  apply lookup_delete_Some in He as [_ He]. rewrite He.
  destruct (IH _ (demote_one key ek c d p e Hd Ep He)) as (c' & E & Hd' & Ht & Hc & Hw & Hl & Hcont);
    [simpl in *; lia|].
  exists c'. split_and!; try done. intros k. rewrite Hcont. unfold contents. simpl. by apply contents_requeue.
Qed.

Lemma Get_hit c key buffer n e :
  cache_wf c -> entries c !! key = Some e ->
  exists c', Get c key buffer n =
      Ok (true, e_size e, if buffer && (e_size e <=? n) then e_data e else None, c') /\
    cache_wf c' /\ (forall k, contents c' k = contents c k) /\ total_capacity c' = total_capacity c /\
    window_queue c' = window_queue c /\
    (e_queue e <> Probation -> entries c' = entries c /\ probation_queue c' = probation_queue c /\
       protected_queue c' = protected_queue c).
Proof.
  intros Hwf Hk. pose proof Hwf as [Hs He Hts [ks Hks] Hcap]. unfold Get. rewrite Hk.
  destruct (access_recall _ ks key Hks) as (t & -> & Ht & _). cbn [res_bind].
  pose proof (map_Forall_lookup_1 _ _ _ _ He Hk) as (Hek & Hes & Hed).
  match goal with |- context [res_bind ?x _] => assert (x = Ok (if buffer && (e_size e <=? n) then e_data e else None)) as -> end.
  { destruct (e_data e) as [d|]; [|by destruct (buffer && _)]. destruct (buffer && _); [|done].
    specialize (Hed d eq_refl). rewrite rd_bytes_ok by lia. rewrite <- Hed, Nat2Z.id. simpl. by rewrite firstn_all. }
  cbn [res_bind]. case_bool_decide as Hq.
  - set (c1 := with_entries _ _).
    assert (demoting key (set_queue e Protected) c1) as Hdm.
    { split; cbn [c1 entries with_entries window_queue probation_queue protected_queue with_queues total_size
                  protected_capacity with_counts with_lfu]; try done.
      - rewrite delete_insert_eq. pose proof (in_step_remove _ _ _ _ key e Hs Hk) as Hr. by rewrite Hq in Hr.
      - apply lookup_insert_eq.
      - apply map_Forall_insert_2; [|done]. by apply (map_Forall_lookup_1 _ _ _ _ He Hk).
      - by rewrite Hts, (sum_update _ _ e). }
    destruct (demote_loop_spec key _ (S (length (protected_queue c1))) c1 Hdm) as (c2 & -> & Hd2 & Ht2 & Hc2 & Hw2 & _ & Hcont);
      [lia|]. cbn [res_bind]. eexists. split; [reflexivity|]. split_and!; [|..|done|done|done].
    + destruct Hd2 as [Hs2 Hk2 He2 Hsz2 Hcap2].
      split; cbn [entries with_entries window_queue probation_queue protected_queue with_queues total_size tinylfu
                  protected_capacity]; try done.
      * unfold in_step in *. rewrite (map_tags_delete _ _ _ Hk2). cbn [set_queue e_queue]. rewrite <- Hs2.
        rewrite (Permutation_app_comm (protected_queue c2) [key]). simpl. apply tags_protected.
      * rewrite Ht2. exists (recall (lfu_reset_threshold (tinylfu c)) ks key). done.
    + intros k. unfold contents in *. simpl in *. rewrite Hcont. by apply contents_requeue.
  - eexists. split; [reflexivity|]. split_and!; try done.
    split; cbn [entries with_entries window_queue probation_queue protected_queue with_queues total_size tinylfu
                protected_capacity with_counts with_lfu]; try done. eauto.
Qed.

Lemma Get_miss c key buffer n :
  cache_wf c -> entries c !! key = None ->
  exists c', Get c key buffer n = Ok (false, 0, None, c') /\ cache_wf c' /\ entries c' = entries c /\
    total_capacity c' = total_capacity c /\ window_queue c' = window_queue c /\
    probation_queue c' = probation_queue c /\ protected_queue c' = protected_queue c.
Proof.
  intros [Hs He Hts Hl Hcap] Hk. unfold Get. rewrite Hk. eexists. split; [reflexivity|]. split_and!; done.
Qed.

Lemma Remove_spec c key : cache_wf c ->
  (Remove c key).1 = Contains c key /\ cache_wf (Remove c key).2 /\
  entries (Remove c key).2 = delete key (entries c) /\ total_capacity (Remove c key).2 = total_capacity c.
Proof.
  intros Hwf. pose proof Hwf as [Hs He Hts Hl Hcap]. unfold Remove, Contains.
  destruct (entries c !! key) as [e|] eqn:Hk; cbn [fst snd].
  2: { rewrite bool_decide_eq_false_2 by (by intros []). split_and!; [done..| |done]. by rewrite delete_id. }
  rewrite bool_decide_eq_true_2 by eauto. pose proof (in_step_remove _ _ _ _ key e Hs Hk) as Hr.
  split_and!; [done| | |by destruct (e_queue e)]; [|by destruct (e_queue e)].
  assert (u64 (total_size c - e_size e) = u64 (sum_sizes (delete key (entries c)))) as Hsum.
  { rewrite Hts, u64_sub_mod. f_equal. rewrite (sum_delete _ _ _ Hk). lia. }
  destruct (e_queue e); (split; cbn; [exact Hr|by apply map_Forall_delete|exact Hsum|done|done]).
Qed.

Lemma in_step_empty : in_step ∅ [] [] [].
Proof. unfold in_step, map_tags. by rewrite map_to_list_empty. Qed.

Lemma u64_sum_empty : 0 = u64 (sum_sizes ∅).
Proof. unfold sum_sizes. by rewrite map_fold_empty. Qed.

Lemma Clear_wf c : cache_wf c -> cache_wf (Clear c) /\ entries (Clear c) = ∅.
Proof.
  intros [Hs He Hts Hl Hcap]. split; [|done]. split; [apply in_step_empty|apply map_Forall_empty|apply u64_sum_empty|done..].
Qed.

Lemma cache_new_wf capacity wr pr : cache_wf (WTinyLFUCache_new capacity wr pr).
Proof.
  split; cbn [WTinyLFUCache_new entries window_queue probation_queue protected_queue total_size tinylfu protected_capacity].
  - apply in_step_empty.
  - apply map_Forall_empty.
  - apply u64_sum_empty.
  - exists []. apply lfu_new_remembers; lia.
  - unfold at_least_1. assert (0 <= u32 (capacity * pr)) by (unfold u32; apply wrap_range; lia).
    destruct (Z.eqb_spec (u32 (capacity * pr) / 100) 0); [lia|]. Z.div_mod_to_equations. lia.
Qed.

(** ** Sequences of operations *)

Inductive cache_op : Type :=
| OpPut (key : Z) (data : list Z) (sz : Z) (alloc : bool)
| OpGet (key : Z) (buffer : bool) (buffer_size : Z)
| OpRemove (key : Z)
| OpClear
| OpResetStats.

Definition op_args (o : cache_op) : Prop :=
  match o with OpPut _ d sz _ => 0 <= sz <= Z.of_nat (length d) | _ => True end.

Definition run_op (c : WTinyLFUCache) (o : cache_op) : res WTinyLFUCache :=
  match o with
  | OpPut k d sz alloc => let* (_, c') := Put c k (Some d) sz alloc in Ok c'
  | OpGet k b n => let* (_, _, _, c') := Get c k b n in Ok c'
  | OpRemove k => Ok (Remove c k).2
  | OpClear => Ok (Clear c)
  | OpResetStats => Ok (ResetStats c)
  end.
Fixpoint run_ops (c : WTinyLFUCache) (os : list cache_op) : res WTinyLFUCache :=
  match os with
  | [] => Ok c
  | o :: r => let* c' := run_op c o in run_ops c' r
  end.

(** The specification: a first-in first-out queue of keys. *)
Definition fifo_op (cap : Z) (ks : list Z) (o : cache_op) : list Z :=
  match o with
  | OpPut k _ _ _ => if decide (k ∈ ks) then ks else drop (Z.to_nat (Z.of_nat (length ks) + 1 - cap)) ks ++ [k]
  | OpRemove k => erase_key k ks
  | OpClear => []
  | OpGet _ _ _ | OpResetStats => ks
  end.

(** The invariant of every reachable state. *)
Record reachable_inv (cap : Z) (ks : list Z) (c : WTinyLFUCache) : Prop := {
  ri_wf : cache_wf c;
  ri_cap : total_capacity c = cap;
  ri_window : window_queue c = ks;
  ri_probation : probation_queue c = [];
  ri_protected : protected_queue c = [];
  ri_bound : Z.of_nat (length ks) <= Z.max 1 cap;
}.

Lemma ri_size cap ks c : reachable_inv cap ks c -> size (entries c) = length ks.
Proof.
  intros [Hwf _ Hw Hb Hp _]. pose proof (in_step_length _ _ _ _ (wf_step c Hwf)) as Hl.
  rewrite Hw, Hb, Hp in Hl. simpl in Hl. lia.
Qed.

Lemma ri_elem cap ks c k : reachable_inv cap ks c -> (k ∈ ks <-> is_Some (entries c !! k)).
Proof.
  intros [Hwf _ Hw Hb Hp _]. pose proof (wf_step c Hwf) as Hs. rewrite Hw, Hb, Hp in Hs. split.
  - intros Hk. destruct (in_step_lookup _ _ _ _ k Window Hs Hk) as (e & He & _). eauto.
  - intros [e He]. pose proof (in_step_elem _ _ _ _ _ _ Hs He) as Hq. destruct (e_queue e); [done|..];
      by apply not_elem_of_nil in Hq.
Qed.

Lemma evict_loop_fifo fuel cap ks c :
  reachable_inv cap ks c -> 0 <= cap -> (length ks < fuel)%nat ->
  exists c', evict_loop fuel c = Ok c' /\ reachable_inv cap (drop (Z.to_nat (Z.of_nat (length ks) + 1 - cap)) ks) c'.
Proof.
  intros Hri Hcap. revert ks c Hri. induction fuel as [|n IH]; intros ks c Hri Hf; [lia|]. cbn [evict_loop].
  rewrite (ri_cap _ _ _ Hri), (ri_size _ _ _ Hri). destruct (Z.ltb_spec (Z.of_nat (length ks)) cap).
  { exists c. split; [done|]. replace (Z.to_nat (Z.of_nat (length ks) + 1 - cap)) with 0%nat by lia. by rewrite drop_0. }
  pose proof (EvictOne_spec c (ri_wf _ _ _ Hri)) as He. pose proof (ri_size _ _ _ Hri) as Hsz.
  destruct (decide (entries c = ∅)) as [Hemp|Hne].
  - rewrite He. cbn [res_bind]. exists c. split; [done|]. rewrite Hemp, map_size_empty in Hsz.
    destruct ks; [|simpl in Hsz; lia]. by rewrite drop_nil.
  - destruct He as (k & e & c1 & -> & Hwf1 & Hset & Hk & Hent & Hw). cbn [res_bind].
    destruct Hri as [Hwf Hc Hwin Hb Hp Hbd]. destruct ks as [|k0 ks].
    { exfalso. apply Hne, map_size_empty_iff. simpl in Hsz. lia. }
    rewrite Hwin in Hw. destruct (Hw ltac:(done)) as ([= -> Hw1] & Hb1 & Hp1).
    destruct (IH ks c1) as (c' & E & Hri'); [|simpl in Hf; lia|].
    { split; try done; try congruence; [destruct Hset; congruence|]. simpl in Hbd. lia. }
    exists c'. split; [done|].
    replace (Z.to_nat (Z.of_nat (length (k :: ks)) + 1 - cap)) with (S (Z.to_nat (Z.of_nat (length ks) + 1 - cap)))
      by (simpl in *; lia). done.
Qed.

Lemma run_op_fifo cap ks c o :
  reachable_inv cap ks c -> 0 <= cap -> op_args o ->
  exists c', run_op c o = Ok c' /\ reachable_inv cap (fifo_op cap ks o) c'.
Proof.
  intros Hri Hcap Ho. pose proof Hri as [Hwf Hc Hw Hb Hp Hbd]. destruct o as [k d sz alloc|k b n|k| |]; cbn [run_op fifo_op].
  - pose proof (ri_elem _ _ _ k Hri) as Hel. simpl in Ho.
    assert (put_args c k (Some d) sz) as Hpa.
    { split; [lia|]. split; [intros d0 [= <-]; lia|eauto]. }
    destruct (decide (k ∈ ks)) as [Hin|Hnin].
    + destruct (proj1 Hel Hin) as [e He].
      destruct (Put_old c k (Some d) sz alloc e Hwf He Hpa) as (c' & e' & -> & Hwf' & _ & _ & _ & Hc' & Hw' & Hb' & Hp' & _).
      cbn [res_bind]. exists c'. split; [done|]. split; congruence.
    + destruct (entries c !! k) as [e|] eqn:He; [exfalso; apply Hnin, Hel; eauto|].
      destruct (Put_new c k (Some d) sz alloc Hwf He Hpa) as (c1 & c' & E & -> & Hwf' & _ & _ & Hw' & Hb' & Hp' & Hc' & Hend).
      cbn [res_bind]. exists c'. split; [done|].
      destruct (evict_loop_fifo (S (length (queued c))) cap ks c Hri Hcap) as (c2 & E2 & Hri2).
      { unfold queued. rewrite Hw, length_app. lia. }
      rewrite E in E2. injection E2 as <-. pose proof (ri_size _ _ _ Hri2) as Hsz2. destruct Hri2 as [_ _ Hw2 Hb2 Hp2 _].
      split; try congruence. rewrite length_app, <- Hsz2. simpl.
      destruct Hend as [Hlt| ->]; [lia|]. rewrite map_size_empty. lia.
  - destruct (entries c !! k) as [e|] eqn:He.
    + destruct (Get_hit c k b n e Hwf He) as (c' & -> & Hwf' & _ & Hc' & Hw' & Hrest). cbn [res_bind].
      exists c'. split; [done|]. destruct Hrest as (_ & Hb' & Hp'); [|split; congruence].
      intros Hq. pose proof (in_step_elem _ _ _ _ _ _ (wf_step c Hwf) He) as Hin. rewrite Hq, Hb in Hin.
      by apply not_elem_of_nil in Hin.
    + destruct (Get_miss c k b n Hwf He) as (c' & -> & Hwf' & _ & Hc' & Hw' & Hb' & Hp'). cbn [res_bind].
      exists c'. split; [done|]. split; congruence.
  - eexists. split; [reflexivity|]. destruct (Remove_spec c k Hwf) as (_ & Hwf' & Hent & Hc').
    assert (length (erase_key k ks) <= length ks)%nat as Hlen.
    { clear. induction ks as [|x l IH]; simpl; [lia|]. destruct (x =? k); simpl; lia. }
    unfold Remove in *. destruct (entries c !! k) as [e|] eqn:He.
    + pose proof (in_step_elem _ _ _ _ _ _ (wf_step c Hwf) He) as Hin.
      destruct (e_queue e) eqn:Hq; [|rewrite Hb in Hin; by apply not_elem_of_nil in Hin|rewrite Hp in Hin; by apply not_elem_of_nil in Hin].
      cbn in *. split; cbn; try done; [by rewrite Hw|lia].
    + split; try done; [|lia]. cbn. rewrite Hw. symmetry.
      assert (k ∉ ks) as Hn by (rewrite (ri_elem _ _ _ k Hri), He; by intros []).
      clear -Hn. induction ks as [|x l IH]; [done|]. simpl. apply not_elem_of_cons in Hn as [Hx Hn].
      destruct (Z.eqb_spec x k); [congruence|]. by rewrite IH.
  - eexists. split; [reflexivity|]. destruct (Clear_wf c Hwf). split; try done. simpl. lia.
  - eexists. split; [reflexivity|]. split; try done. destruct Hwf as [? ? ? ? ?]. by split.
Qed.

Lemma run_ops_fifo cap os ks c :
  reachable_inv cap ks c -> 0 <= cap -> Forall op_args os ->
  exists c', run_ops c os = Ok c' /\ reachable_inv cap (foldl (fifo_op cap) ks os) c'.
Proof.
  intros Hri Hcap Hos. revert ks c Hri. induction Hos as [|o os Ho Hos IH]; intros ks c Hri; [by exists c|].
  destruct (run_op_fifo cap ks c o Hri Hcap Ho) as (c1 & E & Hri1). cbn [run_ops foldl]. rewrite E. cbn [res_bind].
  by apply IH.
Qed.

Lemma reachable_new cap wr pr : 0 <= cap -> reachable_inv cap [] (WTinyLFUCache_new cap wr pr).
Proof. intros. split; try done; [apply cache_new_wf|simpl; lia]. Qed.

(** ** Properties *)

(** C10. Every operation of the cache, in every state in which the queues and the
    hash table agree, returns (no index leaves a vector, no loop runs on) and
    leaves a state in which they agree: each key is in exactly the queue its
    entry names, the size counter is the sum of the sizes, and the number of
    entries stays within the capacity (one entry when the capacity is 0). *)
Theorem tinylfu_invariant c o :
  cache_wf c -> op_args o -> Z.of_nat (size (entries c)) <= Z.max 1 (total_capacity c) ->
  exists c', run_op c o = Ok c' /\ cache_wf c' /\ Z.of_nat (size (entries c')) <= Z.max 1 (total_capacity c').
Proof.
  intros Hwf Ho Hsz. destruct o as [k d sz alloc|k b n|k| |]; cbn [run_op].
  - assert (put_args c k (Some d) sz) as Hpa.
    { simpl in Ho. split; [lia|]. split; [intros d0 [= <-]; lia|eauto]. }
    destruct (entries c !! k) as [e|] eqn:He.
    + destruct (Put_old c k (Some d) sz alloc e Hwf He Hpa) as (c' & e' & -> & Hwf' & Hent & _ & _ & Hc' & _).
      exists c'. split_and!; [done..|]. rewrite Hent, Hc', map_size_insert_Some by eauto. done.
    + destruct (Put_new c k (Some d) sz alloc Hwf He Hpa) as (c1 & c' & _ & -> & Hwf' & Hk1 & Hent & _ & _ & _ & Hc' & Hend).
      exists c'. split_and!; [done..|]. rewrite Hent, Hc', map_size_insert_None by done.
      destruct Hend as [Hlt| ->]; [lia|]. rewrite map_size_empty. lia.
  - destruct (entries c !! k) as [e|] eqn:He.
    + destruct (Get_hit c k b n e Hwf He) as (c' & -> & Hwf' & Hcont & Hc' & _). exists c'. split_and!; [done..|].
      assert (size (entries c') = size (entries c)) as ->; [|by rewrite Hc'].
      rewrite <- !size_dom. f_equal. apply set_eq. intros x. rewrite !elem_of_dom.
      specialize (Hcont x). unfold contents in Hcont. destruct (entries c' !! x), (entries c !! x); try done; by eauto.
    + destruct (Get_miss c k b n Hwf He) as (c' & -> & Hwf' & Hent & Hc' & _). exists c'. split_and!; [done..|].
      by rewrite Hent, Hc'.
  - destruct (Remove_spec c k Hwf) as (_ & Hwf' & Hent & Hc'). eexists. split_and!; [done..|].
    rewrite Hent, Hc'. pose proof (map_size_delete k (entries c)) as Hd. rewrite Hd. destruct (entries c !! k); simpl; lia.
  - destruct (Clear_wf c Hwf) as [Hwf' Hent]. eexists. split_and!; [done..|]. rewrite Hent, map_size_empty. lia.
  - eexists. split_and!; [done| |done]. destruct Hwf as [? ? ? ? ?]. by split.
Qed.

(** The cache is a plain first-in first-out queue: after any sequence of
    operations on a new cache the keys it holds are, in order, those of a FIFO
    of the same capacity, and the probation and protected queues are empty. No
    operation moves a key out of the window queue, so how often a key was read
    has no influence on what is evicted. *)
Theorem tinylfu_is_fifo cap window_ratio protected_ratio os :
  0 <= cap -> Forall op_args os ->
  exists c, run_ops (WTinyLFUCache_new cap window_ratio protected_ratio) os = Ok c /\
    window_queue c = foldl (fifo_op cap) [] os /\ probation_queue c = [] /\ protected_queue c = [] /\
    forall k, Contains c k = true <-> k ∈ foldl (fifo_op cap) [] os.
Proof.
  intros Hcap Hos.
  destruct (run_ops_fifo cap os [] _ (reachable_new cap window_ratio protected_ratio Hcap) Hcap Hos) as (c & E & Hri).
  exists c. split_and!; [exact E|apply Hri..|]. intros k. rewrite (ri_elem _ _ _ k Hri). unfold Contains.
  by rewrite bool_decide_eq_true.
Qed.

(** The frequency estimate never undercounts: after any sequence of accesses
    the estimate of a key is at least the number of its accesses since the
    last reset and at most the number of all accesses since then; no counter
    overflows, and the sketch is reset exactly when the threshold is reached. *)
Theorem lfu_never_undercounts capacity width depth keys k :
  0 < width < 2 ^ 32 -> 0 < depth ->
  exists t e,
    foldl (fun rt k => let* t := rt in lfu_Access t k) (Ok (lfu_new capacity width depth)) keys = Ok t /\
    lfu_Estimate t k = Ok e /\
    let recent := foldl (recall (u32 (capacity * 10))) [] keys in
    Z.of_nat (length (filter (fun x => x = k) recent)) <= e <= Z.of_nat (length recent).
Proof.
  intros Hw Hd.
  assert (forall keys t ks, remembers t ks -> exists t',
    foldl (fun rt k => let* t := rt in lfu_Access t k) (Ok t) keys = Ok t' /\
    remembers t' (foldl (recall (lfu_reset_threshold t)) ks keys)) as Hrun.
  { clear. induction keys as [|x keys IH]; intros t ks Ht; [by exists t|]. cbn [foldl res_bind].
    destruct (access_recall t ks x Ht) as (t1 & -> & Ht1 & Hth).
    destruct (IH t1 _ Ht1) as (t' & E & Ht'). exists t'. by rewrite <- Hth at 1. }
  destruct (Hrun keys _ [] (lfu_new_remembers capacity width depth Hw Hd)) as (t & E & Ht).
  destruct (estimate_bounds t _ k Ht) as (e & Ee & He). exists t, e. done.
Qed.

(** What a reader gets back: after a [Put] of a new key a [Get] with a large
    enough buffer returns exactly the bytes stored; after a [Put] of a key that
    is already cached it returns the new bytes up to the old size and, when the
    new block is shorter, the rest of the old block behind them, with the old
    size. *)
Theorem tinylfu_put_get c key d sz n :
  cache_wf c -> 0 < sz <= Z.of_nat (length d) -> sz <= n ->
  (forall old, entries c !! key = Some old -> e_size old <= n) ->
  exists c1 c2 out, Put c key (Some d) sz true = Ok (true, c1) /\ Get c1 key true n = Ok (true, out, match entries c !! key with
      | None => Some (take (Z.to_nat sz) d)
      | Some old => (fun b => let m := Z.to_nat (Z.min sz (e_size old)) in take m d ++ drop m b) <$> e_data old
      end, c2) /\ out = match entries c !! key with None => sz | Some old => e_size old end.
Proof.
  intros Hwf Hsz Hn Hold.
  assert (put_args c key (Some d) sz) as Hpa.
  { split; [lia|]. split; [intros d0 [= <-]; lia|eauto]. }
  destruct (entries c !! key) as [old|] eqn:He.
  - destruct (Put_old c key (Some d) sz true old Hwf He Hpa) as (c1 & e' & E1 & Hwf1 & Hent & Hes & _ & _ & _ & _ & _ & Hed).
    assert (entries c1 !! key = Some e') as Hk1 by (rewrite Hent; apply lookup_insert_eq).
    destruct (Get_hit c1 key true n e' Hwf1 Hk1) as (c2 & E2 & _). exists c1, c2, (e_size old).
    split_and!; [done| |done]. rewrite E2, Hes. cbn [andb]. rewrite (proj2 (Z.leb_le _ _)) by (by apply Hold).
    rewrite Hed. destruct (e_data old) as [b|]; [|done]. cbn [fmap option_fmap option_map]. by rewrite (proj2 (Z.ltb_lt _ _)) by lia.
  - destruct (Put_new c key (Some d) sz true Hwf He Hpa) as (c0 & c1 & _ & E1 & Hwf1 & _ & Hent & _).
    set (e' := mkEntry key _ sz Window) in Hent.
    assert (entries c1 !! key = Some e') as Hk1 by (rewrite Hent; apply lookup_insert_eq).
    destruct (Get_hit c1 key true n e' Hwf1 Hk1) as (c2 & E2 & _). exists c1, c2, sz.
    split_and!; [done| |done]. rewrite E2. cbn [e_size e_data e' andb new_block].
    rewrite (proj2 (Z.leb_le _ _)) by lia. by rewrite (proj2 (Z.ltb_lt _ _)) by lia.
Qed.

(** ** Witnesses *)

Definition lfu_demo : list cache_op :=
  [OpPut 1 [10; 11] 2 true; OpGet 1 true 2; OpGet 1 true 2; OpPut 2 [20] 1 true; OpPut 3 [30] 1 true].

Lemma lfu_demo_args : Forall op_args lfu_demo.
Proof. repeat (apply Forall_cons; split; [simpl; lia|]). by apply Forall_nil. Qed.

Lemma tinylfu_invariant_witness :
  exists c', run_op (WTinyLFUCache_new 2 1 80) (OpPut 7 [1; 2; 3] 3 true) = Ok c' /\ cache_wf c' /\
    Z.of_nat (size (entries c')) <= Z.max 1 (total_capacity c').
Proof.
  apply (tinylfu_invariant (WTinyLFUCache_new 2 1 80) (OpPut 7 [1; 2; 3] 3 true));
    [apply cache_new_wf|simpl; lia|vm_compute; discriminate].
Defined.

(** The key read most often is the one evicted. *)
Lemma tinylfu_is_fifo_witness :
  exists c, run_ops (WTinyLFUCache_new 2 1 80) lfu_demo = Ok c /\
    window_queue c = [2; 3] /\ probation_queue c = [] /\ protected_queue c = [] /\
    forall k, Contains c k = true <-> k ∈ [2; 3].
Proof. apply (tinylfu_is_fifo 2 1 80 lfu_demo); [lia|apply lfu_demo_args]. Defined.

Lemma lfu_never_undercounts_witness :
  exists t e,
    foldl (fun rt k => let* t := rt in lfu_Access t k) (Ok (lfu_new 1 256 4)) [5; 6; 5] = Ok t /\
    lfu_Estimate t 5 = Ok e /\ 2 <= e <= 3.
Proof. apply (lfu_never_undercounts 1 256 4 [5; 6; 5] 5); lia. Defined.

Lemma tinylfu_put_get_witness :
  exists c1 c2 out, Put (WTinyLFUCache_new 2 1 80) 7 (Some [1; 2; 3]) 3 true = Ok (true, c1) /\
    Get c1 7 true 8 = Ok (true, out, Some [1; 2; 3], c2) /\ out = 3.
Proof.
  apply (tinylfu_put_get (WTinyLFUCache_new 2 1 80) 7 [1; 2; 3] 3 8);
    [apply cache_new_wf|simpl; lia|lia|intros old E; vm_compute in E; discriminate E].
Defined.
