(* ===== verification/Caches.v ===== *)
(** * The other user-mode caches

    The client's first-level RAM cache (src/client/smart_cache/l1_ram_cache.cpp),
    the RAM overlay (src/client/overlay_mgr/ram_overlay.cpp) and the server's SSD
    cache (src/server/cache_engine/l3_ssd_cache.cpp), whose eviction follows the
    order of use. The mutex of each makes its methods atomic. *)

From S2P Require Import Prelude.

(** ** The first-level RAM cache *)

Module L1.

Record L1RamCache : Type := mkL1 {
  capacity : Z;
  used : Z;
  hits : Z;
  misses : Z;
  store : gmap Z (list Z);
}.

Definition new (capacity_bytes : Z) : L1RamCache := mkL1 capacity_bytes 0 0 0 ∅.

Definition Lookup (c : L1RamCache) (key : Z) : option (list Z) * L1RamCache :=
  match store c !! key with
  | Some d => (Some d, mkL1 (capacity c) (used c) (u64 (hits c + 1)) (misses c) (store c))
  | None => (None, mkL1 (capacity c) (used c) (hits c) (u64 (misses c + 1)) (store c))
  end.

Definition Insert (c : L1RamCache) (key : Z) (data : list Z) : L1RamCache :=
  let used' := if bool_decide (is_Some (store c !! key)) then used c else u64 (used c + Z.of_nat (length data)) in
  mkL1 (capacity c) used' (hits c) (misses c) (<[key := data]> (store c)).

Definition Invalidate (c : L1RamCache) (key : Z) : L1RamCache :=
  match store c !! key with
  | Some d => mkL1 (capacity c) (u64 (used c - Z.of_nat (length d))) (hits c) (misses c) (delete key (store c))
  | None => c
  end.
End L1.

(** ** The RAM overlay *)

Module RamOverlay.

Definition state : Type := gmap Z (list Z).
Definition Write (s : state) (offset : Z) (data : list Z) : bool * state := (true, <[offset := data]> s).
Definition Read (s : state) (offset : Z) : option (list Z) := s !! offset.
Definition Clear (s : state) : state := ∅.
End RamOverlay.

(** ** The server's SSD cache *)

Module L3.

Record CacheEntry : Type := mkEntry {
  block_key : Z;
  data : list Z;
  access_count : Z;
  last_access_ns : Z;
}.

(** [lru_map] is the set of keys that have a list iterator. *)
Record L3SsdCache : Type := mkL3 {
  capacity_bytes : Z;
  used_bytes : Z;
  hit_count : Z;
  miss_count : Z;
  entries : gmap Z CacheEntry;
  lru_list : list Z;
  lru_map : gset Z;
}.

Definition new (cap : Z) : L3SsdCache := mkL3 cap 0 0 0 ∅ [] ∅.

(** A positive integer rounded to 53 significant bits, to nearest, ties to
    even: its value as a [double]. *)
Definition round53 (n : Z) : Z :=
  if n <? 2 ^ 53 then n else
  let s := Z.log2 n - 52 in
  let q := n / 2 ^ s in
  let r := n mod 2 ^ s in
  let up := (2 ^ (s - 1) <? r) || ((r =? 2 ^ (s - 1)) && Z.odd q) in
  (if up then q + 1 else q) * 2 ^ s.

(** The double 0.90 is this integer over 2^53. *)
Definition W090 : Z := 8106479329266893.

(** [static_cast<uint64_t>(capacity_bytes_ * watermark_high_)] *)
Definition high_mark (cap : Z) : Z := round53 (round53 cap * W090) / 2 ^ 53.

(** [EvictIfNeeded]: the last key of the list goes first. *)
Fixpoint EvictIfNeeded (fuel : nat) (c : L3SsdCache) : res L3SsdCache :=
  match fuel with
  | O => NoFuel
  | S n =>
      if negb (high_mark (capacity_bytes c) <? used_bytes c) then Ok c else
      match last (lru_list c) with
      | None => Ok c
      | Some victim =>
          let l := take (length (lru_list c) - 1) (lru_list c) in
          let m := lru_map c ∖ {[ victim ]} in
          match entries c !! victim with
          | Some e => EvictIfNeeded n (mkL3 (capacity_bytes c) (u64 (used_bytes c - Z.of_nat (length (data e))))
                                         (hit_count c) (miss_count c) (delete victim (entries c)) l m)
          | None => EvictIfNeeded n (mkL3 (capacity_bytes c) (used_bytes c) (hit_count c) (miss_count c) (entries c) l m)
          end
      end
  end.

(** [lru_map_[key]] must exist for the splice to have an iterator. *)
Definition Lookup (c : L3SsdCache) (key now : Z) : res (option (list Z) * L3SsdCache) :=
  match entries c !! key with
  | Some e =>
      let e' := mkEntry (block_key e) (data e) (u32 (access_count e + 1)) (u64 now) in
      if bool_decide (key ∈ lru_map c) then
        Ok (Some (data e), mkL3 (capacity_bytes c) (used_bytes c) (u64 (hit_count c + 1)) (miss_count c)
              (<[key := e']> (entries c)) (key :: filter (fun k => k <> key) (lru_list c)) (lru_map c))
      else Fault
  | None => Ok (None, mkL3 (capacity_bytes c) (used_bytes c) (hit_count c) (u64 (miss_count c + 1)) (entries c)
                        (lru_list c) (lru_map c))
  end.

Definition Insert (c : L3SsdCache) (key : Z) (d : list Z) (now : Z) : res L3SsdCache :=
  if bool_decide (is_Some (entries c !! key)) then Ok c else
  let c' := mkL3 (capacity_bytes c) (u64 (used_bytes c + Z.of_nat (length d))) (hit_count c) (miss_count c)
              (<[key := mkEntry key d 1 (u64 now)]> (entries c)) (key :: lru_list c) ({[ key ]} ∪ lru_map c) in
  EvictIfNeeded (S (length (lru_list c'))) c'.

Definition Invalidate (c : L3SsdCache) (key : Z) : L3SsdCache :=
  match entries c !! key with
  | Some e =>
      let c := mkL3 (capacity_bytes c) (u64 (used_bytes c - Z.of_nat (length (data e)))) (hit_count c) (miss_count c)
                 (entries c) (lru_list c) (lru_map c) in
      let c := if bool_decide (key ∈ lru_map c) then
                 mkL3 (capacity_bytes c) (used_bytes c) (hit_count c) (miss_count c) (entries c)
                   (filter (fun k => k <> key) (lru_list c)) (lru_map c ∖ {[ key ]})
               else c in
      mkL3 (capacity_bytes c) (used_bytes c) (hit_count c) (miss_count c) (delete key (entries c)) (lru_list c) (lru_map c)
  | None => c
  end.

(** *** The invariant *)

Definition total (m : gmap Z CacheEntry) : Z := map_fold (fun _ e s => Z.of_nat (length (data e)) + s) 0 m.

Record wf (c : L3SsdCache) : Prop := {
  wf_nodup : NoDup (lru_list c);
  wf_list : list_to_set (lru_list c) = dom (entries c);
  wf_map : lru_map c = dom (entries c);
  wf_used : used_bytes c = total (entries c);
  wf_fits : total (entries c) < 2 ^ 64;
  wf_cap : 0 <= capacity_bytes c < 2 ^ 64;
}.

(** *** Lemmas *)

Lemma total_insert m k e : m !! k = None -> total (<[k := e]> m) = Z.of_nat (length (data e)) + total m.
Proof. intros. unfold total. rewrite map_fold_insert_L; [done|intros; lia|done]. Qed.

Lemma total_delete m k e : m !! k = Some e -> total m = Z.of_nat (length (data e)) + total (delete k m).
Proof. intros Hk. rewrite <- (insert_delete_id m k e Hk) at 1. apply total_insert, lookup_delete_eq. Qed.

Lemma total_nonneg m : 0 <= total m.
Proof. unfold total. apply (map_fold_weak_ind (fun r _ => 0 <= r)); [lia|]. intros. lia. Qed.

Lemma total_update m k e e' : m !! k = Some e -> data e' = data e -> total (<[k := e']> m) = total m.
Proof.
  intros Hk He. rewrite <- insert_delete_eq, total_insert by apply lookup_delete_eq. by rewrite (total_delete m k e Hk), He.
Qed.

Lemma round53_bounds n : 0 <= n -> 0 <= round53 n <= n + n / 2 ^ 52.
Proof.
  intros Hn. unfold round53. destruct (Z.ltb_spec n (2 ^ 53)) as [|Hb].
  { split; [lia|]. pose proof (Z.div_pos n (2 ^ 52) Hn ltac:(lia)). lia. }
  cbv zeta. assert (0 < n) by lia. destruct (Z.log2_spec n) as [Hl _]; [lia|].
  assert (53 <= Z.log2 n) as Hlog by (apply Z.log2_le_pow2; lia).
  set (s := Z.log2 n - 52) in *. assert (0 < 2 ^ s) by (apply Z.pow_pos_nonneg; lia).
  assert (2 ^ s <= n / 2 ^ 52) as Hs.
  { apply Z.div_le_lower_bound; [lia|]. rewrite <- Z.pow_add_r by lia. by replace (52 + s) with (Z.log2 n) by lia. }
  pose proof (Z.div_mod n (2 ^ s) ltac:(lia)) as Hdm. pose proof (Z.mod_pos_bound n (2 ^ s) ltac:(lia)) as Hm.
  assert (0 <= n / 2 ^ s) by (apply Z.div_pos; lia).
  destruct (_ || _); nia.
Qed.

Lemma high_mark_bounds cap : 0 <= cap -> 0 <= high_mark cap <= cap.
Proof.
  intros Hc. unfold high_mark. destruct (round53_bounds cap Hc) as [H0 H1].
  assert (0 <= round53 cap * W090) as Hp by (unfold W090; lia).
  destruct (round53_bounds _ Hp) as [H2 H3]. split; [apply Z.div_pos; lia|].
  apply Z.div_le_upper_bound; [lia|].
  set (P := round53 cap * W090) in *.
  assert (P / 2 ^ 52 <= P / 2 ^ 4) as Hd by (apply Z.div_le_compat_l; lia).
  assert (cap / 2 ^ 52 <= cap / 2 ^ 40) as Hd2 by (apply Z.div_le_compat_l; lia).
  change (2 ^ 4) with 16 in Hd. change (2 ^ 40) with 1099511627776 in Hd2.
  assert (P / 2 ^ 52 <= P / 1099511627776) as Hd3 by (change 1099511627776 with (2 ^ 40); apply Z.div_le_compat_l; lia).
  unfold P, W090 in *. change (2 ^ 53) with 9007199254740992.
  clear Hd. Z.div_mod_to_equations. nia.
Qed.

(** Removing the last key of the list. *)
Lemma last_split (l : list Z) x : list.last l = Some x -> l = take (length l - 1) l ++ [x].
Proof. intros Hl. apply last_Some in Hl as [l' ->]. rewrite length_app. simpl. by rewrite Nat.add_sub, take_app_length. Qed.

Lemma wf_pop c x : wf c -> list.last (lru_list c) = Some x ->
  exists e, entries c !! x = Some e /\
    wf (mkL3 (capacity_bytes c) (u64 (used_bytes c - Z.of_nat (length (data e)))) (hit_count c) (miss_count c)
          (delete x (entries c)) (take (length (lru_list c) - 1) (lru_list c)) (lru_map c ∖ {[ x ]})) /\
    used_bytes c = total (delete x (entries c)) + Z.of_nat (length (data e)).
Proof.
  intros [Hnd Hl Hm Hu Hf Hc] Hx. pose proof (last_split _ _ Hx) as Hs.
  set (l := take (length (lru_list c) - 1) (lru_list c)) in *.
  assert (x ∈ dom (entries c)) as Hin by (rewrite <- Hl, Hs; set_solver).
  apply elem_of_dom in Hin as [e He]. exists e. split; [done|].
  rewrite Hs in Hnd. apply NoDup_app in Hnd as (Hndl & Hdis & _).
  pose proof (total_delete _ _ _ He) as Ht. pose proof (total_nonneg (delete x (entries c))) as Hp.
  split; [|rewrite Hu; lia]. split; cbn [lru_list entries lru_map used_bytes capacity_bytes]; [done|..|lia|done].
  - rewrite dom_delete_L, <- Hl, Hs, list_to_set_app_L. simpl.
    assert (x ∉ (list_to_set l : gset Z)) by (rewrite elem_of_list_to_set; intros Hi; apply (Hdis x Hi); set_solver).
    set_solver.
  - by rewrite Hm, dom_delete_L.
  - rewrite Hu. unfold u64. rewrite wrap_small; lia.
Qed.

Lemma evict_spec fuel c : wf c -> (length (lru_list c) < fuel)%nat ->
  exists c' dropped, EvictIfNeeded fuel c = Ok c' /\ wf c' /\ lru_list c = lru_list c' ++ dropped /\
    used_bytes c' <= high_mark (capacity_bytes c) /\ capacity_bytes c' = capacity_bytes c /\
    (forall k, k ∈ lru_list c' -> entries c' !! k = entries c !! k) /\
    match dropped with
    | [] => True
    | x :: _ => exists e, entries c !! x = Some e /\ high_mark (capacity_bytes c) < used_bytes c' + Z.of_nat (length (data e))
    end.
Proof.
  revert c. induction fuel as [|n IH]; intros c Hwf Hf; [lia|]. cbn [EvictIfNeeded].
  destruct (Z.ltb_spec (high_mark (capacity_bytes c)) (used_bytes c)) as [Hhi|Hlo]; cbn [negb].
  2: { exists c, []. rewrite app_nil_r. by split_and!. }
  destruct (list.last (lru_list c)) as [x|] eqn:Hx.
  2: { exists c, []. rewrite app_nil_r. split_and!; try done. exfalso. apply last_None in Hx.
       destruct Hwf as [_ Hl _ Hu _ Hc]. rewrite Hx in Hl. symmetry in Hl. apply dom_empty_inv_L in Hl.
       rewrite Hu, Hl in Hhi. unfold total in Hhi. rewrite map_fold_empty in Hhi.
       pose proof (high_mark_bounds (capacity_bytes c)). lia. }
  destruct (wf_pop c x Hwf Hx) as (e & He & Hwf1 & Hused). rewrite He.
  pose proof (last_split _ _ Hx) as Hs. set (c1 := mkL3 _ _ _ _ _ _ _) in *.
  assert (length (lru_list c1) < n)%nat as Hlen.
  { unfold c1. cbn [lru_list]. rewrite length_take. assert (length (lru_list c) <> 0)%nat; [|lia].
    intros Hz. apply nil_length_inv in Hz. by rewrite Hz in Hx. }
  destruct (IH c1 Hwf1 Hlen) as (c' & dr & E & Hwf' & Hl' & Hle & Hcap & Hsame & Hmax). cbn [c1 capacity_bytes] in *.
  exists c', (dr ++ [x]). split_and!; try done.
  - rewrite Hs. cbn [c1 lru_list] in Hl'. by rewrite Hl', app_assoc.
  - intros k Hk. rewrite Hsame by done. cbn [c1 entries]. apply lookup_delete_ne. intros ->.
    pose proof (wf_nodup _ Hwf) as Hnd. rewrite Hs in Hnd. apply NoDup_app in Hnd as (_ & Hdis & _).
    cbn [c1 lru_list] in Hl'. apply (Hdis k); [rewrite Hl'; set_solver|set_solver].
  - destruct dr as [|y dr]; simpl.
    + exists e. split; [done|]. rewrite app_nil_r in Hl'. rewrite (wf_used _ Hwf').
      assert (entries c' = delete x (entries c)) as ->.
      { apply map_eq. intros k. destruct (decide (k ∈ lru_list c')) as [Hk|Hk]; [by apply Hsame|].
        assert (entries c' !! k = None) as -> by (apply not_elem_of_dom; by rewrite <- (wf_list _ Hwf'), elem_of_list_to_set).
        symmetry. change (entries c1 !! k = None). apply not_elem_of_dom.
        by rewrite <- (wf_list _ Hwf1), Hl', elem_of_list_to_set. }
      lia.
    + destruct Hmax as (e' & He' & Hm). exists e'. split; [|done]. cbn [c1 entries] in He'.
      by apply lookup_delete_Some in He' as [_ ?].
Qed.

Lemma wf_insert c key d now : wf c -> entries c !! key = None -> total (entries c) + Z.of_nat (length d) < 2 ^ 64 ->
  wf (mkL3 (capacity_bytes c) (u64 (used_bytes c + Z.of_nat (length d))) (hit_count c) (miss_count c)
        (<[key := mkEntry key d 1 (u64 now)]> (entries c)) (key :: lru_list c) ({[ key ]} ∪ lru_map c)).
Proof.
  intros [Hnd Hl Hm Hu Hf Hc] Hk Hsz. pose proof (total_nonneg (entries c)).
  split; cbn [lru_list entries lru_map used_bytes capacity_bytes].
  - apply NoDup_cons. split; [|done]. rewrite <- (elem_of_list_to_set (C := gset Z)), Hl. by apply not_elem_of_dom.
  - rewrite dom_insert_L. simpl. by rewrite Hl.
  - by rewrite dom_insert_L, Hm.
  - rewrite total_insert by done. simpl. rewrite Hu. unfold u64. rewrite wrap_small; lia.
  - rewrite total_insert by done. simpl. lia.
  - done.
Qed.

(** *** Sequences of operations *)

Inductive op : Type := OpLookup (key now : Z) | OpInsert (key : Z) (d : list Z) (now : Z) | OpInvalidate (key : Z).

Definition run_op (c : L3SsdCache) (o : op) : res L3SsdCache :=
  match o with
  | OpLookup k now => let* (_, c') := Lookup c k now in Ok c'
  | OpInsert k d now => Insert c k d now
  | OpInvalidate k => Ok (Invalidate c k)
  end.
Fixpoint run_ops (c : L3SsdCache) (os : list op) : res L3SsdCache :=
  match os with
  | [] => Ok c
  | o :: r => let* c' := run_op c o in run_ops c' r
  end.
Definition small_block (o : op) : Prop :=
  match o with OpInsert _ d _ => Z.of_nat (length d) < 2 ^ 63 | _ => True end.

Lemma Lookup_hit c key now e : wf c -> entries c !! key = Some e ->
  exists c', Lookup c key now = Ok (Some (data e), c') /\ wf c' /\ used_bytes c' = used_bytes c /\
    capacity_bytes c' = capacity_bytes c /\ lru_list c' = key :: filter (fun k => k <> key) (lru_list c).
Proof.
  intros [Hnd Hl Hm Hu Hf Hc] He. unfold Lookup. rewrite He.
  assert (key ∈ dom (entries c)) as Hin by (apply elem_of_dom; eauto).
  rewrite bool_decide_eq_true_2 by (by rewrite Hm). eexists. split; [reflexivity|]. split_and!; try done.
  split; cbn [lru_list entries lru_map used_bytes capacity_bytes]; try done.
  - apply NoDup_cons. split; [rewrite list_elem_of_filter; tauto|by apply NoDup_filter].
  - rewrite dom_insert_lookup_L by eauto. rewrite <- Hl. apply set_eq. intros k.
    rewrite !elem_of_list_to_set, elem_of_cons, list_elem_of_filter.
    rewrite <- Hl in Hin. rewrite elem_of_list_to_set in Hin. destruct (decide (k = key)) as [->|]; tauto.
  - by rewrite dom_insert_lookup_L by eauto.
  - by rewrite Hu, (total_update _ _ e).
  - by rewrite (total_update _ _ e).
Qed.

Lemma Invalidate_wf c key : wf c -> wf (Invalidate c key) /\ entries (Invalidate c key) = delete key (entries c) /\
  capacity_bytes (Invalidate c key) = capacity_bytes c /\ used_bytes (Invalidate c key) <= used_bytes c.
Proof.
  intros Hwf. pose proof Hwf as [Hnd Hl Hm Hu Hf Hc]. unfold Invalidate. destruct (entries c !! key) as [e|] eqn:He.
  2: { split_and!; try done. by rewrite delete_id. }
  cbn [lru_map]. rewrite bool_decide_eq_true_2 by (rewrite Hm; apply elem_of_dom; eauto).
  pose proof (total_delete _ _ _ He) as Ht. pose proof (total_nonneg (delete key (entries c))).
  cbn [lru_list entries lru_map used_bytes capacity_bytes hit_count miss_count].
  assert (u64 (used_bytes c - Z.of_nat (length (data e))) = total (delete key (entries c))) as Hu'.
  { rewrite Hu. unfold u64. rewrite wrap_small; lia. }
  split_and!; try done; [|rewrite Hu'; lia].
  split; cbn [lru_list entries lru_map used_bytes capacity_bytes]; [by apply NoDup_filter|..|done|lia|done].
  - rewrite dom_delete_L, <- Hl. apply set_eq. intros k.
    rewrite elem_of_difference, !elem_of_list_to_set, list_elem_of_filter, elem_of_singleton. tauto.
  - by rewrite Hm, dom_delete_L.
Qed.

Lemma run_op_wf c o : wf c -> used_bytes c <= high_mark (capacity_bytes c) -> capacity_bytes c < 2 ^ 63 -> small_block o ->
  exists c', run_op c o = Ok c' /\ wf c' /\ used_bytes c' <= high_mark (capacity_bytes c') /\
    capacity_bytes c' = capacity_bytes c.
Proof.
  intros Hwf Hu Hcap Ho. destruct o as [k now|k d now|k]; cbn [run_op].
  - destruct (entries c !! k) as [e|] eqn:He.
    + destruct (Lookup_hit c k now e Hwf He) as (c' & -> & Hwf' & Hu' & Hc' & _). exists c'. rewrite Hu', Hc'. done.
    + unfold Lookup. rewrite He. eexists. split; [reflexivity|]. split_and!; try done.
      destruct Hwf as [? ? ? ? ? ?]. by split.
  - unfold Insert. case_bool_decide as Hk; [by exists c|]. cbv zeta.
    assert (entries c !! k = None) as Hnone by (destruct (entries c !! k) eqn:E; [exfalso; apply Hk; eauto|done]).
    pose proof (wf_used _ Hwf) as Hus. pose proof (high_mark_bounds (capacity_bytes c) ltac:(apply Hwf)) as Hhm.
    simpl in Ho. pose proof (wf_insert c k d now Hwf Hnone ltac:(lia)) as Hwi.
    destruct (evict_spec (S (length (k :: lru_list c))) _ Hwi) as (c' & dr & E & Hwf' & _ & Hle & Hc' & _); [simpl; lia|].
    exists c'. split; [exact E|]. rewrite Hc'. done.
  - destruct (Invalidate_wf c k Hwf) as (Hwf' & _ & Hc' & Hle). eexists. split; [reflexivity|].
    rewrite Hc'. split_and!; [done|lia|done].
Qed.

Lemma new_wf cap : 0 <= cap < 2 ^ 64 -> wf (new cap).
Proof.
  intros. split; cbn [new lru_list entries lru_map used_bytes capacity_bytes].
  - constructor.
  - by rewrite dom_empty_L.
  - by rewrite dom_empty_L.
  - unfold total. by rewrite map_fold_empty.
  - unfold total. rewrite map_fold_empty. lia.
  - done.
Qed.
End L3.

(** ** Properties *)

(** C27. The server cache keeps its bookkeeping: after any sequence of lookups,
    insertions and invalidations on a new cache the list of keys by recency, the
    iterator map and the hash table hold the same keys, each once, the byte
    count is the sum of the block sizes, and it is at most the high watermark
    (and the capacity). No iterator is missing and every loop ends. *)
Theorem l3_invariant cap os :
  0 <= cap < 2 ^ 63 -> Forall L3.small_block os ->
  exists c, L3.run_ops (L3.new cap) os = Ok c /\ L3.wf c /\ L3.used_bytes c <= L3.high_mark cap <= cap.
Proof.
  intros Hcap Hos.
  assert (forall c, L3.wf c -> L3.used_bytes c <= L3.high_mark (L3.capacity_bytes c) -> L3.capacity_bytes c = cap ->
    exists c', L3.run_ops c os = Ok c' /\ L3.wf c' /\ L3.used_bytes c' <= L3.high_mark cap <= cap) as Hgen.
  { induction Hos as [|o os Ho Hos IH]; intros c Hwf Hu Hc.
    - exists c. rewrite Hc in Hu. split_and!; try done. apply (L3.high_mark_bounds cap). lia.
    - destruct (L3.run_op_wf c o Hwf Hu ltac:(lia) Ho) as (c1 & E & Hwf1 & Hu1 & Hc1). cbn [L3.run_ops]. rewrite E.
      cbn [res_bind]. apply IH; [done..|congruence]. }
  apply Hgen; [apply L3.new_wf; lia| |done]. change (0 <= L3.high_mark cap). apply (L3.high_mark_bounds cap). lia.
Qed.

(** Eviction is by recency and only as far as needed: inserting a new block
    puts its key in front and drops a suffix of the resulting list, the least
    recently used keys; without the last drop the watermark would be exceeded.
    The kept blocks are unchanged. A block above the watermark drops everything,
    itself included. *)
Theorem l3_insert_lru c key d now :
  L3.wf c -> L3.entries c !! key = None -> L3.total (L3.entries c) + Z.of_nat (length d) < 2 ^ 64 ->
  exists c' dropped, L3.Insert c key d now = Ok c' /\ key :: L3.lru_list c = L3.lru_list c' ++ dropped /\
    (forall k, k ∈ L3.lru_list c' -> k <> key -> L3.entries c' !! k = L3.entries c !! k) /\
    L3.used_bytes c' <= L3.high_mark (L3.capacity_bytes c) /\
    (dropped = [] \/ exists x l e, dropped = x :: l /\
       <[key := L3.mkEntry key d 1 (u64 now)]> (L3.entries c) !! x = Some e /\
       L3.high_mark (L3.capacity_bytes c) < L3.used_bytes c' + Z.of_nat (length (L3.data e))) /\
    (L3.high_mark (L3.capacity_bytes c) < Z.of_nat (length d) -> L3.lru_list c' = []).
Proof.
  intros Hwf Hk Hsz. unfold L3.Insert. rewrite bool_decide_eq_false_2 by (rewrite Hk; by intros []). cbv zeta.
  pose proof (L3.wf_insert c key d now Hwf Hk Hsz) as Hwi.
  destruct (L3.evict_spec (S (length (key :: L3.lru_list c))) _ Hwi) as (c' & dr & E & Hwf' & Hl & Hle & Hc' & Hsame & Hmax);
    [simpl; lia|]. cbn [L3.lru_list L3.capacity_bytes L3.entries] in *.
  exists c', dr. split_and!; [exact E|done| |done| |].
  - intros k Hin Hne. rewrite Hsame by done. by rewrite lookup_insert_ne.
  - destruct dr as [|x l]; [by left|]. right. destruct Hmax as (e & He & Hm). eauto 8.
  - intros Hbig. destruct (L3.lru_list c') as [|k0 l0] eqn:El; [done|]. exfalso.
    injection Hl as -> _. specialize (Hsame k0 ltac:(left)). rewrite lookup_insert_eq in Hsame.
    pose proof (L3.total_delete _ _ _ Hsame) as Ht. pose proof (L3.total_nonneg (delete k0 (L3.entries c'))).
    rewrite (L3.wf_used _ Hwf') in Hle. cbn [L3.data] in Ht. lia.
Qed.

(** The first-level cache loses count: storing a second, longer block under a
    key and invalidating it leaves the byte counter below zero, that is near
    2^64, with the cache empty. *)
Theorem l1_used_underflows cap k d1 d2 :
  Z.of_nat (length d1) < Z.of_nat (length d2) < 2 ^ 64 ->
  let c := L1.Invalidate (L1.Insert (L1.Insert (L1.new cap) k d1) k d2) k in
  L1.store c = ∅ /\ L1.used c = 2 ^ 64 + Z.of_nat (length d1) - Z.of_nat (length d2).
Proof.
  intros Hlen c. unfold c, L1.Invalidate, L1.Insert, L1.new. cbn [L1.store L1.used L1.capacity L1.hits L1.misses].
  rewrite !lookup_insert_eq, (bool_decide_eq_true_2 (is_Some (Some d1))) by eauto.
  rewrite lookup_empty, (bool_decide_eq_false_2 (is_Some None)) by (by intros []).
  cbn [L1.store L1.used]. split.
  - by rewrite insert_insert_eq, delete_insert_id by apply lookup_empty.
  - assert (u64 (0 + Z.of_nat (length d1)) = Z.of_nat (length d1)) as -> by (unfold u64; rewrite wrap_small; lia).
    unfold u64, wrap. symmetry. apply (Z.mod_unique_pos _ _ (-1)); lia.
Qed.

(** ** Witnesses *)

Lemma l3_invariant_witness :
  exists c, L3.run_ops (L3.new 10) [L3.OpInsert 1 [7; 7; 7; 7] 5; L3.OpInsert 2 [8; 8; 8; 8; 8; 8] 6; L3.OpLookup 2 7] = Ok c /\
    L3.wf c /\ L3.used_bytes c <= L3.high_mark 10 <= 10.
Proof.
  apply l3_invariant; [lia|]. repeat (apply Forall_cons; split; [simpl; lia|]). by apply Forall_nil.
Defined.

Lemma l3_insert_lru_witness :
  exists c' dropped, L3.Insert (L3.new 10) 3 [1; 2] 5 = Ok c' /\ [3] = L3.lru_list c' ++ dropped /\
    (forall k, k ∈ L3.lru_list c' -> k <> 3 -> L3.entries c' !! k = L3.entries (L3.new 10) !! k) /\
    L3.used_bytes c' <= L3.high_mark 10 /\
    (dropped = [] \/ exists x l e, dropped = x :: l /\
       <[3 := L3.mkEntry 3 [1; 2] 1 (u64 5)]> (L3.entries (L3.new 10)) !! x = Some e /\
       L3.high_mark 10 < L3.used_bytes c' + Z.of_nat (length (L3.data e))) /\
    (L3.high_mark 10 < 2 -> L3.lru_list c' = []).
Proof.
  apply (l3_insert_lru (L3.new 10) 3 [1; 2] 5); [apply L3.new_wf; lia|done|vm_compute; reflexivity].
Defined.

Lemma l1_used_underflows_witness :
  let c := L1.Invalidate (L1.Insert (L1.Insert (L1.new 100) 1 [5]) 1 [5; 6]) 1 in
  L1.store c = ∅ /\ L1.used c = 2 ^ 64 + 1 - 2.
Proof. apply (l1_used_underflows 100 1 [5] [5; 6]). simpl. lia. Defined.
