(* ===== verification/NetSm.v ===== *)
(** * The client's connection state machine
    (src/client/disk_runtime/network_state_machine.h, network_state_machine.cpp)

    Six connection states, moved by heartbeats, I/O results and a periodic tick
    that detects a dead server, reconnects with an exponential back-off and
    fails over to the next server. The mutex makes each handler atomic. The
    steady clock is an argument: [clk i] is its [i]-th reading in the handler, in
    nanoseconds. The callbacks are arguments too: whether one is installed, what
    a connection attempt answers; the calls made are recorded in a trace. *)

From S2P Require Import Prelude BootEnv Caches.

Inductive ConnectionState : Type := Connected | Detecting | Disconnected | Reconnecting | Recovering | Offline.
#[export] Instance ConnectionState_eq : EqDecision ConnectionState.
Proof. solve_decision. Defined.

(** [backoff_multiplier] is a double: as a finite one it is an integer over a
    power of two. *)
Record ReconnectConfig : Type := mkConfig {
  detect_timeout_ms : Z;
  min_backoff_ms : Z;
  max_backoff_ms : Z;
  multiplier_num : Z;
  multiplier_exp : Z;
  max_retry_count : Z;
  recovery_timeout_ms : Z;
}.
Definition default_config : ReconnectConfig := mkConfig 5000 1000 30000 2 0 10 30000.

Record ServerEndpoint : Type := mkServer {
  host : list Z;
  port : Z;
  is_primary : bool;
}.

(** What the callbacks see. *)
Inductive event : Type :=
| StateChange (old new : ConnectionState)
| ConnectAttempt (s : ServerEndpoint)
| RecoveryComplete.

Record Callbacks : Type := mkCallbacks {
  on_state_change : bool;
  on_connect_attempt : bool;
  on_recovery_complete : bool;
}.

Record NetworkStateMachine : Type := mkNet {
  config : ReconnectConfig;
  servers : list ServerEndpoint;
  current_server_idx : nat;
  state : ConnectionState;
  retry_count : Z;
  current_backoff_ms : Z;
  last_heartbeat : Z;
  state_enter_time : Z;
  last_reconnect_attempt : Z;
  pending_io_count : Z;
  callbacks : Callbacks;
  running : bool;
  trace : list event;
}.

Definition NetworkStateMachine_new (cfg : ReconnectConfig) : NetworkStateMachine :=
  mkNet cfg [] 0 Offline 0 (min_backoff_ms cfg) 0 0 0 0 (mkCallbacks false false false) false [].

(** ** Field updates *)

Definition set_state (m : NetworkStateMachine) (s : ConnectionState) (enter attempt : Z) (tr : list event) : NetworkStateMachine :=
  mkNet (config m) (servers m) (current_server_idx m) s (retry_count m) (current_backoff_ms m) (last_heartbeat m)
    enter attempt (pending_io_count m) (callbacks m) (running m) tr.
Definition set_retry (m : NetworkStateMachine) (retry backoff : Z) : NetworkStateMachine :=
  mkNet (config m) (servers m) (current_server_idx m) (state m) retry backoff (last_heartbeat m) (state_enter_time m)
    (last_reconnect_attempt m) (pending_io_count m) (callbacks m) (running m) (trace m).
Definition set_attempt (m : NetworkStateMachine) (t : Z) : NetworkStateMachine :=
  mkNet (config m) (servers m) (current_server_idx m) (state m) (retry_count m) (current_backoff_ms m) (last_heartbeat m)
    (state_enter_time m) t (pending_io_count m) (callbacks m) (running m) (trace m).
Definition set_heartbeat (m : NetworkStateMachine) (t : Z) : NetworkStateMachine :=
  mkNet (config m) (servers m) (current_server_idx m) (state m) (retry_count m) (current_backoff_ms m) t
    (state_enter_time m) (last_reconnect_attempt m) (pending_io_count m) (callbacks m) (running m) (trace m).
Definition set_server (m : NetworkStateMachine) (i : nat) : NetworkStateMachine :=
  mkNet (config m) (servers m) i (state m) (retry_count m) (current_backoff_ms m) (last_heartbeat m)
    (state_enter_time m) (last_reconnect_attempt m) (pending_io_count m) (callbacks m) (running m) (trace m).
Definition set_pending (m : NetworkStateMachine) (n : Z) : NetworkStateMachine :=
  mkNet (config m) (servers m) (current_server_idx m) (state m) (retry_count m) (current_backoff_ms m) (last_heartbeat m)
    (state_enter_time m) (last_reconnect_attempt m) n (callbacks m) (running m) (trace m).
Definition set_running (m : NetworkStateMachine) (b : bool) (enter : Z) : NetworkStateMachine :=
  mkNet (config m) (servers m) (current_server_idx m) (state m) (retry_count m) (current_backoff_ms m) (last_heartbeat m)
    enter (last_reconnect_attempt m) (pending_io_count m) (callbacks m) b (trace m).
Definition add_event (m : NetworkStateMachine) (e : event) : NetworkStateMachine :=
  mkNet (config m) (servers m) (current_server_idx m) (state m) (retry_count m) (current_backoff_ms m) (last_heartbeat m)
    (state_enter_time m) (last_reconnect_attempt m) (pending_io_count m) (callbacks m) (running m) (trace m ++ [e]).

(** ** The helpers *)

(** [clk 0] and [clk 1] are the two readings of [TransitionTo]. *)
Definition TransitionTo (m : NetworkStateMachine) (s : ConnectionState) (clk : nat -> Z) : NetworkStateMachine :=
  if bool_decide (state m = s) then m else
  let attempt := if bool_decide (s = Reconnecting) then clk 1%nat else last_reconnect_attempt m in
  let tr := if on_state_change (callbacks m) then trace m ++ [StateChange (state m) s] else trace m in
  set_state m s (clk 0%nat) attempt tr.

Definition reset_backoff (m : NetworkStateMachine) : NetworkStateMachine := set_retry m 0 (min_backoff_ms (config m)).

Definition TryReconnect (m : NetworkStateMachine) (clk : nat -> Z) : NetworkStateMachine :=
  TransitionTo (reset_backoff m) Reconnecting clk.

(** The loop over the other servers. *)
Fixpoint next_server (n i : nat) (cur len : nat) : option nat :=
  match n with
  | O => None
  | S n' => let next := ((cur + 1 + i) mod len)%nat in
            if (next =? cur)%nat then next_server n' (S i) cur len else Some next
  end.
Definition TryNextServer (m : NetworkStateMachine) : bool * NetworkStateMachine :=
  if (length (servers m) <=? 1)%nat then (false, m) else
  match next_server (length (servers m)) 0 (current_server_idx m) (length (servers m)) with
  | Some i => (true, set_server m i)
  | None => (false, m)
  end.

(** [static_cast<uint32_t>(backoff * multiplier)]: the product is rounded to a
    double and truncated toward zero; it is undefined when the truncated value
    is not a [uint32_t]. *)
Definition scaled (c : ReconnectConfig) (backoff : Z) : res Z :=
  let n := backoff * multiplier_num c in
  let r := Z.sgn n * L3.round53 (Z.abs n) in
  let one := 2 ^ multiplier_exp c in
  if (- one <? r) && (r <? 2 ^ 32 * one) then Ok (Z.quot r one) else Fault.
Fixpoint backoff_loop (n : nat) (c : ReconnectConfig) (backoff : Z) : res Z :=
  match n with
  | O => Ok backoff
  | S n' =>
      let* b := scaled c backoff in
      if max_backoff_ms c <=? b then Ok (max_backoff_ms c) else backoff_loop n' c b
  end.
Definition ComputeBackoff (m : NetworkStateMachine) : res Z :=
  backoff_loop (Z.to_nat (retry_count m)) (config m) (min_backoff_ms (config m)).

(** Milliseconds between two readings; the cast truncates toward zero. *)
Definition elapsed_ms (now since : Z) : Z := Z.quot (now - since) 1000000.

(** ** The handlers *)

Fixpoint first_primary (i : nat) (l : list ServerEndpoint) : nat :=
  match l with
  | [] => 0
  | s :: r => if is_primary s then i else first_primary (S i) r
  end.

Definition SetServers (m : NetworkStateMachine) (l : list ServerEndpoint) : NetworkStateMachine :=
  let idx := match l with [] => current_server_idx m | _ => first_primary 0 l end in
  mkNet (config m) l idx (state m) (retry_count m) (current_backoff_ms m) (last_heartbeat m) (state_enter_time m)
    (last_reconnect_attempt m) (pending_io_count m) (callbacks m) (running m) (trace m).

Definition SetCallbacks (m : NetworkStateMachine) (c : Callbacks) : NetworkStateMachine :=
  mkNet (config m) (servers m) (current_server_idx m) (state m) (retry_count m) (current_backoff_ms m) (last_heartbeat m)
    (state_enter_time m) (last_reconnect_attempt m) (pending_io_count m) c (running m) (trace m).

Definition later (n : nat) (clk : nat -> Z) : nat -> Z := fun i => clk (n + i)%nat.

Definition Start (m : NetworkStateMachine) (clk : nat -> Z) : NetworkStateMachine :=
  let m := set_heartbeat (set_running (reset_backoff m) true (clk 0%nat)) (clk 1%nat) in
  TransitionTo m (match servers m with [] => Offline | _ => Connected end) (later 2 clk).

Definition Stop (m : NetworkStateMachine) (clk : nat -> Z) : NetworkStateMachine :=
  TransitionTo (set_running m false (state_enter_time m)) Offline clk.

Definition OnHeartbeatSuccess (m : NetworkStateMachine) (clk : nat -> Z) : NetworkStateMachine :=
  let cur := state m in
  let m := set_heartbeat m (clk 0%nat) in
  match cur with
  | Detecting | Reconnecting => TransitionTo (reset_backoff m) Connected (later 1 clk)
  | Recovering =>
      let m := TransitionTo (reset_backoff m) Connected (later 1 clk) in
      if on_recovery_complete (callbacks m) then add_event m RecoveryComplete else m
  | _ => m
  end.

Definition OnHeartbeatTimeout (m : NetworkStateMachine) (clk : nat -> Z) : NetworkStateMachine :=
  match state m with
  | Connected => TransitionTo m Detecting clk
  | Detecting => TransitionTo m Disconnected clk
  | _ => m
  end.

Definition OnIoSuccess (m : NetworkStateMachine) (clk : nat -> Z) : NetworkStateMachine :=
  let m := if 0 <? pending_io_count m then set_pending m (pending_io_count m - 1) else m in
  set_heartbeat m (clk 0%nat).

Definition OnIoError (m : NetworkStateMachine) (clk : nat -> Z) : NetworkStateMachine :=
  let m := set_pending m (u32 (pending_io_count m + 1)) in
  match state m with Connected => TransitionTo m Detecting clk | _ => m end.

Definition GetActiveServer (m : NetworkStateMachine) : res ServerEndpoint :=
  of_opt (servers m !! current_server_idx m).
Definition IsConnected (m : NetworkStateMachine) : bool := bool_decide (state m = Connected).
Definition CanPerformIo (m : NetworkStateMachine) : bool :=
  bool_decide (state m = Connected) || bool_decide (state m = Detecting).

(** One attempt of the Reconnecting state; [ok] is the callback's answer. *)
Definition AttemptFailed (m : NetworkStateMachine) (now : Z) (clk : nat -> Z) : res NetworkStateMachine :=
  let m := set_retry m (u32 (retry_count m + 1)) (current_backoff_ms m) in
  if max_retry_count (config m) <=? retry_count m then
    match TryNextServer m with
    | (false, m) => Ok (TransitionTo m Offline clk)
    | (true, m) => Ok (TransitionTo (set_retry m 0 (current_backoff_ms m)) Reconnecting clk)
    end
  else
    let* b := ComputeBackoff m in
    Ok (set_attempt (set_retry m (retry_count m) b) now).

Definition Tick (m : NetworkStateMachine) (ok : bool) (clk : nat -> Z) : res NetworkStateMachine :=
  if negb (running m) then Ok m else
  let now := clk 0%nat in
  let clk := later 1 clk in
  match state m with
  | Connected => Ok (if detect_timeout_ms (config m) <? elapsed_ms now (last_heartbeat m)
                     then TransitionTo m Detecting clk else m)
  | Detecting => Ok (if detect_timeout_ms (config m) <? elapsed_ms now (state_enter_time m)
                     then TransitionTo m Disconnected clk else m)
  | Disconnected => Ok (TryReconnect m clk)
  | Reconnecting =>
      if current_backoff_ms m <=? elapsed_ms now (last_reconnect_attempt m) then
        if on_connect_attempt (callbacks m) && negb (bool_decide (servers m = [])) then
          let* s := of_opt (servers m !! current_server_idx m) in
          let m := add_event m (ConnectAttempt s) in
          if ok then Ok (TransitionTo (reset_backoff m) Recovering clk) else AttemptFailed m now clk
        else Ok m
      else Ok m
  | Recovering => Ok (if recovery_timeout_ms (config m) <? elapsed_ms now (state_enter_time m)
                      then TransitionTo m Disconnected clk else m)
  | Offline => Ok m
  end.

(** A snapshot for the user interface. *)
Record ConnectionStateInfo : Type := mkInfo {
  i_state : ConnectionState;
  i_retry_count : Z;
  i_current_backoff_ms : Z;
  i_last_heartbeat_ms : Z;
  i_state_enter_time_ms : Z;
  i_active_server : list Z;
  i_pending_io_count : Z;
}.
Definition GetStateInfo (m : NetworkStateMachine) : ConnectionStateInfo :=
  mkInfo (state m) (retry_count m) (current_backoff_ms m) (u64 (elapsed_ms (last_heartbeat m) 0))
    (u64 (elapsed_ms (state_enter_time m) 0))
    (match servers m !! current_server_idx m with Some s => host s ++ zstr ":" ++ fmt_u (port s) | None => [] end)
    (pending_io_count m).

(** ** The step relation and the invariant *)

Inductive op : Type :=
| OpSetServers (l : list ServerEndpoint)
| OpSetCallbacks (c : Callbacks)
| OpStart (clk : nat -> Z)
| OpStop (clk : nat -> Z)
| OpHeartbeatSuccess (clk : nat -> Z)
| OpHeartbeatTimeout (clk : nat -> Z)
| OpIoSuccess (clk : nat -> Z)
| OpIoError (clk : nat -> Z)
| OpTick (ok : bool) (clk : nat -> Z).

Definition exec (o : op) (m : NetworkStateMachine) : res NetworkStateMachine :=
  match o with
  | OpSetServers l => Ok (SetServers m l)
  | OpSetCallbacks c => Ok (SetCallbacks m c)
  | OpStart clk => Ok (Start m clk)
  | OpStop clk => Ok (Stop m clk)
  | OpHeartbeatSuccess clk => Ok (OnHeartbeatSuccess m clk)
  | OpHeartbeatTimeout clk => Ok (OnHeartbeatTimeout m clk)
  | OpIoSuccess clk => Ok (OnIoSuccess m clk)
  | OpIoError clk => Ok (OnIoError m clk)
  | OpTick ok clk => Tick m ok clk
  end.

Inductive reach (c : ReconnectConfig) : NetworkStateMachine -> Prop :=
| reach_new : reach c (NetworkStateMachine_new c)
| reach_step o m m' : reach c m -> exec o m = Ok m' -> reach c m'.

(** The values the fields' types hold: [uint32_t] and a finite [double]. *)
Record cfg_wf (c : ReconnectConfig) : Prop := {
  cw_min : 0 <= min_backoff_ms c < 2 ^ 32;
  cw_max : 0 <= max_backoff_ms c < 2 ^ 32;
  cw_exp : 0 <= multiplier_exp c;
  cw_retry : 0 <= max_retry_count c < 2 ^ 32;
}.

(** The largest back-off the machine waits for. *)
Definition longest (c : ReconnectConfig) : Z := Z.max (min_backoff_ms c) (max_backoff_ms c).

(** The multiplier is not negative and takes no back-off past [UINT32_MAX]. *)
Definition in_range (c : ReconnectConfig) : Prop :=
  0 <= multiplier_num c /\ longest c * multiplier_num c <= (2 ^ 32 - 1) * 2 ^ multiplier_exp c.

Record net_inv (c : ReconnectConfig) (m : NetworkStateMachine) : Prop := {
  ni_config : config m = c;
  ni_server : servers m = [] \/ (current_server_idx m < length (servers m))%nat;
  ni_backoff : 0 <= current_backoff_ms m <= longest c;
  ni_growing : 2 ^ multiplier_exp c <= multiplier_num c -> min_backoff_ms c <= max_backoff_ms c ->
    min_backoff_ms c <= current_backoff_ms m;
  ni_retry : 0 <= retry_count m <= Z.max 1 (max_retry_count c);
  ni_reconnecting : state m = Reconnecting -> retry_count m < Z.max 1 (max_retry_count c);
  ni_pending : 0 <= pending_io_count m < 2 ^ 32;
}.

(** ** Lemmas *)

Lemma round53_small n : n < 2 ^ 53 -> L3.round53 n = n.
Proof. intros. unfold L3.round53. by rewrite (proj2 (Z.ltb_lt _ _)). Qed.

(** Rounding does not cross a number with at most 53 significant bits. *)
Lemma round53_split n : 2 ^ 53 <= n ->
  exists s q r, 1 <= s /\ 2 ^ 52 <= q /\ n = q * 2 ^ s + r /\ 0 <= r < 2 ^ s /\
    (L3.round53 n = q * 2 ^ s \/ (0 < r /\ L3.round53 n = (q + 1) * 2 ^ s)).
Proof.
  intros Hn. set (s := Z.log2 n - 52). assert (53 <= Z.log2 n) as Hl by (apply Z.log2_le_pow2; lia).
  assert (0 < 2 ^ s) as Hp by (apply Z.pow_pos_nonneg; lia).
  exists s, (n / 2 ^ s), (n mod 2 ^ s). pose proof (Z.mod_pos_bound n (2 ^ s) Hp) as Hr. split_and!; try lia.
  - apply Z.div_le_lower_bound; [done|]. rewrite <- Z.pow_add_r by lia. replace (s + 52) with (Z.log2 n) by lia.
    by apply Z.log2_spec; lia.
  - pose proof (Z.div_mod n (2 ^ s)). lia.
  - unfold L3.round53. rewrite (proj2 (Z.ltb_ge _ _)) by lia. fold s. cbv zeta.
    destruct ((_ <? _) || _) eqn:Hup; [right|by left]. split; [|done].
    apply orb_true_iff in Hup as [Hup|Hup]; [apply Z.ltb_lt in Hup|apply andb_true_iff in Hup as [Hup _]; apply Z.eqb_eq in Hup];
      assert (0 < 2 ^ (s - 1)) by (apply Z.pow_pos_nonneg; lia); lia.
Qed.

Lemma round53_mono_ge b e n : 0 <= b < 2 ^ 53 -> 0 <= e -> b * 2 ^ e <= n -> b * 2 ^ e <= L3.round53 n.
Proof.
  intros Hb He Hx. destruct (Z.lt_ge_cases n (2 ^ 53)) as [|Hn]; [by rewrite round53_small|].
  destruct (round53_split n Hn) as (s & q & r & Hs & Hq & En & Hr & Hc).
  assert (b * 2 ^ e <= q * 2 ^ s); [|destruct Hc as [->|[_ ->]]; nia].
  destruct (Z.le_gt_cases s e) as [Hse|Hse].
  - assert (2 ^ e = 2 ^ (e - s) * 2 ^ s) as Ee by (rewrite <- Z.pow_add_r by lia; f_equal; lia).
    rewrite Ee in Hx |- *. assert (b * 2 ^ (e - s) < q + 1) by (apply (Z.mul_lt_mono_pos_r (2 ^ s)); lia). nia.
  - assert (2 ^ s = 2 ^ (s - 1 - e) * 2 * 2 ^ e) as Es.
    { rewrite <- (Z.pow_add_r 2 _ 1), <- Z.pow_add_r by lia. f_equal. lia. }
    assert (0 < 2 ^ (s - 1 - e)) by (apply Z.pow_pos_nonneg; lia).
    assert (0 < 2 ^ e) by (apply Z.pow_pos_nonneg; lia). nia.
Qed.

Lemma round53_mono_le b e n : 0 <= b < 2 ^ 53 -> 0 <= e -> n <= b * 2 ^ e -> L3.round53 n <= b * 2 ^ e.
Proof.
  intros Hb He Hx. destruct (Z.lt_ge_cases n (2 ^ 53)) as [|Hn]; [by rewrite round53_small|].
  destruct (round53_split n Hn) as (s & q & r & Hs & Hq & En & Hr & Hc).
  destruct Hc as [->|[Hr0 ->]]; [lia|].
  destruct (Z.le_gt_cases s e) as [Hse|Hse].
  - assert (2 ^ e = 2 ^ (e - s) * 2 ^ s) as Ee by (rewrite <- Z.pow_add_r by lia; f_equal; lia).
    rewrite Ee in Hx |- *. assert (q < b * 2 ^ (e - s)) by (apply (Z.mul_lt_mono_pos_r (2 ^ s)); lia). nia.
  - exfalso. assert (2 ^ s = 2 ^ (s - 1 - e) * 2 * 2 ^ e) as Es.
    { rewrite <- (Z.pow_add_r 2 _ 1), <- Z.pow_add_r by lia. f_equal. lia. }
    assert (0 < 2 ^ (s - 1 - e)) by (apply Z.pow_pos_nonneg; lia).
    assert (0 < 2 ^ e) by (apply Z.pow_pos_nonneg; lia). nia.
Qed.

Lemma scaled_nonneg c b v : 0 <= multiplier_exp c -> scaled c b = Ok v -> 0 <= v.
Proof.
  intros He. unfold scaled. set (r := Z.sgn _ * _). set (one := 2 ^ multiplier_exp c).
  assert (0 < one) by (apply Z.pow_pos_nonneg; lia). destruct (_ && _) eqn:E; [|done]. intros [= <-].
  apply andb_true_iff in E as [E1 E2]. apply Z.ltb_lt in E1, E2. destruct (Z.le_gt_cases 0 r) as [|Hr].
  - by apply Z.quot_pos.
  - rewrite <- (Z.opp_involutive r), Z.quot_opp_l, Z.quot_small by lia. lia.
Qed.

Lemma scaled_mono c b v : 0 <= multiplier_exp c -> 0 <= b < 2 ^ 32 -> 2 ^ multiplier_exp c <= multiplier_num c ->
  scaled c b = Ok v -> b <= v.
Proof.
  intros He Hb Hm. unfold scaled. set (n := b * multiplier_num c). set (one := 2 ^ multiplier_exp c) in *.
  assert (0 < one) by (apply Z.pow_pos_nonneg; lia). destruct (_ && _); [|done]. intros [= <-].
  assert (b * one <= n) by (unfold n; nia). rewrite (Z.abs_eq n) by nia.
  assert (b * one <= L3.round53 n) by (apply round53_mono_ge; lia).
  destruct (Z.eq_dec n 0) as [E|]; [|rewrite Z.sgn_pos by nia; apply Z.quot_le_lower_bound; lia].
  rewrite E. cbn. rewrite Z.quot_0_l by lia. nia.
Qed.

Lemma scaled_in_range c b : cfg_wf c -> in_range c -> 0 <= b <= longest c -> exists v, scaled c b = Ok v.
Proof.
  intros Hc [Hn Hr] Hb. pose proof (cw_exp _ Hc) as He. unfold scaled. set (n := b * multiplier_num c). set (one := 2 ^ multiplier_exp c) in *.
  assert (0 < one) by (apply Z.pow_pos_nonneg; lia). assert (0 <= n <= (2 ^ 32 - 1) * one) as Hnn by (unfold n; nia).
  rewrite (Z.abs_eq n) by lia.
  assert (0 * 2 ^ 0 <= L3.round53 n) by (apply round53_mono_ge; lia).
  assert (L3.round53 n <= (2 ^ 32 - 1) * one) by (apply round53_mono_le; lia).
  assert (0 <= Z.sgn n <= 1) as Hs by lia.
  rewrite (proj2 (Z.ltb_lt _ _)), (proj2 (Z.ltb_lt _ _)) by nia. by eexists.
Qed.

(** The loop gives a back-off within the bounds, when every conversion is defined. *)
Lemma backoff_loop_bounds c n b v : cfg_wf c -> 0 <= b <= longest c -> backoff_loop n c b = Ok v ->
  0 <= v <= longest c /\
  (2 ^ multiplier_exp c <= multiplier_num c -> min_backoff_ms c <= max_backoff_ms c ->
   min_backoff_ms c <= b -> min_backoff_ms c <= v).
Proof.
  intros Hc. pose proof (cw_max _ Hc). pose proof (cw_min _ Hc). revert b.
  induction n as [|n IH]; intros b Hb; cbn [backoff_loop]; [by intros [= <-]|].
  destruct (scaled c b) as [b'| |] eqn:E; cbn [res_bind]; try done.
  pose proof (scaled_nonneg _ _ _ (cw_exp _ Hc) E).
  destruct (Z.leb_spec (max_backoff_ms c) b').
  { intros [= <-]. unfold longest. split; [lia|done]. }
  intros Ev. destruct (IH b' ltac:(unfold longest; lia) Ev) as [Hv1 Hv2]. split; [done|]. intros Hg Hm Hmb.
  apply Hv2; [done..|]. pose proof (scaled_mono c b b' (cw_exp _ Hc) ltac:(unfold longest in *; lia) Hg E). lia.
Qed.

Lemma backoff_loop_total c n b : cfg_wf c -> in_range c -> 0 <= b <= longest c -> exists v, backoff_loop n c b = Ok v.
Proof.
  intros Hc Hr. pose proof (cw_max _ Hc). revert b. induction n as [|n IH]; intros b Hb; cbn [backoff_loop]; [by eexists|].
  destruct (scaled_in_range c b Hc Hr Hb) as [b' E]. rewrite E. cbn [res_bind].
  pose proof (scaled_nonneg _ _ _ (cw_exp _ Hc) E).
  destruct (Z.leb_spec (max_backoff_ms c) b'); [by eexists|]. apply IH. unfold longest. lia.
Qed.

Lemma backoff_loop_fuel c n b : backoff_loop n c b <> NoFuel.
Proof.
  revert b. induction n as [|n IH]; intros b; cbn [backoff_loop]; [done|]. unfold scaled. cbv zeta.
  destruct (_ && _); cbn [res_bind]; [|done]. by case_match.
Qed.

Lemma first_primary_bound i l : l <> [] -> (first_primary i l < i + length l)%nat.
Proof.
  revert i; induction l as [|s l IH]; intros i Hl; [done|]. simpl. destruct (is_primary s); [lia|].
  destruct l as [|s' l]; [simpl; lia|]. specialize (IH (S i) ltac:(done)). simpl in *. lia.
Qed.

Lemma next_server_spec n i cur len j :
  (cur < len)%nat -> next_server n i cur len = Some j -> (j < len)%nat /\ j <> cur.
Proof.
  intros Hc. revert i. induction n as [|n IH]; intros i E; [done|]. cbn [next_server] in E.
  destruct (Nat.eqb_spec ((cur + 1 + i) mod len) cur) as [|Hne]; [by apply IH in E|].
  injection E as <-. split; [apply Nat.mod_upper_bound; lia|done].
Qed.

(** With two servers or more the first candidate is already another one. *)
Lemma next_server_found cur len :
  (cur < len)%nat -> (2 <= len)%nat -> next_server len 0 cur len = Some ((cur + 1) mod len)%nat.
Proof.
  intros Hc Hl. destruct len as [|n]; [lia|]. cbn [next_server]. rewrite Nat.add_0_r.
  destruct (Nat.eqb_spec ((cur + 1) mod S n) cur) as [He|]; [|done]. exfalso.
  destruct (decide (cur + 1 < S n)%nat); [rewrite Nat.mod_small in He; lia|].
  replace (cur + 1)%nat with (S n) in He by lia. rewrite Nat.Div0.mod_same in He. lia.
Qed.

Lemma TryNextServer_spec m :
  (current_server_idx m < length (servers m))%nat ->
  TryNextServer m = if (length (servers m) <=? 1)%nat then (false, m)
                    else (true, set_server m ((current_server_idx m + 1) mod length (servers m))).
Proof.
  intros Hi. unfold TryNextServer. destruct (Nat.leb_spec (length (servers m)) 1); [done|].
  by rewrite next_server_found by lia.
Qed.

Lemma transition_state m s clk : state (TransitionTo m s clk) = s.
Proof. unfold TransitionTo. by case_bool_decide. Qed.

Lemma transition_other m s clk :
  config (TransitionTo m s clk) = config m /\ servers (TransitionTo m s clk) = servers m /\
  current_server_idx (TransitionTo m s clk) = current_server_idx m /\
  retry_count (TransitionTo m s clk) = retry_count m /\
  current_backoff_ms (TransitionTo m s clk) = current_backoff_ms m /\
  pending_io_count (TransitionTo m s clk) = pending_io_count m /\
  callbacks (TransitionTo m s clk) = callbacks m /\ running (TransitionTo m s clk) = running m.
Proof. unfold TransitionTo. case_bool_decide; done. Qed.

(** A transition keeps the invariant when the retry count allows it. *)
Lemma inv_transition c m s clk :
  net_inv c m -> (s = Reconnecting -> retry_count m < Z.max 1 (max_retry_count c)) -> net_inv c (TransitionTo m s clk).
Proof.
  intros [H1 H2 H3 H4 H5 H6 H7] Hs. destruct (transition_other m s clk) as (E1 & E2 & E3 & E4 & E5 & E6 & _ & _).
  split; rewrite ?E1, ?E2, ?E3, ?E4, ?E5, ?E6, ?transition_state; done.
Qed.

Lemma inv_reset c m : net_inv c m -> cfg_wf c -> net_inv c (reset_backoff m).
Proof.
  intros [H1 H2 H3 H4 H5 H6 H7] Hc. pose proof (cw_min _ Hc). pose proof (cw_retry _ Hc).
  split; cbn [reset_backoff set_retry config servers current_server_idx state retry_count current_backoff_ms pending_io_count];
    rewrite ?H1; try done; unfold longest; lia.
Qed.

(** A refused attempt, past the limit and before it. *)
Lemma attempt_last c m now clk :
  net_inv c m -> cfg_wf c -> state m = Reconnecting -> servers m <> [] -> max_retry_count c <= retry_count m + 1 ->
  exists m', AttemptFailed m now clk = Ok m' /\ net_inv c m' /\ servers m' = servers m /\
    callbacks m' = callbacks m /\ running m' = running m /\
    state m' = (if (length (servers m) <=? 1)%nat then Offline else Reconnecting) /\
    ((2 <= length (servers m))%nat -> retry_count m' = 0 /\ current_backoff_ms m' = current_backoff_ms m /\
       last_reconnect_attempt m' = last_reconnect_attempt m /\ trace m' = trace m /\
       current_server_idx m' = ((current_server_idx m + 1) mod length (servers m))%nat).
Proof.
  intros Hinv Hc Hst Hsv Hlast. pose proof Hinv as [H1 H2 H3 H4 H5 H6 H7]. pose proof (cw_retry _ Hc).
  specialize (H6 Hst). destruct H2 as [H2|H2]; [done|]. unfold AttemptFailed.
  assert (u32 (retry_count m + 1) = retry_count m + 1) as -> by (unfold u32; rewrite wrap_small; lia).
  set (m1 := set_retry m (retry_count m + 1) (current_backoff_ms m)).
  change (config m1) with (config m). rewrite H1. change (retry_count m1) with (retry_count m + 1).
  rewrite (proj2 (Z.leb_le _ _) Hlast), TryNextServer_spec by done. change (servers m1) with (servers m).
  change (current_server_idx m1) with (current_server_idx m).
  destruct (Nat.leb_spec (length (servers m)) 1).
  - eexists. split; [reflexivity|]. destruct (transition_other m1 Offline clk) as (E1 & E2 & E3 & E4 & E5 & E6 & E7 & E8).
    split_and!; rewrite ?E2, ?E7, ?E8, ?transition_state; try done; [|lia].
    split; rewrite ?E1, ?E2, ?E3, ?E4, ?E5, ?E6, ?transition_state; try done; [by right|].
    change (retry_count m1) with (retry_count m + 1). lia.
  - set (m2 := set_retry _ 0 _). assert (state m2 = Reconnecting) as Hs2 by done.
    unfold TransitionTo. rewrite bool_decide_eq_true_2 by done. eexists. split; [reflexivity|].
    split_and!; try done. split; cbn; try done; try lia. right. apply Nat.mod_upper_bound. lia.
Qed.

Lemma attempt_more c m now clk :
  net_inv c m -> cfg_wf c -> state m = Reconnecting -> servers m <> [] -> retry_count m + 1 < max_retry_count c ->
  match AttemptFailed m now clk with
  | Ok m' => net_inv c m' /\ servers m' = servers m /\ callbacks m' = callbacks m /\ running m' = running m /\
      state m' = Reconnecting /\ retry_count m' = retry_count m + 1 /\ last_reconnect_attempt m' = now /\
      current_server_idx m' = current_server_idx m
  | Fault => ~ in_range c
  | NoFuel => False
  end.
Proof.
  intros Hinv Hc Hst Hsv Hmore. pose proof Hinv as [H1 H2 H3 H4 H5 H6 H7]. pose proof (cw_retry _ Hc).
  pose proof (cw_min _ Hc). unfold AttemptFailed.
  assert (u32 (retry_count m + 1) = retry_count m + 1) as -> by (unfold u32; rewrite wrap_small; lia).
  set (m1 := set_retry m (retry_count m + 1) (current_backoff_ms m)).
  change (config m1) with (config m). rewrite H1. change (retry_count m1) with (retry_count m + 1).
  rewrite (proj2 (Z.leb_gt _ _) Hmore). unfold ComputeBackoff. change (config m1) with (config m). rewrite H1.
  set (k := Z.to_nat (retry_count m1)). assert (0 <= min_backoff_ms c <= longest c) as Hb by (unfold longest; lia).
  destruct (backoff_loop k c (min_backoff_ms c)) as [v| |] eqn:E; cbn [res_bind].
  - destruct (backoff_loop_bounds c k _ v Hc Hb E) as [Hv Hg]. split_and!; try done.
    split; cbn; try done; try lia; try (intros ? ?; by apply Hg).
  - intros Hr. destruct (backoff_loop_total c k _ Hc Hr Hb) as [v Ev]. congruence.
  - by apply backoff_loop_fuel in E.
Qed.

(** The invariant only looks at these fields. *)
Lemma inv_frame c m m' :
  net_inv c m -> config m' = config m -> servers m' = servers m -> current_server_idx m' = current_server_idx m ->
  current_backoff_ms m' = current_backoff_ms m -> retry_count m' = retry_count m ->
  (state m' = Reconnecting -> state m = Reconnecting) -> 0 <= pending_io_count m' < 2 ^ 32 -> net_inv c m'.
Proof.
  intros [H1 H2 H3 H4 H5 H6 H7] E1 E2 E3 E4 E5 E6 E7. split; rewrite ?E1, ?E2, ?E3, ?E4, ?E5; auto.
Qed.

Ltac net_frame H := apply (inv_frame _ _ _ H); try done; try (exact (ni_pending _ _ H)).

Lemma start_state m clk : state (Start m clk) = match servers m with [] => Offline | _ => Connected end.
Proof. unfold Start. by rewrite transition_state. Qed.

(** The attempt of a reconnecting machine: the callback is asked and its answer handled. *)
Lemma tick_attempt m ok clk s :
  running m = true -> state m = Reconnecting -> on_connect_attempt (callbacks m) = true ->
  servers m !! current_server_idx m = Some s ->
  current_backoff_ms m <= elapsed_ms (clk 0%nat) (last_reconnect_attempt m) ->
  Tick m ok clk = if ok then Ok (TransitionTo (reset_backoff (add_event m (ConnectAttempt s))) Recovering (later 1 clk))
                  else AttemptFailed (add_event m (ConnectAttempt s)) (clk 0%nat) (later 1 clk).
Proof.
  intros Hr Hs Ha Hl Hb. unfold Tick. rewrite Hr, Hs, Ha, Hl, (proj2 (Z.leb_le _ _) Hb), bool_decide_eq_false_2; [done|].
  intros E. by rewrite E in Hl.
Qed.

(** ... and without a server, a callback or the time being ripe, nothing happens. *)
Lemma tick_waits m ok clk :
  state m = Reconnecting ->
  on_connect_attempt (callbacks m) = false \/ servers m = [] \/
    elapsed_ms (clk 0%nat) (last_reconnect_attempt m) < current_backoff_ms m ->
  Tick m ok clk = Ok m.
Proof.
  intros Hs Hw. unfold Tick. rewrite Hs. destruct (running m); [|done]. cbv zeta. cbn [negb].
  destruct (Z.leb_spec (current_backoff_ms m) (elapsed_ms (clk 0%nat) (last_reconnect_attempt m))); [|done].
  destruct Hw as [->|[->|]]; [done| |lia]. by rewrite andb_false_r.
Qed.

Lemma add_event_inv c m e : net_inv c m -> net_inv c (add_event m e).
Proof. intros H. by net_frame H. Qed.

(** What a handler may do: keep the invariant, or, on a refused tick only, leave
    the range of the back-off conversion. *)
Definition handled (c : ReconnectConfig) (refused : Prop) (r : res NetworkStateMachine) : Prop :=
  match r with
  | Ok m' => net_inv c m'
  | Fault => refused /\ ~ in_range c
  | NoFuel => False
  end.

Lemma attempt_handled c m now clk : net_inv c m -> cfg_wf c -> state m = Reconnecting -> servers m <> [] ->
  handled c True (AttemptFailed m now clk).
Proof.
  intros H Hc Hs Hsv. destruct (Z.le_gt_cases (max_retry_count c) (retry_count m + 1)) as [Hl|Hl].
  - destruct (attempt_last c m now clk) as (m' & -> & Hm' & _); done.
  - pose proof (attempt_more c m now clk H Hc Hs Hsv Hl) as Hm. unfold handled. case_match; [apply Hm|done|done].
Qed.

Lemma tick_handled c m ok clk : net_inv c m -> cfg_wf c -> handled c (ok = false) (Tick m ok clk).
Proof.
  intros H Hc. destruct (running m) eqn:Hr; [|unfold Tick; by rewrite Hr].
  destruct (state m) eqn:Hs.
  1,2,5: unfold Tick; rewrite Hr, Hs; cbn [negb handled]; case_match; [by apply inv_transition|done].
  - unfold Tick. rewrite Hr, Hs. apply inv_transition; [by apply inv_reset|]. intros _. cbn. lia.
  - destruct (decide (on_connect_attempt (callbacks m) = false \/ servers m = [] \/
      elapsed_ms (clk 0%nat) (last_reconnect_attempt m) < current_backoff_ms m)) as [Hw|Hw].
    { by rewrite tick_waits. }
    assert (servers m <> []) as Hsv by tauto.
    destruct (ni_server _ _ H) as [|Hi]; [done|]. apply lookup_lt_is_Some in Hi as [s Hl].
    rewrite (tick_attempt m ok clk s Hr Hs) by (done || lia || (destruct (on_connect_attempt (callbacks m)); tauto)).
    destruct ok.
    + apply inv_transition; [|done]. apply inv_reset; [by apply add_event_inv|done].
    + pose proof (attempt_handled c (add_event m (ConnectAttempt s)) (clk 0%nat) (later 1 clk)) as Hh.
      unfold handled in *. case_match; (destruct Hh; [by apply add_event_inv|done..]) || (apply Hh; [by apply add_event_inv|done..]).
  - unfold Tick. by rewrite Hr, Hs.
Qed.

Lemma exec_handled c o m : net_inv c m -> cfg_wf c -> handled c (exists clk, o = OpTick false clk) (exec o m).
Proof.
  intros H Hc. destruct o as [l|cb|clk|clk|clk|clk|clk|clk|ok clk]; cbn [exec handled].
  - pose proof H as [H1 H2 H3 H4 H5 H6 H7]. split; try done. destruct l as [|s l]; [by left|right].
    apply (first_primary_bound 0 (s :: l)). done.
  - by net_frame H.
  - unfold Start. apply inv_transition; [|by destruct (servers _)]. net_frame (inv_reset _ _ H Hc).
  - apply inv_transition; [|done]. by net_frame H.
  - unfold OnHeartbeatSuccess. set (m1 := set_heartbeat m _). assert (net_inv c m1) as H1 by (by net_frame H).
    destruct (state m); try done; try (apply inv_transition; [by apply inv_reset|done]).
    case_match; [apply add_event_inv|]; (apply inv_transition; [by apply inv_reset|done]).
  - unfold OnHeartbeatTimeout. destruct (state m); try done; by apply inv_transition.
  - unfold OnIoSuccess. pose proof (ni_pending _ _ H). destruct (Z.ltb_spec 0 (pending_io_count m)); net_frame H. cbn. lia.
  - unfold OnIoError. set (m1 := set_pending m _). assert (net_inv c m1) as H1.
    { net_frame H. cbn. apply Z.mod_pos_bound. lia. }
    destruct (state m1); try done. by apply inv_transition.
  - pose proof (tick_handled c m ok clk H Hc) as Hh. unfold handled in *. case_match; try done.
    destruct Hh as [-> Hh]. eauto.
Qed.

Lemma new_inv c : cfg_wf c -> net_inv c (NetworkStateMachine_new c).
Proof. intros [H1 H2 H3 H4]. split; cbn; try done; unfold longest; try lia. by left. Qed.

Lemma reach_inv c m : cfg_wf c -> reach c m -> net_inv c m.
Proof.
  intros Hc. induction 1 as [|o m m' _ IH E]; [by apply new_inv|].
  pose proof (exec_handled c o m IH Hc) as H2. by rewrite E in H2.
Qed.

(** ** The diagram of the connection states *)

(** The transitions each handler may make. *)
Inductive edge : op -> ConnectionState -> ConnectionState -> Prop :=
| e_start clk s : edge (OpStart clk) s Connected
| e_start_empty clk s : edge (OpStart clk) s Offline
| e_stop clk s : edge (OpStop clk) s Offline
| e_alive clk s : s = Detecting \/ s = Reconnecting \/ s = Recovering -> edge (OpHeartbeatSuccess clk) s Connected
| e_missed clk : edge (OpHeartbeatTimeout clk) Connected Detecting
| e_missed_again clk : edge (OpHeartbeatTimeout clk) Detecting Disconnected
| e_io_error clk : edge (OpIoError clk) Connected Detecting
| e_silent ok clk : edge (OpTick ok clk) Connected Detecting
| e_dead ok clk : edge (OpTick ok clk) Detecting Disconnected
| e_retry ok clk : edge (OpTick ok clk) Disconnected Reconnecting
| e_reached clk : edge (OpTick true clk) Reconnecting Recovering
| e_give_up clk : edge (OpTick false clk) Reconnecting Offline
| e_stuck ok clk : edge (OpTick ok clk) Recovering Disconnected.

Definition is_change (e : event) : bool := match e with StateChange _ _ => true | _ => false end.
Definition changes (m : NetworkStateMachine) : list event := filter is_change (trace m).

(** A handler that goes from [m] to [m'] makes at most one transition, one of
    the diagram, and reports exactly that one. *)
Definition moves (o : op) (m m' : NetworkStateMachine) : Prop :=
  (state m' = state m /\ changes m' = changes m) \/
  (edge o (state m) (state m') /\ state m <> state m' /\
   changes m' = changes m ++ if on_state_change (callbacks m) then [StateChange (state m) (state m')] else []).

Lemma moves_transition o m0 m s clk :
  state m = state m0 -> changes m = changes m0 -> callbacks m = callbacks m0 -> edge o (state m0) s ->
  moves o m0 (TransitionTo m s clk).
Proof.
  intros Hs Ht Hc He. unfold moves. unfold TransitionTo. case_bool_decide as Hd; [left; split; [congruence|done]|right].
  cbn [state set_state]. split_and!; [done|congruence|]. rewrite <- Ht. unfold changes. cbn [trace set_state]. rewrite Hc, Hs.
  destruct (on_state_change (callbacks m0)); [|by rewrite app_nil_r]. by rewrite filter_app.
Qed.

Lemma changes_event m e : is_change e = false -> changes (add_event m e) = changes m.
Proof. intros He. unfold changes. cbn [trace add_event]. rewrite filter_app, filter_cons_False, filter_nil, app_nil_r; [done|]. rewrite He. by intros []. Qed.

Lemma moves_refl o m : moves o m m.
Proof. by left. Qed.

Lemma TryNextServer_frame m :
  state (TryNextServer m).2 = state m /\ trace (TryNextServer m).2 = trace m /\ callbacks (TryNextServer m).2 = callbacks m.
Proof. unfold TryNextServer. case_match; [done|]. by destruct (next_server _ _ _ _). Qed.

Lemma attempt_failed_moves ok clk0 m0 m now clk m' :
  ok = false -> state m = Reconnecting -> state m = state m0 -> changes m = changes m0 -> callbacks m = callbacks m0 ->
  AttemptFailed m now clk = Ok m' -> moves (OpTick ok clk0) m0 m'.
Proof.
  intros -> Hr Hs Ht Hc. unfold AttemptFailed. set (m1 := set_retry _ _ _). case_match.
  - destruct (TryNextServer_frame m1) as (E1 & E2 & E3). destruct (TryNextServer m1) as [[] m2]; cbn [snd] in *; intros [= <-].
    + unfold TransitionTo. rewrite bool_decide_eq_true_2 by (by cbn; rewrite E1). left.
      unfold changes in *. cbn. rewrite E1, E2. by split.
    + apply moves_transition; unfold changes in *; [by rewrite E1|by rewrite E2|by rewrite E3|].
      rewrite <- Hs, Hr. constructor.
  - destruct (ComputeBackoff m1); cbn [res_bind]; try done. intros [= <-]. by left.
Qed.

Lemma tick_moves ok clk m m' : Tick m ok clk = Ok m' -> moves (OpTick ok clk) m m'.
Proof.
  unfold Tick. destruct (running m); [cbn [negb]|intros [= <-]; apply moves_refl]. destruct (state m) eqn:Hs; cbv zeta.
  1,2,5: intros [= <-]; case_match; [|apply moves_refl]; apply moves_transition; try done; rewrite Hs; constructor.
  - intros [= <-]. apply moves_transition; try done. rewrite Hs. constructor.
  - case_match; [|intros [= <-]; apply moves_refl]. case_match; [|intros [= <-]; apply moves_refl].
    destruct (servers m !! current_server_idx m) as [s|]; cbn [of_opt res_bind]; [|done].
    pose proof (changes_event m (ConnectAttempt s) eq_refl). destruct ok.
    + intros [= <-]. apply moves_transition; try done. rewrite Hs. constructor.
    + by apply attempt_failed_moves.
  - intros [= <-]. apply moves_refl.
Qed.

Lemma heartbeat_moves clk m : moves (OpHeartbeatSuccess clk) m (OnHeartbeatSuccess m clk).
Proof.
  unfold OnHeartbeatSuccess.
  assert (forall s, state m = s -> s = Detecting \/ s = Reconnecting \/ s = Recovering ->
    moves (OpHeartbeatSuccess clk) m (TransitionTo (reset_backoff (set_heartbeat m (clk 0%nat))) Connected (later 1 clk))) as Hm.
  { intros s Hs Hd. apply moves_transition; try done. rewrite Hs. by constructor. }
  destruct (state m) eqn:Hs; try (by left); try (by eapply Hm; eauto).
  specialize (Hm Recovering eq_refl ltac:(auto)). set (m1 := TransitionTo _ _ _) in *.
  case_match; [|done]. unfold moves in *. by rewrite (changes_event m1 RecoveryComplete eq_refl).
Qed.

Lemma exec_moves o m m' : exec o m = Ok m' -> moves o m m'.
Proof.
  destruct o as [l|cb|clk|clk|clk|clk|clk|clk|ok clk]; cbn [exec]; [..|apply tick_moves]; intros [= <-];
    try (by left); try apply heartbeat_moves.
  - unfold Start. destruct (servers _); apply moves_transition; try done; constructor.
  - apply moves_transition; try done. constructor.
  - unfold OnHeartbeatTimeout. destruct (state m) eqn:Hs; try (by left); apply moves_transition; try done; rewrite Hs; constructor.
  - unfold OnIoSuccess. left. by destruct (0 <? pending_io_count m).
  - unfold OnIoError. set (m1 := set_pending m _). change (state m1) with (state m).
    destruct (state m) eqn:Hs; try (left; done). apply moves_transition; try done. rewrite Hs. constructor.
Qed.

(** ** Failing ticks *)

(** Ticks at the times [ts], every connection attempt refused. *)
Fixpoint fail_ticks (ts : list Z) (m : NetworkStateMachine) : res NetworkStateMachine :=
  match ts with
  | [] => Ok m
  | t :: r => let* m' := Tick m false (fun _ => t) in fail_ticks r m'
  end.

(** Every tick comes at least [d] milliseconds after the one before. *)
Fixpoint spaced (d t : Z) (ts : list Z) : Prop :=
  match ts with
  | [] => True
  | t' :: r => t + d * 1000000 <= t' /\ spaced d t' r
  end.

Definition is_attempt (e : event) : bool := match e with ConnectAttempt _ => true | _ => false end.
Definition attempts (m : NetworkStateMachine) : list event := filter is_attempt (trace m).

(** A machine that tries to reach the server [s]. *)
Record trying (c : ReconnectConfig) (s : ServerEndpoint) (m : NetworkStateMachine) : Prop := {
  tr_inv : net_inv c m;
  tr_run : running m = true;
  tr_state : state m = Reconnecting;
  tr_cb : on_connect_attempt (callbacks m) = true;
  tr_server : servers m !! current_server_idx m = Some s;
}.

Lemma attempts_event m s : attempts (add_event m (ConnectAttempt s)) = attempts m ++ [ConnectAttempt s].
Proof. unfold attempts. cbn [trace add_event]. by rewrite filter_app. Qed.

Lemma attempts_transition m s clk : attempts (TransitionTo m s clk) = attempts m.
Proof.
  unfold TransitionTo. case_bool_decide; [done|]. unfold attempts. cbn [trace set_state].
  destruct (on_state_change (callbacks m)); [|done]. by rewrite filter_app, app_nil_r.
Qed.

Lemma attempt_failed_attempts m now clk m' : AttemptFailed m now clk = Ok m' -> attempts m' = attempts m.
Proof.
  unfold AttemptFailed. set (m1 := set_retry _ _ _). case_match.
  - destruct (TryNextServer_frame m1) as (_ & E2 & _). destruct (TryNextServer m1) as [[] m2]; intros [= <-];
      rewrite attempts_transition; unfold attempts; cbn in *; by rewrite E2.
  - destruct (ComputeBackoff m1); cbn [res_bind]; try done. by intros [= <-].
Qed.

Lemma elapsed_ge now since d : since + d * 1000000 <= now -> 0 <= d -> d <= elapsed_ms now since.
Proof.
  intros H Hd. unfold elapsed_ms. apply Z.quot_le_lower_bound; lia.
Qed.

(** One refused attempt. *)
Lemma fail_tick c s m t :
  trying c s m -> cfg_wf c -> in_range c -> current_backoff_ms m <= elapsed_ms t (last_reconnect_attempt m) ->
  exists m', Tick m false (fun _ => t) = Ok m' /\ net_inv c m' /\ servers m' = servers m /\
    callbacks m' = callbacks m /\ running m' = true /\ attempts m' = attempts m ++ [ConnectAttempt s] /\
    if max_retry_count c <=? retry_count m + 1 then
      state m' = (if (length (servers m) <=? 1)%nat then Offline else Reconnecting) /\
      ((2 <= length (servers m))%nat -> retry_count m' = 0 /\ current_backoff_ms m' = current_backoff_ms m /\
         last_reconnect_attempt m' = last_reconnect_attempt m /\
         current_server_idx m' = ((current_server_idx m + 1) mod length (servers m))%nat)
    else trying c s m' /\ retry_count m' = retry_count m + 1 /\ last_reconnect_attempt m' = t /\
      current_server_idx m' = current_server_idx m.
Proof.
  intros [Hi Hr Hs Ha Hl] Hc Hrg Hb. rewrite (tick_attempt m false (fun _ => t) s) by done. cbv beta.
  set (m1 := add_event m (ConnectAttempt s)). set (clk := later 1 (fun _ => t)).
  assert (servers m1 <> []) as Hsv by (intros E; change (servers m = []) in E; by rewrite E in Hl).
  assert (net_inv c m1) as Hi1 by (by apply add_event_inv).
  assert (forall m', AttemptFailed m1 t clk = Ok m' -> attempts m' = attempts m ++ [ConnectAttempt s]) as Hat.
  { intros m' E. by rewrite (attempt_failed_attempts _ _ _ _ E), <- attempts_event. }
  destruct (Z.leb_spec (max_retry_count c) (retry_count m + 1)) as [Hlast|Hmore].
  - destruct (attempt_last c m1 t clk) as (m' & E & H1 & H2 & H3 & H4 & H5 & H6); try done.
    exists m'. split_and!; auto; [by rewrite H4|]. intros Hl2. destruct (H6 Hl2) as (? & ? & ? & _ & ?). done.
  - pose proof (attempt_more c m1 t clk Hi1 Hc Hs Hsv Hmore) as Hm.
    destruct (AttemptFailed m1 t clk) as [m'| |] eqn:E; [|done..]. destruct Hm as (H1 & H2 & H3 & H4 & H5 & H6 & H7 & H8).
    exists m'. split_and!; auto; [by rewrite H4|]. split; try done; [by rewrite H4|by rewrite H3|]. by rewrite H2, H8.
Qed.

(** C11. The life of the connection machine, for every configuration its fields'
    types hold (any [uint32_t] delays and limit, any finite multiplier): from
    construction, whatever sequence of server lists, callbacks, starts, stops,
    heartbeats, I/O results and ticks, the active server index stays inside the
    server list; the back-off never passes the larger of the two configured
    delays, and when the multiplier is at least one and the delays are in order
    it is never below the smaller; the retry count never passes the limit, where
    a limit of 0 acts as a limit of 1. Every handler runs to its end, except that a
    tick whose attempt is refused may convert a back-off that is no [uint32_t],
    which is undefined; that cannot happen when the multiplier is not negative
    and its product with the larger delay fits in 32 bits. Asking for the active
    server reads outside the vector exactly when no server is configured. *)
Theorem net_invariant c m o :
  cfg_wf c -> reach c m ->
  net_inv c m /\
  match exec o m with
  | Ok m' => net_inv c m'
  | Fault => (exists clk, o = OpTick false clk) /\ ~ in_range c
  | NoFuel => False
  end /\
  (GetActiveServer m = Fault <-> servers m = []).
Proof.
  intros Hc Hr. pose proof (reach_inv c m Hc Hr) as H. split_and!; [done|by apply exec_handled|].
  unfold GetActiveServer. destruct (ni_server _ _ H) as [E|Hi]; [by rewrite E|].
  apply lookup_lt_is_Some in Hi as Hi'. destruct Hi' as [s Hs]. rewrite Hs. split; [done|]. intros E. by rewrite E in Hi; cbn in Hi; lia.
Qed.

Lemma default_wf : cfg_wf default_config.
Proof. split; cbn; lia. Qed.

Lemma default_in_range : in_range default_config.
Proof. split; vm_compute; done. Qed.

(** The schedule of the defaults: the back-off doubles up to its maximum. *)
Lemma backoff_doubles m : config m = default_config -> 0 <= retry_count m ->
  ComputeBackoff m = Ok (Z.min 30000 (1000 * 2 ^ retry_count m)).
Proof.
  intros Hc Hr. unfold ComputeBackoff. rewrite Hc.
  assert (forall n b, 0 <= b <= 30000 -> backoff_loop n default_config b = Ok (Z.min 30000 (b * 2 ^ Z.of_nat n))) as Hl.
  { induction n as [|n IH]; intros b Hb; cbn [backoff_loop]; [f_equal; change (2 ^ Z.of_nat 0) with 1; lia|].
    assert (scaled default_config b = Ok (2 * b)) as ->.
    { unfold scaled. cbn [multiplier_num multiplier_exp default_config]. rewrite Z.pow_0_r, Z.quot_1_r, round53_small by lia.
      rewrite (Z.mul_comm (Z.sgn _)), Z.abs_sgn, (proj2 (Z.ltb_lt _ _)), (proj2 (Z.ltb_lt _ _)) by lia. cbn [andb]. f_equal. lia. }
    cbn [res_bind max_backoff_ms default_config].
    replace (b * 2 ^ Z.of_nat (S n)) with (2 * b * 2 ^ Z.of_nat n) by (rewrite Nat2Z.inj_succ, Z.pow_succ_r by lia; lia).
    assert (1 <= 2 ^ Z.of_nat n) by (pose proof (Z.pow_pos_nonneg 2 (Z.of_nat n)); lia).
    destruct (Z.leb_spec 30000 (2 * b)); [f_equal; nia|]. apply IH. lia. }
  rewrite Hl by (cbn; lia). by rewrite Z2Nat.id by lia.
Qed.

Definition server1 : ServerEndpoint := mkServer (zstr "10.0.0.1") 9527 true.
Definition server2 : ServerEndpoint := mkServer (zstr "10.0.0.2") 9527 false.
Definition all_callbacks : Callbacks := mkCallbacks true true true.
(** A machine on the servers [l], driven until its first reconnection attempt is due. *)
Definition lost (l : list ServerEndpoint) : NetworkStateMachine :=
  TryReconnect (OnHeartbeatTimeout (OnHeartbeatTimeout (Start (SetServers (SetCallbacks
    (NetworkStateMachine_new default_config) all_callbacks) l) (fun _ => 0)) (fun _ => 0)) (fun _ => 0)) (fun _ => 0).

Lemma net_invariant_witness :
  exists m, reach default_config m /\ net_inv default_config m /\ state m = Connected.
Proof.
  exists (Start (SetServers (Start (NetworkStateMachine_new default_config) (fun _ => 7)) [server1]) (fun _ => 8)).
  assert (reach default_config (Start (SetServers (Start (NetworkStateMachine_new default_config) (fun _ => 7)) [server1]) (fun _ => 8))) as Hr.
  { eapply (reach_step _ (OpStart (fun _ => 8))); [|reflexivity]. eapply (reach_step _ (OpSetServers [server1])); [|reflexivity].
    eapply (reach_step _ (OpStart (fun _ => 7))); [|reflexivity]. constructor. }
  split_and!; [exact Hr| |reflexivity]. exact (proj1 (net_invariant _ _ (OpTick false (fun _ => 0)) default_wf Hr)).
Defined.

(** The handlers follow the connection diagram: each handler makes at most
    one transition, one its diagram allows (only a heartbeat or a start leads to
    Connected, only a refused attempt or a stop to Offline, a tick never leaves
    Offline), and when a state callback is installed it is called exactly once,
    with the old and the new state. *)
Theorem net_follows_diagram o m m' : exec o m = Ok m' -> moves o m m'.
Proof. apply exec_moves. Qed.

Lemma net_follows_diagram_witness :
  moves (OpIoError (fun _ => 5)) (Start (SetServers (NetworkStateMachine_new default_config) [server1]) (fun _ => 0))
    (OnIoError (Start (SetServers (NetworkStateMachine_new default_config) [server1]) (fun _ => 0)) (fun _ => 5)).
Proof. apply net_follows_diagram. reflexivity. Defined.

(** C23. A machine whose server refuses every attempt stops trying it: with ticks
    spaced by the largest back-off and a multiplier whose products with the delays
    fit in 32 bits, each tick makes exactly one attempt, on the same server, and after the
    configured number of refusals the machine is Offline when there is no other
    server, and otherwise tries the next server of the ring with a fresh retry
    count. A limit of 0 is no exception: one refusal ends the attempts on that
    server, where docs/usage.md 12.4 says that 0 means to retry without end. *)
Theorem net_gives_up c s m ts :
  cfg_wf c -> in_range c -> trying c s m -> spaced (longest c) (last_reconnect_attempt m) ts ->
  Z.of_nat (length ts) = (if max_retry_count c =? 0 then 1 else max_retry_count c) - retry_count m ->
  exists m', fail_ticks ts m = Ok m' /\ attempts m' = attempts m ++ replicate (length ts) (ConnectAttempt s) /\
    (length (servers m) = 1%nat -> state m' = Offline) /\
    ((2 <= length (servers m))%nat -> state m' = Reconnecting /\ retry_count m' = 0 /\
       current_server_idx m' = ((current_server_idx m + 1) mod length (servers m))%nat).
Proof.
  intros Hc Hrg. pose proof (cw_retry _ Hc) as Hm.
  replace (if max_retry_count c =? 0 then 1 else max_retry_count c) with (Z.max 1 (max_retry_count c))
    by (destruct (Z.eqb_spec (max_retry_count c) 0); lia).
  revert m. induction ts as [|t ts IH]; intros m Ht Hsp Hlen.
  { exfalso. pose proof (ni_reconnecting _ _ (tr_inv _ _ _ Ht) (tr_state _ _ _ Ht)). cbn in Hlen. lia. }
  destruct Hsp as [Hsp1 Hsp2]. pose proof (ni_backoff _ _ (tr_inv _ _ _ Ht)) as Hb.
  pose proof (ni_retry _ _ (tr_inv _ _ _ Ht)) as Hrt.
  destruct (fail_tick c s m t Ht Hc Hrg) as (m1 & E & _ & Hsv & Hcb & Hr & Hat & Hcase).
  { pose proof (elapsed_ge t (last_reconnect_attempt m) (longest c)). lia. }
  cbn [fail_ticks]. rewrite E. cbn [res_bind length replicate] in *.
  destruct (Z.leb_spec (max_retry_count c) (retry_count m + 1)) as [Hlast|Hmore].
  - destruct ts as [|t2 ts]; [|cbn [length] in Hlen; lia]. exists m1. destruct Hcase as [Hs Hcase].
    split_and!; [done|done| |].
    + intros Hl. by rewrite Hl in Hs.
    + intros Hl. destruct (Hcase Hl) as (H1 & _ & _ & H2). rewrite (proj2 (Nat.leb_gt _ _)) in Hs by lia. done.
  - destruct Hcase as (Ht1 & Hr1 & Hl1 & Hix). destruct (IH m1 Ht1) as (m' & E' & Hat' & H1 & H2); [by rewrite Hl1|lia|].
    exists m'. rewrite Hsv in *. split_and!; try done; [by rewrite Hat', Hat, <- app_assoc|].
    by rewrite <- Hix.
Qed.

Lemma lost_trying l s : l !! first_primary 0 l = Some s -> trying default_config s (lost l).
Proof.
  intros Hl. destruct l as [|a l]; [done|]. pose proof (first_primary_bound 0 (a :: l) ltac:(done)).
  split; try done. split; cbn; try lia; try done. right. done.
Qed.

(** The defaults with a limit of 0. *)
Definition no_retries : ReconnectConfig := mkConfig 5000 1000 30000 2 0 0 30000.
Definition lost_no_retries : NetworkStateMachine :=
  TryReconnect (OnHeartbeatTimeout (OnHeartbeatTimeout (Start (SetServers (SetCallbacks
    (NetworkStateMachine_new no_retries) all_callbacks) [server1]) (fun _ => 0)) (fun _ => 0)) (fun _ => 0)) (fun _ => 0).

Lemma net_gives_up_witness :
  (exists m', fail_ticks ((fun k => 30000000000 * Z.of_nat k) <$> seq 1 10) (lost [server1]) = Ok m' /\ state m' = Offline) /\
  (exists m', fail_ticks [30000000000] lost_no_retries = Ok m' /\ state m' = Offline).
Proof.
  split.
  - destruct (net_gives_up default_config server1 (lost [server1]) ((fun k => 30000000000 * Z.of_nat k) <$> seq 1 10)
      default_wf default_in_range (lost_trying [server1] server1 eq_refl)) as (m' & E & _ & H & _); [by vm_compute|by vm_compute|].
    exists m'. split; [exact E|by apply H].
  - destruct (net_gives_up no_retries server1 lost_no_retries [30000000000]) as (m' & E & _ & H & _);
      [split; cbn; lia|by vm_compute| |by vm_compute|by vm_compute|exists m'; split; [exact E|by apply H]].
    split; try (by vm_compute). split; try (by vm_compute). right. vm_compute. lia.
Defined.

(** Failing over does not wait: when the last allowed attempt on a server is
    refused and there is another one, the machine moves on with the back-off of
    the old server and the time of the attempt before, because the transition
    from Reconnecting to Reconnecting does nothing; so a tick at the very same
    instant already attempts the next server. *)
Theorem net_failover_no_wait c s s' m t :
  cfg_wf c -> in_range c -> trying c s m -> current_backoff_ms m <= elapsed_ms t (last_reconnect_attempt m) ->
  max_retry_count c <= retry_count m + 1 -> (2 <= length (servers m))%nat ->
  servers m !! ((current_server_idx m + 1) mod length (servers m))%nat = Some s' ->
  exists m1 m2, Tick m false (fun _ => t) = Ok m1 /\ current_backoff_ms m1 = current_backoff_ms m /\
    Tick m1 false (fun _ => t) = Ok m2 /\ attempts m2 = attempts m ++ [ConnectAttempt s; ConnectAttempt s'].
Proof.
  intros Hc Hrg Ht Hb Hr Hl Hs'. destruct (fail_tick c s m t Ht Hc Hrg Hb) as (m1 & E1 & Hi1 & Hsv & Hcb & Hrun & Hat & Hcase).
  rewrite (proj2 (Z.leb_le _ _) Hr) in Hcase. destruct Hcase as [Hst Hcase].
  destruct (Hcase Hl) as (Hr1 & Hb1 & Hla & Hix). rewrite (proj2 (Nat.leb_gt _ _)) in Hst by lia.
  destruct (fail_tick c s' m1 t) as (m2 & E2 & _ & _ & _ & _ & Hat2 & _); [|done|done|by rewrite Hb1, Hla|].
  { split; try done; [rewrite Hcb; apply Ht|by rewrite Hsv, Hix]. }
  exists m1, m2. split_and!; try done. by rewrite Hat2, Hat, <- app_assoc.
Qed.

(** Two servers, nine attempts on the first refused. *)
Definition nine_refused : NetworkStateMachine :=
  match fail_ticks ((fun k => 30000000000 * Z.of_nat k) <$> seq 1 9) (lost [server1; server2]) with Ok m => m | _ => lost [] end.

Lemma nine_refused_trying : trying default_config server1 nine_refused.
Proof.
  split; try (by vm_compute). split; try (by vm_compute).
  right. vm_compute. lia.
Qed.

Lemma net_failover_no_wait_witness :
  exists m1 m2, Tick nine_refused false (fun _ => 300000000000) = Ok m1 /\ current_backoff_ms m1 = 30000 /\
    Tick m1 false (fun _ => 300000000000) = Ok m2 /\
    attempts m2 = attempts nine_refused ++ [ConnectAttempt server1; ConnectAttempt server2].
Proof.
  apply (net_failover_no_wait default_config server1 server2 nine_refused 300000000000 default_wf default_in_range nine_refused_trying);
    [by vm_compute|by vm_compute|vm_compute; lia|reflexivity].
Defined.
