(* ===== verification/Packed.v ===== *)
(** * Packed structures and their memory images

    The client and the tools write C structures declared with
    [#pragma pack(1)] to the network and to disk as they lie in memory: the
    fields one after the other, integers little-endian. [Packed] is the interface
    of such a structure: its fields as byte strings, their sizes, and the way
    back. What the codecs prove they prove against the interface. *)

From S2P Require Import Prelude.

(** Cut a byte string into pieces of the given sizes. *)
Fixpoint cut (ws : list nat) (bs : list Z) : list (list Z) :=
  match ws with
  | [] => []
  | w :: r => take w bs :: cut r (drop w bs)
  end.

(** The values of an integer field of [n] bytes and of an array of [n] bytes. *)
Definition int_ok (n : nat) (z : Z) : Prop := 0 <= z < 2 ^ (8 * Z.of_nat n).
Definition arr_ok (n : nat) (l : list Z) : Prop := length l = n /\ Forall is_byte l.

(** A signed integer field: its values and how it is read. *)
Definition sint_ok (n : nat) (z : Z) : Prop := - 2 ^ (8 * Z.of_nat n - 1) <= z < 2 ^ (8 * Z.of_nat n - 1).
Definition sle_val (bs : list Z) : Z := sgn (8 * Z.of_nat (length bs)) (le_val bs).

Class Packed (A : Type) : Type := {
  p_sizes : list nat;
  p_fields : A -> list (list Z);
  p_make : list (list Z) -> A;
  p_wf : A -> Prop;
  p_fields_ok a : p_wf a -> length <$> p_fields a = p_sizes /\ Forall (Forall is_byte) (p_fields a);
  p_make_fields a : p_wf a -> p_make (p_fields a) = a;
  p_fields_make fs : length <$> fs = p_sizes -> Forall (Forall is_byte) fs ->
    p_wf (p_make fs) /\ p_fields (p_make fs) = fs;
}.

Definition sizeof (A : Type) `{Packed A} : nat := sum_list p_sizes.
Definition bytes_of {A} `{Packed A} (a : A) : list Z := concat (p_fields a).
Definition of_bytes {A} `{Packed A} (bs : list Z) : A := p_make (cut p_sizes bs).

(** ** Lemmas *)

Lemma cut_concat fs r : cut (length <$> fs) (concat fs ++ r) = fs.
Proof.
  induction fs as [|f fs IH]; [done|]. cbn. rewrite <- app_assoc, take_app_length, drop_app_length. by rewrite IH.
Qed.

Lemma concat_length (fs : list (list Z)) : length (concat fs) = sum_list (length <$> fs).
Proof. induction fs as [|f fs IH]; [done|]. cbn. by rewrite length_app, IH. Qed.

Lemma cut_sizes ws bs : (sum_list ws <= length bs)%nat -> length <$> cut ws bs = ws.
Proof.
  revert bs; induction ws as [|w ws IH]; intros bs Hl; [done|]. cbn in *.
  rewrite length_take, Nat.min_l by lia. f_equal. apply IH. rewrite length_drop. lia.
Qed.

Lemma cut_bytes ws bs : Forall is_byte bs -> Forall (Forall is_byte) (cut ws bs).
Proof.
  revert bs; induction ws as [|w ws IH]; intros bs Hb; [constructor|]. cbn. constructor; [by apply Forall_take|].
  by apply IH, Forall_drop.
Qed.

Lemma concat_cut ws bs : concat (cut ws bs) = take (sum_list ws) bs.
Proof.
  revert bs; induction ws as [|w ws IH]; intros bs; [done|]. cbn. rewrite IH.
  by rewrite <- take_take_drop.
Qed.

Lemma cut_take ws bs n : (sum_list ws <= n)%nat -> cut ws (take n bs) = cut ws bs.
Proof.
  revert bs n; induction ws as [|w ws IH]; intros bs n Hn; [done|]. cbn in *.
  rewrite take_take, Nat.min_l by lia. f_equal. rewrite skipn_firstn_comm. apply IH. lia.
Qed.

Section Packed.
Context {A : Type} `{Packed A}.

Lemma bytes_of_length (a : A) : p_wf a -> length (bytes_of a) = sizeof A.
Proof. intros Ha. unfold bytes_of. rewrite concat_length. by rewrite (proj1 (p_fields_ok a Ha)). Qed.

Lemma bytes_of_bytes (a : A) : p_wf a -> Forall is_byte (bytes_of a).
Proof. intros Ha. unfold bytes_of. apply Forall_concat. by apply p_fields_ok. Qed.

(** Writing a structure and reading it back, whatever follows it. *)
Lemma of_bytes_of (a : A) r : p_wf a -> of_bytes (bytes_of a ++ r) = a.
Proof.
  intros Ha. unfold of_bytes, bytes_of. rewrite <- (proj1 (p_fields_ok a Ha)), cut_concat. by apply p_make_fields.
Qed.

Lemma of_bytes_of' (a : A) : p_wf a -> of_bytes (bytes_of a) = a.
Proof. intros Ha. rewrite <- (app_nil_r (bytes_of a)). by apply of_bytes_of. Qed.

(** Reading any bytes as a structure and writing it gives the same bytes. *)
Lemma bytes_of_of bs : Forall is_byte bs -> (sizeof A <= length bs)%nat ->
  p_wf (of_bytes (A:=A) bs) /\ bytes_of (of_bytes (A:=A) bs) = take (sizeof A) bs.
Proof.
  intros Hb Hl. unfold of_bytes, bytes_of.
  destruct (p_fields_make (cut p_sizes bs)) as [H1 H2]; [by apply cut_sizes|by apply cut_bytes|].
  split; [done|]. rewrite H2. apply concat_cut.
Qed.

(** The first fields of a structure are the first bytes of its image. *)
Lemma bytes_of_take (a : A) k :
  p_wf a -> take (sum_list (take k p_sizes)) (bytes_of a) = concat (take k (p_fields a)).
Proof.
  intros Ha. unfold bytes_of. rewrite <- (proj1 (p_fields_ok a Ha)), <- fmap_take, <- concat_length.
  rewrite <- (take_drop k (p_fields a)) at 2. by rewrite concat_app, take_app_length.
Qed.

Lemma of_bytes_take bs n : (sizeof A <= n)%nat -> of_bytes (A:=A) (take n bs) = of_bytes bs.
Proof. intros Hn. unfold of_bytes. by rewrite cut_take. Qed.
End Packed.

Lemma le_bytes_int n bs : length bs = n -> Forall is_byte bs -> le_bytes n (le_val bs) = bs.
Proof. intros <-. apply le_bytes_le_val. Qed.

Lemma int_ok_val n bs : length bs = n -> Forall is_byte bs -> int_ok n (le_val bs).
Proof. intros <- Hb. by apply le_val_bound. Qed.

Lemma int_ok_read n z : int_ok n z -> le_val (le_bytes n z) = z.
Proof. intros Hz. rewrite le_val_le_bytes. by apply Z.mod_small. Qed.

Lemma sint_ok_read n z : (0 < n)%nat -> sint_ok n z -> sle_val (le_bytes n z) = z.
Proof.
  intros Hn [H1 H2]. unfold sle_val, sgn, wrap. rewrite le_val_le_bytes, le_bytes_length, Z.mod_mod by (apply Z.pow_nonzero; lia).
  set (w := 8 * Z.of_nat n) in *. assert (2 ^ w = 2 * 2 ^ (w - 1)) as E by (rewrite <- Z.pow_succ_r by lia; f_equal; lia).
  assert (0 < 2 ^ (w - 1)) by (apply Z.pow_pos_nonneg; lia). cbv zeta. destruct (Z.le_gt_cases 0 z).
  - rewrite Z.mod_small by lia. by rewrite (proj2 (Z.ltb_lt _ _)) by lia.
  - rewrite <- (Z_mod_plus_full z 1), Z.mod_small by lia. rewrite (proj2 (Z.ltb_ge _ _)) by lia. lia.
Qed.

Lemma sint_ok_val n bs : (0 < n)%nat -> length bs = n -> Forall is_byte bs -> sint_ok n (sle_val bs).
Proof.
  intros Hn <- Hb. pose proof (le_val_bound bs Hb). unfold sint_ok, sle_val, sgn, wrap. cbv zeta.
  rewrite Z.mod_small by done. set (w := 8 * Z.of_nat (length bs)) in *.
  assert (2 ^ w = 2 * 2 ^ (w - 1)) as E by (rewrite <- Z.pow_succ_r by lia; f_equal; lia).
  assert (0 < 2 ^ (w - 1)) by (apply Z.pow_pos_nonneg; lia). destruct (Z.ltb_spec (le_val bs) (2 ^ (w - 1))); lia.
Qed.

Lemma le_bytes_mod n z : le_bytes n (z mod 2 ^ (8 * Z.of_nat n)) = le_bytes n z.
Proof.
  rewrite <- le_val_le_bytes. rewrite <- (le_bytes_length n z) at 1. apply le_bytes_le_val, le_bytes_bytes.
Qed.

Lemma le_bytes_sint n bs : length bs = n -> Forall is_byte bs -> le_bytes n (sle_val bs) = bs.
Proof.
  intros <- Hb. rewrite <- (le_bytes_le_val bs Hb) at 3. rewrite <- le_bytes_mod, <- (le_bytes_mod _ (le_val bs)). f_equal.
  unfold sle_val, sgn, wrap. cbv zeta. destruct (_ <? _); [apply Z.mod_mod; apply Z.pow_nonzero; lia|].
  rewrite <- (Z_mod_plus_full _ 1), Z.mul_1_l, Z.sub_add. apply Z.mod_mod, Z.pow_nonzero; lia.
Qed.

(** The laws of an instance whose fields are [le_bytes] of integers and arrays. *)
Ltac packed_ok :=
  intros ? []; unfold arr_ok in *;
  split; [cbn -[le_bytes]; rewrite ?le_bytes_length; repeat (f_equal; try tauto)
         |repeat (constructor; [first [apply le_bytes_bytes | tauto]|]); constructor].
Ltac packed_read := intros [] []; cbn -[le_bytes le_val sle_val] in *; f_equal;
  first [by apply int_ok_read | apply sint_ok_read; [lia|done]].
Ltac packed_make :=
  let fs := fresh "fs" in let Hl := fresh "Hl" in let Hb := fresh "Hb" in
  intros fs Hl Hb;
  repeat (destruct fs as [|? fs]; [discriminate Hl|]; injection Hl as ? Hl; apply Forall_cons in Hb as [? Hb]);
  destruct fs; [|discriminate Hl];
  split; [split; first [by apply int_ok_val | apply sint_ok_val; [lia|done|done] | by split]
         |cbn -[le_bytes le_val sle_val]; repeat (apply (f_equal2 cons); [first [by apply le_bytes_int | by apply le_bytes_sint | reflexivity]|]); reflexivity].
