(* ===== verification/Codec.v ===== *)
(** * The client's frame codec
    (src/client/common/hd_frame_codec.h, hd_frame_codec.cpp)

    Frames between the client and the servers: a packed 40-byte header and a
    payload. Buffers are blocks of memory; [memcpy] out of a block is a
    [Fault]; the lengths are 32 bits wide and wrap. *)

From S2P Require Import Prelude Nt Crc32c Frame Packed.

Definition FRAME_MAGIC : Z := 0x48444B47.
Definition FRAME_VERSION : Z := 0x0001.
Definition FRAME_HDR_SIZE : Z := 40.

Inductive Opcode : Type :=
| BLOCK_READ_REQ | BLOCK_READ_RSP | BLOCK_WRITE_REQ | BLOCK_WRITE_RSP | HEARTBEAT | HEARTBEAT_ACK
| CACHE_INVALIDATE | PREFETCH_PUSH | VECTOR_READ_REQ | VECTOR_READ_RSP | VECTOR_WRITE_REQ | VECTOR_WRITE_RSP
| ERROR_RSP.

Definition opcode_val (o : Opcode) : Z :=
  match o with
  | BLOCK_READ_REQ => 0x01 | BLOCK_READ_RSP => 0x02 | BLOCK_WRITE_REQ => 0x03 | BLOCK_WRITE_RSP => 0x04
  | HEARTBEAT => 0x10 | HEARTBEAT_ACK => 0x11 | CACHE_INVALIDATE => 0x20 | PREFETCH_PUSH => 0x30
  | VECTOR_READ_REQ => 0x40 | VECTOR_READ_RSP => 0x41 | VECTOR_WRITE_REQ => 0x42 | VECTOR_WRITE_RSP => 0x43
  | ERROR_RSP => 0xFF
  end.

Record FrameHeader : Type := mkFrame {
  magic : Z;
  version : Z;
  opcode : Z;
  flags : Z;
  request_id : Z;
  payload_len : Z;
  image_id : Z;
  block_offset : Z;
  block_count : Z;
  layer_id : Z;
  reserved : list Z;
}.

Record frame_wf (h : FrameHeader) : Prop := {
  fw_magic : int_ok 4 (magic h);
  fw_version : int_ok 2 (version h);
  fw_opcode : int_ok 1 (opcode h);
  fw_flags : int_ok 1 (flags h);
  fw_request_id : int_ok 4 (request_id h);
  fw_payload_len : int_ok 4 (payload_len h);
  fw_image_id : int_ok 8 (image_id h);
  fw_block_offset : int_ok 8 (block_offset h);
  fw_block_count : int_ok 4 (block_count h);
  fw_layer_id : int_ok 1 (layer_id h);
  fw_reserved : arr_ok 3 (reserved h);
}.

Definition frame_fields_of (h : FrameHeader) : list (list Z) :=
  [le_bytes 4 (magic h); le_bytes 2 (version h); le_bytes 1 (opcode h); le_bytes 1 (flags h);
   le_bytes 4 (request_id h); le_bytes 4 (payload_len h); le_bytes 8 (image_id h); le_bytes 8 (block_offset h);
   le_bytes 4 (block_count h); le_bytes 1 (layer_id h); reserved h].
Definition frame_make (fs : list (list Z)) : FrameHeader :=
  match fs with
  | [a; b; c; d; e; f; g; h; i; j; k] =>
      mkFrame (le_val a) (le_val b) (le_val c) (le_val d) (le_val e) (le_val f) (le_val g) (le_val h) (le_val i) (le_val j) k
  | _ => mkFrame 0 0 0 0 0 0 0 0 0 0 [0; 0; 0]
  end.

#[export, refine] Instance FrameHeader_packed : Packed FrameHeader := {
  p_sizes := [4; 2; 1; 1; 4; 4; 8; 8; 4; 1; 3]%nat;
  p_fields := frame_fields_of;
  p_make := frame_make;
  p_wf := frame_wf;
}.
Proof. packed_ok. packed_read. packed_make. Defined.

(** ** The checksum *)

Definition codec_crc_bit (crc : Z) : Z :=
  if negb (Z.land crc 1 =? 0) then Z.lxor (Z.shiftr crc 1) 0x82F63B78 else Z.shiftr crc 1.
Definition EnsureCrc32cInit (st : CrcStatic) : CrcStatic :=
  if crc32c_table_init st then st
  else mkCrcStatic (Nat.iter 8 codec_crc_bit <$> seqZ 0 256) true.
Definition codec_crc_step (table : list Z) (crc b : Z) : Z :=
  Z.lxor (Z.shiftr crc 8) (table !!! Z.to_nat (Z.land (Z.lxor crc b) 0xFF)).
Definition ComputeCrc32C (data : list Z) (st : CrcStatic) : Z * CrcStatic :=
  let st := EnsureCrc32cInit st in
  (Z.lxor (foldl (codec_crc_step (crc32c_table st)) 0xFFFFFFFF data) 0xFFFFFFFF, st).
Definition ComputeFrameCrc (hdr : FrameHeader) (st : CrcStatic) : Z * CrcStatic := ComputeCrc32C (bytes_of hdr) st.

(** ** Headers and frames *)

Definition EncodeHeader (op : Opcode) (flags request_id payload_len image_id block_offset block_count layer_id : Z)
    : FrameHeader :=
  mkFrame FRAME_MAGIC FRAME_VERSION (opcode_val op) flags request_id payload_len image_id block_offset block_count
    layer_id [0; 0; 0].

Definition ValidateHeader (hdr : FrameHeader) : bool :=
  if negb (magic hdr =? FRAME_MAGIC) then false
  else if negb (version hdr =? FRAME_VERSION) then false
  else if opcode hdr =? 0 then false
  else true.

(** The answer, the buffer and [total_len]. *)
Definition EncodeFrame (buffer : list Z) (buf_size : Z) (hdr : FrameHeader) (payload : option (list Z)) (payload_len : Z)
    : res (bool * list Z * Z) :=
  let total_len := u32 (FRAME_HDR_SIZE + payload_len) in
  if buf_size <? total_len then Ok (false, buffer, total_len) else
  let* buffer := wr buffer 0 (bytes_of hdr) in
  match payload with
  | Some p =>
      if 0 <? payload_len then
        let* src := rd_bytes p 0 payload_len in
        let* buffer := wr buffer FRAME_HDR_SIZE src in
        Ok (true, buffer, total_len)
      else Ok (true, buffer, total_len)
  | None => Ok (true, buffer, total_len)
  end.

(** The answer, the header, the payload buffer and [payload_len]. *)
Definition DecodeFrame (buffer : list Z) (buf_len : Z) (hdr : FrameHeader) (payload : option (list Z))
    (max_payload_len plen : Z) : res (bool * FrameHeader * option (list Z) * Z) :=
  if buf_len <? FRAME_HDR_SIZE then Ok (false, hdr, payload, plen) else
  let* src := rd_bytes buffer 0 FRAME_HDR_SIZE in
  let hdr := of_bytes src in
  if negb (ValidateHeader hdr) then Ok (false, hdr, payload, plen) else
  let plen := payload_len hdr in
  if buf_len <? u32 (FRAME_HDR_SIZE + plen) then Ok (false, hdr, payload, plen)
  else if max_payload_len <? plen then Ok (false, hdr, payload, plen)
  else match payload with
       | Some p =>
           if 0 <? plen then
             let* data := rd_bytes buffer FRAME_HDR_SIZE plen in
             let* p := wr p 0 data in
             Ok (true, hdr, Some p, plen)
           else Ok (true, hdr, payload, plen)
       | None => Ok (true, hdr, payload, plen)
       end.

Definition OpcodeName (op : Z) : string :=
  if op =? 0x01 then "BLOCK_READ_REQ" else if op =? 0x02 then "BLOCK_READ_RSP"
  else if op =? 0x03 then "BLOCK_WRITE_REQ" else if op =? 0x04 then "BLOCK_WRITE_RSP"
  else if op =? 0x10 then "HEARTBEAT" else if op =? 0x11 then "HEARTBEAT_ACK"
  else if op =? 0x20 then "CACHE_INVALIDATE" else if op =? 0x30 then "PREFETCH_PUSH"
  else if op =? 0x40 then "VECTOR_READ_REQ" else if op =? 0x41 then "VECTOR_READ_RSP"
  else if op =? 0x42 then "VECTOR_WRITE_REQ" else if op =? 0x43 then "VECTOR_WRITE_RSP"
  else if op =? 0xFF then "ERROR_RSP" else "UNKNOWN".

(** ** Lemmas *)

Lemma header_size : sizeof FrameHeader = 40%nat.
Proof. done. Qed.

Lemma header_bytes_length h : frame_wf h -> length (bytes_of h) = 40%nat.
Proof. exact (bytes_of_length (A:=FrameHeader) h). Qed.

(** The codec's checksum is the diagnostic tool's, hence the reference. *)
Lemma codec_crc_eq data st : ComputeCrc32C data st = bootdiag_compute_crc32c data st.
Proof. reflexivity. Qed.

(** The buffer after a successful encoding. *)
Definition encoded (h : FrameHeader) (payload buffer : list Z) : list Z :=
  bytes_of h ++ payload ++ drop (40 + length payload) buffer.

Lemma encode_spec h payload buffer buf_size :
  frame_wf h -> 40 + Z.of_nat (length payload) <= buf_size -> buf_size <= Z.of_nat (length buffer) -> buf_size < 2 ^ 32 ->
  EncodeFrame buffer buf_size h (Some payload) (Z.of_nat (length payload)) =
    Ok (true, encoded h payload buffer, 40 + Z.of_nat (length payload)).
Proof.
  intros Hh H1 H2 H3. unfold EncodeFrame, FRAME_HDR_SIZE. pose proof (header_bytes_length h Hh) as Hl.
  unfold u32. rewrite wrap_small by lia. cbv zeta. rewrite (proj2 (Z.ltb_ge _ _)) by lia.
  rewrite wr_ok by lia. cbn [res_bind]. change (Z.to_nat 0) with 0%nat. rewrite copy_at_0, Hl.
  destruct (Z.ltb_spec 0 (Z.of_nat (length payload))).
  - rewrite rd_bytes_ok by lia. cbn [res_bind]. change (Z.to_nat 0) with 0%nat. rewrite Nat2Z.id, drop_0, take_ge by lia.
    rewrite wr_ok by (rewrite ?length_app, ?length_drop; lia). cbn [res_bind]. unfold encoded, copy_at.
    change (Z.to_nat 40) with 40%nat. rewrite take_app_length', drop_app_ge, Hl, drop_drop by lia.
    by replace (40 + (40 + length payload - 40))%nat with (40 + length payload)%nat by lia.
  - destruct payload; [|cbn in *; lia]. done.
Qed.

Lemma encoded_length h payload buffer :
  frame_wf h -> (40 + length payload <= length buffer)%nat -> length (encoded h payload buffer) = length buffer.
Proof. intros Hh Hl. unfold encoded. rewrite !length_app, length_drop, header_bytes_length by done. lia. Qed.

(** ** Specification: the bytes of a frame

    By offset, as on the wire: magic 0x48444B47 and version 1 in the first six
    bytes, an opcode other than zero in the seventh, the length of the payload in
    four bytes at 12, forty bytes of header in all. *)

Definition stated_len (buffer : list Z) : Z := le_val (take 4 (drop 12 buffer)).
Definition good_head (buffer : list Z) : bool :=
  (40 <=? Z.of_nat (length buffer)) && bool_decide (take 6 buffer = [0x47; 0x4B; 0x44; 0x48; 1; 0]) &&
  negb (buffer !!! 6%nat =? 0).
(** A complete frame whose payload fits. *)
Definition accepts (buffer : list Z) (max_payload_len : Z) : bool :=
  good_head buffer && (40 + stated_len buffer <=? Z.of_nat (length buffer)) && (stated_len buffer <=? max_payload_len).
(** A stated length within forty of 2{^32}, with room for it: the sum with the
    size of the header wraps. *)
Definition wraps (buffer : list Z) (max_payload_len : Z) : bool :=
  good_head buffer && (2 ^ 32 <=? 40 + stated_len buffer) && (stated_len buffer <=? max_payload_len).

(** The magic number is what the first four bytes say. *)
Lemma magic_read bs : magic (of_bytes (A:=FrameHeader) bs) = le_val (take 4 bs).
Proof. reflexivity. Qed.

Lemma stated_len_read bs : payload_len (of_bytes (A:=FrameHeader) bs) = stated_len bs.
Proof. unfold of_bytes, stated_len. cbn -[le_val drop take]. by rewrite !drop_drop. Qed.

Lemma le_val_eq n z bs : length bs = n -> Forall is_byte bs -> le_val (le_bytes n z) = z -> (le_val bs =? z) = bool_decide (bs = le_bytes n z).
Proof.
  intros Hl Hb Hz. case_bool_decide as Hd; [subst bs; by rewrite Hz, Z.eqb_refl|].
  apply Z.eqb_neq. intros E. apply Hd. by rewrite <- E, le_bytes_int.
Qed.

Lemma header_read buffer : Forall is_byte buffer ->
  good_head buffer = (40 <=? Z.of_nat (length buffer)) && ValidateHeader (of_bytes buffer).
Proof.
  intros Hb. unfold good_head. destruct (Z.leb_spec 40 (Z.of_nat (length buffer))) as [Hl|]; [|done]. cbn [andb].
  assert (version (of_bytes (A:=FrameHeader) buffer) = le_val (take 2 (drop 4 buffer))) as Hv by reflexivity.
  assert (opcode (of_bytes (A:=FrameHeader) buffer) = buffer !!! 6%nat) as Ho.
  { do 7 (destruct buffer as [|? buffer]; [cbn [length] in Hl; lia|]). cbn. rewrite take_0. cbn. lia. }
  unfold ValidateHeader. rewrite magic_read, Hv, Ho.
  rewrite (le_val_eq 4 FRAME_MAGIC), (le_val_eq 2 FRAME_VERSION); try done;
    try (by rewrite ?length_take, ?length_drop; lia); try (by apply Forall_sub); [|by apply Forall_take].
  do 6 (destruct buffer as [|? buffer]; [cbn [length] in Hl; lia|]). change (le_bytes 4 FRAME_MAGIC) with [0x47; 0x4B; 0x44; 0x48].
  change (le_bytes 2 FRAME_VERSION) with [1; 0]. cbn [take drop].
  repeat case_bool_decide; simplify_eq; cbn [negb andb]; try done; by destruct (_ =? 0).
Qed.

Lemma accepts_header buffer max : Forall is_byte buffer ->
  let h := of_bytes (A:=FrameHeader) buffer in
  accepts buffer max =
    (40 <=? Z.of_nat (length buffer)) && ValidateHeader h && (40 + payload_len h <=? Z.of_nat (length buffer)) &&
    (payload_len h <=? max).
Proof. intros Hb h. unfold accepts. by rewrite header_read, <- stated_len_read. Qed.

Lemma accepts_sizes buffer max : Forall is_byte buffer -> accepts buffer max = true ->
  let h := of_bytes (A:=FrameHeader) buffer in
  40 <= Z.of_nat (length buffer) /\ 40 + payload_len h <= Z.of_nat (length buffer) /\ payload_len h <= max.
Proof. intros Hb Ha h. rewrite accepts_header in Ha by done. fold h in Ha. bool_props. done. Qed.

Lemma wraps_small buffer max : max < 2 ^ 32 - 40 -> wraps buffer max = false.
Proof.
  intros Hm. unfold wraps. destruct (good_head _); [|done]. destruct (Z.leb_spec (2 ^ 32) (40 + stated_len buffer)); [|done].
  cbn [andb]. apply Z.leb_gt. lia.
Qed.

(** Magic, version and opcode are all that is validated. *)
Lemma header_valid h : magic h = 0x48444B47 -> version h = 1 -> opcode h <> 0 -> ValidateHeader h = true.
Proof.
  intros Hm Hv Ho. unfold ValidateHeader. rewrite Hm, Hv. by rewrite (proj2 (Z.eqb_neq _ _) Ho).
Qed.

Lemma payload_len_range bs :
  Forall is_byte bs -> (40 <= length bs)%nat -> 0 <= payload_len (of_bytes (A:=FrameHeader) bs) < 2 ^ 32.
Proof. intros Hb Hl. exact (fw_payload_len _ (proj1 (bytes_of_of (A:=FrameHeader) bs Hb Hl))). Qed.

Lemma decode_accept buffer hdr p max plen :
  Forall is_byte buffer -> Z.of_nat (length buffer) < 2 ^ 32 -> max <= Z.of_nat (length p) ->
  let h := of_bytes (A:=FrameHeader) buffer in
  let k := Z.to_nat (payload_len h) in
  accepts buffer max = true ->
  DecodeFrame buffer (Z.of_nat (length buffer)) hdr (Some p) max plen =
    Ok (true, h, Some (take k (drop 40 buffer) ++ drop k p), payload_len h).
Proof.
  intros Hb Hn Hp h k Ha. rewrite accepts_header in Ha by done. fold h in Ha. bool_props.
  pose proof (payload_len_range buffer Hb ltac:(lia)) as Hr. fold h in Hr. unfold DecodeFrame, FRAME_HDR_SIZE.
  rewrite (proj2 (Z.ltb_ge _ _)) by lia. rewrite rd_bytes_ok by lia. cbn [res_bind].
  change (Z.to_nat 0) with 0%nat. rewrite drop_0, of_bytes_take by done. fold h. cbv zeta.
  replace (ValidateHeader h) with true by done. cbn [negb]. unfold u32. rewrite wrap_small by lia.
  rewrite (proj2 (Z.ltb_ge _ _)) by lia. rewrite (proj2 (Z.ltb_ge _ _)) by lia.
  destruct (Z.ltb_spec 0 (payload_len h)).
  - rewrite rd_bytes_ok by lia. cbn [res_bind]. change (Z.to_nat 40) with 40%nat. change (Z.to_nat (payload_len h)) with k.
    assert (length (take k (drop 40 buffer)) = k) as Hk by (rewrite length_take, length_drop; lia).
    rewrite wr_ok by (rewrite ?Hk; lia). cbn [res_bind]. change (Z.to_nat 0) with 0%nat. by rewrite copy_at_0, Hk.
  - assert (k = O) as -> by lia. by rewrite take_0, drop_0.
Qed.

Lemma decode_reject buffer hdr p max plen :
  Forall is_byte buffer -> Z.of_nat (length buffer) < 2 ^ 32 -> accepts buffer max = false -> wraps buffer max = false ->
  exists h plen', DecodeFrame buffer (Z.of_nat (length buffer)) hdr p max plen = Ok (false, h, p, plen').
Proof.
  intros Hb Hn Ha Hw. unfold DecodeFrame, FRAME_HDR_SIZE. destruct (Z.ltb_spec (Z.of_nat (length buffer)) 40) as [|Hl].
  { by eexists _, _. }
  pose proof (payload_len_range buffer Hb ltac:(lia)) as Hr. rewrite rd_bytes_ok by lia. cbn [res_bind].
  change (Z.to_nat 0) with 0%nat. rewrite drop_0, of_bytes_take by done. cbv zeta. unfold accepts in Ha. unfold wraps in Hw.
  rewrite header_read, <- stated_len_read in Ha, Hw by done.
  set (h := of_bytes buffer) in *. destruct (ValidateHeader h); cbn [negb]; [|by eexists _, _].
  destruct (Z.ltb_spec (Z.of_nat (length buffer)) (u32 (40 + payload_len h))) as [|H1]; [by eexists _, _|].
  destruct (Z.ltb_spec max (payload_len h)); [by eexists _, _|]. exfalso.
  rewrite (proj2 (Z.leb_le 40 _)), (proj2 (Z.leb_le (payload_len h) _)), !andb_true_r in Ha, Hw by lia. cbn [andb] in *. bool_props.
  unfold u32 in *. rewrite wrap_small in * by lia. lia.
Qed.

(** Where the sum wraps, the copy runs past the end of the buffer. *)
Lemma decode_wraps buffer hdr p max plen :
  Forall is_byte buffer -> Z.of_nat (length buffer) < 2 ^ 32 -> wraps buffer max = true ->
  DecodeFrame buffer (Z.of_nat (length buffer)) hdr (Some p) max plen = Fault.
Proof.
  intros Hb Hn Hw. unfold wraps in Hw. rewrite header_read, <- stated_len_read in Hw by done. bool_props.
  pose proof (payload_len_range buffer Hb ltac:(lia)) as Hr. unfold DecodeFrame, FRAME_HDR_SIZE.
  rewrite (proj2 (Z.ltb_ge _ _)) by lia. rewrite rd_bytes_ok by lia. cbn [res_bind].
  change (Z.to_nat 0) with 0%nat. rewrite drop_0, of_bytes_take by done. cbv zeta. set (h := of_bytes buffer) in *.
  replace (ValidateHeader h) with true by done. cbn [negb].
  assert (u32 (40 + payload_len h) = 40 + payload_len h - 2 ^ 32) as -> by mach.
  rewrite !(proj2 (Z.ltb_ge _ _)), (proj2 (Z.ltb_lt _ _)) by lia.
  unfold rd_bytes. destruct (in_block _ _ _) eqn:E; [|done]. apply in_block_true in E. lia.
Qed.

Lemma encoded_bytes h payload buffer :
  frame_wf h -> Forall is_byte payload -> Forall is_byte buffer -> Forall is_byte (encoded h payload buffer).
Proof. intros. unfold encoded. rewrite !Forall_app. split_and!; [by apply bytes_of_bytes|done|by apply Forall_drop]. Qed.

Lemma accepts_encoded h payload buffer max :
  frame_wf h -> ValidateHeader h = true -> payload_len h = Z.of_nat (length payload) ->
  (40 + length payload <= length buffer)%nat -> Z.of_nat (length payload) <= max ->
  Forall is_byte payload -> Forall is_byte buffer ->
  accepts (encoded h payload buffer) max = true /\ of_bytes (encoded h payload buffer) = h.
Proof.
  intros Hh Hv Hp Hl Hm Hb1 Hb2. assert (of_bytes (encoded h payload buffer) = h) as E by (by apply of_bytes_of).
  split; [|done]. rewrite accepts_header by (by apply encoded_bytes). cbv zeta. rewrite E, Hv, encoded_length, Hp by done.
  rewrite !(proj2 (Z.leb_le _ _)) by lia. done.
Qed.

Lemma driver_frame_bytes hd pd out :
  Forall is_byte pd -> Forall is_byte out -> Forall is_byte (frame_image hd pd out).
Proof.
  intros H1 H2. unfold frame_image, head_bytes. rewrite !Forall_app.
  split_and!; try apply le_bytes_bytes; try done. by apply Forall_drop.
Qed.

Lemma driver_frame_invalid hd pd out :
  Magic hd = HD_MAGIC -> ValidateHeader (of_bytes (frame_image hd pd out)) = false.
Proof.
  intros HM. unfold ValidateHeader. rewrite magic_read. unfold frame_image, head_bytes. rewrite HM.
  rewrite <- !app_assoc, take_app_length' by done. done.
Qed.

(** Encoding, then decoding what was encoded. *)
Lemma encode_decode h payload buffer hdr p max plen :
  frame_wf h -> ValidateHeader h = true -> payload_len h = Z.of_nat (length payload) ->
  Forall is_byte payload -> Forall is_byte buffer -> Z.of_nat (length buffer) < 2 ^ 32 ->
  (40 + length payload <= length buffer)%nat ->
  Z.of_nat (length payload) <= max <= Z.of_nat (length p) ->
  exists frame,
    EncodeFrame buffer (Z.of_nat (length buffer)) h (Some payload) (payload_len h) = Ok (true, frame, 40 + payload_len h) /\
    DecodeFrame frame (Z.of_nat (length frame)) hdr (Some p) max plen =
      Ok (true, h, Some (payload ++ drop (length payload) p), payload_len h).
Proof.
  intros Hh Hv Hp Hb1 Hb2 Hn Hl Hm1. exists (encoded h payload buffer). rewrite Hp at 1 2. split; [apply encode_spec; [done|lia..]|].
  destruct (accepts_encoded h payload buffer max) as [Ha E]; [done..|lia|done|done|].
  rewrite (decode_accept _ hdr p max plen); rewrite ?encoded_length by done; try done; try lia.
  - rewrite E, Hp, Nat2Z.id. unfold encoded. rewrite drop_app_length' by (by rewrite header_bytes_length).
    by rewrite take_app_length.
  - by apply encoded_bytes.
Qed.

(** ** Properties *)

(** C6. What the client encodes it decodes: for every well-formed header with
    magic 0x48444B47, version 1 and an opcode other than zero (a header with
    opcode 0 encodes and is then refused) and a payload whose length the header
    states, encoding into a large enough buffer of less than 2{^32} bytes and
    decoding the buffer succeeds and gives back the header, all forty bytes of it,
    and the payload. *)
Theorem codec_roundtrip h payload buffer hdr p max plen :
  frame_wf h -> magic h = 0x48444B47 -> version h = 1 -> payload_len h = Z.of_nat (length payload) ->
  Forall is_byte payload -> Forall is_byte buffer -> Z.of_nat (length buffer) < 2 ^ 32 ->
  (40 + length payload <= length buffer)%nat ->
  Z.of_nat (length payload) <= max <= Z.of_nat (length p) ->
  exists frame,
    EncodeFrame buffer (Z.of_nat (length buffer)) h (Some payload) (payload_len h) = Ok (true, frame, 40 + payload_len h) /\
    take 6 frame = [0x47; 0x4B; 0x44; 0x48; 1; 0] /\ take (length payload) (drop 40 frame) = payload /\
    if opcode h =? 0
    then exists h' plen', DecodeFrame frame (Z.of_nat (length frame)) hdr (Some p) max plen = Ok (false, h', Some p, plen')
    else DecodeFrame frame (Z.of_nat (length frame)) hdr (Some p) max plen =
      Ok (true, h, Some (payload ++ drop (length payload) p), payload_len h).
Proof.
  intros Hh Hm Hv Hp Hb1 Hb2 Hn Hl Hmax. exists (encoded h payload buffer).
  pose proof (encoded_bytes h payload buffer Hh Hb1 Hb2) as Hb.
  assert (of_bytes (encoded h payload buffer) = h) as E by (by apply of_bytes_of).
  split_and!; [rewrite Hp; apply encode_spec; [done|lia..]| | |].
  - unfold encoded, bytes_of. cbn -[le_bytes]. rewrite Hm, Hv. done.
  - unfold encoded. rewrite drop_app_length' by (by rewrite header_bytes_length). by rewrite take_app_length.
  - destruct (Z.eqb_spec (opcode h) 0) as [Ho|Ho].
    + assert (good_head (encoded h payload buffer) = false) as Hg.
      { rewrite header_read by done. rewrite E. unfold ValidateHeader. rewrite Ho. destruct (40 <=? _); [|done]. cbn [andb Z.eqb].
        by destruct (magic h =? FRAME_MAGIC), (version h =? FRAME_VERSION). }
      apply decode_reject; rewrite ?encoded_length by done; [done|done|unfold accepts; by rewrite Hg|unfold wraps; by rewrite Hg].
    + destruct (encode_decode h payload buffer hdr p max plen) as (frame & E1 & E2); try done; [by apply header_valid|].
      rewrite Hp in E1 at 1. rewrite encode_spec in E1 by (done || lia). by injection E1 as <-.
Qed.

(** C28. Decoding untrusted bytes, whatever arrived (up to 2{^32} bytes): the
    decoder accepts exactly the buffers that hold a complete frame with magic
    0x48444B47, version 1, an opcode other than zero and a payload that fits; then
    it delivers the header and the payload bytes. It refuses all others, leaving
    the payload buffer alone, save one kind: where the stated length is within
    forty of 2{^32} and the caller said to have room for it, the 32-bit sum with the
    header's size wraps, the check passes and the copy runs past the end of the
    received bytes. With a limit below 2{^32} - 40 it never leaves the buffers. *)
Theorem codec_decode_exact buffer hdr p max plen :
  Forall is_byte buffer -> Z.of_nat (length buffer) < 2 ^ 32 -> max <= Z.of_nat (length p) ->
  (if wraps buffer max then DecodeFrame buffer (Z.of_nat (length buffer)) hdr (Some p) max plen = Fault
   else exists h p' plen',
    DecodeFrame buffer (Z.of_nat (length buffer)) hdr (Some p) max plen = Ok (accepts buffer max, h, Some p', plen') /\
    if accepts buffer max
    then bytes_of h = take 40 buffer /\ plen' = stated_len buffer /\
         p' = take (Z.to_nat plen') (drop 40 buffer) ++ drop (Z.to_nat plen') p
    else p' = p) /\
  (max < 2 ^ 32 - 40 -> wraps buffer max = false).
Proof.
  intros Hb Hn Hp. split; [|apply wraps_small].
  destruct (wraps buffer max) eqn:Hw; [by apply decode_wraps|]. destruct (accepts buffer max) eqn:Ha.
  - rewrite decode_accept by done. eexists _, _, _. split; [done|]. rewrite stated_len_read. split_and!; try done.
    refine (proj2 (bytes_of_of (A:=FrameHeader) buffer Hb _)). destruct (accepts_sizes buffer max Hb Ha).
    rewrite header_size. lia.
  - destruct (decode_reject buffer hdr (Some p) max plen Hb Hn Ha Hw) as (h & plen' & E). by exists h, p, plen'.
Qed.

(** The size check of the encoder can be passed with a buffer that is too
    small: a payload length within forty of the 32-bit limit makes the total
    length wrap to less than a header, and the copy of the header then runs past
    the end of the buffer. *)
Theorem codec_encode_overflow buffer h payload plen :
  frame_wf h -> 2 ^ 32 - 40 <= plen < 2 ^ 32 ->
  plen - (2 ^ 32 - 40) <= Z.of_nat (length buffer) < 40 ->
  EncodeFrame buffer (Z.of_nat (length buffer)) h payload plen = Fault.
Proof.
  intros Hh Hp Hl. unfold EncodeFrame, FRAME_HDR_SIZE. cbv zeta.
  assert (u32 (40 + plen) = plen - (2 ^ 32 - 40)) as -> by mach.
  rewrite (proj2 (Z.ltb_ge _ _)) by lia. unfold wr. rewrite header_bytes_length by done.
  destruct (in_block _ _ _) eqn:E; [|done]. apply in_block_true in E. lia.
Qed.

(** The client and the network driver do not understand each other's frames:
    the client rejects every frame the driver serialises with its magic, and the
    driver refuses every frame the client encodes. *)
Theorem codec_driver_incompatible h payload buffer hd pd out n hdr p max plen h0 :
  frame_wf h -> magic h = FRAME_MAGIC -> (40 + length payload <= length buffer)%nat -> Z.of_nat (length buffer) < 2 ^ 32 ->
  header_wf hd -> Magic hd = HD_MAGIC -> PayloadLen hd = Z.of_nat (length pd) ->
  Forall is_byte pd -> Forall is_byte out -> (32 + length pd <= length out)%nat -> Z.of_nat (length out) < 2 ^ 32 ->
  (exists frame h' plen',
    HdNetSerializeFrame (Some hd) (Some pd) (Some out) (Some n) = Ok (STATUS_SUCCESS, Some frame, Some (32 + PayloadLen hd)) /\
    DecodeFrame frame (Z.of_nat (length frame)) hdr p max plen = Ok (false, h', p, plen')) /\
  (exists frame,
    EncodeFrame buffer (Z.of_nat (length buffer)) h (Some payload) (Z.of_nat (length payload)) =
      Ok (true, frame, 40 + Z.of_nat (length payload)) /\
    HdNetDeserializeFrame (Some frame) (Z.of_nat (length frame)) (Some h0) p (Some n) =
      Ok (STATUS_DATA_NOT_ACCEPTED, Some h0, p, Some n)).
Proof.
  intros Hh Hm Hl Hb Hwf HM HP Hpd Hout Hl2 Hb2. split.
  - assert (good_head (frame_image hd pd out) = false) as Hbad
      by (rewrite header_read by (by apply driver_frame_bytes); by rewrite driver_frame_invalid, andb_false_r).
    destruct (decode_reject (frame_image hd pd out) hdr p max plen) as (h' & plen' & E).
    { apply driver_frame_bytes; done. }
    { rewrite frame_image_length by done. done. }
    { unfold accepts. by rewrite Hbad. }
    { unfold wraps. by rewrite Hbad. }
    exists (frame_image hd pd out), h', plen'. split; [|done]. apply serialize_spec; try done; lia.
  - exists (encoded h payload buffer). split; [apply encode_spec; done || lia|].
    unfold HdNetDeserializeFrame, HD_NET_FRAME_HDR_SIZE. rewrite encoded_length by done.
    rewrite (proj2 (Z.ltb_ge _ _)) by lia.
    rewrite (rd_ok 4) by (rewrite ?encoded_length by done; lia). cbn [res_bind]. change (Z.to_nat 0) with 0%nat. rewrite drop_0.
    change (take (Z.to_nat 4) (encoded h payload buffer)) with (take 4 (bytes_of h ++ payload ++ drop (40 + length payload) buffer)).
    rewrite <- (magic_read (bytes_of h ++ _)), of_bytes_of by done. by rewrite Hm.
Qed.

(** ** Witnesses *)

Definition sample_frame : FrameHeader := EncodeHeader BLOCK_WRITE_REQ 0 9 4 77 4096 16 5.

Lemma sample_frame_wf : frame_wf sample_frame.
Proof. split; try (vm_compute; split; [discriminate|reflexivity]). split; [done|by apply bytesb_ok]. Qed.

Lemma codec_roundtrip_witness :
  exists frame,
    EncodeFrame (replicate 48 170) 48 sample_frame (Some [1; 2; 3; 4]) 4 = Ok (true, frame, 44) /\
    DecodeFrame frame (Z.of_nat (length frame)) (frame_make []) (Some (replicate 8 0)) 8 0 =
      Ok (true, sample_frame, Some [1; 2; 3; 4; 0; 0; 0; 0], 4).
Proof.
  destruct (codec_roundtrip sample_frame [1; 2; 3; 4] (replicate 48 170) (frame_make []) (replicate 8 0) 8 0
    sample_frame_wf eq_refl eq_refl eq_refl (bytesb_ok [1; 2; 3; 4] eq_refl) (bytesb_ok (replicate 48 170) eq_refl) eq_refl
    ltac:(cbn; lia) ltac:(cbn; lia)) as (frame & E1 & _ & _ & E2).
  exists frame. split; [exact E1|exact E2].
Defined.

(** A header that states 2{^32} - 8 bytes of payload. *)
Definition wrapping_frame : list Z := bytes_of (EncodeHeader BLOCK_WRITE_REQ 0 9 (2 ^ 32 - 8) 77 4096 16 5).

Lemma codec_decode_exact_witness :
  (exists h p' plen',
    DecodeFrame [71; 75; 68; 72; 9] 5 sample_frame (Some [0; 0]) 2 7 = Ok (false, h, Some p', plen') /\ p' = [0; 0]) /\
  (forall p, Z.of_nat (length p) = 2 ^ 32 - 1 -> DecodeFrame wrapping_frame 40 sample_frame (Some p) (2 ^ 32 - 1) 7 = Fault).
Proof.
  split.
  - destruct (codec_decode_exact [71; 75; 68; 72; 9] sample_frame [0; 0] 2 7) as [(h & p' & plen' & E1 & E2) _].
    + by apply bytesb_ok.
    + done.
    + done.
    + exists h, p', plen'. split; [exact E1|exact E2].
  - intros p Hp. apply (codec_decode_exact wrapping_frame sample_frame p (2 ^ 32 - 1) 7).
    + by apply bytesb_ok.
    + done.
    + rewrite Hp. done.
Defined.

Lemma codec_encode_overflow_witness : EncodeFrame (replicate 8 0) 8 sample_frame None (2 ^ 32 - 32) = Fault.
Proof. apply (codec_encode_overflow (replicate 8 0) sample_frame None (2 ^ 32 - 32) sample_frame_wf); cbn; lia. Defined.

Lemma sample_header_wf' : header_wf sample_header.
Proof. split; try done; vm_compute; split; try discriminate; done. Qed.

Lemma codec_driver_incompatible_witness :
  exists frame, EncodeFrame (replicate 48 0) 48 sample_frame (Some [1; 2; 3; 4]) 4 = Ok (true, frame, 44) /\
    HdNetDeserializeFrame (Some frame) (Z.of_nat (length frame)) (Some blank_header) (Some [0; 0; 0; 0]) (Some 0) =
      Ok (STATUS_DATA_NOT_ACCEPTED, Some blank_header, Some [0; 0; 0; 0], Some 0).
Proof.
  apply (codec_driver_incompatible sample_frame [1; 2; 3; 4] (replicate 48 0) sample_header [5; 6; 7; 8] (replicate 40 0) 0
    (frame_make []) (Some [0; 0; 0; 0]) 4 0 blank_header sample_frame_wf eq_refl); try (by apply bytesb_ok);
    [cbn; lia|cbn; lia|apply sample_header_wf'|done|done|cbn; lia|cbn; lia].
Defined.
