(* ===== verification/AgentEnv.v ===== *)
(** * The machine the boot agent runs on

    The Win32, Winsock and run-time services called by src/client/boot_agent and
    src/client/blackbox, as a class; what they promise ([AgentLaws]); and a
    concrete machine driven by a script ([SimAgent]). The promises are weak: any
    call may fail, a file may be cut short, a receive delivers bytes, at most as
    many as asked for. *)

From S2P Require Import Prelude.

Inductive SockType : Type := SOCK_STREAM | SOCK_DGRAM.

Record Adapter : Type := mkAdapter {
  a_type : Z;
  a_mac_len : Z;
  a_mac : list Z;
  a_name : list Z;
}.

(** [a_startup], [a_bind], [a_connect], [a_sendto] answer whether the call
    succeeded; [a_socket] is [None] for INVALID_SOCKET; [a_send] gives the
    length sent or -1; a receive gives the bytes, none when the C call returns
    zero or an error. [inet_pton] is the address a text stands for, [None] when
    it is not a dotted quad. [a_load] is the whole contents of a file opened for
    reading. [a_save] opens for writing, truncating: the state of the stream
    after the write, and how many bytes are in the file once it is closed.
    [a_clock] is the steady clock in nanoseconds. *)
Class AgentOs (W : Type) : Type := {
  inet_pton : list Z -> option (list Z);
  a_startup : W -> bool * W;
  a_cleanup : W -> W;
  a_socket : SockType -> W -> option Z * W;
  a_setopt : Z -> Z -> Z -> W -> W;
  a_bind : Z -> Z -> W -> bool * W;
  a_connect : Z -> list Z -> Z -> W -> bool * W;
  a_send : Z -> list Z -> W -> Z * W;
  a_sendto : Z -> list Z -> Z -> W -> bool * W;
  a_recv : Z -> Z -> W -> list Z * W;
  a_closesocket : Z -> W -> W;
  a_last_error : W -> Z * W;
  a_resolve : list Z -> list Z -> W -> option (list Z) * W;
  a_clock : W -> Z * W;
  a_entropy : W -> Z * W;
  a_random : W -> option (list Z) * W;
  a_adapters : W -> option (list Adapter) * W;
  a_alloc : Z -> W -> bool * W;
  a_com1_open : W -> bool * W;
  a_com1_write : list Z -> W -> W;
  a_load : list Z -> W -> option (list Z) * W;
  a_save : list Z -> list Z -> W -> option (bool * Z) * W;
}.

(** A receive of at most [n] bytes into a block of [size] bytes at offset [off]:
    the bytes that came. A [Fault] when they do not fit the block there. *)
Definition recv_at {W} `{AgentOs W} (size off sock n : Z) (w : W) : res (list Z * W) :=
  let '(bs, w) := a_recv sock n w in
  if (0 <=? off) && (off + Z.of_nat (length bs) <=? size) then Ok (bs, w) else Fault.

(** [snprintf] into a block at [off] with room for [cap] bytes: what fits, and
    a NUL. *)
Definition snprintf (m : list Z) (off cap : Z) (text : list Z) : res (list Z) :=
  wr m off (take (Z.to_nat (cap - 1)) text ++ [0]).

(** What the machine lends: Winsock references, counted, and the open sockets.
    Giving back what is not lent changes nothing. *)
Record Loan : Type := mkLoan { on_wsa : nat; on_socks : gset Z }.
Definition wsa_up (l : Loan) : Loan := mkLoan (S (on_wsa l)) (on_socks l).
Definition wsa_down (l : Loan) : Loan := mkLoan (pred (on_wsa l)) (on_socks l).
Definition sock_up (s : Z) (l : Loan) : Loan := mkLoan (on_wsa l) ({[s]} ∪ on_socks l).
Definition sock_down (s : Z) (l : Loan) : Loan := mkLoan (on_wsa l) (on_socks l ∖ {[s]}).

(** The files after [bs] was saved to [p] and [k] bytes of it arrived. *)
Definition saved (fs : gmap (list Z) (list Z)) (p bs : list Z) (k : Z) : gmap (list Z) (list Z) :=
  <[p := take (Z.to_nat k) bs]> fs.

Class AgentLaws (W : Type) `{AgentOs W} : Type := {
  loan : W -> Loan;
  disk : W -> gmap (list Z) (list Z);
  l_startup w : loan (a_startup w).2 = if (a_startup w).1 then wsa_up (loan w) else loan w;
  l_cleanup w : loan (a_cleanup w) = wsa_down (loan w);
  l_socket t w :
    match (a_socket t w).1 with
    | Some s => s ∉ on_socks (loan w) /\ loan (a_socket t w).2 = sock_up s (loan w)
    | None => loan (a_socket t w).2 = loan w
    end;
  l_closesocket s w : loan (a_closesocket s w) = sock_down s (loan w);
  l_setopt s o v w : loan (a_setopt s o v w) = loan w;
  l_bind s p w : loan (a_bind s p w).2 = loan w;
  l_connect s a p w : loan (a_connect s a p w).2 = loan w;
  l_send s b w : loan (a_send s b w).2 = loan w;
  l_sendto s b p w : loan (a_sendto s b p w).2 = loan w;
  l_recv s n w : loan (a_recv s n w).2 = loan w;
  l_last_error w : loan (a_last_error w).2 = loan w;
  l_resolve h p w : loan (a_resolve h p w).2 = loan w;
  l_clock w : loan (a_clock w).2 = loan w;
  l_entropy w : loan (a_entropy w).2 = loan w;
  l_random w : loan (a_random w).2 = loan w;
  l_adapters w : loan (a_adapters w).2 = loan w;
  l_alloc n w : loan (a_alloc n w).2 = loan w;
  l_com1_open w : loan (a_com1_open w).2 = loan w;
  l_com1_write b w : loan (a_com1_write b w) = loan w;
  l_load p w : loan (a_load p w).2 = loan w;
  l_save p b w : loan (a_save p b w).2 = loan w;
  recv_law s n w : Forall is_byte (a_recv s n w).1 /\ (0 <= n -> Z.of_nat (length (a_recv s n w).1) <= n);
  adapters_law w l : (a_adapters w).1 = Some l -> Forall (fun a => length (a_mac a) = 8%nat) l;
  clock_range w : 0 <= (a_clock w).1 < 2 ^ 63;
  disk_bytes w p c : disk w !! p = Some c -> Forall is_byte c;
  load_disk p w : disk (a_load p w).2 = disk w /\ forall c, (a_load p w).1 = Some c -> disk w !! p = Some c;
  save_disk p bs w : Forall is_byte bs ->
    match (a_save p bs w).1 with
    | None => disk (a_save p bs w).2 = disk w
    | Some (_, k) => 0 <= k <= Z.of_nat (length bs) /\ disk (a_save p bs w).2 = saved (disk w) p bs k
    end;
}.

(** A disk with room: every file that is opened takes all its bytes. *)
Definition saves_all (W : Type) `{AgentOs W} : Prop :=
  forall p bs w, exists good, (a_save p bs w).1 = Some (good, Z.of_nat (length bs)).

(** ** A concrete machine *)

Record SimAgent : Type := mkSimAgent {
  s_loan : Loan;
  s_disk : gmap (list Z) (list Z);
  s_time : Z;
  s_reach : list Z -> Z -> bool;
  s_inbox : list (list Z);
  s_com1 : list (list Z);
  s_sent : list (list Z);
}.

Definition sim_tick (w : SimAgent) : Z * SimAgent :=
  (s_time w mod 2 ^ 62, mkSimAgent (s_loan w) (s_disk w) (s_time w + 1000000) (s_reach w) (s_inbox w) (s_com1 w) (s_sent w)).
Definition sim_loan (f : Loan -> Loan) (w : SimAgent) : SimAgent :=
  mkSimAgent (f (s_loan w)) (s_disk w) (s_time w) (s_reach w) (s_inbox w) (s_com1 w) (s_sent w).
Definition sim_send (b : list Z) (w : SimAgent) : SimAgent :=
  mkSimAgent (s_loan w) (s_disk w) (s_time w) (s_reach w) (s_inbox w) (s_com1 w) (s_sent w ++ [b]).
Definition sim_com1 (b : list Z) (w : SimAgent) : SimAgent :=
  mkSimAgent (s_loan w) (s_disk w) (s_time w) (s_reach w) (s_inbox w) (s_com1 w ++ [b]) (s_sent w).
(** A number no open socket has. *)
Definition next_sock (socks : gset Z) : Z := foldr Z.max 2 (elements socks) + 1.
Definition as_byte (z : Z) : Z := z mod 256.
Definition sim_recv (n : Z) (w : SimAgent) : list Z * SimAgent :=
  match s_inbox w with
  | [] => ([], w)
  | b :: r => (as_byte <$> take (Z.to_nat n) b,
               mkSimAgent (s_loan w) (s_disk w) (s_time w) (s_reach w) r (s_com1 w) (s_sent w))
  end.
Definition sim_save (p b : list Z) (w : SimAgent) : SimAgent :=
  mkSimAgent (s_loan w) (<[p := b]> (s_disk w)) (s_time w) (s_reach w) (s_inbox w) (s_com1 w) (s_sent w).

(** The dotted quads of the sample runs; every reading of the disk is in bytes. *)
Definition sim_pton (s : list Z) : option (list Z) :=
  if bool_decide (s = zstr "10.0.0.1") then Some [10; 0; 0; 1]
  else if bool_decide (s = zstr "10.10.200.10") then Some [10; 10; 200; 10]
  else None.
Definition byte_file (c : list Z) : list Z := as_byte <$> c.
Definition sim_disk (w : SimAgent) : gmap (list Z) (list Z) := byte_file <$> s_disk w.

#[export] Instance SimAgent_os : AgentOs SimAgent := {
  inet_pton := sim_pton;
  a_startup w := (true, sim_loan wsa_up w);
  a_cleanup := sim_loan wsa_down;
  a_socket _ w := let s := next_sock (on_socks (s_loan w)) in (Some s, sim_loan (sock_up s) w);
  a_setopt _ _ _ w := w;
  a_bind _ _ w := (true, w);
  a_connect _ a p w := (s_reach w a p, w);
  a_send _ b w := (Z.of_nat (length b), sim_send b w);
  a_sendto _ b _ w := (true, sim_send b w);
  a_recv _ n w := sim_recv n w;
  a_closesocket s := sim_loan (sock_down s);
  a_last_error w := (0, w);
  a_resolve h _ w := (sim_pton h, w);
  a_clock := sim_tick;
  a_entropy w := (42, w);
  a_random w := (Some [1; 2; 3; 4], w);
  a_adapters w := (Some [mkAdapter 6 6 [1; 2; 3; 4; 5; 6; 0; 0] (zstr "Ethernet")], w);
  a_alloc _ w := (true, w);
  a_com1_open w := (true, w);
  a_com1_write := sim_com1;
  a_load p w := (sim_disk w !! p, w);
  a_save p b w := (Some (true, Z.of_nat (length b)), sim_save p b w);
}.

Lemma as_byte_bytes l : Forall is_byte (as_byte <$> l).
Proof. apply Forall_fmap, Forall_true. intros z. unfold is_byte, as_byte. simpl. apply Z.mod_pos_bound. lia. Qed.

Lemma as_byte_id l : Forall is_byte l -> as_byte <$> l = l.
Proof.
  induction 1 as [|b l Hb _ IH]; [done|]. cbn. rewrite IH. f_equal. by apply Z.mod_small.
Qed.

Lemma next_sock_fresh socks : next_sock socks ∉ socks.
Proof.
  intros Hin. assert (forall l x, x ∈ l -> x <= foldr Z.max 2 l) as Hmax.
  { induction l as [|y l IH]; intros x Hx; [by apply elem_of_nil in Hx|]. cbn [foldr].
    apply elem_of_cons in Hx as [->|Hx]; [lia|]. specialize (IH x Hx). lia. }
  apply elem_of_elements, Hmax in Hin. unfold next_sock in Hin. lia.
Qed.

(** What a routine borrowed, given back. *)
Lemma loan_back s l : s ∉ on_socks l -> sock_down s (sock_up s l) = l.
Proof. destruct l as [n socks]. unfold sock_down, sock_up. cbn. intros. f_equal. set_solver. Qed.

Lemma wsa_back l : wsa_down (wsa_up l) = l.
Proof. by destruct l. Qed.

Lemma all_back s l : s ∉ on_socks l -> wsa_down (sock_down s (sock_up s (wsa_up l))) = l.
Proof. intros. by rewrite loan_back, wsa_back. Qed.

(** A receive asked to stay inside its block does. *)
Lemma recv_at_ok {W} `{AgentLaws W} size off sock n (w : W) :
  0 <= off -> 0 <= n -> off + n <= size ->
  exists bs w', recv_at size off sock n w = Ok (bs, w') /\ a_recv sock n w = (bs, w') /\ loan w' = loan w /\
    Forall is_byte bs /\ Z.of_nat (length bs) <= n.
Proof.
  intros Hoff Hn Hs. unfold recv_at. pose proof (l_recv sock n w) as Hl. destruct (recv_law sock n w) as [Hb Hlen].
  specialize (Hlen Hn). destruct (a_recv sock n w) as [bs w']. cbn [fst snd] in *. exists bs, w'.
  by rewrite (proj2 (Z.leb_le 0 off)), (proj2 (Z.leb_le _ size)) by lia.
Qed.

#[export, refine] Instance SimAgent_laws : AgentLaws SimAgent := { loan := s_loan; disk := sim_disk }.
Proof.
  all: try reflexivity.
  - intros t w. cbn. split; [apply next_sock_fresh|done].
  - intros s n w. cbn. unfold sim_recv. by destruct (s_inbox w).
  - intros s n w. cbn. unfold sim_recv. destruct (s_inbox w) as [|b r]; cbn; [split; [constructor|lia]|].
    split; [apply as_byte_bytes|]. intros Hn. rewrite length_fmap, length_take. lia.
  - intros w l [= <-]. by repeat constructor.
  - intros w. pose proof (Z.mod_pos_bound (s_time w) (2 ^ 62) eq_refl). cbn [a_clock SimAgent_os sim_tick fst]. lia.
  - intros w p c. unfold sim_disk. rewrite lookup_fmap. intros (c0 & _ & ->)%fmap_Some. apply as_byte_bytes.
  - intros p w. split; [done|]. by intros c.
  - intros p bs w Hb. cbn. split; [lia|]. unfold saved, sim_disk. cbn. rewrite fmap_insert, Nat2Z.id, take_ge by lia.
    unfold byte_file at 1. by rewrite as_byte_id.
Defined.
