(* ===== verification/BootMeta.v ===== *)
(** * The boot metadata of the client
    (src/client/boot_agent/boot_meta.h, boot_meta.cpp)

    A packed structure of 310 bytes with a CRC-32C at its end, kept in a
    singleton, saved to and loaded from a file, or fetched from a server with a
    block read request of the frame codec. *)

From S2P Require Import Prelude Crc32c Packed Codec AgentEnv.

Record BootMeta : Type := mkMeta {
  m_magic : Z;
  m_version : Z;
  m_image_id : Z;
  m_disk_size : Z;
  m_block_size : Z;
  m_block_count : Z;
  m_layer_id : Z;
  m_write_policy : Z;
  m_reserved1 : list Z;
  m_primary_server : list Z;
  m_primary_port : Z;
  m_secondary_server : list Z;
  m_secondary_port : Z;
  m_overlay_path : list Z;
  m_block_map_offset : Z;
  m_block_map_count : Z;
  m_crc32c : Z;
}.

Record meta_wf (m : BootMeta) : Prop := {
  mw_magic : int_ok 4 (m_magic m);
  mw_version : int_ok 2 (m_version m);
  mw_image_id : int_ok 8 (m_image_id m);
  mw_disk_size : int_ok 8 (m_disk_size m);
  mw_block_size : int_ok 4 (m_block_size m);
  mw_block_count : int_ok 4 (m_block_count m);
  mw_layer_id : int_ok 1 (m_layer_id m);
  mw_write_policy : int_ok 1 (m_write_policy m);
  mw_reserved1 : arr_ok 2 (m_reserved1 m);
  mw_primary_server : arr_ok 64 (m_primary_server m);
  mw_primary_port : int_ok 2 (m_primary_port m);
  mw_secondary_server : arr_ok 64 (m_secondary_server m);
  mw_secondary_port : int_ok 2 (m_secondary_port m);
  mw_overlay_path : arr_ok 128 (m_overlay_path m);
  mw_block_map_offset : int_ok 8 (m_block_map_offset m);
  mw_block_map_count : int_ok 4 (m_block_map_count m);
  mw_crc32c : int_ok 4 (m_crc32c m);
}.

Definition zero_meta : BootMeta :=
  mkMeta 0 0 0 0 0 0 0 0 (replicate 2 0) (replicate 64 0) 0 (replicate 64 0) 0 (replicate 128 0) 0 0 0.

Definition meta_fields (m : BootMeta) : list (list Z) :=
  [le_bytes 4 (m_magic m); le_bytes 2 (m_version m); le_bytes 8 (m_image_id m); le_bytes 8 (m_disk_size m);
   le_bytes 4 (m_block_size m); le_bytes 4 (m_block_count m); le_bytes 1 (m_layer_id m); le_bytes 1 (m_write_policy m);
   m_reserved1 m; m_primary_server m; le_bytes 2 (m_primary_port m); m_secondary_server m; le_bytes 2 (m_secondary_port m);
   m_overlay_path m; le_bytes 8 (m_block_map_offset m); le_bytes 4 (m_block_map_count m); le_bytes 4 (m_crc32c m)].
Definition meta_make (fs : list (list Z)) : BootMeta :=
  match fs with
  | [a; b; c; d; e; f; g; h; i; j; k; l; m; n; o; p; q] =>
      mkMeta (le_val a) (le_val b) (le_val c) (le_val d) (le_val e) (le_val f) (le_val g) (le_val h) i j (le_val k) l
        (le_val m) n (le_val o) (le_val p) (le_val q)
  | _ => zero_meta
  end.

#[export, refine] Instance BootMeta_packed : Packed BootMeta := {
  p_sizes := [4; 2; 8; 8; 4; 4; 1; 1; 2; 64; 2; 64; 2; 128; 8; 4; 4]%nat;
  p_fields := meta_fields;
  p_make := meta_make;
  p_wf := meta_wf;
}.
Proof. packed_ok. packed_read. packed_make. Defined.

(** The payloads of the request and of its answer. *)
Record BlockReadReqPayload : Type := mkReadReq { q_image_id : Z; q_block_offset : Z; q_block_count : Z; q_layer_id : Z }.
Definition read_req_bytes (q : BlockReadReqPayload) : list Z :=
  le_bytes 8 (q_image_id q) ++ le_bytes 8 (q_block_offset q) ++ le_bytes 4 (q_block_count q) ++ le_bytes 1 (q_layer_id q).
Definition READ_REQ_SIZE : Z := 21.
Definition READ_RSP_SIZE : Z := 24.

Definition BOOT_META_MAGIC : Z := 0x4844424D.
Definition BOOT_META_VERSION : Z := 1.
Definition META_SIZE : Z := 310.
Definition CRC_OFFSET : Z := 306.

(** ** The checksum *)

Definition bm_crc_bit (crc : Z) : Z :=
  Z.lxor (Z.shiftr crc 1) (if negb (Z.land crc 1 =? 0) then 0x82F63B78 else 0).
Definition bm_Crc32c (data : list Z) : Z :=
  Z.lxor (foldl (fun crc b => Nat.iter 8 bm_crc_bit (Z.lxor crc b)) 0xFFFFFFFF data) 0xFFFFFFFF.

(** ** The singleton *)

Record BootMetaCache : Type := mkCache { meta_ : BootMeta; valid_ : bool }.
Definition cache_start : BootMetaCache := mkCache zero_meta false.

Definition SetMeta (m : BootMeta) : BootMetaCache := mkCache m (m_magic m =? BOOT_META_MAGIC).
Definition IsValid (c : BootMetaCache) : bool := valid_ c.

Definition ComputeCrc (m : BootMeta) : Z := bm_Crc32c (take (Z.to_nat CRC_OFFSET) (bytes_of m)).
Definition ValidateCrc (m : BootMeta) : bool := m_crc32c m =? ComputeCrc m.

(** [strncpy] into an array of [n] bytes: the string, then zeros. *)
Definition strncpy (n : nat) (s : list Z) : list Z := take n s ++ replicate (n - length s) 0.
Definition ApplyDefaults : BootMeta :=
  mkMeta BOOT_META_MAGIC BOOT_META_VERSION 0 0 4096 0 0 0 (replicate 2 0)
    (strncpy 63 (zstr "10.10.200.10") ++ [0]) 9527 (replicate 64 0) 0 (replicate 128 0) 0 0 0.

(** [std::string(a, strnlen(a, sizeof(a)))]. *)
Fixpoint before_nul (s : list Z) : list Z :=
  match s with
  | [] => []
  | c :: r => if c =? 0 then [] else c :: before_nul r
  end.
Definition PrimaryServer (c : BootMetaCache) : list Z := before_nul (m_primary_server (meta_ c)).
Definition SecondaryServer (c : BootMetaCache) : list Z := before_nul (m_secondary_server (meta_ c)).

Definition set_stamp (m : BootMeta) (crc : Z) : BootMeta :=
  mkMeta BOOT_META_MAGIC BOOT_META_VERSION (m_image_id m) (m_disk_size m) (m_block_size m) (m_block_count m) (m_layer_id m)
    (m_write_policy m) (m_reserved1 m) (m_primary_server m) (m_primary_port m) (m_secondary_server m) (m_secondary_port m)
    (m_overlay_path m) (m_block_map_offset m) (m_block_map_count m) crc.

Section Cache.
Context {W : Type} `{AgentOs W}.

Definition Load (path : list Z) (c : BootMetaCache) (w : W) : bool * BootMetaCache * W :=
  let '(f, w) := a_load path w in
  match f with
  | None => (false, mkCache ApplyDefaults false, w)
  | Some bytes =>
      let m := of_bytes (A:=BootMeta) bytes in
      if (Z.of_nat (length bytes) <? META_SIZE) || negb (m_magic m =? BOOT_META_MAGIC)
      then (false, mkCache ApplyDefaults false, w)
      else if negb (ValidateCrc m) then (false, mkCache ApplyDefaults false, w)
      else (true, mkCache m true, w)
  end.

Definition Save (path : list Z) (c : BootMetaCache) (w : W) : bool * BootMetaCache * W :=
  let m := set_stamp (meta_ c) (m_crc32c (meta_ c)) in
  let m := set_stamp m (ComputeCrc m) in
  let '(r, w) := a_save path (bytes_of m) w in
  (match r with None => false | Some (good, _) => good end, mkCache m (valid_ c), w).

(** The rest of the receive buffer is uninitialised: reading it is a [Fault]. *)
Definition LoadFromServer (server : list Z) (port : Z) (c : BootMetaCache) (w : W) : res (bool * BootMetaCache * W) :=
  let '(up, w) := a_startup w in
  if negb up then Ok (false, c, w) else
  let '(sock, w) := a_socket SOCK_STREAM w in
  match sock with
  | None => Ok (false, c, a_cleanup w)
  | Some sock =>
      let addr := default [0; 0; 0; 0] (inet_pton server) in
      let w := a_setopt sock 0x1006 10000 w in
      let '(connected, w) := a_connect sock addr port w in
      if negb connected then Ok (false, c, a_cleanup (a_closesocket sock w)) else
      let m := meta_ c in
      let hdr := EncodeHeader BLOCK_READ_REQ 0 1 READ_REQ_SIZE (m_image_id m) 0 1 (m_layer_id m) in
      let req := mkReadReq (m_image_id m) 0 1 (m_layer_id m) in
      let* (encoded, send_buf, total_len) := EncodeFrame (replicate 65 0) 65 hdr (Some (read_req_bytes req)) READ_REQ_SIZE in
      if negb encoded then Ok (false, c, a_cleanup (a_closesocket sock w)) else
      let* bytes := rd_bytes send_buf 0 total_len in
      let '(sent, w) := a_send sock bytes w in
      if sent =? -1 then Ok (false, c, a_cleanup (a_closesocket sock w)) else
      let* (recv_buf, w) := recv_at 65536 0 sock 65536 w in
      let w := a_cleanup (a_closesocket sock w) in
      if Z.of_nat (length recv_buf) <=? 0 then Ok (false, c, w) else
      let* (ok, rsp_hdr, payload, plen) :=
        DecodeFrame recv_buf (Z.of_nat (length recv_buf)) (frame_make []) (Some (replicate (Z.to_nat 65536) 0)) 65536 0 in
      let payload := default [] payload in
      if negb ok then Ok (false, c, w)
      else if (opcode rsp_hdr =? opcode_val BLOCK_READ_RSP) && (0 <? plen) then
        let* status := rd 4 payload 20 in
        if (status =? 0) && (READ_RSP_SIZE <? plen) then
          if META_SIZE <=? plen - READ_RSP_SIZE then
            let* bytes := rd_bytes payload READ_RSP_SIZE META_SIZE in
            let m := of_bytes (A:=BootMeta) bytes in
            let valid := (m_magic m =? BOOT_META_MAGIC) && ValidateCrc m in
            Ok (valid, mkCache m valid, w)
          else Ok (false, c, w)
        else Ok (false, c, w)
      else Ok (false, c, w)
  end.
End Cache.

(** ** Lemmas *)

Lemma bm_crc_ref data : bm_Crc32c data = crc32c_ref data.
Proof. apply bitwise_crc_ref. intros x. rewrite crc_bit_alt. unfold bm_crc_bit. by rewrite land_1_odd. Qed.

Lemma meta_size : sizeof BootMeta = 310%nat.
Proof. done. Qed.

Lemma of_bytes_wf bs : Forall is_byte bs -> (310 <= length bs)%nat -> meta_wf (of_bytes bs).
Proof. intros Hb Hl. destruct (bytes_of_of (A:=BootMeta) bs Hb) as [Hw _]; [by rewrite meta_size|]. exact Hw. Qed.

Lemma meta_length m : meta_wf m -> length (bytes_of m) = 310%nat.
Proof. exact (bytes_of_length (A:=BootMeta) m). Qed.

Lemma meta_body m : meta_wf m -> take 306 (bytes_of m) = concat (take 16 (meta_fields m)).
Proof. exact (bytes_of_take (A:=BootMeta) m 16). Qed.

Lemma ComputeCrc_eq m : ComputeCrc m = crc32c_ref (take 306 (bytes_of m)).
Proof. unfold ComputeCrc. by rewrite bm_crc_ref. Qed.

Lemma crc_int_ok m : meta_wf m -> int_ok 4 (ComputeCrc m).
Proof.
  intros Hm. rewrite ComputeCrc_eq. apply crc32c_ref_range, Forall_take. by apply (bytes_of_bytes (A:=BootMeta)).
Qed.

Lemma stamp_wf m crc : meta_wf m -> int_ok 4 crc -> meta_wf (set_stamp m crc).
Proof. intros [] Hc. by split. Qed.

(** The checksum does not depend on the field it is stored in. *)
Lemma crc_stamp m a b : meta_wf m -> int_ok 4 a -> int_ok 4 b -> ComputeCrc (set_stamp m a) = ComputeCrc (set_stamp m b).
Proof. intros Hm Ha Hb. by rewrite !ComputeCrc_eq, !meta_body by (by apply stamp_wf). Qed.

(** The structure [Save] writes. *)
Definition stamped (m : BootMeta) : BootMeta :=
  set_stamp (set_stamp m (m_crc32c m)) (ComputeCrc (set_stamp m (m_crc32c m))).

Lemma stamped_wf m : meta_wf m -> meta_wf (stamped m).
Proof. intros Hm. apply stamp_wf; [|apply crc_int_ok]; apply stamp_wf; try done; apply Hm. Qed.

Lemma stamped_valid m : meta_wf m -> ValidateCrc (stamped m) = true.
Proof.
  intros Hm. unfold ValidateCrc. apply Z.eqb_eq. assert (meta_wf (set_stamp m (m_crc32c m))) by (apply stamp_wf; [done|apply Hm]).
  unfold stamped. cbn [m_crc32c set_stamp]. by apply (crc_stamp m); [|apply Hm|apply crc_int_ok].
Qed.

(** What the checksum test means for bytes read from anywhere. *)
Definition good_image (c : list Z) : bool :=
  (310 <=? Z.of_nat (length c)) && (le_val (take 4 c) =? BOOT_META_MAGIC) &&
  (le_val (take 4 (drop 306 c)) =? crc32c_ref (take 306 c)).

Lemma meta_magic_read c : m_magic (of_bytes c) = le_val (take 4 c).
Proof. reflexivity. Qed.

Lemma meta_crc_read c : m_crc32c (of_bytes c) = le_val (take 4 (drop 306 c)).
Proof. change (m_crc32c (of_bytes c)) with (le_val (take 4 (drop 4 (drop 8 (drop 128 (drop 2 (drop 64 (drop 2 (drop 64 (drop 2 (drop 1 (drop 1 (drop 4 (drop 4 (drop 8 (drop 8 (drop 2 (drop 4 c)))))))))))))))))). by rewrite !drop_drop. Qed.

Lemma image_valid c :
  Forall is_byte c -> (310 <= length c)%nat ->
  (m_magic (of_bytes c) =? BOOT_META_MAGIC) && ValidateCrc (of_bytes c) = good_image c.
Proof.
  intros Hb Hl. unfold good_image, ValidateCrc. rewrite (proj2 (Z.leb_le _ _)) by lia.
  rewrite meta_magic_read, meta_crc_read, ComputeCrc_eq.
  destruct (bytes_of_of (A:=BootMeta) c Hb) as [_ E]; [by rewrite meta_size|]. by rewrite E, meta_size, take_take.
Qed.

Definition request_header (m : BootMeta) : FrameHeader :=
  EncodeHeader BLOCK_READ_REQ 0 1 READ_REQ_SIZE (m_image_id m) 0 1 (m_layer_id m).

Lemma request_frame m :
  meta_wf m -> exists buf, EncodeFrame (replicate 65 0) 65 (request_header m)
    (Some (read_req_bytes (mkReadReq (m_image_id m) 0 1 (m_layer_id m)))) READ_REQ_SIZE = Ok (true, buf, 61) /\ length buf = 65%nat.
Proof.
  intros Hm. set (req := read_req_bytes _). assert (length req = 21%nat) as Hr by reflexivity.
  assert (frame_wf (request_header m)) as Hf.
  { split; [..|by split; [|apply bytesb_ok]]; try apply Hm; split; by vm_compute. }
  exists (encoded (request_header m) req (replicate 65 0)). split; [|rewrite encoded_length, length_replicate; [done..|rewrite length_replicate; lia]].
  pose proof (encode_spec (request_header m) req (replicate 65 0) 65 Hf) as E. rewrite Hr, length_replicate in E.
  apply E; lia.
Qed.

Section Properties.
Context {W : Type} `{AgentLaws W}.

Lemma load_spec path c w :
  Load path c w = match (a_load path w).1 with
    | Some b => if good_image b then (true, mkCache (of_bytes b) true, (a_load path w).2)
                else (false, mkCache ApplyDefaults false, (a_load path w).2)
    | None => (false, mkCache ApplyDefaults false, (a_load path w).2)
    end.
Proof.
  unfold Load. destruct (load_disk path w) as [_ Hd]. destruct (a_load path w) as [[b|] w']; [|done]. cbn [fst snd] in *.
  specialize (Hd b eq_refl). apply disk_bytes in Hd as Hb. unfold META_SIZE.
  destruct (Z.ltb_spec (Z.of_nat (length b)) 310) as [Hl|Hl]; cbn [orb].
  { unfold good_image. by rewrite (proj2 (Z.leb_gt _ _)) by lia. }
  rewrite <- (image_valid b Hb) by lia. destruct (m_magic _ =? _); [|done]. cbn [negb andb]. by destruct (ValidateCrc _).
Qed.

Lemma good_stamped m : meta_wf m -> good_image (bytes_of (stamped m)) = true.
Proof.
  intros Hm. pose proof (stamped_wf m Hm) as Hs. rewrite <- image_valid.
  - rewrite of_bytes_of' by done. by rewrite stamped_valid.
  - by apply bytes_of_bytes.
  - by rewrite meta_length.
Qed.

(** Damage of up to four bytes, before the checksum or inside it. *)
Lemma good_image_damaged pre m1 m2 post :
  good_image (pre ++ m1 ++ post) = true -> Forall is_byte (pre ++ m1 ++ post) -> Forall is_byte m2 ->
  length m1 = length m2 -> (length m1 <= 4)%nat -> m1 <> m2 ->
  (length pre + length m1 <= 306 \/ (306 <= length pre /\ length pre + length m1 <= 310))%nat ->
  good_image (pre ++ m2 ++ post) = false.
Proof.
  intros Hg Hb Hb2 Hl H4 Hne Hw. apply not_true_iff_false. intros Hg2. unfold good_image in Hg, Hg2. bool_props.
  rewrite !Forall_app in Hb. destruct Hb as (Hp & Hm & Hs).
  destruct Hw as [Hw|[Hw1 Hw2]].
  - assert (forall m, length m = length m1 -> take 306 (pre ++ m ++ post) = pre ++ m ++ take (306 - length pre - length m) post) as Ht.
    { intros m E. rewrite take_app_ge by lia. f_equal. rewrite take_app_ge by lia. do 2 f_equal. }
    assert (forall m, length m = length m1 -> drop 306 (pre ++ m ++ post) = drop (306 - length pre - length m) post) as Hd.
    { intros m E. rewrite drop_app_ge by lia. rewrite drop_app_ge by lia. done. }
    rewrite Ht, Hd in * by (done || lia). rewrite <- Hl in *.
    set (rest := take _ post) in *.
    assert (Forall is_byte rest) by (by apply Forall_take).
    apply (crc32c_ref_burst pre m1 m2 rest); try done. congruence.
  - assert (forall m, take 306 (pre ++ m ++ post) = take 306 pre) as Ht by (intros; by apply take_app_le).
    rewrite !Ht in *. apply Hne.
    assert (forall m, length m = length m1 -> take 4 (drop 306 (pre ++ m ++ post)) =
      drop 306 pre ++ m ++ take (4 - (length pre - 306) - length m) post) as Hd.
    { intros m E. rewrite drop_app_le by lia. rewrite take_app_ge by (rewrite length_drop; lia).
      f_equal. rewrite length_drop, take_app_ge by lia. done. }
    rewrite !Hd in * by (done || lia).
    assert (le_val (drop 306 pre ++ m1 ++ take (4 - (length pre - 306) - length m1) post) =
            le_val (drop 306 pre ++ m2 ++ take (4 - (length pre - 306) - length m2) post)) as E by congruence.
    apply le_val_inj in E; [|rewrite !Forall_app; split_and!; try done; try (by apply Forall_drop); by apply Forall_take
                            |rewrite !Forall_app; split_and!; try done; try (by apply Forall_drop); by apply Forall_take
                            |rewrite !length_app, !length_take; lia].
    apply app_inv_head in E. rewrite Hl in E. by apply app_inv_tail in E.
Qed.

Ltac no_answer c := exists false, c; split_and!; [reflexivity|done|done|by left].

(** The handling of a received answer: nothing is read outside the buffers. *)
Lemma response_spec c (w : W) recv_buf :
  Forall is_byte recv_buf -> Z.of_nat (length recv_buf) <= 65536 ->
  exists b c',
    (let* (ok, rsp_hdr, payload, plen) :=
       DecodeFrame recv_buf (Z.of_nat (length recv_buf)) (frame_make []) (Some (replicate (Z.to_nat 65536) 0)) 65536 0 in
     let payload := default [] payload in
     if negb ok then Ok (false, c, w)
     else if (opcode rsp_hdr =? opcode_val BLOCK_READ_RSP) && (0 <? plen) then
       let* status := rd 4 payload 20 in
       if (status =? 0) && (READ_RSP_SIZE <? plen) then
         if META_SIZE <=? plen - READ_RSP_SIZE then
           let* bytes := rd_bytes payload READ_RSP_SIZE META_SIZE in
           let m := of_bytes (A:=BootMeta) bytes in
           let valid := (m_magic m =? BOOT_META_MAGIC) && ValidateCrc m in
           Ok (valid, mkCache m valid, w)
         else Ok (false, c, w)
       else Ok (false, c, w)
     else Ok (false, c, w)) = Ok (b, c', w) /\ (meta_wf (meta_ c) -> meta_wf (meta_ c')) /\
    (b = true -> exists bytes, length bytes = 310%nat /\ good_image bytes = true /\ c' = mkCache (of_bytes bytes) true) /\
    (b = false -> c' = c \/ valid_ c' = false).
Proof.
  intros Hb Hl. set (arr := replicate (Z.to_nat 65536) 0).
  assert (length arr = Z.to_nat 65536) as Ha by apply length_replicate.
  assert (Forall is_byte arr) as Hab by (apply Forall_replicate; unfold is_byte; lia). clearbody arr.
  destruct (accepts recv_buf 65536) eqn:Hacc.
  - destruct (accepts_sizes _ _ Hb Hacc) as (Hk0 & Hk2 & Hk1). pose proof (payload_len_range recv_buf Hb ltac:(lia)) as Hr.
    rewrite decode_accept by (done || lia). cbn [res_bind default negb]. set (h := of_bytes recv_buf) in *.
    set (k := Z.to_nat (payload_len h)). set (pl := take k (drop 40 recv_buf) ++ drop k arr).
    assert (length pl = Z.to_nat 65536) as Hpl.
    { unfold pl. rewrite length_app, length_take, !length_drop. lia. }
    assert (Forall is_byte pl) as Hpb.
    { apply Forall_app. split; [by apply Forall_sub|by apply Forall_drop]. }
    change (id pl) with pl. case_match; [|no_answer c].
    rewrite rd_ok by lia. cbn [res_bind]. case_match; [|no_answer c]. unfold META_SIZE, READ_RSP_SIZE in *.
    case_match; [|no_answer c]. rewrite rd_bytes_ok by lia. cbn [res_bind]. cbv zeta.
    set (bytes := take (Z.to_nat 310) _).
    assert (length bytes = 310%nat) as Hbl by (unfold bytes; rewrite length_take, length_drop; lia).
    assert (Forall is_byte bytes) as Hbb by (unfold bytes; by apply Forall_sub).
    rewrite image_valid by (done || lia).
    eexists _, _. split; [reflexivity|]. split; [intros _; apply of_bytes_wf; [done|lia]|].
    split; [|intros ->; by right]. intros Hg. exists bytes. by rewrite Hg.
  - destruct (decode_reject recv_buf (frame_make []) (Some arr) 65536 0 Hb) as (h & plen & E); [lia|done|by apply wraps_small|].
    rewrite E. cbn [res_bind negb]. no_answer c.
Qed.
End Properties.

(** Saving and loading: when every byte of a saved structure reaches the
    disk, loading the file succeeds and gives the structure that was saved, with
    the magic number, the version and a fresh checksum filled in and everything
    else unchanged. *)
Theorem boot_meta_roundtrip {W} `{AgentLaws W} path c c2 (w : W) good :
  meta_wf (meta_ c) -> (a_save path (bytes_of (stamped (meta_ c))) w).1 = Some (good, 310) ->
  let '(ok, c', w') := Save path c w in
  is_Some (a_load path w').1 ->
  ok = good /\ meta_ c' = set_stamp (meta_ c) (m_crc32c (meta_ c')) /\
  Load path c2 w' = (true, mkCache (meta_ c') true, (a_load path w').2).
Proof.
  intros Hm Hs. unfold Save. fold (stamped (meta_ c)). pose proof (stamped_wf _ Hm) as Hw.
  pose proof (save_disk path (bytes_of (stamped (meta_ c))) w (bytes_of_bytes _ Hw)) as Hd.
  destruct (a_save _ _ w) as [r w']. cbn [fst snd] in *. subst r. destruct Hd as [_ Hd].
  intros [b Hb]. split_and!; [done|done|]. rewrite load_spec, Hb.
  apply (proj2 (load_disk path w')) in Hb. rewrite Hd in Hb. unfold saved in Hb. rewrite lookup_insert_eq in Hb.
  rewrite (take_ge (bytes_of (stamped (meta_ c)))) in Hb by (rewrite (meta_length _ Hw); lia). injection Hb as <-. cbn [meta_].
  by rewrite good_stamped, of_bytes_of'.
Qed.

(** C20. Damaged metadata is not used: a file that differs from a saved one in a
    window of up to four bytes, anywhere before the checksum or inside it, or
    that is shorter, is refused, and the cache falls back to the built-in
    defaults, marked invalid. *)
Theorem boot_meta_rejects_damage {W} `{AgentLaws W} path c m (w : W) pre m1 m2 post file :
  meta_wf m -> bytes_of (stamped m) = pre ++ m1 ++ post -> Forall is_byte m2 ->
  length m1 = length m2 -> (length m1 <= 4)%nat -> m1 <> m2 ->
  (length pre + length m1 <= 306)%nat \/ (306 <= length pre)%nat ->
  (a_load path w).1 = Some file -> file = pre ++ m2 ++ post \/ (length file < 310)%nat ->
  Load path c w = (false, mkCache ApplyDefaults false, (a_load path w).2).
Proof.
  intros Hm E Hb Hl H4 Hne Hw Hf Hcase. rewrite load_spec, Hf.
  assert (good_image file = false) as ->; [|done]. destruct Hcase as [->|Hs].
  - pose proof (meta_length _ (stamped_wf m Hm)) as Hlen. rewrite E, !length_app in Hlen.
    apply (good_image_damaged pre m1 m2 post); try done.
    + rewrite <- E. by apply good_stamped.
    + rewrite <- E. apply bytes_of_bytes. by apply stamped_wf.
    + destruct Hw; [by left|right]. lia.
  - unfold good_image. by rewrite (proj2 (Z.leb_gt _ _)) by lia.
Qed.

Lemma fetch_spec {W} `{AgentLaws W} server port c (w : W) :
  meta_wf (meta_ c) ->
  exists b c' w', LoadFromServer server port c w = Ok (b, c', w') /\ loan w' = loan w /\ meta_wf (meta_ c') /\
    (b = true -> exists bytes, length bytes = 310%nat /\ good_image bytes = true /\ c' = mkCache (of_bytes bytes) true) /\
    (b = false -> c' = c \/ valid_ c' = false).
Proof.
  intros Hm. unfold LoadFromServer. pose proof (l_startup w) as L1. destruct (a_startup w) as [[] w1]; cbn [fst snd negb] in *.
  2: { exists false, c, w1. rewrite L1. by split_and!; [| | | |left]. }
  pose proof (l_socket SOCK_STREAM w1) as L2. rewrite L1 in L2. destruct (a_socket SOCK_STREAM w1) as [[sock|] w2]; cbn [fst snd] in *.
  2: { exists false, c, (a_cleanup w2). rewrite l_cleanup, L2, wsa_back. by split_and!; [| | | |left]. }
  destruct L2 as [Hfresh L2]. change (on_socks (wsa_up (loan w))) with (on_socks (loan w)) in Hfresh.
  pose proof (l_connect sock (default [0; 0; 0; 0] (inet_pton server)) port (a_setopt sock 0x1006 10000 w2)) as L3.
  rewrite l_setopt in L3. destruct (a_connect _ _ _ _) as [[] w3]; cbn [fst snd negb] in *.
  2: { eexists false, c, _. split; [reflexivity|]. rewrite l_cleanup, l_closesocket, L3, L2, all_back by done. by split_and!; [| | |left]. }
  destruct (request_frame (meta_ c) Hm) as (buf & Ef & Hbuf). unfold request_header in Ef. rewrite Ef. cbn [res_bind negb].
  rewrite rd_bytes_ok by lia. cbn [res_bind].
  pose proof (l_send sock (take (Z.to_nat 61) (drop (Z.to_nat 0) buf)) w3) as L4. destruct (a_send sock _ w3) as [k w4]; cbn [fst snd] in *.
  assert (loan (a_cleanup (a_closesocket sock w4)) = loan w) as Hback.
  { by rewrite l_cleanup, l_closesocket, L4, L3, L2, all_back. }
  destruct (k =? -1). { eexists false, c, _. split; [reflexivity|]. by split_and!; [| | |left]. }
  destruct (recv_at_ok 65536 0 sock 65536 w4) as (rb & w5 & -> & _ & L5 & R1 & R2); [lia..|]. cbn [res_bind].
  assert (loan (a_cleanup (a_closesocket sock w5)) = loan w) as Hback'.
  { by rewrite l_cleanup, l_closesocket, L5, L4, L3, L2, all_back. }
  destruct (Z.of_nat (length rb) <=? 0). { eexists false, c, _. split; [reflexivity|]. by split_and!; [| | |left]. }
  destruct (response_spec c (a_cleanup (a_closesocket sock w5)) rb R1 R2) as (b & c' & E & H0' & H1 & H2).
  exists b, c', (a_cleanup (a_closesocket sock w5)). split; [exact E|]. auto.
Qed.

(** Fetching the metadata from a server is safe whatever the server answers:
    no access leaves the send, receive or payload buffer, the socket and the
    Winsock reference are given back on every path, success means that the
    cache holds 310 received bytes with the right magic number and checksum, and
    after a failure the cache is unchanged or marked invalid. *)
Theorem boot_meta_fetch_safe {W} `{AgentLaws W} server port c (w : W) :
  meta_wf (meta_ c) ->
  exists b c' w', LoadFromServer server port c w = Ok (b, c', w') /\ loan w' = loan w /\
    (b = true -> exists bytes, length bytes = 310%nat /\ good_image bytes = true /\ c' = mkCache (of_bytes bytes) true) /\
    (b = false -> c' = c \/ valid_ c' = false).
Proof.
  intros Hm. destruct (fetch_spec server port c w Hm) as (b & c' & w' & E & Hl & _ & H1 & H2). by exists b, c', w'.
Qed.

(** ** Witnesses *)

Definition sim0 : SimAgent := mkSimAgent (mkLoan 0 ∅) ∅ 1000 (fun _ _ => true) [] [] [].
Definition meta_path : list Z := zstr "boot.meta".

Lemma zero_meta_wf : meta_wf zero_meta.
Proof. split; try (split; [done|by apply bytesb_ok]); split; by vm_compute. Qed.

Lemma boot_meta_roundtrip_witness :
  let '(ok, c', w') := Save meta_path cache_start sim0 in
  ok = true /\ Load meta_path cache_start w' = (true, mkCache (meta_ c') true, (a_load meta_path w').2).
Proof.
  pose proof (boot_meta_roundtrip meta_path cache_start cache_start sim0 true zero_meta_wf eq_refl) as H.
  destruct (Save meta_path cache_start sim0) as [[ok c'] w'] eqn:E.
  assert (is_Some (a_load meta_path w').1) as Hl.
  { replace w' with (Save meta_path cache_start sim0).2 by (by rewrite E). vm_compute. by eexists. }
  destruct (H Hl) as (H1 & _ & H2). by split.
Defined.

(** The file of a saved structure with its first byte of disk size flipped. *)
Definition damaged_file : list Z :=
  take 14 (bytes_of (stamped zero_meta)) ++ [1] ++ drop 15 (bytes_of (stamped zero_meta)).
Definition sim_damaged : SimAgent := mkSimAgent (mkLoan 0 ∅) {[ meta_path := damaged_file ]} 1000 (fun _ _ => true) [] [] [].

Lemma boot_meta_rejects_damage_witness :
  Load meta_path cache_start sim_damaged = (false, mkCache ApplyDefaults false, (a_load meta_path sim_damaged).2).
Proof.
  apply (boot_meta_rejects_damage meta_path cache_start zero_meta sim_damaged (take 14 (bytes_of (stamped zero_meta))) [0] [1]
    (drop 15 (bytes_of (stamped zero_meta))) damaged_file zero_meta_wf); try (by vm_compute); try (by apply bytesb_ok).
  - cbn; lia.
  - left. vm_compute. lia.
  - by left.
Defined.

Lemma boot_meta_fetch_safe_witness :
  exists b c' w', LoadFromServer (zstr "10.0.0.1") 9527 cache_start sim0 = Ok (b, c', w') /\ loan w' = loan sim0.
Proof.
  destruct (boot_meta_fetch_safe (zstr "10.0.0.1") 9527 cache_start sim0 zero_meta_wf) as (b & c' & w' & E & Hl & _).
  exists b, c', w'. split; [exact E|exact Hl].
Defined.
