(* ===== verification/Protocol.v ===== *)
(** * The wire protocol: messages and the places that declare it
    (src/client/include/hd_protocol.h, the payloads of
    src/client/common/hd_frame_codec.h)

    The protocol is declared three times: in hd_protocol.h (namespace [hd],
    Module [hd] here), in hd_frame_codec.h (namespace [hd::proto], the header in
    Codec.v and the payloads at the top level here) and in the driver's
    net_driver.h (Frame.v). The payloads are instances of [Packed], so one
    theorem carries every message through the codec; the declarations are
    compared byte for byte; and the frame the boot diagnostic writes by hand is
    read with the codec. *)

From S2P Require Import Prelude Nt Crc32c Frame BootEnv BootChecks Packed Codec AgentEnv BootMeta.

(** ** hd_frame_codec.h: flags and payloads *)

Definition FLAG_COMPRESSED : Z := 0x01.
Definition FLAG_URGENT : Z := 0x02.
Definition FLAG_CACHED : Z := 0x04.

Record BlockReadRspPayload : Type := mkReadRsp { r_image_id : Z; r_block_offset : Z; r_block_count : Z; r_status : Z }.
Record BlockWriteReqPayload : Type := mkWriteReq {
  w_image_id : Z; w_block_offset : Z; w_block_count : Z; w_layer_id : Z; w_policy : Z }.
Record BlockWriteRspPayload : Type := mkWriteRsp { wr_image_id : Z; wr_block_offset : Z; wr_status : Z }.
Record HeartbeatPayload : Type := mkHeartbeat {
  b_terminal_id : Z; b_timestamp : Z; b_cache_hit_rate : Z; b_pending_io : Z }.
Record HeartbeatAckPayload : Type := mkHeartbeatAck {
  k_server_timestamp : Z; k_active_connections : Z; k_server_load : Z }.
Record ErrorRspPayload : Type := mkErrorRsp { e_error_code : Z; e_error_msg : list Z }.

Record read_req_wf (q : BlockReadReqPayload) : Prop := {
  qw_image_id : int_ok 8 (q_image_id q); qw_block_offset : int_ok 8 (q_block_offset q);
  qw_block_count : int_ok 4 (q_block_count q); qw_layer_id : int_ok 1 (q_layer_id q) }.
Record read_rsp_wf (r : BlockReadRspPayload) : Prop := {
  rw_image_id : int_ok 8 (r_image_id r); rw_block_offset : int_ok 8 (r_block_offset r);
  rw_block_count : int_ok 4 (r_block_count r); rw_status : sint_ok 4 (r_status r) }.
Record write_req_wf (q : BlockWriteReqPayload) : Prop := {
  ww_image_id : int_ok 8 (w_image_id q); ww_block_offset : int_ok 8 (w_block_offset q);
  ww_block_count : int_ok 4 (w_block_count q); ww_layer_id : int_ok 1 (w_layer_id q); ww_policy : int_ok 1 (w_policy q) }.
Record write_rsp_wf (r : BlockWriteRspPayload) : Prop := {
  wrw_image_id : int_ok 8 (wr_image_id r); wrw_block_offset : int_ok 8 (wr_block_offset r);
  wrw_status : sint_ok 4 (wr_status r) }.
Record heartbeat_wf (b : HeartbeatPayload) : Prop := {
  bw_terminal_id : int_ok 8 (b_terminal_id b); bw_timestamp : int_ok 8 (b_timestamp b);
  bw_cache_hit_rate : int_ok 4 (b_cache_hit_rate b); bw_pending_io : int_ok 4 (b_pending_io b) }.
Record heartbeat_ack_wf (k : HeartbeatAckPayload) : Prop := {
  kw_server_timestamp : int_ok 8 (k_server_timestamp k); kw_active_connections : int_ok 4 (k_active_connections k);
  kw_server_load : int_ok 4 (k_server_load k) }.
Record error_rsp_wf (e : ErrorRspPayload) : Prop := {
  ew_error_code : sint_ok 4 (e_error_code e); ew_error_msg : arr_ok 128 (e_error_msg e) }.

#[export, refine] Instance BlockReadReq_packed : Packed BlockReadReqPayload := {
  p_sizes := [8; 8; 4; 1]%nat;
  p_fields q := [le_bytes 8 (q_image_id q); le_bytes 8 (q_block_offset q); le_bytes 4 (q_block_count q); le_bytes 1 (q_layer_id q)];
  p_make fs := match fs with [a; b; c; d] => mkReadReq (le_val a) (le_val b) (le_val c) (le_val d) | _ => mkReadReq 0 0 0 0 end;
  p_wf := read_req_wf;
}.
Proof. packed_ok. packed_read. packed_make. Defined.

#[export, refine] Instance BlockReadRsp_packed : Packed BlockReadRspPayload := {
  p_sizes := [8; 8; 4; 4]%nat;
  p_fields r := [le_bytes 8 (r_image_id r); le_bytes 8 (r_block_offset r); le_bytes 4 (r_block_count r); le_bytes 4 (r_status r)];
  p_make fs := match fs with [a; b; c; d] => mkReadRsp (le_val a) (le_val b) (le_val c) (sle_val d) | _ => mkReadRsp 0 0 0 0 end;
  p_wf := read_rsp_wf;
}.
Proof. packed_ok. packed_read. packed_make. Defined.

#[export, refine] Instance BlockWriteReq_packed : Packed BlockWriteReqPayload := {
  p_sizes := [8; 8; 4; 1; 1]%nat;
  p_fields q := [le_bytes 8 (w_image_id q); le_bytes 8 (w_block_offset q); le_bytes 4 (w_block_count q);
                 le_bytes 1 (w_layer_id q); le_bytes 1 (w_policy q)];
  p_make fs := match fs with
    | [a; b; c; d; e] => mkWriteReq (le_val a) (le_val b) (le_val c) (le_val d) (le_val e)
    | _ => mkWriteReq 0 0 0 0 0 end;
  p_wf := write_req_wf;
}.
Proof. packed_ok. packed_read. packed_make. Defined.

#[export, refine] Instance BlockWriteRsp_packed : Packed BlockWriteRspPayload := {
  p_sizes := [8; 8; 4]%nat;
  p_fields r := [le_bytes 8 (wr_image_id r); le_bytes 8 (wr_block_offset r); le_bytes 4 (wr_status r)];
  p_make fs := match fs with [a; b; c] => mkWriteRsp (le_val a) (le_val b) (sle_val c) | _ => mkWriteRsp 0 0 0 end;
  p_wf := write_rsp_wf;
}.
Proof. packed_ok. packed_read. packed_make. Defined.

#[export, refine] Instance Heartbeat_packed : Packed HeartbeatPayload := {
  p_sizes := [8; 8; 4; 4]%nat;
  p_fields b := [le_bytes 8 (b_terminal_id b); le_bytes 8 (b_timestamp b); le_bytes 4 (b_cache_hit_rate b); le_bytes 4 (b_pending_io b)];
  p_make fs := match fs with [a; b; c; d] => mkHeartbeat (le_val a) (le_val b) (le_val c) (le_val d) | _ => mkHeartbeat 0 0 0 0 end;
  p_wf := heartbeat_wf;
}.
Proof. packed_ok. packed_read. packed_make. Defined.

#[export, refine] Instance HeartbeatAck_packed : Packed HeartbeatAckPayload := {
  p_sizes := [8; 4; 4]%nat;
  p_fields k := [le_bytes 8 (k_server_timestamp k); le_bytes 4 (k_active_connections k); le_bytes 4 (k_server_load k)];
  p_make fs := match fs with [a; b; c] => mkHeartbeatAck (le_val a) (le_val b) (le_val c) | _ => mkHeartbeatAck 0 0 0 end;
  p_wf := heartbeat_ack_wf;
}.
Proof. packed_ok. packed_read. packed_make. Defined.

#[export, refine] Instance ErrorRsp_packed : Packed ErrorRspPayload := {
  p_sizes := [4; 128]%nat;
  p_fields e := [le_bytes 4 (e_error_code e); e_error_msg e];
  p_make fs := match fs with [a; b] => mkErrorRsp (sle_val a) b | _ => mkErrorRsp 0 (replicate 128 0) end;
  p_wf := error_rsp_wf;
}.
Proof. packed_ok. packed_read. packed_make. Defined.

(** ** hd_protocol.h *)

Module hd.

Definition HD_BLOCK_SIZE : Z := 4096.
Definition HD_CHUNK_SIZE : Z := 64 * 1024.
Definition HD_FRAME_HDR_SIZE : Z := 32.
Definition HD_MAGIC : Z := 0x48444B47.
Definition HD_VERSION : Z := 0x0001.

Inductive FrameType : Type :=
| FT_BLOCK_READ_REQ | FT_BLOCK_READ_RSP | FT_BLOCK_WRITE_REQ | FT_BLOCK_WRITE_RSP | FT_HEARTBEAT | FT_HEARTBEAT_ACK
| FT_CACHE_INVALIDATE | FT_PREFETCH_PUSH | FT_ERROR_RSP.
Definition frame_type_val (t : FrameType) : Z :=
  match t with
  | FT_BLOCK_READ_REQ => 0x01 | FT_BLOCK_READ_RSP => 0x02 | FT_BLOCK_WRITE_REQ => 0x03 | FT_BLOCK_WRITE_RSP => 0x04
  | FT_HEARTBEAT => 0x10 | FT_HEARTBEAT_ACK => 0x11 | FT_CACHE_INVALIDATE => 0x20 | FT_PREFETCH_PUSH => 0x30
  | FT_ERROR_RSP => 0xFF
  end.

Inductive LayerType : Type := LAYER_OS | LAYER_DRIVER | LAYER_APP | LAYER_OVERLAY.
Definition layer_val (l : LayerType) : Z :=
  match l with LAYER_OS => 0 | LAYER_DRIVER => 1 | LAYER_APP => 2 | LAYER_OVERLAY => 3 end.

Inductive WritePolicy : Type := RAM_OVERLAY | NVME_OVERLAY | PERSISTENT_USER | READ_ONLY | SNAPSHOT | HYBRID.
Definition policy_val (p : WritePolicy) : Z :=
  match p with
  | RAM_OVERLAY => 0 | NVME_OVERLAY => 1 | PERSISTENT_USER => 2 | READ_ONLY => 3 | SNAPSHOT => 4 | HYBRID => 5
  end.

Inductive QoSLevel : Type := P0_VDISK_IO | P1_WRITEBACK | P2_PREFETCH | P3_UPDATE.
Definition qos_val (q : QoSLevel) : Z :=
  match q with P0_VDISK_IO => 0 | P1_WRITEBACK => 1 | P2_PREFETCH => 2 | P3_UPDATE => 3 end.

Record FrameHeader : Type := mkHd {
  magic : Z; version : Z; frame_type : Z; flags : Z; frame_id : Z; payload_len : Z;
  image_id : Z; block_offset : Z; block_count : Z; layer_id : Z; reserved : list Z }.
Record header_ok (h : FrameHeader) : Prop := {
  hw_magic : int_ok 4 (magic h); hw_version : int_ok 2 (version h); hw_frame_type : int_ok 1 (frame_type h);
  hw_flags : int_ok 1 (flags h); hw_frame_id : int_ok 4 (frame_id h); hw_payload_len : int_ok 4 (payload_len h);
  hw_image_id : int_ok 8 (image_id h); hw_block_offset : int_ok 8 (block_offset h);
  hw_block_count : int_ok 4 (block_count h); hw_layer_id : int_ok 1 (layer_id h); hw_reserved : arr_ok 3 (reserved h) }.

#[global, refine] Instance FrameHeader_packed : Packed FrameHeader := {
  p_sizes := [4; 2; 1; 1; 4; 4; 8; 8; 4; 1; 3]%nat;
  p_fields h := [le_bytes 4 (magic h); le_bytes 2 (version h); le_bytes 1 (frame_type h); le_bytes 1 (flags h);
    le_bytes 4 (frame_id h); le_bytes 4 (payload_len h); le_bytes 8 (image_id h); le_bytes 8 (block_offset h);
    le_bytes 4 (block_count h); le_bytes 1 (layer_id h); reserved h];
  p_make fs := match fs with
    | [a; b; c; d; e; f; g; h; i; j; k] =>
        mkHd (le_val a) (le_val b) (le_val c) (le_val d) (le_val e) (le_val f) (le_val g) (le_val h) (le_val i) (le_val j) k
    | _ => mkHd 0 0 0 0 0 0 0 0 0 0 [0; 0; 0] end;
  p_wf := header_ok;
}.
Proof. packed_ok. packed_read. packed_make. Defined.

(** The messages have the fields of the payloads above, in their order. *)
Record BlockReadReq : Type := mkReadReq { rq_image_id : Z; rq_block_offset : Z; rq_block_count : Z; rq_layer_id : Z }.
Record BlockReadRsp : Type := mkReadRsp { rs_image_id : Z; rs_block_offset : Z; rs_block_count : Z; rs_status : Z }.
Record BlockWriteReq : Type := mkWriteReq {
  wq_image_id : Z; wq_block_offset : Z; wq_block_count : Z; wq_layer_id : Z; wq_policy : Z }.
Record BlockWriteRsp : Type := mkWriteRsp { ws_image_id : Z; ws_block_offset : Z; ws_status : Z }.
Record HeartbeatMsg : Type := mkHeartbeat {
  hb_terminal_id : Z; hb_timestamp : Z; hb_cache_hit_rate : Z; hb_pending_io : Z }.

Definition read_req_image (q : BlockReadReq) : list Z :=
  le_bytes 8 (rq_image_id q) ++ le_bytes 8 (rq_block_offset q) ++ le_bytes 4 (rq_block_count q) ++ le_bytes 1 (rq_layer_id q).
Definition read_rsp_image (r : BlockReadRsp) : list Z :=
  le_bytes 8 (rs_image_id r) ++ le_bytes 8 (rs_block_offset r) ++ le_bytes 4 (rs_block_count r) ++ le_bytes 4 (rs_status r).
Definition write_req_image (q : BlockWriteReq) : list Z :=
  le_bytes 8 (wq_image_id q) ++ le_bytes 8 (wq_block_offset q) ++ le_bytes 4 (wq_block_count q) ++
  le_bytes 1 (wq_layer_id q) ++ le_bytes 1 (wq_policy q).
Definition write_rsp_image (r : BlockWriteRsp) : list Z :=
  le_bytes 8 (ws_image_id r) ++ le_bytes 8 (ws_block_offset r) ++ le_bytes 4 (ws_status r).
Definition heartbeat_image (b : HeartbeatMsg) : list Z :=
  le_bytes 8 (hb_terminal_id b) ++ le_bytes 8 (hb_timestamp b) ++ le_bytes 4 (hb_cache_hit_rate b) ++ le_bytes 4 (hb_pending_io b).

End hd.

(** ** The three declarations of the header *)

Definition to_codec (h : hd.FrameHeader) : FrameHeader :=
  mkFrame (hd.magic h) (hd.version h) (hd.frame_type h) (hd.flags h) (hd.frame_id h) (hd.payload_len h) (hd.image_id h)
    (hd.block_offset h) (hd.block_count h) (hd.layer_id h) (hd.reserved h).
Definition to_driver (h : hd.FrameHeader) : HD_NET_FRAME_HEADER :=
  mkHeader (hd.magic h) (hd.version h) (hd.frame_type h) (hd.flags h) (hd.frame_id h) (hd.payload_len h) (hd.image_id h)
    (hd.block_offset h) (hd.block_count h) (hd.layer_id h) (hd.reserved h).

Definition is_vector (o : Opcode) : bool :=
  match o with VECTOR_READ_REQ | VECTOR_READ_RSP | VECTOR_WRITE_REQ | VECTOR_WRITE_RSP => true | _ => false end.

Definition type_opcode (t : hd.FrameType) : Opcode :=
  match t with
  | hd.FT_BLOCK_READ_REQ => BLOCK_READ_REQ | hd.FT_BLOCK_READ_RSP => BLOCK_READ_RSP
  | hd.FT_BLOCK_WRITE_REQ => BLOCK_WRITE_REQ | hd.FT_BLOCK_WRITE_RSP => BLOCK_WRITE_RSP
  | hd.FT_HEARTBEAT => HEARTBEAT | hd.FT_HEARTBEAT_ACK => HEARTBEAT_ACK
  | hd.FT_CACHE_INVALIDATE => CACHE_INVALIDATE | hd.FT_PREFETCH_PUSH => PREFETCH_PUSH | hd.FT_ERROR_RSP => ERROR_RSP
  end.

(** The request frame of the diagnostic between two probes: the fixed part, the
    twelve bytes it sets, zeros and the checksum. *)
Definition diag_head : list Z :=
  le_bytes 4 0x48444B47 ++ le_bytes 2 1 ++ [0x01; 0] ++ le_bytes 4 1 ++ le_bytes 4 24.
Definition diag_frame (x crc : list Z) : list Z := diag_head ++ x ++ replicate 32 0 ++ crc.
Definition diag_shape (f : list Z) : Prop :=
  exists x crc, f = diag_frame x crc /\ length x = 12%nat /\ length crc = 4%nat.

(** ** Lemmas *)

Lemma concat_inj (fs gs : list (list Z)) : length <$> fs = length <$> gs -> concat fs = concat gs -> fs = gs.
Proof.
  intros Hl Hc. rewrite <- (cut_concat fs []), <- (cut_concat gs []). by rewrite Hl, Hc.
Qed.

Lemma cons_split {A} (x y : A) l k : x :: l = y :: k -> x = y /\ l = k.
Proof. by intros [= -> ->]. Qed.

Lemma le_bytes_inj n a b : int_ok n a -> int_ok n b -> le_bytes n a = le_bytes n b -> a = b.
Proof. intros Ha Hb E. by rewrite <- (int_ok_read n a Ha), <- (int_ok_read n b Hb), E. Qed.

Lemma opcode_name_known o : OpcodeName (opcode_val o) <> "UNKNOWN"%string.
Proof. by destruct o. Qed.

Lemma opcode_val_inj o o' : opcode_val o = opcode_val o' -> o = o'.
Proof. destruct o, o'; by intros [=]. Qed.

Lemma opcode_typed o : is_vector o = false -> exists t, type_opcode t = o.
Proof.
  destruct o; try discriminate; intros _;
    [exists hd.FT_BLOCK_READ_REQ|exists hd.FT_BLOCK_READ_RSP|exists hd.FT_BLOCK_WRITE_REQ|exists hd.FT_BLOCK_WRITE_RSP
    |exists hd.FT_HEARTBEAT|exists hd.FT_HEARTBEAT_ACK|exists hd.FT_CACHE_INVALIDATE|exists hd.FT_PREFETCH_PUSH
    |exists hd.FT_ERROR_RSP]; reflexivity.
Qed.

Lemma opcode_byte o : int_ok 1 (opcode_val o) /\ opcode_val o <> 0.
Proof. destruct o; repeat split; by vm_compute. Qed.

Lemma hd_images :
  (forall q, hd.read_req_image q =
     bytes_of (mkReadReq (hd.rq_image_id q) (hd.rq_block_offset q) (hd.rq_block_count q) (hd.rq_layer_id q))) /\
  (forall r, hd.read_rsp_image r =
     bytes_of (mkReadRsp (hd.rs_image_id r) (hd.rs_block_offset r) (hd.rs_block_count r) (hd.rs_status r))) /\
  (forall q, hd.write_req_image q =
     bytes_of (mkWriteReq (hd.wq_image_id q) (hd.wq_block_offset q) (hd.wq_block_count q) (hd.wq_layer_id q) (hd.wq_policy q))) /\
  (forall r, hd.write_rsp_image r = bytes_of (mkWriteRsp (hd.ws_image_id r) (hd.ws_block_offset r) (hd.ws_status r))) /\
  (forall b, hd.heartbeat_image b =
     bytes_of (mkHeartbeat (hd.hb_terminal_id b) (hd.hb_timestamp b) (hd.hb_cache_hit_rate b) (hd.hb_pending_io b))).
Proof. split_and!; reflexivity. Qed.

Lemma read_req_bytes_of q : read_req_bytes q = bytes_of q.
Proof. reflexivity. Qed.

(** The headers [EncodeHeader] builds. *)
Lemma encoded_header_wf op fl rid len img off cnt lay :
  int_ok 1 fl -> int_ok 4 rid -> int_ok 4 len -> int_ok 8 img -> int_ok 8 off -> int_ok 4 cnt -> int_ok 1 lay ->
  frame_wf (EncodeHeader op fl rid len img off cnt lay).
Proof.
  intros. split; [split; by vm_compute|split; by vm_compute|apply opcode_byte|assumption..|].
  split; [done|by apply bytesb_ok].
Qed.

Lemma encoded_header_valid op fl rid len img off cnt lay :
  ValidateHeader (EncodeHeader op fl rid len img off cnt lay) = true.
Proof. by destruct op. Qed.

Lemma diag_prepared : exists f, req_prepare = Ok f /\ diag_shape f /\ Forall is_byte f.
Proof.
  eexists. split; [reflexivity|]. split; [by exists (replicate 12 0), (replicate 4 0)|by apply bytesb_ok].
Qed.

(** A write that replaces a piece of the block. *)
Lemma copy_at_piece (a x b y : list Z) n : n = length a -> length y = length x -> copy_at (a ++ x ++ b) n y = a ++ y ++ b.
Proof.
  intros -> Hy. unfold copy_at. rewrite take_app_length, drop_app_ge by lia.
  by replace (length a + length y - length a)%nat with (length x) by lia; rewrite drop_app_length.
Qed.

(** What the three writes of a probe do to the frame. *)
Lemma diag_set_request x crc y z : length x = 12%nat -> length y = 8%nat -> length z = 4%nat ->
  copy_at (copy_at (diag_frame x crc) 16 y) 24 z = diag_frame (y ++ z) crc.
Proof.
  intros Hx Hy Hz. unfold diag_frame. rewrite <- (take_drop 8 x), <- !app_assoc.
  rewrite (copy_at_piece diag_head (take 8 x)) by (rewrite ?length_take, ?Hy, ?Hx; done).
  rewrite (app_assoc diag_head y). rewrite copy_at_piece; rewrite ?length_app, ?length_drop, ?Hy, ?Hx, ?Hz; [|done..].
  by rewrite <- !app_assoc.
Qed.

Lemma diag_set_crc x crc c : length x = 12%nat -> length crc = 4%nat -> length c = 4%nat ->
  copy_at (diag_frame x crc) 60 c = diag_frame x c.
Proof.
  intros Hx Hc Hc'. unfold diag_frame. rewrite !app_assoc. rewrite <- (app_nil_r (_ ++ crc)), <- app_assoc.
  rewrite copy_at_piece; rewrite ?length_app, ?Hx; [by rewrite app_nil_r|done|lia].
Qed.

Lemma diag_covered x crc : length x = 12%nat -> take 60 (diag_frame x crc) = diag_head ++ x ++ replicate 32 0.
Proof.
  intros Hx. unfold diag_frame. rewrite !app_assoc. apply take_app_length'. rewrite !length_app, Hx. reflexivity.
Qed.

Lemma diag_frame_length x crc : length x = 12%nat -> length crc = 4%nat -> length (diag_frame x crc) = 64%nat.
Proof. intros Hx Hc. unfold diag_frame. rewrite !length_app, Hx, Hc. reflexivity. Qed.

(** The frame as the codec reads it. *)
Definition diag_header (lba : Z) : FrameHeader := EncodeHeader BLOCK_READ_REQ 0 1 24 lba 1 0 0.
Lemma diag_frame_codec lba crc buffer : length buffer = 64%nat -> length crc = 4%nat ->
  diag_frame (le_bytes 8 lba ++ le_bytes 4 1) crc = encoded (diag_header lba) (replicate 20 0 ++ crc) buffer.
Proof.
  intros Hb Hc. unfold encoded. rewrite drop_ge by (rewrite length_app, Hc, Hb; by vm_compute). rewrite app_nil_r.
  reflexivity.
Qed.

Section Probe.
Context {W : Type} `{Win32 W}.

(** The system after a probe: the clock, the request, the answer, the clock. *)
Definition after_probe (sock : Z) (frame : list Z) (w : W) : W :=
  (GetTickCount64 (recv sock 64 (send sock frame (GetTickCount64 w).2)).2).2.

Lemma probe_frame sock lba f v l (p : Proc W) :
  diag_shape f -> Forall is_byte f -> crc_static_ok (statics p) ->
  let y := le_bytes 8 lba ++ le_bytes 4 1 in
  let crc := le_bytes 4 (crc32c_ref (diag_head ++ y ++ replicate 32 0)) in
  exists v' l' p', probe sock lba (f, v, l) p = Ok ((diag_frame y crc, v', l'), p') /\
    os p' = after_probe sock (diag_frame y crc) (os p) /\ crc_static_ok (statics p').
Proof.
  intros (x & c & -> & Hx & Hc) Hb Hst y crc. pose proof (diag_frame_length x c Hx Hc) as Hl.
  unfold probe. rewrite run_wr by (rewrite ?le_bytes_length; lia).
  rewrite run_wr by (rewrite ?copy_at_length, ?le_bytes_length; rewrite ?le_bytes_length; lia).
  change (Z.to_nat 16) with 16%nat. change (Z.to_nat 24) with 24%nat. rewrite diag_set_request by done. fold y.
  assert (length (diag_frame y c) = 64%nat) as Hl2 by (by apply diag_frame_length).
  rewrite run_rd_bytes by lia. change (Z.to_nat 0) with 0%nat. change (Z.to_nat 60) with 60%nat. rewrite drop_0, diag_covered by done.
  rewrite M_bind_unfold. unfold compute_crc32c at 1.
  destruct (crc32c_correct (diag_head ++ y ++ replicate 32 0) (statics p)) as [E1 E2]; [|done|].
  { apply Forall_app; split; [by apply bytesb_ok|]. unfold y. rewrite !Forall_app. split_and!; try apply le_bytes_bytes. by apply bytesb_ok. }
  destruct (bootdiag_compute_crc32c _ _) as [k st]. cbn [fst snd] in E1, E2. subst k.
  rewrite run_wr by (rewrite ?le_bytes_length; lia). change (Z.to_nat 60) with 60%nat. rewrite diag_set_crc by done. fold crc.
  rewrite M_bind_unfold. unfold sys at 1. unfold after_probe. cbn [os]. destruct (GetTickCount64 (os p)) as [t1 w1].
  rewrite M_bind_unfold. unfold sys_ at 1. rewrite M_bind_unfold. unfold sys at 1. cbn [os snd]. destruct (recv _ _ _) as [n w2].
  rewrite M_bind_unfold. unfold sys at 1. cbn [os snd]. destruct (GetTickCount64 w2) as [t2 w3].
  destruct (0 <? n); by eexists _, _, _.
Qed.

(** The frame that asks about [lba]. *)
Definition asking (lba : Z) : list Z :=
  let y := le_bytes 8 lba ++ le_bytes 4 1 in
  diag_frame y (le_bytes 4 (crc32c_ref (diag_head ++ y ++ replicate 32 0))).

Lemma asking_shape lba : diag_shape (asking lba) /\ Forall is_byte (asking lba).
Proof.
  split; [by eexists _, _|]. unfold asking, diag_frame. rewrite !Forall_app.
  split_and!; try apply le_bytes_bytes; by apply bytesb_ok.
Qed.

Lemma probes_frames sock lbas f v l (p : Proc W) :
  diag_shape f -> Forall is_byte f -> crc_static_ok (statics p) ->
  exists f' v' l' p', probe_loop sock lbas (f, v, l) p = Ok ((f', v', l'), p') /\
    os p' = foldl (fun w frame => after_probe sock frame w) (os p) (asking <$> lbas).
Proof.
  revert f v l p. induction lbas as [|lba lbas IH]; intros f v l p Hf Hb Hst; [by eexists _, _, _, _|].
  cbn [probe_loop fmap list_fmap foldl]. rewrite M_bind_unfold.
  destruct (probe_frame sock lba f v l p Hf Hb Hst) as (v1 & l1 & p1 & E & Hos & Hst1).
  cbv zeta in E, Hos. fold (asking lba) in E, Hos. rewrite E, <- Hos.
  destruct (asking_shape lba). by apply IH.
Qed.
End Probe.

Lemma probe_crc_range lba : int_ok 4 (crc32c_ref (diag_head ++ (le_bytes 8 lba ++ le_bytes 4 1) ++ replicate 32 0)).
Proof.
  apply crc32c_ref_range. rewrite !Forall_app. split_and!; try apply le_bytes_bytes; by apply bytesb_ok.
Qed.

Lemma diag_decoded lba crc hdr p max plen :
  int_ok 8 lba -> length crc = 4%nat -> Forall is_byte crc -> 24 <= max <= Z.of_nat (length p) ->
  DecodeFrame (diag_frame (le_bytes 8 lba ++ le_bytes 4 1) crc) 64 hdr (Some p) max plen =
    Ok (true, diag_header lba, Some ((replicate 20 0 ++ crc) ++ drop 24 p), 24).
Proof.
  intros Hlba Hc Hb Hm1. rewrite (diag_frame_codec lba crc (replicate 64 0)) by done.
  assert (frame_wf (diag_header lba)) as Hwf by (apply encoded_header_wf; try done; split; by vm_compute).
  set (pl := replicate 20 0 ++ crc). assert (length pl = 24%nat) as Hpl by (unfold pl; rewrite length_app, Hc; done).
  assert (length (encoded (diag_header lba) pl (replicate 64 0)) = 64%nat) as Hl.
  { rewrite encoded_length; [done..|]. rewrite Hpl, length_replicate. lia. }
  assert (Forall is_byte pl) as Hplb by (unfold pl; rewrite Forall_app; split; [by apply bytesb_ok|done]).
  destruct (accepts_encoded (diag_header lba) pl (replicate 64 0) max Hwf) as [Ha E]; rewrite ?Hpl, ?length_replicate;
    [done..|lia|lia|done|by apply bytesb_ok|].
  replace 64 with (Z.of_nat (length (encoded (diag_header lba) pl (replicate 64 0)))) by (by rewrite Hl).
  rewrite decode_accept; rewrite ?Hl; [|..|exact Ha].
  - rewrite E. change (Z.to_nat (payload_len (diag_header lba))) with 24%nat. unfold encoded.
    rewrite drop_app_length' by (by rewrite header_bytes_length). by rewrite take_app_length'.
  - apply encoded_bytes; [done|done|by apply bytesb_ok].
  - done.
  - lia.
Qed.

(** What the codec makes of such a frame. *)
Lemma asking_read lba hdr buf max plen : int_ok 8 lba -> 24 <= max <= Z.of_nat (length buf) ->
  let frame := asking lba in
  length frame = 64%nat /\ take 16 frame = [0x47; 0x4B; 0x44; 0x48; 1; 0; 1; 0; 1; 0; 0; 0; 24; 0; 0; 0] /\
  fld 60 4 frame = crc32c_ref (take 60 frame) /\
  exists h buf', DecodeFrame frame 64 hdr (Some buf) max plen = Ok (true, h, Some buf', 24) /\
    opcode h = opcode_val BLOCK_READ_REQ /\ image_id h = lba /\ block_offset h = 1 /\ block_count h = 0 /\
    of_bytes buf' = mkReadReq 0 0 0 (crc32c_ref (take 60 frame) mod 256).
Proof.
  intros Hlba Hm. unfold asking. cbv zeta. set (y := le_bytes 8 lba ++ le_bytes 4 1).
  set (k := crc32c_ref (diag_head ++ y ++ replicate 32 0)). assert (length y = 12%nat) as Hy by done.
  rewrite !diag_covered by done. fold k. split_and!; [by apply diag_frame_length|reflexivity| |].
  - unfold fld, diag_frame. rewrite !app_assoc, drop_app_length' by (rewrite !length_app, Hy; reflexivity).
    rewrite take_ge by (by rewrite le_bytes_length). apply int_ok_read, probe_crc_range.
  - eexists (diag_header lba), _. split; [apply diag_decoded; [done|done|apply le_bytes_bytes|done]|]. split_and!; try done.
    rewrite <- app_assoc. cbn [of_bytes]. unfold of_bytes. cbn -[le_val Z.modulo Z.div crc32c_ref drop]. f_equal. cbn. lia.
Qed.

(** ** Properties *)

(** Every message survives the wire: for each packed payload type of the
    protocol and each opcode, a payload encoded under a header that states its
    size is decoded with the same header, and the bytes the decoder delivers,
    read back as that type (what memcpy into the structure does), are the
    payload that was sent, its signed status fields included. *)
Theorem message_roundtrip (A : Type) `{Packed A} (a : A) op fl rid img off cnt lay buffer hdr p max plen :
  let n := Z.of_nat (sizeof A) in
  let h := EncodeHeader op fl rid n img off cnt lay in
  p_wf a -> int_ok 1 fl -> int_ok 4 rid -> int_ok 8 img -> int_ok 8 off -> int_ok 4 cnt -> int_ok 1 lay ->
  Forall is_byte buffer -> Z.of_nat (length buffer) < 2 ^ 32 -> (40 + sizeof A <= length buffer)%nat ->
  n <= max <= Z.of_nat (length p) ->
  exists frame p',
    EncodeFrame buffer (Z.of_nat (length buffer)) h (Some (bytes_of a)) n = Ok (true, frame, 40 + n) /\
    DecodeFrame frame (Z.of_nat (length frame)) hdr (Some p) max plen = Ok (true, h, Some p', n) /\
    of_bytes p' = a.
Proof.
  intros n h Ha Hf Hr Hi Ho Hc Hy Hb Hn Hl Hm1. pose proof (bytes_of_length a Ha) as Hs.
  assert (frame_wf h) as Hwf by (apply encoded_header_wf; try done; split; lia).
  destruct (encode_decode h (bytes_of a) buffer hdr p max plen) as (frame & E1 & E2); rewrite ?Hs; try done.
  - by apply encoded_header_valid.
  - by apply bytes_of_bytes.
  - exists frame, (bytes_of a ++ drop (sizeof A) p). rewrite Hs in E2. split_and!; [done|done|by apply of_bytes_of].
Qed.

(** The three declarations of the header describe the same forty bytes: writing
    a header of hd_protocol.h gives the bytes of the codec's header and of the
    driver's, reading any bytes gives the same fields, and the frame types are
    the opcodes other than the four vector operations. What keeps the parts
    apart is the magic number of the driver and the header size, eight bytes too
    small, that hd_protocol.h and the driver state. *)
Theorem header_declarations_agree :
  (forall h : hd.FrameHeader, bytes_of h = bytes_of (to_codec h) /\ bytes_of h = header_bytes (to_driver h)) /\
  (forall bs, to_codec (of_bytes bs) = of_bytes bs /\ to_driver (of_bytes bs) = header_of bs) /\
  (forall z, (exists t, hd.frame_type_val t = z) <-> exists o, opcode_val o = z /\ is_vector o = false) /\
  Z.of_nat (sizeof hd.FrameHeader) = FRAME_HDR_SIZE /\ FRAME_HDR_SIZE = hd.HD_FRAME_HDR_SIZE + 8 /\
  hd.HD_FRAME_HDR_SIZE = HD_NET_FRAME_HDR_SIZE /\ hd.HD_MAGIC = FRAME_MAGIC /\ hd.HD_MAGIC <> HD_MAGIC.
Proof.
  split_and!; try done.
  - intros h. split; [reflexivity|]. unfold bytes_of, header_bytes, head_bytes, tail_bytes. rewrite <- !app_assoc. cbn -[le_bytes]. by rewrite app_nil_r.
  - intros bs. split; [reflexivity|]. unfold header_of, fld, to_driver, of_bytes. cbn -[le_val drop take]. by rewrite !drop_drop.
  - intros z. split.
    + intros [t <-]. exists (type_opcode t). by destruct t.
    + intros (o & <- & Hv). destruct (opcode_typed o Hv) as [t <-]. exists t. by destruct t.
Qed.

(** A header cut at HD_FRAME_HDR_SIZE has lost the length of the request: two
    headers have the same first 32 bytes exactly when they agree on everything
    but the block count, the layer and the reserved bytes. *)
Theorem short_header_loses (h h' : hd.FrameHeader) : hd.header_ok h -> hd.header_ok h' ->
  take (Z.to_nat hd.HD_FRAME_HDR_SIZE) (bytes_of h) = take (Z.to_nat hd.HD_FRAME_HDR_SIZE) (bytes_of h') <->
  hd.magic h = hd.magic h' /\ hd.version h = hd.version h' /\ hd.frame_type h = hd.frame_type h' /\
  hd.flags h = hd.flags h' /\ hd.frame_id h = hd.frame_id h' /\ hd.payload_len h = hd.payload_len h' /\
  hd.image_id h = hd.image_id h' /\ hd.block_offset h = hd.block_offset h'.
Proof.
  intros Hh Hh'. change (Z.to_nat hd.HD_FRAME_HDR_SIZE) with (sum_list (take 8 (p_sizes (A:=hd.FrameHeader)))).
  rewrite !bytes_of_take by done. split.
  - intros E. apply concat_inj in E; [|cbn -[le_bytes]; by rewrite !le_bytes_length].
    cbn [take p_fields hd.FrameHeader_packed] in E. repeat (apply cons_split in E as [? E]).
    destruct Hh, Hh'. split_and!; by eapply le_bytes_inj.
  - intros (E1 & E2 & E3 & E4 & E5 & E6 & E7 & E8). cbn -[le_bytes]. by rewrite E1, E2, E3, E4, E5, E6, E7, E8.
Qed.

(** C32. What the diagnostic asks the block server for: once connected, the
    check prepares one frame and sends it three times, with a new address and
    checksum each time, then closes the socket and leaves Winsock. Each of the
    three sendings is 64 bytes that begin with the magic 0x48444B47, version 1,
    opcode 1, flags 0, request 1 and a length of 24; they end with their right
    checksum and the codec accepts them. But the codec reads a request for image
    0, 1 or 2048 (the address tested) from block 1 and for no blocks, and its
    payload, read as a read request, asks for no blocks of image 0 in the layer
    named by the low byte of the checksum. *)
Theorem diag_probe_asks {W} `{Win32 W} r sock (p : Proc W) hdr buf max plen :
  crc_static_ok (statics p) -> 24 <= max <= Z.of_nat (length buf) ->
  exists verdict p' frames,
    v4_probes r sock p = Ok (verdict, p') /\
    os p' = WSACleanup (closesocket sock (foldl (fun w frame => after_probe sock frame w) (os p) frames)) /\
    Forall2 (fun lba frame =>
      length frame = 64%nat /\ take 16 frame = [0x47; 0x4B; 0x44; 0x48; 1; 0; 1; 0; 1; 0; 0; 0; 24; 0; 0; 0] /\
      fld 60 4 frame = crc32c_ref (take 60 frame) /\
      exists h buf', DecodeFrame frame 64 hdr (Some buf) max plen = Ok (true, h, Some buf', 24) /\
        opcode h = opcode_val BLOCK_READ_REQ /\ image_id h = lba /\ block_offset h = 1 /\ block_count h = 0 /\
        of_bytes buf' = mkReadReq 0 0 0 (crc32c_ref (take 60 frame) mod 256)) [0; 1; 2048] frames.
Proof.
  intros Hst Hm. destruct diag_prepared as (f0 & E0 & Hf0 & Hb0). unfold v4_probes. rewrite M_bind_unfold, E0. cbn [mem].
  destruct (probes_frames sock test_lbas f0 0 0 p Hf0 Hb0 Hst) as (f & v & l & p1 & E1 & Hos).
  rewrite M_bind_unfold, E1. rewrite M_bind_unfold. unfold sys_ at 1. rewrite M_bind_unfold. unfold sys_ at 1. cbn [os].
  destruct (v <? 3); (eexists _, _, (asking <$> test_lbas); split; [reflexivity|]; split; [cbn [os]; by rewrite Hos|]);
    repeat constructor; by apply asking_read.
Qed.

(** ** Witnesses *)

Lemma sample_error_wf : error_rsp_wf (mkErrorRsp (-5) (replicate 128 65)).
Proof. split; [split; by vm_compute|split; [done|by apply bytesb_ok]]. Qed.

Lemma message_roundtrip_witness :
  exists frame p',
    EncodeFrame (replicate 180 0) 180 (EncodeHeader ERROR_RSP 0 7 132 1 0 0 0)
      (Some (bytes_of (mkErrorRsp (-5) (replicate 128 65)))) 132 = Ok (true, frame, 172) /\
    DecodeFrame frame (Z.of_nat (length frame)) (frame_make []) (Some (replicate 200 0)) 200 0 =
      Ok (true, EncodeHeader ERROR_RSP 0 7 132 1 0 0 0, Some p', 132) /\
    of_bytes p' = mkErrorRsp (-5) (replicate 128 65).
Proof.
  apply (@message_roundtrip ErrorRspPayload ErrorRsp_packed (mkErrorRsp (-5) (replicate 128 65)) ERROR_RSP 0 7 1 0 0 0 (replicate 180 0)
    (frame_make []) (replicate 200 0) 200 0 sample_error_wf); try (split; by vm_compute); try (by apply bytesb_ok); done || cbn; lia.
Defined.

Definition header_a : hd.FrameHeader := hd.mkHd hd.HD_MAGIC 1 1 0 5 21 77 4096 16 2 [0; 0; 0].
Definition header_b : hd.FrameHeader := hd.mkHd hd.HD_MAGIC 1 1 0 5 21 77 4096 99 0 [0; 0; 0].

Lemma short_header_loses_witness : take 32 (bytes_of header_a) = take 32 (bytes_of header_b).
Proof.
  apply (short_header_loses header_a header_b); [..|by repeat split];
    (split; [split; by vm_compute..|split; [done|by apply bytesb_ok]]).
Defined.

Definition no_files : FS := fun _ => None.

Lemma diag_probe_asks_witness :
  exists verdict p' frames,
    v4_probes demo_result 7 (sim_start no_files) = Ok (verdict, p') /\
    Forall2 (fun lba frame => exists h buf', DecodeFrame frame 64 (frame_make []) (Some (replicate 64 0)) 64 0 = Ok (true, h, Some buf', 24) /\
      image_id h = lba /\ block_count h = 0) [0; 1; 2048] frames.
Proof.
  destruct (diag_probe_asks demo_result 7 (sim_start no_files) (frame_make []) (replicate 64 0) 64 0) as (verdict & p' & frames & E & _ & Hf).
  - apply crc_cold_ok.
  - cbn. lia.
  - exists verdict, p', frames. split; [exact E|]. eapply Forall2_impl; [exact Hf|]. intros lba frame (_ & _ & _ & h & buf' & E1 & _ & E2 & _ & E3 & _).
    by exists h, buf'.
Defined.

(** ** The repository's unit tests (src/tests/unit/test_frame_codec.cpp) *)

Definition test_request : BlockReadReqPayload := mkReadReq 123 456 8 1.
Definition test_header : FrameHeader := EncodeHeader BLOCK_READ_REQ FLAG_COMPRESSED 99 21 123 456 8 1.

Example test_encode_decode_roundtrip :
  match EncodeFrame (replicate 256 0) 256 test_header (Some (bytes_of test_request)) 21 with
  | Ok (true, buffer, 61) =>
      match DecodeFrame buffer 61 (frame_make []) (Some (replicate 256 0)) 256 0 with
      | Ok (true, h, Some payload, 21) => h = test_header /\ of_bytes payload = test_request
      | _ => False
      end
  | _ => False
  end.
Proof. vm_compute. done. Qed.

Example test_validate_header_bad_magic :
  ValidateHeader (EncodeHeader HEARTBEAT 0 1 0 0 0 0 0) = true /\
  ValidateHeader (mkFrame 0xDEADBEEF 1 0x10 0 1 0 0 0 0 0 [0; 0; 0]) = false.
Proof. done. Qed.

Example test_crc32c : (ComputeCrc32C (zstr "123456789") crc_cold).1 = 0xE3069283.
Proof. vm_compute. done. Qed.

Example test_decode_buffer_too_small :
  DecodeFrame (replicate 16 0) 16 (frame_make []) (Some (replicate 64 0)) 64 0 =
    Ok (false, frame_make [], Some (replicate 64 0), 0).
Proof. done. Qed.
