(* ===== verification/BlackBox.v ===== *)
(** * The boot black box
    (src/client/blackbox/blackbox_types.h, blackbox_recorder.cpp;
     src/tools/blackbox_analyzer/main.cpp)

    The recorder appends fixed-size entries to a block of memory and writes them
    to a file between a header and a footer with a checksum; the analyzer reads
    such a file and prints a report. The size of the block is the argument
    [ring_size] (64 MiB in the program). Each [printf] of the report is a
    constructor of [line] that carries the arguments. *)

From stdpp Require Import sorting.
From S2P Require Import Prelude Crc32c Packed AgentEnv Stats.
#[local] Open Scope Z_scope.

Definition BB_MAGIC : list Z := zstr "HDBBOX" ++ [0; 0].
Definition BB_VERSION : Z := 1.
Definition BB_ENTRY_SIZE : Z := 26.
Definition BB_RING_SIZE : Z := 64 * 1024 * 1024.

Inductive BbPhase : Type := PXE | IPXE | BOOTAGENT | WINPE | BOOTDIAG | BOOTMGR | WINLOAD | KERNEL | DESKTOP.
Definition phase_val (p : BbPhase) : Z :=
  match p with
  | PXE => 0 | IPXE => 1 | BOOTAGENT => 2 | WINPE => 3 | BOOTDIAG => 4 | BOOTMGR => 5 | WINLOAD => 6 | KERNEL => 7
  | DESKTOP => 8
  end.
Inductive BbStatus : Type := SUCCESS | FAIL | TIMEOUT | RETRY | WARN.
Definition status_val (s : BbStatus) : Z :=
  match s with SUCCESS => 0 | FAIL => 1 | TIMEOUT => 2 | RETRY => 3 | WARN => 4 end.

Record BlackBoxEntry : Type := mkEntry {
  e_delta_lo : Z;
  e_delta_hi : Z;
  e_phase : Z;
  e_status : Z;
  e_latency_us : Z;
  e_lba_lo : Z;
  e_lba_hi : Z;
  e_offset : Z;
  e_size_lo : Z;
  e_size_hi : Z;
  e_reserved : Z;
}.
Record entry_wf (e : BlackBoxEntry) : Prop := {
  ew_delta_lo : int_ok 4 (e_delta_lo e);
  ew_delta_hi : int_ok 4 (e_delta_hi e);
  ew_phase : int_ok 1 (e_phase e);
  ew_status : int_ok 1 (e_status e);
  ew_latency_us : int_ok 2 (e_latency_us e);
  ew_lba_lo : int_ok 4 (e_lba_lo e);
  ew_lba_hi : int_ok 4 (e_lba_hi e);
  ew_offset : int_ok 2 (e_offset e);
  ew_size_lo : int_ok 2 (e_size_lo e);
  ew_size_hi : int_ok 1 (e_size_hi e);
  ew_reserved : int_ok 1 (e_reserved e);
}.
Definition entry_fields (e : BlackBoxEntry) : list (list Z) :=
  [le_bytes 4 (e_delta_lo e); le_bytes 4 (e_delta_hi e); le_bytes 1 (e_phase e); le_bytes 1 (e_status e);
   le_bytes 2 (e_latency_us e); le_bytes 4 (e_lba_lo e); le_bytes 4 (e_lba_hi e); le_bytes 2 (e_offset e);
   le_bytes 2 (e_size_lo e); le_bytes 1 (e_size_hi e); le_bytes 1 (e_reserved e)].
Definition entry_make (fs : list (list Z)) : BlackBoxEntry :=
  match fs with
  | [a; b; c; d; e; f; g; h; i; j; k] =>
      mkEntry (le_val a) (le_val b) (le_val c) (le_val d) (le_val e) (le_val f) (le_val g) (le_val h) (le_val i) (le_val j)
        (le_val k)
  | _ => mkEntry 0 0 0 0 0 0 0 0 0 0 0
  end.
#[export, refine] Instance BlackBoxEntry_packed : Packed BlackBoxEntry := {
  p_sizes := [4; 4; 1; 1; 2; 4; 4; 2; 2; 1; 1]%nat;
  p_fields := entry_fields;
  p_make := entry_make;
  p_wf := entry_wf;
}.
Proof. packed_ok. packed_read. packed_make. Defined.

Record BlackBoxFileHeader : Type := mkFileHeader {
  h_magic : list Z;
  h_version : Z;
  h_entry_size : Z;
  h_entry_count : Z;
  h_start_lo : Z;
  h_start_hi : Z;
  h_end_lo : Z;
  h_end_hi : Z;
  h_reserved : Z;
}.
Record file_header_wf (h : BlackBoxFileHeader) : Prop := {
  hw_magic : arr_ok 8 (h_magic h);
  hw_version : int_ok 2 (h_version h);
  hw_entry_size : int_ok 2 (h_entry_size h);
  hw_entry_count : int_ok 4 (h_entry_count h);
  hw_start_lo : int_ok 4 (h_start_lo h);
  hw_start_hi : int_ok 4 (h_start_hi h);
  hw_end_lo : int_ok 4 (h_end_lo h);
  hw_end_hi : int_ok 4 (h_end_hi h);
  hw_reserved : int_ok 4 (h_reserved h);
}.
Definition file_header_fields (h : BlackBoxFileHeader) : list (list Z) :=
  [h_magic h; le_bytes 2 (h_version h); le_bytes 2 (h_entry_size h); le_bytes 4 (h_entry_count h); le_bytes 4 (h_start_lo h);
   le_bytes 4 (h_start_hi h); le_bytes 4 (h_end_lo h); le_bytes 4 (h_end_hi h); le_bytes 4 (h_reserved h)].
Definition file_header_make (fs : list (list Z)) : BlackBoxFileHeader :=
  match fs with
  | [a; b; c; d; e; f; g; h; i] =>
      mkFileHeader a (le_val b) (le_val c) (le_val d) (le_val e) (le_val f) (le_val g) (le_val h) (le_val i)
  | _ => mkFileHeader (replicate 8 0) 0 0 0 0 0 0 0 0
  end.
#[export, refine] Instance BlackBoxFileHeader_packed : Packed BlackBoxFileHeader := {
  p_sizes := [8; 2; 2; 4; 4; 4; 4; 4; 4]%nat;
  p_fields := file_header_fields;
  p_make := file_header_make;
  p_wf := file_header_wf;
}.
Proof. packed_ok. packed_read. packed_make. Defined.

Record BlackBoxFileFooter : Type := mkFooter { f_total_crc32c : Z; f_entry_count_verify : Z; f_reserved : Z }.
Record footer_wf (f : BlackBoxFileFooter) : Prop := {
  ow_crc : int_ok 4 (f_total_crc32c f);
  ow_count : int_ok 4 (f_entry_count_verify f);
  ow_reserved : int_ok 2 (f_reserved f);
}.
Definition footer_fields (f : BlackBoxFileFooter) : list (list Z) :=
  [le_bytes 4 (f_total_crc32c f); le_bytes 4 (f_entry_count_verify f); le_bytes 2 (f_reserved f)].
Definition footer_make (fs : list (list Z)) : BlackBoxFileFooter :=
  match fs with
  | [a; b; c] => mkFooter (le_val a) (le_val b) (le_val c)
  | _ => mkFooter 0 0 0
  end.
#[export, refine] Instance BlackBoxFileFooter_packed : Packed BlackBoxFileFooter := {
  p_sizes := [4; 4; 2]%nat;
  p_fields := footer_fields;
  p_make := footer_make;
  p_wf := footer_wf;
}.
Proof. packed_ok. packed_read. packed_make. Defined.

(** ** The recorder *)

Definition bb_crc_bit (crc : Z) : Z :=
  Z.lxor (Z.shiftr crc 1) (if negb (Z.land crc 1 =? 0) then 0x82F63B78 else 0).
Definition bb_ComputeCrc32C (data : list Z) : Z :=
  Z.lxor (foldl (fun crc b => Nat.iter 8 bb_crc_bit (Z.lxor crc b)) 0xFFFFFFFF data) 0xFFFFFFFF.

Record BlackBoxRecorder : Type := mkRecorder {
  ring_buffer : option (list Z);
  write_pos : Z;
  read_pos : Z;
  entry_count : Z;
  overflow_count : Z;
  start_time : Z;
  initialized : bool;
}.
Definition recorder_start : BlackBoxRecorder := mkRecorder None 0 0 0 0 0 false.

Definition micros (ns : Z) : Z := u64 (Z.quot ns 1000).
Definition lo32 (z : Z) : Z := u32 (Z.land z 0xFFFFFFFF).
Definition hi32 (z : Z) : Z := u32 (Z.shiftr z 32).

Definition FillHeader (count start_time end_time : Z) : BlackBoxFileHeader :=
  mkFileHeader BB_MAGIC BB_VERSION BB_ENTRY_SIZE count (lo32 start_time) (hi32 start_time) (lo32 end_time) (hi32 end_time) 0.

(** The entry for one event. *)
Definition make_entry (delta : Z) (phase : BbPhase) (lba offset size : Z) (status : BbStatus) (latency_us : Z) : BlackBoxEntry :=
  mkEntry (lo32 delta) (hi32 delta) (phase_val phase) (status_val status) latency_us (lo32 lba) (hi32 lba)
    (u16 (Z.land offset 0xFFFF)) (u16 (Z.land size 0xFFFF)) (u8 (Z.shiftr size 16)) 0.

Section Recorder.
Context (ring_size : Z) {W : Type} `{AgentOs W}.

Definition Initialize (r : BlackBoxRecorder) (w : W) : bool * BlackBoxRecorder * W :=
  if initialized r then (true, r, w) else
  let '(got, w) := a_alloc ring_size w in
  if negb got
  then (false, mkRecorder None (write_pos r) (read_pos r) (entry_count r) (overflow_count r) (start_time r) false, w) else
  let '(now, w) := a_clock w in
  (true, mkRecorder (Some (replicate (Z.to_nat ring_size) 0)) 0 0 0 0 (micros now) true, w).

Definition Record_ (phase : BbPhase) (lba offset size : Z) (status : BbStatus) (latency_us : Z)
    (r : BlackBoxRecorder) (w : W) : res (BlackBoxRecorder * W) :=
  if negb (initialized r) then Ok (r, w) else
  let '(now, w) := a_clock w in
  let delta := u64 (micros now - start_time r) in
  let entry := make_entry delta phase lba offset size status latency_us in
  let pos := write_pos r in
  let next_pos := u32 (pos + BB_ENTRY_SIZE) in
  if ring_size <? next_pos + BB_ENTRY_SIZE then
    Ok (mkRecorder (ring_buffer r) (write_pos r) (read_pos r) (entry_count r) (u32 (overflow_count r + 1)) (start_time r) true, w)
  else
    let* ring := of_opt (ring_buffer r) in
    let* ring := wr ring pos (bytes_of entry) in
    Ok (mkRecorder (Some ring) next_pos (read_pos r) (u32 (entry_count r + 1)) (overflow_count r) (start_time r) true, w).

(** The bytes of the file. *)
Definition flush_image (r : BlackBoxRecorder) (data : list Z) (end_time : Z) : list Z :=
  bytes_of (FillHeader (entry_count r) (start_time r) end_time) ++ data ++
  bytes_of (mkFooter (bb_ComputeCrc32C data) (entry_count r) 0).

(** The program opens the file and then reads the clock; opening and writing are
    one service here, so the clock is read first. What [fwrite] answers is not
    looked at. *)
Definition FlushToDisk (path : list Z) (r : BlackBoxRecorder) (w : W) : res (bool * W) :=
  if negb (initialized r) || (entry_count r =? 0) then Ok (false, w) else
  let* ring := of_opt (ring_buffer r) in
  let* data := rd_bytes ring 0 (write_pos r) in
  let '(now, w) := a_clock w in
  let '(saved, w) := a_save path (flush_image r data (micros now)) w in
  Ok (match saved with Some _ => true | None => false end, w).

Definition FlushEmergency (path : list Z) (r : BlackBoxRecorder) (w : W) : res (bool * W) := FlushToDisk path r w.

Definition Shutdown (r : BlackBoxRecorder) : BlackBoxRecorder :=
  if negb (initialized r) then r
  else mkRecorder None (write_pos r) (read_pos r) (entry_count r) (overflow_count r) (start_time r) false.
End Recorder.

(** ** The analyzer *)

Definition PhaseName (p : Z) : string :=
  if p =? 0 then "PXE" else if p =? 1 then "IPXE" else if p =? 2 then "BOOTAGENT" else if p =? 3 then "WINPE"
  else if p =? 4 then "BOOTDIAG" else if p =? 5 then "BOOTMGR" else if p =? 6 then "WINLOAD" else if p =? 7 then "KERNEL"
  else if p =? 8 then "DESKTOP" else "UNKNOWN".
Definition StatusName (s : Z) : string :=
  if s =? 0 then "OK" else if s =? 1 then "FAIL" else if s =? 2 then "TIMEOUT" else if s =? 3 then "RETRY"
  else if s =? 4 then "WARN" else "?".

(** The output: one constructor for each [printf], with its arguments; a blank
    line or a heading is [LText]. The average of [LPhase] is the sum over the
    count. *)
Inductive line : Type :=
| LErr (text : string)
| LText (text : string)
| LVersion (v : Z)
| LEntrySize (v : Z)
| LEntryCount (v : Z)
| LStart (us : Z)
| LEnd (us : Z)
| LDuration (us : Z)
| LCrc (ok : bool) (computed stored : Z)
| LEvent (i ts : Z) (phase status : string) (lba off sz lat : Z)
| LPhase (phase : string) (count sum n p95 p99 : Z)
| LHot (lba count : Z)
| LLastSuccess (ts lba : Z) (phase : string)
| LFirstFail (ts lba : Z) (phase : string).

Definition join64 (lo hi : Z) : Z := Z.lor lo (u64 (Z.shiftl hi 32)).
Definition e_ts (e : BlackBoxEntry) : Z := join64 (e_delta_lo e) (e_delta_hi e).
Definition e_lba (e : BlackBoxEntry) : Z := join64 (e_lba_lo e) (e_lba_hi e).
Definition e_size (e : BlackBoxEntry) : Z := Z.lor (e_size_lo e) (Z.shiftl (e_size_hi e) 16).

(** A [std::map]: an association list in the order of its keys; [map_at] is
    [m\[k\]] updated, from [d] when [k] is new. *)
Fixpoint map_at {V} (d : V) (f : V -> V) (k : Z) (m : list (Z * V)) : list (Z * V) :=
  match m with
  | [] => [(k, f d)]
  | (k', v) :: r => if k =? k' then (k', f v) :: r
                    else if k <? k' then (k, f d) :: m
                    else (k', v) :: map_at d f k r
  end.
Fixpoint map_get {V} (d : V) (k : Z) (m : list (Z * V)) : V :=
  match m with
  | [] => d
  | (k', v) :: r => if k =? k' then v else map_get d k r
  end.

Definition phase_latencies (es : list BlackBoxEntry) : list (Z * list Z) :=
  foldl (fun m e => map_at [] (fun l => l ++ [e_latency_us e]) (e_phase e) m) [] es.
Definition phase_counts (es : list BlackBoxEntry) : list (Z * Z) :=
  foldl (fun m e => map_at 0 (fun n => u32 (n + 1)) (e_phase e) m) [] es.
Definition lba_freq (es : list BlackBoxEntry) : list (Z * Z) :=
  foldl (fun m e => map_at 0 (fun n => u32 (n + 1)) (e_lba e) m) [] es.

Definition phase_line (lats_of : list (Z * list Z)) (pc : Z * Z) : res line :=
  let '(phase, count) := pc in
  let lats := map_get [] phase lats_of in
  let n := Z.of_nat (length lats) in
  let sorted := merge_sort Z.le lats in
  let* p95 := of_opt (sorted !! Z.to_nat (n * 95 / 100)) in
  let* p99 := of_opt (sorted !! Z.to_nat (n * 99 / 100)) in
  Ok (LPhase (PhaseName phase) count (foldr Z.add 0 lats) n p95 p99).

Fixpoint phase_lines (lats_of : list (Z * list Z)) (pcs : list (Z * Z)) : res (list line) :=
  match pcs with
  | [] => Ok []
  | pc :: r => let* l := phase_line lats_of pc in let* ls := phase_lines lats_of r in Ok (l :: ls)
  end.

(** The two pointers of the last loop. *)
Definition locate (acc : option BlackBoxEntry * option BlackBoxEntry) (e : BlackBoxEntry) :
    option BlackBoxEntry * option BlackBoxEntry :=
  let '(last_success, first_fail) := acc in
  (if e_status e =? status_val SUCCESS then Some e else last_success,
   if (e_status e =? status_val FAIL) && bool_decide (first_fail = None) then Some e else first_fail).

Definition event_line (i : nat) (e : BlackBoxEntry) : line :=
  LEvent (Z.of_nat i) (e_ts e) (PhaseName (e_phase e)) (StatusName (e_status e)) (e_lba e) (e_offset e) (e_size e) (e_latency_us e).

Definition parse_entries (n : nat) (bs : list Z) : list BlackBoxEntry := of_bytes <$> cut (replicate n 26%nat) bs.

#[export] Instance BlackBoxEntry_eq : EqDecision BlackBoxEntry.
Proof. solve_decision. Defined.

(** The report after the header. *)
Definition report (entries : list BlackBoxEntry) (crc_line : line) (stats : list line) (hot_blocks : list (Z * Z)) : list line :=
  let '(last_success, first_fail) := foldl locate (None, None) entries in
  [crc_line; LText ""; LText "=== IO Timeline ==="] ++ imap event_line entries ++
  [LText ""; LText "=== Phase Statistics ==="] ++ stats ++
  [LText ""; LText "=== Hot Blocks Top-20 ==="] ++ ((fun b => LHot b.1 b.2) <$> take 20 hot_blocks) ++
  [LText ""; LText "=== Fault Localization ==="] ++
  match last_success with Some e => [LLastSuccess (e_ts e) (e_lba e) (PhaseName (e_phase e))] | None => [] end ++
  match first_fail with Some e => [LFirstFail (e_ts e) (e_lba e) (PhaseName (e_phase e))] | None => [] end ++
  [LText ""; LText "Analysis complete."].

(** [memory] bounds what a vector can hold (beyond it [std::bad_alloc] ends the
    program, a [Fault]); [hot_sort] is [std::sort] with the comparison of the
    hot blocks, which leaves the order of equal counts open. *)
Definition AnalyzeBlackBox (memory : Z) (hot_sort : list (Z * Z) -> list (Z * Z)) (file : option (list Z)) : res (Z * list line) :=
  match file with
  | None => Ok (1, [LErr "Cannot open: %s"])
  | Some bs =>
      if Z.of_nat (length bs) <? 36 then Ok (1, [LErr "Cannot read header"]) else
      let header := of_bytes (A:=BlackBoxFileHeader) bs in
      if negb (bool_decide (h_magic header = BB_MAGIC)) then Ok (1, [LErr "Invalid magic: %.8s (expected HDBBOX)"]) else
      let count := h_entry_count header in
      let start_time := join64 (h_start_lo header) (h_start_hi header) in
      let end_time := join64 (h_end_lo header) (h_end_hi header) in
      let head := [LText "=== Boot Black Box Analysis ==="; LVersion (h_version header); LEntrySize (h_entry_size header);
                   LEntryCount count; LStart start_time; LEnd end_time; LDuration (u64 (end_time - start_time)); LText ""] in
      if memory <? count * BB_ENTRY_SIZE then Fault else
      let rest := drop 36 bs in
      if Z.of_nat (length rest) <? count * BB_ENTRY_SIZE then Ok (1, head ++ [LErr "Failed to read all entries"]) else
      let entries := parse_entries (Z.to_nat count) rest in
      let tail := drop (Z.to_nat (count * BB_ENTRY_SIZE)) rest in
      if Z.of_nat (length tail) <? 10 then Ok (1, head ++ [LErr "Cannot read footer"]) else
      let footer := of_bytes (A:=BlackBoxFileFooter) tail in
      let verify_crc := bb_ComputeCrc32C (take (Z.to_nat (u32 (count * BB_ENTRY_SIZE))) (concat (bytes_of <$> entries))) in
      let* stats := phase_lines (phase_latencies entries) (phase_counts entries) in
      Ok (0, head ++ report entries (LCrc (verify_crc =? f_total_crc32c footer) verify_crc (f_total_crc32c footer)) stats
               (hot_sort (lba_freq entries)))
  end.

Definition analyzer_main (memory : Z) (hot_sort : list (Z * Z) -> list (Z * Z)) (argv : list (list Z))
    (open : list Z -> option (list Z)) : res (Z * list line) :=
  match argv with
  | _ :: path :: _ => AnalyzeBlackBox memory hot_sort (open path)
  | _ => Ok (1, [LErr "Usage: boot_blackbox_analyzer <boot_blackbox.bin>"])
  end.

(** ** Lemmas: the ordered maps *)

Fixpoint keys_sorted {V} (m : list (Z * V)) : Prop :=
  match m with
  | [] => True
  | (k, _) :: r => Forall (fun p => k < p.1) r /\ keys_sorted r
  end.

Section Maps.
Context {V : Type} (d : V) (f : V -> V).

Lemma map_at_keys k m k' : k' ∈ (map_at d f k m).*1 <-> k' = k \/ k' ∈ m.*1.
Proof.
  induction m as [|[j v] m IH]; cbn [map_at]; [set_solver|].
  destruct (Z.eqb_spec k j) as [->|Hne]; [set_solver|]. destruct (Z.ltb_spec k j); [set_solver|].
  rewrite !fmap_cons, !elem_of_cons, IH. tauto.
Qed.

Lemma sorted_above k (m : list (Z * V)) : Forall (fun p => k < p.1) m <-> forall k', k' ∈ m.*1 -> k < k'.
Proof. rewrite <- Forall_forall. symmetry. apply Forall_fmap. Qed.

Lemma map_at_sorted k m : keys_sorted m -> keys_sorted (map_at d f k m).
Proof.
  induction m as [|[j v] m IH]; cbn [map_at]; [by split; [constructor|]|]. intros [Hj Hs].
  destruct (Z.eqb_spec k j); [done|]. destruct (Z.ltb_spec k j).
  - split; [|done]. constructor; [done|]. eapply Forall_impl; [exact Hj|]. cbn. intros. lia.
  - split; [|by apply IH]. apply sorted_above. intros k' Hk'%map_at_keys. pose proof (proj1 (sorted_above j m) Hj) as Hj'.
    destruct Hk' as [->|Hk']; [lia|auto].
Qed.

Lemma map_get_above k m : Forall (fun p => k < p.1) m -> map_get d k m = d.
Proof.
  induction 1 as [|[j v] m Hj _ IH]; [done|]. cbn in *. by rewrite (proj2 (Z.eqb_neq _ _)) by lia.
Qed.

Lemma map_get_at k k' m :
  keys_sorted m -> map_get d k' (map_at d f k m) = if k' =? k then f (map_get d k m) else map_get d k' m.
Proof.
  induction m as [|[j v] m IH]; cbn [map_at map_get]; [done|]. intros [Hj Hs].
  destruct (Z.eqb_spec k j) as [->|Hne]; cbn [map_get].
  { by destruct (k' =? j). }
  destruct (Z.ltb_spec k j); cbn [map_get].
  - destruct (Z.eqb_spec k' k) as [->|]; [|done]. rewrite map_get_above; [done|].
    eapply Forall_impl; [exact Hj|]. cbn. lia.
  - rewrite IH by done. destruct (Z.eqb_spec k' j) as [->|]; [|done]. by rewrite (proj2 (Z.eqb_neq _ _)) by congruence.
Qed.

Lemma map_get_elem k v m : keys_sorted m -> (k, v) ∈ m -> map_get d k m = v.
Proof.
  induction m as [|[j u] m IH]; [by intros _ ?%elem_of_nil|]. intros [Hj Hs] [[= -> ->]|Hin]%elem_of_cons; cbn [map_get].
  { by rewrite Z.eqb_refl. }
  rewrite Forall_forall in Hj. specialize (Hj _ Hin). cbn in Hj. rewrite (proj2 (Z.eqb_neq _ _)) by lia. by apply IH.
Qed.
End Maps.

(** Folding the entries into such a map groups them by key. *)
Section Fold.
Context {V E : Type} (d : V) (step : V -> E -> V) (key : E -> Z).
Definition group (es : list E) : list (Z * V) := foldl (fun m e => map_at d (fun v => step v e) (key e) m) [] es.

Lemma group_snoc es e : group (es ++ [e]) = map_at d (fun v => step v e) (key e) (group es).
Proof. unfold group. by rewrite foldl_app. Qed.

Lemma group_sorted es : keys_sorted (group es).
Proof. induction es as [|e es IH] using rev_ind; [done|]. rewrite group_snoc. by apply map_at_sorted. Qed.

Lemma group_get es k : map_get d k (group es) = foldl step d (filter (fun e => key e = k) es).
Proof.
  induction es as [|e es IH] using rev_ind; [done|]. rewrite group_snoc, map_get_at by apply group_sorted.
  rewrite filter_app, foldl_app, IH. destruct (Z.eqb_spec k (key e)) as [->|Hne].
  - rewrite filter_cons_True by done. cbn. by rewrite <- IH.
  - by rewrite filter_cons_False by congruence.
Qed.

Lemma group_keys es k : k ∈ (group es).*1 <-> k ∈ key <$> es.
Proof.
  induction es as [|e es IH] using rev_ind; [done|]. rewrite group_snoc, map_at_keys, IH. rewrite fmap_app. set_solver.
Qed.
End Fold.

(** ** Lemmas: the statistics *)

Definition in_phase (p : Z) (es : list BlackBoxEntry) : list BlackBoxEntry := filter (fun e => e_phase e = p) es.

Lemma latencies_get es p : map_get [] p (phase_latencies es) = e_latency_us <$> in_phase p es.
Proof.
  change (phase_latencies es) with (group [] (fun l e => l ++ [e_latency_us e]) e_phase es). rewrite group_get.
  fold (in_phase p es). induction (in_phase p es) as [|e l IH] using rev_ind; [done|].
  by rewrite foldl_app, IH, fmap_app.
Qed.

Lemma count_fold (l : list BlackBoxEntry) : foldl (fun n _ => u32 (n + 1)) 0 l = u32 (Z.of_nat (length l)).
Proof.
  induction l as [|e l IH] using rev_ind; [done|]. rewrite foldl_app, IH, length_app. cbn. unfold u32. rewrite wrap_add_l. f_equal. lia.
Qed.

Lemma counts_get es p n : (p, n) ∈ phase_counts es -> n = u32 (Z.of_nat (length (in_phase p es))) /\ in_phase p es <> [].
Proof.
  change (phase_counts es) with (group 0 (fun n _ => u32 (n + 1)) e_phase es). intros Hin.
  pose proof (group_keys 0 (fun n (_ : BlackBoxEntry) => u32 (n + 1)) e_phase es p) as Hk.
  apply (map_get_elem 0) in Hin as Hg; [|apply group_sorted]. rewrite group_get in Hg. fold (in_phase p es) in Hg.
  rewrite count_fold in Hg. split; [done|]. apply (list_elem_of_fmap_2 fst) in Hin. cbn in Hin. apply Hk in Hin.
  apply list_elem_of_fmap in Hin as (e & -> & He). intros E.
  assert (e ∈ in_phase (e_phase e) es) as Hf by (by apply list_elem_of_filter). rewrite E in Hf. by apply elem_of_nil in Hf.
Qed.

(** What one line of the statistics says. *)
Definition phase_report (es : list BlackBoxEntry) (pc : Z * Z) (l : line) : Prop :=
  let lats := e_latency_us <$> in_phase pc.1 es in
  exists p95 p99, percentile 95 p95 lats /\ percentile 99 p99 lats /\
    l = LPhase (PhaseName pc.1) (u32 (Z.of_nat (length lats))) (foldr Z.add 0 lats) (Z.of_nat (length lats)) p95 p99.

Lemma phase_lines_spec es pcs :
  (forall pc, pc ∈ pcs -> pc ∈ phase_counts es) ->
  exists ls, phase_lines (phase_latencies es) pcs = Ok ls /\ Forall2 (phase_report es) pcs ls.
Proof.
  induction pcs as [|[p n] pcs IH]; intros Hin; [exists []; by split|].
  destruct IH as (ls & E & Hf); [intros; apply Hin; by right|].
  destruct (counts_get es p n) as [-> Hne]; [apply Hin; left|]. cbn [phase_lines phase_line].
  rewrite latencies_get. set (lats := e_latency_us <$> in_phase p es).
  assert (lats <> []) as Hl by (unfold lats; by destruct (in_phase p es)).
  destruct (percentile_found 95 lats Hl) as (p95 & -> & H95); [lia|].
  destruct (percentile_found 99 lats Hl) as (p99 & -> & H99); [lia|]. cbn [of_opt res_bind]. rewrite E. cbn [res_bind].
  eexists. split; [reflexivity|]. constructor; [|done]. exists p95, p99. split_and!; try done.
  cbn [fst]. unfold lats. by rewrite length_fmap.
Qed.

(** ** Lemmas: the recorder *)

Record Event : Type := mkEvent {
  v_phase : BbPhase; v_lba : Z; v_offset : Z; v_size : Z; v_status : BbStatus; v_latency : Z;
}.
Record event_wf (v : Event) : Prop := {
  vw_lba : int_ok 8 (v_lba v);
  vw_offset : int_ok 4 (v_offset v);
  vw_size : int_ok 4 (v_size v);
  vw_latency : int_ok 2 (v_latency v);
}.
Definition entry_of (delta : Z) (v : Event) : BlackBoxEntry :=
  make_entry delta (v_phase v) (v_lba v) (v_offset v) (v_size v) (v_status v) (v_latency v).

Fixpoint record_all {W} `{AgentOs W} (ring_size : Z) (vs : list Event) (r : BlackBoxRecorder) (w : W) : res (BlackBoxRecorder * W) :=
  match vs with
  | [] => Ok (r, w)
  | v :: vs' =>
      let* (r, w) := Record_ ring_size (v_phase v) (v_lba v) (v_offset v) (v_size v) (v_status v) (v_latency v) r w in
      record_all ring_size vs' r w
  end.

Definition log_bytes (es : list BlackBoxEntry) : list Z := concat (bytes_of <$> es).

(** The recorder holds the entries [es]. *)
Record rec_inv (ring_size : Z) (r : BlackBoxRecorder) (es : list BlackBoxEntry) : Prop := {
  ri_init : initialized r = true;
  ri_ring : exists ring, ring_buffer r = Some ring /\ Z.of_nat (length ring) = ring_size /\
    take (26 * length es) ring = log_bytes es;
  ri_room : (26 * length es + 26 <= Z.to_nat ring_size)%nat;
  ri_pos : write_pos r = 26 * Z.of_nat (length es);
  ri_count : entry_count r = Z.of_nat (length es);
  ri_wf : Forall entry_wf es;
  ri_start : int_ok 8 (start_time r);
}.

Definition ring_ok (ring_size : Z) : Prop := 26 <= ring_size < 2 ^ 32.

Lemma int_ok_wrap n w z : w = 8 * Z.of_nat n -> int_ok n (wrap w z).
Proof. intros ->. unfold int_ok. apply wrap_range. lia. Qed.

Lemma entry_of_wf delta v : event_wf v -> entry_wf (entry_of delta v).
Proof.
  intros Hv. split; try (by apply int_ok_wrap); try (by split; vm_compute).
  - split; cbn; destruct (v_phase v); cbn; lia.
  - split; cbn; destruct (v_status v); cbn; lia.
  - apply Hv.
Qed.

Lemma entry_size e : entry_wf e -> length (bytes_of e) = 26%nat.
Proof. exact (bytes_of_length (A:=BlackBoxEntry) e). Qed.

Lemma log_bytes_length es : Forall entry_wf es -> length (log_bytes es) = (26 * length es)%nat.
Proof.
  unfold log_bytes. induction 1 as [|e es He _ IH]; [done|]. cbn [fmap list_fmap concat length]. rewrite length_app, entry_size, IH by done. lia.
Qed.

Lemma log_bytes_snoc es e : log_bytes (es ++ [e]) = log_bytes es ++ bytes_of e.
Proof. unfold log_bytes. rewrite fmap_app, concat_app. cbn [fmap list_fmap concat]. by rewrite app_nil_r. Qed.

Section RecorderLemmas.
Context (ring_size : Z) {W : Type} `{AgentLaws W}.

Lemma record_spec v r es w :
  ring_ok ring_size -> event_wf v -> rec_inv ring_size r es ->
  exists r' w' delta, int_ok 8 delta /\
    Record_ ring_size (v_phase v) (v_lba v) (v_offset v) (v_size v) (v_status v) (v_latency v) r w = Ok (r', w') /\
    loan w' = loan w /\
    if 26 * (Z.of_nat (length es) + 2) <=? ring_size
    then rec_inv ring_size r' (es ++ [entry_of delta v]) /\ overflow_count r' = overflow_count r
    else rec_inv ring_size r' es /\ overflow_count r' = u32 (overflow_count r + 1).
Proof.
  intros Hring Hv [Hi (ring & Hr & Hrl & Hrt) Hroom Hpos Hcnt Hwf Hst]. unfold ring_ok in Hring.
  unfold Record_. rewrite Hi. cbn [negb]. pose proof (l_clock w) as Lc. destruct (a_clock w) as [now w'] eqn:Ec. cbn [fst snd] in *.
  set (delta := u64 (micros now - start_time r)). assert (int_ok 8 delta) as Hd by (by apply int_ok_wrap).
  fold (entry_of delta v). set (e := entry_of delta v). assert (entry_wf e) as He by (by apply entry_of_wf). cbv zeta.
  assert (u32 (write_pos r + BB_ENTRY_SIZE) = 26 * Z.of_nat (length es) + 26) as ->.
  { rewrite Hpos. unfold u32, BB_ENTRY_SIZE. rewrite wrap_small; lia. }
  assert (u32 (entry_count r + 1) = Z.of_nat (length es) + 1) as -> by (rewrite Hcnt; unfold u32; rewrite wrap_small; lia).
  unfold BB_ENTRY_SIZE.
  destruct (Z.ltb_spec ring_size (26 * Z.of_nat (length es) + 26 + 26)) as [Hfull|Hok].
  - eexists _, w', delta. split; [done|]. split; [reflexivity|]. split; [done|].
    rewrite (proj2 (Z.leb_gt _ _)) by lia. split; [|done]. split; try done. by exists ring.
  - rewrite Hr, Hpos. cbn [of_opt res_bind]. rewrite wr_ok by (rewrite ?entry_size by done; lia). cbn [res_bind].
    eexists _, w', delta. split; [done|]. split; [reflexivity|]. split; [done|].
    rewrite (proj2 (Z.leb_le _ _)) by lia. split; [|done].
    replace (Z.to_nat (26 * Z.of_nat (length es))) with (26 * length es)%nat by lia.
    split; try done.
    + eexists. split; [reflexivity|]. split; [rewrite copy_at_length; [done|rewrite entry_size by done; lia]|].
      rewrite log_bytes_snoc. rewrite length_app. cbn [length].
      unfold copy_at. rewrite Hrt, app_assoc.
      apply take_app_length'. rewrite length_app, log_bytes_length, entry_size by done. lia.
    + rewrite length_app. cbn [length]. lia.
    + cbn [write_pos]. rewrite length_app. cbn [length]. lia.
    + cbn [entry_count]. rewrite length_app. cbn [length]. lia.
    + apply Forall_app. split; [done|by constructor].
Qed.

Lemma inv_cap r es : rec_inv ring_size r es -> (length es <= Z.to_nat ((ring_size - 26) / 26))%nat.
Proof. intros Hr. pose proof (ri_room _ _ _ Hr). Z.div_mod_to_equations. lia. Qed.

Lemma record_all_spec vs r es (w : W) :
  ring_ok ring_size -> Forall event_wf vs -> rec_inv ring_size r es ->
  exists r' w' new, record_all ring_size vs r w = Ok (r', w') /\ loan w' = loan w /\
    Forall2 (fun v e => exists delta, int_ok 8 delta /\ e = entry_of delta v) vs new /\
    let cap := Z.to_nat ((ring_size - 26) / 26) in
    rec_inv ring_size r' (take cap (es ++ new)) /\
    u32 (overflow_count r') = u32 (overflow_count r + Z.of_nat (length es + length vs - cap)).
Proof.
  intros Hring Hvs. revert r es w. induction Hvs as [|v vs Hv Hvs IH]; intros r es w Hr.
  { exists r, w, []. cbn [record_all length]. split; [done|]. split; [done|]. split; [constructor|]. cbv zeta. rewrite app_nil_r.
    pose proof (inv_cap r es Hr). rewrite take_ge by lia. split; [done|]. do 2 f_equal. lia. }
  destruct (record_spec v r es w Hring Hv Hr) as (r1 & w1 & delta & Hd & E & Hl & Hcase). cbn [record_all]. rewrite E. cbn [res_bind].
  pose proof (inv_cap r es Hr) as Hcap. set (cap := Z.to_nat ((ring_size - 26) / 26)) in *. unfold ring_ok in Hring.
  assert (26 * ((ring_size - 26) / 26) <= ring_size - 26 < 26 * ((ring_size - 26) / 26) + 26) as Hdiv by (Z.div_mod_to_equations; lia).
  destruct (Z.leb_spec (26 * (Z.of_nat (length es) + 2)) ring_size); destruct Hcase as [Hr1 Ho].
  - destruct (IH r1 _ w1 Hr1) as (r' & w' & new & E' & Hl' & Hf & Hi & Ho'). exists r', w', (entry_of delta v :: new).
    rewrite E'. split; [done|]. split; [congruence|]. split; [by constructor; [exists delta|]|].
    cbv zeta in *. rewrite <- app_assoc in Hi. split; [done|]. rewrite Ho', Ho, length_app. cbn [length]. do 3 f_equal. lia.
  - destruct (IH r1 es w1 Hr1) as (r' & w' & new & E' & Hl' & Hf & Hi & Ho'). exists r', w', (entry_of delta v :: new).
    assert (length es = cap) as Hfull by lia.
    rewrite E'. split; [done|]. split; [congruence|]. split; [by constructor; [exists delta|]|].
    cbv zeta in *. rewrite take_app_length' in Hi |- * by done. split; [done|].
    rewrite Ho', Ho. unfold u32. rewrite wrap_add_l. f_equal. cbn [length]. lia.
Qed.
End RecorderLemmas.

(** ** Lemmas: the analyzer *)

Definition is_event (l : line) : bool := match l with LEvent _ _ _ _ _ _ _ _ => true | _ => false end.

Lemma parse_log es r : Forall entry_wf es -> parse_entries (length es) (log_bytes es ++ r) = es.
Proof.
  intros Hwf. unfold parse_entries, log_bytes.
  replace (replicate (length es) 26%nat) with (length <$> (bytes_of <$> es)).
  - rewrite cut_concat, <- list_fmap_compose. induction Hwf as [|e es He _ IH]; [done|]. cbn [fmap list_fmap]. rewrite IH. f_equal. exact (of_bytes_of' e He).
  - induction Hwf as [|e es He _ IH]; [done|]. cbn [fmap list_fmap length replicate]. rewrite IH. by rewrite entry_size.
Qed.

Lemma parse_bytes n bs :
  Forall is_byte bs -> (26 * n <= length bs)%nat ->
  concat (bytes_of <$> parse_entries n bs) = take (26 * n) bs /\ length (parse_entries n bs) = n.
Proof.
  revert bs. unfold parse_entries. induction n as [|n IH]; intros bs Hb Hl; [by rewrite Nat.mul_0_r|].
  cbn [replicate cut fmap list_fmap concat length].
  destruct (IH (drop 26 bs)) as [E1 E2]; [by apply Forall_drop|rewrite length_drop; lia|]. rewrite E1, E2. split; [|done].
  destruct (bytes_of_of (A:=BlackBoxEntry) (take 26 bs)) as [_ E]; [by apply Forall_take|rewrite length_take; change (sizeof _) with 26%nat; lia|].
  rewrite E, take_take. change (sizeof BlackBoxEntry `min` 26)%nat with 26%nat.
  replace (26 * S n)%nat with (26 + 26 * n)%nat by lia. by rewrite take_take_drop.
Qed.

(** What the analyzer needs of a file. *)
Definition file_count (bs : list Z) : Z := h_entry_count (of_bytes bs).
Definition file_ok (bs : list Z) : bool :=
  (36 <=? Z.of_nat (length bs)) && bool_decide (h_magic (of_bytes bs) = BB_MAGIC) &&
  (36 + 26 * file_count bs + 10 <=? Z.of_nat (length bs)).

Definition file_entries (bs : list Z) : list BlackBoxEntry := parse_entries (Z.to_nat (file_count bs)) (drop 36 bs).
Definition file_footer (bs : list Z) : BlackBoxFileFooter := of_bytes (drop (36 + Z.to_nat (file_count bs * 26)) bs).

Lemma file_count_range bs : Forall is_byte bs -> (36 <= length bs)%nat -> 0 <= file_count bs < 2 ^ 32.
Proof. intros Hb Hl. exact (hw_entry_count _ (proj1 (bytes_of_of (A:=BlackBoxFileHeader) bs Hb Hl))). Qed.

Lemma bb_crc_ref data : bb_ComputeCrc32C data = crc32c_ref data.
Proof. apply bitwise_crc_ref. intros x. rewrite crc_bit_alt. unfold bb_crc_bit. by rewrite land_1_odd. Qed.

Lemma analyze_spec memory hot_sort bs :
  Forall is_byte bs -> (36 <= Z.of_nat (length bs) -> 26 * file_count bs <= memory) ->
  exists code lines, AnalyzeBlackBox memory hot_sort (Some bs) = Ok (code, lines) /\
    code = (if file_ok bs then 0 else 1) /\
    (file_ok bs = true -> 26 * file_count bs < 2 ^ 32 ->
     let es := file_entries bs in
     let crc := crc32c_ref (take (Z.to_nat (26 * file_count bs)) (drop 36 bs)) in
     let stored := f_total_crc32c (file_footer bs) in
     exists head stats, lines = head ++ report es (LCrc (crc =? stored) crc stored) stats (hot_sort (lba_freq es)) /\
       Forall (fun l => is_event l = false) head /\ Forall2 (phase_report es) (phase_counts es) stats).
Proof.
  intros Hb Hmem. unfold AnalyzeBlackBox. set (hdr := of_bytes (A:=BlackBoxFileHeader) bs).
  destruct (Z.ltb_spec (Z.of_nat (length bs)) 36) as [Hs|Hl].
  { eexists 1, _. split; [reflexivity|]. unfold file_ok. rewrite (proj2 (Z.leb_gt _ _)) by lia. done. }
  pose proof (file_count_range bs Hb ltac:(lia)) as Hr. specialize (Hmem Hl). unfold file_ok. rewrite (proj2 (Z.leb_le _ _)) by lia.
  fold hdr. case_bool_decide as Hm; cbn [negb andb]; [|eexists 1, _; split; [reflexivity|done]].
  change (h_entry_count hdr) with (file_count bs). cbv zeta. unfold BB_ENTRY_SIZE.
  rewrite (proj2 (Z.ltb_ge _ _)) by lia. rewrite length_drop.
  destruct (Z.ltb_spec (Z.of_nat (length bs - 36)) (file_count bs * 26)) as [Hs|Hl2].
  { eexists 1, _. split; [reflexivity|]. rewrite (proj2 (Z.leb_gt _ _)) by lia. done. }
  rewrite drop_drop, length_drop.
  destruct (Z.ltb_spec (Z.of_nat (length bs - (36 + Z.to_nat (file_count bs * 26)))) 10) as [Hs|Hl3].
  { eexists 1, _. split; [reflexivity|]. rewrite (proj2 (Z.leb_gt _ _)) by lia. done. }
  fold (file_entries bs) (file_footer bs). set (es := file_entries bs).
  destruct (phase_lines_spec es (phase_counts es)) as (stats & -> & Hst); [done|]. cbn [res_bind].
  eexists 0, _. split; [reflexivity|]. rewrite (proj2 (Z.leb_le _ _)) by lia. split; [done|]. intros _ Hsmall.
  destruct (parse_bytes (Z.to_nat (file_count bs)) (drop 36 bs)) as [Ec _]; [by apply Forall_drop|rewrite length_drop; lia|].
  fold (file_entries bs) in Ec. fold es in Ec.
  replace (26 * Z.to_nat (file_count bs))%nat with (Z.to_nat (26 * file_count bs)) in Ec by lia.
  unfold u32. rewrite wrap_small by lia. rewrite Ec, bb_crc_ref, take_take.
  replace (Z.to_nat (file_count bs * 26) `min` Z.to_nat (26 * file_count bs))%nat with (Z.to_nat (26 * file_count bs)) by lia.
  eexists _, stats. split; [reflexivity|]. split; [by repeat constructor|]. done.
Qed.

(** ** Lemmas: the file of a recording *)

Section Flush.
Context (ring_size : Z) (r : BlackBoxRecorder) (es : list BlackBoxEntry) (end_time : Z).
Hypothesis (Hring : ring_ok ring_size) (Hinv : rec_inv ring_size r es).

Let n := Z.of_nat (length es).
Let hdr := FillHeader (entry_count r) (start_time r) end_time.
Let crc := bb_ComputeCrc32C (log_bytes es).
Let image := flush_image r (log_bytes es) end_time.

Lemma flush_n : 0 <= 26 * n < 2 ^ 32.
Proof. pose proof (ri_room _ _ _ Hinv). unfold n, ring_ok in *. lia. Qed.

Lemma flush_hdr_wf : p_wf hdr.
Proof.
  pose proof flush_n as Hn. unfold hdr, FillHeader.
  split; cbn [h_magic h_version h_entry_size h_entry_count h_start_lo h_start_hi h_end_lo h_end_hi h_reserved].
  4: { rewrite (ri_count _ _ _ Hinv). unfold int_ok. fold n. change (8 * Z.of_nat 4) with 32. lia. }
  1: by split; [|apply bytesb_ok].
  1,2,7: by split; vm_compute.
  all: by apply int_ok_wrap.
Qed.

Lemma log_is_bytes : Forall is_byte (log_bytes es).
Proof.
  unfold log_bytes. apply Forall_concat, Forall_fmap. eapply Forall_impl; [exact (ri_wf _ _ _ Hinv)|].
  intros e He. exact (bytes_of_bytes (A:=BlackBoxEntry) e He).
Qed.

Lemma flush_footer_wf : p_wf (mkFooter crc (entry_count r) 0).
Proof.
  pose proof flush_n. split; cbn; [|rewrite (ri_count _ _ _ Hinv)|by split; vm_compute].
  - unfold crc. rewrite bb_crc_ref. apply crc32c_ref_range, log_is_bytes.
  - unfold int_ok. fold n. change (8 * Z.of_nat 4) with 32. lia.
Qed.

Lemma flush_length : Z.of_nat (length image) = 46 + 26 * n.
Proof.
  unfold image, flush_image. rewrite !length_app, log_bytes_length by apply (ri_wf _ _ _ Hinv).
  fold crc hdr. rewrite (bytes_of_length (A:=BlackBoxFileHeader) hdr flush_hdr_wf), (bytes_of_length (A:=BlackBoxFileFooter) _ flush_footer_wf).
  change (sizeof BlackBoxFileHeader) with 36%nat. change (sizeof BlackBoxFileFooter) with 10%nat. unfold n. lia.
Qed.

Lemma flush_bytes : Forall is_byte image.
Proof.
  unfold image, flush_image. rewrite !Forall_app. split_and!.
  - exact (bytes_of_bytes (A:=BlackBoxFileHeader) hdr flush_hdr_wf).
  - apply log_is_bytes.
  - exact (bytes_of_bytes (A:=BlackBoxFileFooter) _ flush_footer_wf).
Qed.

(** A prefix of the file that holds the header still has the header's count. *)
Lemma flush_header k : (36 <= k)%nat -> of_bytes (A:=BlackBoxFileHeader) (take k image) = hdr.
Proof.
  intros Hk. rewrite of_bytes_take by done. unfold image, flush_image. exact (of_bytes_of (A:=BlackBoxFileHeader) hdr _ flush_hdr_wf).
Qed.

Lemma flush_count k : (36 <= k)%nat -> file_count (take k image) = n.
Proof. intros Hk. unfold file_count. rewrite flush_header by done. exact (ri_count _ _ _ Hinv). Qed.

Lemma flush_file_ok k : file_ok (take k image) = (46 + 26 * n <=? Z.of_nat k).
Proof.
  pose proof flush_length as Hl. pose proof flush_n. unfold file_ok. rewrite length_take.
  destruct (decide (36 <= k)%nat) as [Hk|Hk].
  - rewrite flush_count, flush_header by done. rewrite (proj2 (Z.leb_le _ _)) by lia. cbn [andb].
    rewrite (bool_decide_eq_true_2 (h_magic hdr = BB_MAGIC)) by reflexivity. cbn [andb].
    destruct (Z.leb_spec (36 + 26 * n + 10) (Z.of_nat (k `min` length image)));
      destruct (Z.leb_spec (46 + 26 * n) (Z.of_nat k)); lia || done.
  - rewrite (proj2 (Z.leb_gt 36 _)) by lia. symmetry. apply Z.leb_gt. lia.
Qed.

Lemma flush_contents :
  file_entries image = es /\ take (Z.to_nat (26 * n)) (drop 36 image) = log_bytes es /\
  f_total_crc32c (file_footer image) = crc.
Proof.
  assert (length (bytes_of hdr) = 36%nat) as Hh by exact (bytes_of_length (A:=BlackBoxFileHeader) hdr flush_hdr_wf).
  pose proof (flush_count (length image)) as Hc. rewrite take_ge in Hc by done. pose proof flush_length. pose proof flush_n.
  assert (drop 36 image = log_bytes es ++ bytes_of (mkFooter crc (entry_count r) 0)) as Hd.
  { unfold image, flush_image. by rewrite drop_app_length'. }
  pose proof (log_bytes_length es (ri_wf _ _ _ Hinv)) as Hll.
  split_and!.
  - unfold file_entries. rewrite Hc, Hd by lia. unfold n. rewrite Nat2Z.id. apply parse_log, (ri_wf _ _ _ Hinv).
  - rewrite Hd. apply take_app_length'. unfold n. lia.
  - unfold file_footer. rewrite Hc by lia.
    rewrite <- drop_drop, Hd. rewrite drop_app_length' by (unfold n; lia). exact (f_equal f_total_crc32c (of_bytes_of' (A:=BlackBoxFileFooter) _ flush_footer_wf)).
Qed.
End Flush.

(** ** Lemmas: what the report shows of an event *)

Lemma mod_ones z w : 0 <= w -> wrap w z = Z.land z (Z.ones w).
Proof. intros. unfold wrap. by rewrite Z.land_ones. Qed.

(** A number put together from its low [a] bits and the next [b]. *)
Lemma join_bits z a b : 0 <= a -> 0 <= b ->
  Z.lor (Z.land z (Z.ones a)) (Z.shiftl (Z.land (Z.shiftr z a) (Z.ones b)) a) = wrap (a + b) z.
Proof.
  intros Ha Hb. rewrite mod_ones by lia. apply Z.bits_inj'. intros i Hi.
  rewrite Z.lor_spec, !Z.land_spec, Z.shiftl_spec, Z.land_spec, !Z.testbit_ones by lia.
  destruct (Z.ltb_spec i a).
  - rewrite (Z.testbit_neg_r _ (i - a)) by lia. rewrite (proj2 (Z.leb_le 0 i)), (proj2 (Z.ltb_lt i (a + b))) by lia.
    cbn. by rewrite orb_false_r.
  - rewrite Z.shiftr_spec by lia. replace (i - a + a) with i by lia.
    rewrite (proj2 (Z.leb_le 0 i)), (proj2 (Z.leb_le 0 (i - a))) by lia. cbn. rewrite andb_false_r. cbn.
    destruct (Z.ltb_spec (i - a) b); destruct (Z.ltb_spec i (a + b)); lia || done.
Qed.

Lemma u32_ones z : u32 z = Z.land z (Z.ones 32).
Proof. by apply mod_ones. Qed.

Lemma join64_split z : int_ok 8 z -> join64 (lo32 z) (hi32 z) = z.
Proof.
  intros Hz. unfold join64, lo32, hi32. change 0xFFFFFFFF with (Z.ones 32). rewrite !u32_ones, <- Z.land_assoc, Z.land_diag.
  assert (u64 (Z.shiftl (Z.land (Z.shiftr z 32) (Z.ones 32)) 32) = Z.shiftl (Z.land (Z.shiftr z 32) (Z.ones 32)) 32) as ->.
  { unfold u64. apply wrap_small. rewrite Z.land_ones, Z.shiftl_mul_pow2 by lia.
    pose proof (Z.mod_pos_bound (Z.shiftr z 32) (2 ^ 32) eq_refl). lia. }
  rewrite join_bits by lia. by apply wrap_small.
Qed.

Lemma size_split z : Z.lor (u16 (Z.land z 0xFFFF)) (Z.shiftl (u8 (Z.shiftr z 16)) 16) = wrap 24 z.
Proof.
  unfold u16, u8. change 0xFFFF with (Z.ones 16). rewrite !mod_ones, <- Z.land_assoc, Z.land_diag by lia. rewrite join_bits by lia.
  by rewrite mod_ones.
Qed.

(** The line shown for an event: the offset has lost its upper half and the size
    its upper byte. *)
Definition shows (v : Event) (l : line) : Prop :=
  exists i delta, l = LEvent i delta (PhaseName (phase_val (v_phase v))) (StatusName (status_val (v_status v)))
    (v_lba v) (v_offset v mod 2 ^ 16) (v_size v mod 2 ^ 24) (v_latency v).

Lemma event_shown i delta v : event_wf v -> int_ok 8 delta -> shows v (event_line i (entry_of delta v)).
Proof.
  intros Hv Hd. exists (Z.of_nat i), delta. unfold event_line. f_equal.
  - by apply join64_split.
  - apply join64_split, Hv.
  - cbn [entry_of make_entry e_offset]. change 0xFFFF with (Z.ones 16). unfold u16. rewrite mod_ones, <- Z.land_assoc, Z.land_diag by lia.
    by rewrite Z.land_ones.
  - apply size_split.
Qed.

Lemma events_of_lines (ls : list line) : Forall (fun l => is_event l = false) ls -> filter is_event ls = [].
Proof. induction 1 as [|l ls Hl _ IH]; [done|]. rewrite filter_cons_False; [done|]. rewrite Hl. by intros []. Qed.

Lemma events_timeline (es : list BlackBoxEntry) : filter is_event (imap event_line es) = imap event_line es.
Proof.
  assert (forall k, filter is_event (imap (fun i => event_line (k + i)) es) = imap (fun i => event_line (k + i)) es) as H.
  { induction es as [|e es IH]; intros k; [done|]. rewrite imap_cons, filter_cons_True by done. f_equal.
    rewrite (imap_ext _ (fun i => event_line (S k + i))); [apply IH|]. intros i x _. cbn. f_equal. lia. }
  apply (H 0%nat).
Qed.

Lemma report_events head es c stats hot :
  Forall (fun l => is_event l = false) head -> is_event c = false -> Forall (fun l => is_event l = false) stats ->
  filter is_event (head ++ report es c stats hot) = imap event_line es.
Proof.
  intros Hh Hc Hs. unfold report. destruct (foldl locate (None, None) es) as [ls ff].
  rewrite !filter_app, events_timeline, (events_of_lines head), (events_of_lines stats) by done.
  rewrite (events_of_lines [c; _; _]) by (repeat constructor; done).
  rewrite (events_of_lines ((fun b => LHot b.1 b.2) <$> _)) by (apply Forall_fmap, Forall_true; done).
  destruct ls, ff; cbn; by rewrite app_nil_r.
Qed.

Lemma stats_no_event es pcs stats : Forall2 (phase_report es) pcs stats -> Forall (fun l => is_event l = false) stats.
Proof. induction 1 as [|pc l pcs stats (p95 & p99 & _ & _ & ->) _ IH]; by constructor. Qed.

Section FlushLemmas.
Context (ring_size : Z) {W : Type} `{AgentLaws W}.

Lemma initialize_inv r0 r1 w0 (w1 : W) :
  ring_ok ring_size -> initialized r0 = false -> Initialize ring_size r0 w0 = (true, r1, w1) ->
  rec_inv ring_size r1 [] /\ overflow_count r1 = 0.
Proof.
  intros Hring Hi. unfold Initialize, ring_ok in *. rewrite Hi. destruct (a_alloc ring_size w0) as [[] w]; [|done]. cbn [negb].
  destruct (a_clock w) as [now w']. intros [= <- <-]. split; [|done]. split; try done.
  - eexists. split; [reflexivity|]. split; [rewrite length_replicate; lia|done].
  - cbn. lia.
  - by apply int_ok_wrap.
Qed.

Lemma flush_spec path r es (w : W) :
  ring_ok ring_size -> rec_inv ring_size r es ->
  exists end_time ok w', let image := flush_image r (log_bytes es) end_time in
    FlushToDisk path r w = Ok (ok, w') /\ loan w' = loan w /\ (es = [] -> ok = false) /\
    (ok = true -> exists k, disk w' !! path = Some (take k image)) /\
    (saves_all W -> es <> [] -> ok = true /\ disk w' !! path = Some image).
Proof.
  intros Hring Hinv. pose proof Hinv as [Hi (ring & Hr & Hrl & Hrt) Hroom Hpos Hcnt Hwf Hst]. unfold FlushToDisk. rewrite Hi. cbn [negb orb].
  destruct (Z.eqb_spec (entry_count r) 0) as [E0|E0].
  { exists 0, false, w. cbv zeta. split_and!; try done. intros _ Hne. rewrite Hcnt in E0. by destruct es. }
  rewrite Hr, Hpos. cbn [of_opt res_bind]. rewrite rd_bytes_ok by lia. cbn [res_bind].
  change (Z.to_nat 0) with 0%nat. rewrite drop_0. replace (Z.to_nat (26 * Z.of_nat (length es))) with (26 * length es)%nat by lia. rewrite Hrt.
  pose proof (l_clock w) as Lc. destruct (a_clock w) as [now w1]. cbn [fst snd] in *. exists (micros now).
  set (img := flush_image r (log_bytes es) (micros now)). pose proof (l_save path img w1) as Ls.
  pose proof (save_disk path img w1 (flush_bytes ring_size r es (micros now) Hring Hinv)) as Hd.
  assert (saves_all W -> snd <$> (a_save path img w1).1 = Some (Z.of_nat (length img))) as Hall.
  { intros Ha. by destruct (Ha path img w1) as [good ->]. }
  clearbody img.
  assert (es <> []) as Hne by (intros ->; by rewrite Hcnt in E0).
  destruct (a_save path img w1) as [[[good k]|] w2]; cbn [fst snd] in *; eexists _, w2; cbv zeta;
    (split; [reflexivity|]; split; [congruence|]; split; [done|]).
  - rewrite (proj2 Hd). unfold saved. rewrite lookup_insert_eq. split; [by eexists|]. intros Ha _.
    specialize (Hall Ha) as [= ->]. by rewrite take_ge by lia.
  - split; [done|]. intros Ha _. by specialize (Hall Ha).
Qed.

Lemma analyze_flushed r es end_time k memory hot_sort :
  ring_ok ring_size -> rec_inv ring_size r es -> ring_size <= memory ->
  let image := flush_image r (log_bytes es) end_time in
  exists code lines, AnalyzeBlackBox memory hot_sort (Some (take k image)) = Ok (code, lines) /\
    if (length image <=? k)%nat
    then code = 0 /\ filter is_event lines = imap event_line es /\ exists crc, LCrc true crc crc ∈ lines
    else code = 1.
Proof.
  intros Hring Hinv Hmem image. pose proof (flush_length ring_size r es end_time Hring Hinv) as Hl.
  pose proof (flush_n ring_size r es Hring Hinv) as Hn. pose proof (ri_room _ _ _ Hinv) as Hroom. fold image in Hl.
  destruct (analyze_spec memory hot_sort (take k image)) as (code & lines & E & Hc & Hok).
  { apply Forall_take. by apply (flush_bytes ring_size). }
  { intros H36. rewrite length_take in H36. unfold image. rewrite (flush_count ring_size) by (done || lia). lia. }
  exists code, lines. split; [exact E|]. unfold image in Hc, Hok. rewrite (flush_file_ok ring_size r es end_time Hring Hinv) in Hc, Hok. fold image in Hc, Hok.
  destruct (Nat.leb_spec (length image) k) as [Hk|Hk].
  - rewrite (proj2 (Z.leb_le _ _)) in Hc, Hok by lia. rewrite take_ge in Hok by done.
    pose proof (flush_count ring_size r es end_time Hring Hinv (length image)) as Hcnt. fold image in Hcnt. rewrite take_ge in Hcnt by done.
    destruct (flush_contents ring_size r es end_time Hring Hinv) as (F1 & F2 & F3). fold image in F1, F2, F3.
    rewrite Hcnt in Hok by lia. destruct (Hok eq_refl) as (head & stats & -> & Hh & Hst); [lia|].
    cbv zeta in *. rewrite F1, F2, F3, bb_crc_ref, Z.eqb_refl in *.
    split; [done|]. split; [apply report_events; [done|done|by eapply stats_no_event]|].
    exists (crc32c_ref (log_bytes es)). apply elem_of_app. right. unfold report.
    destruct (foldl locate (None, None) es). by left.
  - by rewrite (proj2 (Z.leb_gt _ _)) in Hc by lia.
Qed.
End FlushLemmas.

Lemma shows_events vs es :
  Forall event_wf vs -> Forall2 (fun v e => exists delta, int_ok 8 delta /\ e = entry_of delta v) vs es ->
  forall k, Forall2 shows vs (imap (fun i => event_line (k + i)) es).
Proof.
  intros Hvs Hf. induction Hf as [|v e vs es (delta & Hd & ->) _ IH]; intros k; [constructor|].
  apply Forall_cons in Hvs as [Hv Hvs]. rewrite imap_cons. constructor; [by apply event_shown|].
  rewrite (imap_ext _ (fun i => event_line (S k + i))); [by apply IH|]. intros i x _. cbn. f_equal. lia.
Qed.

(** ** Properties *)

(** The recorder keeps the first events and counts the rest: after
    initialisation and any sequence of events it holds exactly the entries of
    the first [(ring_size - 26) / 26] of them, in order, one slot less than the
    block has room for, and the overflow counter is the number of events that
    were dropped. *)
Theorem bb_keeps_first {W} `{AgentLaws W} ring_size vs r0 r1 (w0 w1 : W) :
  ring_ok ring_size -> initialized r0 = false -> Forall event_wf vs -> Initialize ring_size r0 w0 = (true, r1, w1) ->
  let cap := Z.to_nat ((ring_size - 26) / 26) in
  exists r2 w2 es, record_all ring_size vs r1 w1 = Ok (r2, w2) /\
    Forall2 (fun v e => exists delta, int_ok 8 delta /\ e = entry_of delta v) vs es /\
    rec_inv ring_size r2 (take cap es) /\ u32 (overflow_count r2) = u32 (Z.of_nat (length vs - cap)).
Proof.
  intros Hring Hi Hvs E cap. destruct (initialize_inv ring_size r0 r1 w0 w1 Hring Hi E) as [Hinv Ho].
  destruct (record_all_spec ring_size vs r1 [] w1 Hring Hvs Hinv) as (r2 & w2 & es & E2 & _ & Hf & Hi2 & Ho2).
  exists r2, w2, es. split_and!; try done. rewrite Ho2, Ho. done.
Qed.

(** C19. A recorded boot can be read back. The events a recorder was given (the
    first that fit) have a file image of 46 bytes and 26 for each: the analyzer
    accepts it, finds the checksum right and shows exactly those events in
    order, with phase, status, block address and latency unchanged, the offset
    modulo 2^16 and the size modulo 2^24. On a disk with room the flush of a recorder
    with events answers true and leaves exactly that image in the file; on
    any disk, when it answers true the file holds the image or a shorter
    prefix of it, and the analyzer refuses the shorter one. Without a kept
    event the flush answers false. *)
Theorem bb_roundtrip {W} `{AgentLaws W} ring_size vs r0 r1 (w0 w1 : W) path memory hot_sort :
  ring_ok ring_size -> ring_size <= memory -> initialized r0 = false -> Forall event_wf vs ->
  Initialize ring_size r0 w0 = (true, r1, w1) ->
  let kept := take (Z.to_nat ((ring_size - 26) / 26)) vs in
  exists r2 w2 ok w3 image lines crc,
    record_all ring_size vs r1 w1 = Ok (r2, w2) /\ FlushToDisk path r2 w2 = Ok (ok, w3) /\
    length image = (46 + 26 * length kept)%nat /\
    AnalyzeBlackBox memory hot_sort (Some image) = Ok (0, lines) /\ LCrc true crc crc ∈ lines /\
    Forall2 shows kept (filter is_event lines) /\
    (saves_all W -> kept <> [] -> ok = true /\ disk w3 !! path = Some image) /\
    (ok = true -> disk w3 !! path = Some image \/
       exists k lines', (k < length image)%nat /\ disk w3 !! path = Some (take k image) /\
         AnalyzeBlackBox memory hot_sort (Some (take k image)) = Ok (1, lines')) /\
    (kept = [] -> ok = false).
Proof.
  intros Hring Hmem Hi Hvs E. set (cap := Z.to_nat ((ring_size - 26) / 26)). intros kept.
  destruct (initialize_inv ring_size r0 r1 w0 w1 Hring Hi E) as [Hinv Ho].
  destruct (record_all_spec ring_size vs r1 [] w1 Hring Hvs Hinv) as (r2 & w2 & es & E2 & _ & Hf & Hi2 & _). cbv zeta in Hi2. fold cap in Hi2.
  cbn [app] in Hi2. destruct (flush_spec ring_size path r2 (take cap es) w2 Hring Hi2) as (end_time & ok & w3 & E3 & _ & Hnil & Hd & Hall).
  cbv zeta in *. set (image := flush_image _ _ _) in *.
  pose proof (analyze_flushed ring_size r2 (take cap es) end_time) as Han. fold image in Han.
  destruct (Han (length image) memory hot_sort Hring Hi2 Hmem) as (code & lines & Ea & Hcase).
  rewrite firstn_all in Ea. rewrite Nat.leb_refl in Hcase. destruct Hcase as (-> & Hev & crc & Hcrc).
  pose proof (Forall2_length _ _ _ Hf) as Hlen. pose proof (flush_length ring_size r2 _ end_time Hring Hi2) as Hl. fold image in Hl.
  assert (forall A B (l : list A) (l' : list B), length l = length l' -> take cap l = [] -> take cap l' = []) as Hsame.
  { intros A B l l' El E0. apply length_zero_iff_nil. by rewrite length_take, <- El, <- length_take, E0. }
  exists r2, w2, ok, w3, image, lines, crc. split_and!; try done.
  - unfold kept. pose proof (length_take es cap). pose proof (length_take vs cap). lia.
  - rewrite Hev. apply (shows_events _ _ ltac:(by apply Forall_take) ltac:(by apply Forall2_take) 0).
  - intros Ha Hne. apply Hall; [done|]. intros E0. apply Hne. by apply (Hsame _ _ es vs).
  - intros Hok. destruct (Hd Hok) as [k Hk]. destruct (Han k memory hot_sort Hring Hi2 Hmem) as (code & ls & Ek & Hcase).
    destruct (Nat.leb_spec (length image) k); [left; by rewrite Hk, take_ge by lia|right]. exists k, ls. by subst code.
  - intros E0. apply Hnil. by apply (Hsame _ _ vs es).
Qed.

(** The analyzer survives any file: as long as the vector for the number of
    entries the header claims fits in memory, it stays inside the file and its
    arrays, its exit code is 0 exactly when the file has the magic number and
    room for the claimed entries and the footer, and then each line of the phase
    statistics gives the number of entries of that phase, the sum of their
    latencies and values that more than 95 and 99 percent of them do not
    exceed. *)
Theorem bb_analyzer_total memory hot_sort bs :
  Forall is_byte bs -> (36 <= Z.of_nat (length bs) -> 26 * file_count bs <= memory) ->
  exists code lines, AnalyzeBlackBox memory hot_sort (Some bs) = Ok (code, lines) /\
    code = (if file_ok bs then 0 else 1) /\
    (file_ok bs = true -> 26 * file_count bs < 2 ^ 32 ->
     exists stats, Forall2 (phase_report (file_entries bs)) (phase_counts (file_entries bs)) stats /\ stats ⊆ lines).
Proof.
  intros Hb Hm. destruct (analyze_spec memory hot_sort bs Hb Hm) as (code & lines & E & Hc & Hok).
  exists code, lines. split_and!; try done. intros H1 H2. destruct (Hok H1 H2) as (head & stats & -> & _ & Hst).
  exists stats. split; [done|]. unfold report. destruct (foldl locate _ _). set_solver.
Qed.

(** Damage inside the recorded entries is noticed but not acted on: a file
    whose entries were changed in a window of up to four bytes is reported with
    a checksum mismatch, the damaged entries are analysed as if they were good,
    and the exit code is still 0. *)
Theorem bb_damage_reported ring_size r es end_time memory hot_sort pre m1 m2 post :
  ring_ok ring_size -> rec_inv ring_size r es -> ring_size <= memory ->
  log_bytes es = pre ++ m1 ++ post -> Forall is_byte m2 -> length m1 = length m2 -> (length m1 <= 4)%nat -> m1 <> m2 ->
  let header := bytes_of (FillHeader (entry_count r) (start_time r) end_time) in
  let footer := bytes_of (mkFooter (bb_ComputeCrc32C (log_bytes es)) (entry_count r) 0) in
  exists lines computed stored,
    AnalyzeBlackBox memory hot_sort (Some (header ++ (pre ++ m2 ++ post) ++ footer)) = Ok (0, lines) /\
    LCrc false computed stored ∈ lines.
Proof.
  intros Hring Hinv Hmem El Hb2 Hl H4 Hne header footer. pose proof (flush_n ring_size r es Hring Hinv) as Hn.
  pose proof (flush_hdr_wf ring_size r es end_time Hring Hinv) as Hhw. pose proof (flush_footer_wf ring_size r es Hring Hinv) as Hfw.
  assert (length header = 36%nat) as Hh by exact (bytes_of_length _ Hhw).
  assert (length footer = 10%nat) as Hf by exact (bytes_of_length _ Hfw).
  pose proof (log_is_bytes ring_size r es Hinv) as Hlb. pose proof (log_bytes_length es (ri_wf _ _ _ Hinv)) as Hll.
  rewrite El in Hlb, Hll. rewrite !Forall_app in Hlb. destruct Hlb as (Hb1 & Hbm & Hb3). rewrite !length_app in Hll.
  set (log' := pre ++ m2 ++ post). set (bs := header ++ log' ++ footer).
  assert (length log' = 26 * length es)%nat as Hl' by (unfold log'; rewrite !length_app; lia).
  assert (of_bytes (A:=BlackBoxFileHeader) bs = FillHeader (entry_count r) (start_time r) end_time) as Eh by exact (of_bytes_of _ _ Hhw).
  assert (file_count bs = Z.of_nat (length es)) as Hc by (unfold file_count; rewrite Eh; exact (ri_count _ _ _ Hinv)).
  assert (Z.of_nat (length bs) = 46 + 26 * Z.of_nat (length es)) as Hbl by (unfold bs; rewrite !length_app; lia).
  assert (file_ok bs = true) as Hok.
  { unfold file_ok. rewrite Eh, Hc, bool_decide_eq_true_2 by reflexivity. rewrite !(proj2 (Z.leb_le _ _)) by lia. done. }
  pose proof (ri_room _ _ _ Hinv).
  destruct (analyze_spec memory hot_sort bs) as (code & lines & E & Hcode & Hlines).
  { unfold bs, log'. rewrite !Forall_app. split_and!; try done; [exact (bytes_of_bytes _ Hhw)|exact (bytes_of_bytes _ Hfw)]. }
  { intros _. rewrite Hc. lia. }
  rewrite Hok in Hcode. subst code. destruct (Hlines Hok) as (head & stats & -> & _ & _); [rewrite Hc; lia|]. cbv zeta.
  assert (drop 36 bs = log' ++ footer) as Hd by (unfold bs; by rewrite drop_app_length').
  assert (f_total_crc32c (file_footer bs) = crc32c_ref (pre ++ m1 ++ post)) as Hs.
  { unfold file_footer. rewrite Hc, <- drop_drop, Hd, drop_app_length' by lia. unfold footer. rewrite El at 1.
    rewrite <- bb_crc_ref. rewrite El in Hfw. exact (f_equal f_total_crc32c (of_bytes_of' _ Hfw)). }
  assert (crc32c_ref log' =? crc32c_ref (pre ++ m1 ++ post) = false) as Hx.
  { apply Z.eqb_neq. intros Hx. symmetry in Hx. revert Hx. by apply crc32c_ref_burst. }
  eexists _, _, _. split; [exact E|]. rewrite Hc, Hd, take_app_length', Hs, Hx by lia.
  apply elem_of_app. right. unfold report. destruct (foldl locate _ _). by left.
Qed.

(** ** Witnesses *)

Definition sim_box : SimAgent := mkSimAgent (mkLoan 0 ∅) ∅ 5000000 (fun _ _ => true) [] [] [].
Definition sample_events : list Event :=
  [mkEvent BOOTAGENT 7 0x12345 0x1234567 SUCCESS 11; mkEvent WINPE 0x123456789 3 512 FAIL 70; mkEvent BOOTAGENT 7 0 0 SUCCESS 5;
   mkEvent KERNEL 9 0 0 WARN 1].
Lemma sample_events_wf : Forall event_wf sample_events.
Proof. repeat constructor; by vm_compute. Qed.

(** A block of 110 bytes, four entries and a bit: room for three. *)
Definition box1 : BlackBoxRecorder := (Initialize 110 recorder_start sim_box).1.2.
Definition world1 : SimAgent := (Initialize 110 recorder_start sim_box).2.

Lemma bb_keeps_first_witness :
  exists r2 w2 es, record_all 110 sample_events box1 world1 = Ok (r2, w2) /\
    length es = 4%nat /\ rec_inv 110 r2 (take 3 es) /\ u32 (overflow_count r2) = 1.
Proof.
  destruct (bb_keeps_first 110 sample_events recorder_start box1 sim_box world1) as (r2 & w2 & es & E & Hf & Hi & Ho).
  - by vm_compute.
  - reflexivity.
  - apply sample_events_wf.
  - reflexivity.
  - exists r2, w2, es. split; [exact E|]. split; [symmetry; exact (Forall2_length _ _ _ Hf)|]. split; [exact Hi|exact Ho].
Defined.

Lemma sim_saves_all : saves_all SimAgent.
Proof. intros p bs w. by exists true. Qed.

Lemma bb_roundtrip_witness :
  exists r2 w2 w3 image lines, record_all 110 sample_events box1 world1 = Ok (r2, w2) /\
    FlushToDisk (zstr "b") r2 w2 = Ok (true, w3) /\ disk w3 !! zstr "b" = Some image /\ length image = 124%nat /\
    AnalyzeBlackBox 110 id (Some image) = Ok (0, lines) /\ Forall2 shows (take 3 sample_events) (filter is_event lines).
Proof.
  destruct (bb_roundtrip 110 sample_events recorder_start box1 sim_box world1 (zstr "b") 110 id)
    as (r2 & w2 & ok & w3 & image & lines & crc & E1 & E2 & Hl & Ea & _ & Hs & Hall & _);
    [by vm_compute|lia|reflexivity|apply sample_events_wf|reflexivity|].
  destruct (Hall sim_saves_all ltac:(done)) as [-> Hd]. exists r2, w2, w3, image, lines.
  split_and!; [exact E1|exact E2|exact Hd|exact Hl|exact Ea|exact Hs].
Defined.

Lemma bb_analyzer_total_witness :
  exists lines, AnalyzeBlackBox 0 id (Some [72; 68; 66]) = Ok (1, lines).
Proof.
  destruct (bb_analyzer_total 0 id [72; 68; 66]) as (code & lines & E & Hc & _); [by apply bytesb_ok|cbn; lia|].
  exists lines. rewrite E. by rewrite Hc.
Defined.

(** A recording with one entry, its block address changed on disk. *)
Definition one_entry : BlackBoxEntry := entry_of 9 (mkEvent BOOTAGENT 7 0 0 SUCCESS 11).
Definition one_box : BlackBoxRecorder := mkRecorder (Some (bytes_of one_entry ++ replicate 26 0)) 26 0 1 0 5 true.

Lemma one_box_inv : rec_inv 52 one_box [one_entry].
Proof.
  split; try done.
  - eexists. split; [reflexivity|]. split; reflexivity.
  - repeat constructor; by vm_compute.
Qed.

Lemma bb_damage_reported_witness :
  exists lines computed stored,
    AnalyzeBlackBox 52 id (Some (bytes_of (FillHeader 1 5 6) ++
      (take 12 (bytes_of one_entry) ++ [8] ++ drop 13 (bytes_of one_entry)) ++
      bytes_of (mkFooter (bb_ComputeCrc32C (log_bytes [one_entry])) 1 0))) = Ok (0, lines) /\
    LCrc false computed stored ∈ lines.
Proof.
  apply (bb_damage_reported 52 one_box [one_entry] 6 52 id (take 12 (bytes_of one_entry)) [7] [8] (drop 13 (bytes_of one_entry)));
    [by vm_compute|apply one_box_inv|lia|reflexivity|by apply bytesb_ok|reflexivity|cbn; lia|done].
Defined.
