(* ===== verification/Dhcp.v ===== *)
(** * The boot agent: configuration, logger and DHCP client
    (src/client/boot_agent/boot_agent.h, com1_logger.cpp, dhcp_client.cpp)

    The agent is a single-threaded program with three singletons (the COM1
    logger, the black box recorder, the metadata cache) and one configuration;
    its computations thread them together with the state of the machine. *)

From S2P Require Import Prelude BootEnv Packed AgentEnv BootMeta BlackBox.
#[local] Open Scope Z_scope.

Inductive BootPhase : Type :=
| PXE_START | IPXE_START | BOOTAGENT_START | DHCP_DISCOVER | GRPC_REGISTER | CHUNKSTREAM_DL | INTEGRITY_CHECK
| WINPE_START | BOOTDIAG_RUN.
Inductive BootFailCode : Type :=
| FC_NONE | PXE_TIMEOUT | TFTP_FAIL | DHCP_FAIL | GRPC_FAIL | IMGSRV_FAIL | CRC_FAIL | SIGNATURE_FAIL | BOOTMETA_FAIL.

Record BootConfig : Type := mkConfig {
  server_address : list Z;
  server_port : Z;
  image_id : Z;
  boot_script_url : list Z;
  image_name : list Z;
  primary_server : list Z;
  primary_port : Z;
  secondary_server : list Z;
  secondary_port : Z;
  meta_server_address : list Z;
  meta_server_port : Z;
  terminal_id : list Z;
  local_meta_path : list Z;
  blackbox_path : list Z;
  dhcp_timeout_ms : Z;
  grpc_timeout_ms : Z;
  dl_timeout_ms : Z;
  max_retries : Z;
  boot_id : list Z;
  machine_id : list Z;
  mac_address : list Z;
}.
Definition BootConfig_default : BootConfig :=
  mkConfig [] 8080 0 [] [] [] 9527 [] 9527 [] 50051 [] (zstr "C:\HyperDisk\boot.meta")
    (zstr "C:\HyperDisk\blackbox\boot.bin") 5000 3000 10000 3 [] [] [].

Definition set_server (c : BootConfig) (address : list Z) (port : Z) : BootConfig :=
  mkConfig address port (image_id c) (boot_script_url c) (image_name c) (primary_server c) (primary_port c) (secondary_server c)
    (secondary_port c) (meta_server_address c) (meta_server_port c) (terminal_id c) (local_meta_path c) (blackbox_path c)
    (dhcp_timeout_ms c) (grpc_timeout_ms c) (dl_timeout_ms c) (max_retries c) (boot_id c) (machine_id c) (mac_address c).
Definition set_primary (c : BootConfig) (server : list Z) (port : Z) : BootConfig :=
  mkConfig (server_address c) (server_port c) (image_id c) (boot_script_url c) (image_name c) server port (secondary_server c)
    (secondary_port c) (meta_server_address c) (meta_server_port c) (terminal_id c) (local_meta_path c) (blackbox_path c)
    (dhcp_timeout_ms c) (grpc_timeout_ms c) (dl_timeout_ms c) (max_retries c) (boot_id c) (machine_id c) (mac_address c).
Definition set_script (c : BootConfig) (url : list Z) : BootConfig :=
  mkConfig (server_address c) (server_port c) (image_id c) url (image_name c) (primary_server c) (primary_port c) (secondary_server c)
    (secondary_port c) (meta_server_address c) (meta_server_port c) (terminal_id c) (local_meta_path c) (blackbox_path c)
    (dhcp_timeout_ms c) (grpc_timeout_ms c) (dl_timeout_ms c) (max_retries c) (boot_id c) (machine_id c) (mac_address c).
Definition set_meta_server (c : BootConfig) (server : list Z) (port : Z) : BootConfig :=
  mkConfig (server_address c) (server_port c) (image_id c) (boot_script_url c) (image_name c) (primary_server c) (primary_port c)
    (secondary_server c) (secondary_port c) server port (terminal_id c) (local_meta_path c) (blackbox_path c)
    (dhcp_timeout_ms c) (grpc_timeout_ms c) (dl_timeout_ms c) (max_retries c) (boot_id c) (machine_id c) (mac_address c).
Definition set_names (c : BootConfig) (image terminal : list Z) : BootConfig :=
  mkConfig (server_address c) (server_port c) (image_id c) (boot_script_url c) image (primary_server c) (primary_port c)
    (secondary_server c) (secondary_port c) (meta_server_address c) (meta_server_port c) terminal (local_meta_path c) (blackbox_path c)
    (dhcp_timeout_ms c) (grpc_timeout_ms c) (dl_timeout_ms c) (max_retries c) (boot_id c) (machine_id c) (mac_address c).
Definition set_ids (c : BootConfig) (boot machine mac : list Z) : BootConfig :=
  mkConfig (server_address c) (server_port c) (image_id c) (boot_script_url c) (image_name c) (primary_server c) (primary_port c)
    (secondary_server c) (secondary_port c) (meta_server_address c) (meta_server_port c) (terminal_id c) (local_meta_path c)
    (blackbox_path c) (dhcp_timeout_ms c) (grpc_timeout_ms c) (dl_timeout_ms c) (max_retries c) boot machine mac.

(** ** The state of the process *)

Record Com1Logger : Type := mkLogger { com1_open : bool; log_initialized : bool }.

Record Globals (W : Type) : Type := mkGlobals {
  g_os : W;
  g_log : Com1Logger;
  g_bb : BlackBoxRecorder;
  g_cache : BootMetaCache;
  g_cfg : BootConfig;
}.
Arguments mkGlobals {W} g_os g_log g_bb g_cache g_cfg.
Arguments g_os {W} g.
Arguments g_log {W} g.
Arguments g_bb {W} g.
Arguments g_cache {W} g.
Arguments g_cfg {W} g.

Definition G (W A : Type) : Type := Globals W -> res (A * Globals W).
#[export] Instance G_ret {W} : MRet (G W) := fun A a g => Ok (a, g).
#[export] Instance G_bind {W} : MBind (G W) := fun A B k c g =>
  match c g with
  | Ok (a, g') => k a g'
  | Fault => Fault
  | NoFuel => NoFuel
  end.

Section Lifts.
Context {W : Type}.
Definition on_os (g : Globals W) (w : W) : Globals W := mkGlobals w (g_log g) (g_bb g) (g_cache g) (g_cfg g).
Definition call {A} (f : W -> A * W) : G W A := fun g => let '(a, w) := f (g_os g) in Ok (a, on_os g w).
Definition call_ (f : W -> W) : G W () := fun g => Ok ((), on_os g (f (g_os g))).
Definition check {A} (r : res A) : G W A := fun g =>
  match r with Ok a => Ok (a, g) | Fault => Fault | NoFuel => NoFuel end.
Definition get_cfg : G W BootConfig := fun g => Ok (g_cfg g, g).
Definition put_cfg (c : BootConfig) : G W () := fun g => Ok ((), mkGlobals (g_os g) (g_log g) (g_bb g) (g_cache g) c).
Definition get_cache : G W BootMetaCache := fun g => Ok (g_cache g, g).
Definition put_cache (c : BootMetaCache) : G W () := fun g => Ok ((), mkGlobals (g_os g) (g_log g) (g_bb g) c (g_cfg g)).
Definition put_log (l : Com1Logger) : G W () := fun g => Ok ((), mkGlobals (g_os g) l (g_bb g) (g_cache g) (g_cfg g)).
Definition get_log : G W Com1Logger := fun g => Ok (g_log g, g).
Definition get_bb : G W BlackBoxRecorder := fun g => Ok (g_bb g, g).
Definition put_bb (b : BlackBoxRecorder) : G W () := fun g => Ok ((), mkGlobals (g_os g) (g_log g) b (g_cache g) (g_cfg g)).
End Lifts.

(** ** The logger *)

Definition PhaseTag (p : BootPhase) : string :=
  match p with
  | PXE_START => "PXE_START" | IPXE_START => "IPXE_START" | BOOTAGENT_START => "BOOTAGENT_START"
  | DHCP_DISCOVER => "DHCP_DISCOVER" | GRPC_REGISTER => "GRPC_REGISTER" | CHUNKSTREAM_DL => "CHUNKSTREAM_DL"
  | INTEGRITY_CHECK => "INTEGRITY_CHECK" | WINPE_START => "WINPE_START" | BOOTDIAG_RUN => "BOOTDIAG_RUN"
  end.
Definition FailTag (c : BootFailCode) : string :=
  match c with
  | FC_NONE => "NONE" | PXE_TIMEOUT => "PXE_TIMEOUT" | TFTP_FAIL => "TFTP_FAIL" | DHCP_FAIL => "DHCP_FAIL"
  | GRPC_FAIL => "METACENTER_FAIL" | IMGSRV_FAIL => "IMGSRV_FAIL" | CRC_FAIL => "BOOTMETA_CRC_FAIL"
  | SIGNATURE_FAIL => "WINLOAD_SIG_FAIL" | BOOTMETA_FAIL => "BOOTMETA_FAIL"
  end.

(** The string in the 512-byte buffer after the two [printf]s and the line end. *)
Definition log_line (tag : string) (text : list Z) : res (list Z) :=
  let head := zstr "[HDx:" ++ zstr tag ++ zstr "] " in
  let n := Z.of_nat (length head) in
  let* buf := snprintf (replicate 512 0) 0 512 head in
  let* buf := snprintf buf n (512 - n) text in
  let len := Z.of_nat (length (before_nul buf)) in
  let* buf := if len <? 510 then wr buf len (crlf ++ [0]) else Ok buf in
  Ok (before_nul buf).

Section Agent.
Context {W : Type} `{AgentOs W}.

Definition log_Initialize : G W () :=
  l ← get_log;
  if log_initialized l then mret () else
  open ← call a_com1_open;
  put_log (mkLogger open true).

Definition WriteRaw (str : list Z) : G W () :=
  l ← get_log;
  _ ← (if log_initialized l then mret () else log_Initialize);
  l ← get_log;
  if com1_open l then call_ (a_com1_write str) else mret ().

Definition log_Write (phase : BootPhase) (text : list Z) : G W () :=
  buf ← check (log_line (PhaseTag phase) text); WriteRaw buf.
Definition log_WriteFail (code : BootFailCode) (text : list Z) : G W () :=
  buf ← check (log_line (FailTag code) text); WriteRaw buf.
End Agent.

(** ** DHCP *)

Record DhcpOption : Type := mkOption { code : Z; length_ : Z; data : list Z }.

Definition DHCPDISCOVER : Z := 1.
Definition DHCPOFFER : Z := 2.
Definition DHCP_MAGIC : Z := 0x63825363.
Definition DHCP_PORT : Z := 67.
Definition DHCP_CLIENT_PORT : Z := 68.
Definition PACKET_SIZE : Z := 240.

(** The loop of [ParseOptions]; every turn moves the offset. *)
Fixpoint parse_loop (fuel : nat) (data : list Z) (len offset : Z) (options : list DhcpOption) : res (list DhcpOption) :=
  match fuel with
  | O => NoFuel
  | S k =>
      if offset + 2 <=? len then
        let* code := rd 1 data offset in
        let offset := offset + 1 in
        if code =? 0xFF then Ok options
        else if code =? 0 then parse_loop k data len offset options
        else
          let* length := rd 1 data offset in
          let offset := offset + 1 in
          if len <? offset + length then Ok options
          else
            let* bytes := rd_bytes data offset length in
            parse_loop k data len (offset + length) (options ++ [mkOption code length bytes])
      else Ok options
  end.
Definition ParseOptions (data : list Z) (len : Z) : res (list DhcpOption) :=
  parse_loop (S (Z.to_nat len)) data len 0 [].

(** [inet_ntop] of four bytes in network order. *)
Definition inet_ntop (b : list Z) : list Z :=
  match b with
  | b0 :: b1 :: b2 :: b3 :: _ => fmt_u b0 ++ zstr "." ++ fmt_u b1 ++ zstr "." ++ fmt_u b2 ++ zstr "." ++ fmt_u b3
  | _ => []
  end.

(** The packet the client broadcasts: the 240-byte header and the options. *)
Definition discover_packet (xid : Z) (mac : list Z) : list Z :=
  [DHCPDISCOVER; 1; 6; 0] ++ le_bytes 4 xid ++ [0; 0] ++ [0x80; 0] ++ replicate 16 0 ++ mac ++ replicate 10 0 ++
  replicate 64 0 ++ replicate 128 0 ++
  [Z.land (Z.shiftr DHCP_MAGIC 24) 0xFF; Z.land (Z.shiftr DHCP_MAGIC 16) 0xFF; Z.land (Z.shiftr DHCP_MAGIC 8) 0xFF;
   Z.land DHCP_MAGIC 0xFF].
Definition discover_options : list Z :=
  [53; 1; DHCPDISCOVER] ++ [12; 8] ++ take 8 (zstr "HYPERDISK") ++ [55; 4; 1; 3; 6; 60] ++ [255].

Section Discover.
Context {W : Type} `{AgentOs W}.

Definition recv_block (size off sock n : Z) : G W (list Z) := fun g =>
  match recv_at size off sock n (g_os g) with
  | Ok (bs, w) => Ok (bs, on_os g w)
  | Fault => Fault
  | NoFuel => NoFuel
  end.

(** The first Ethernet adapter with a six-byte address, else zeros. *)
Fixpoint first_ethernet (l : list Adapter) : res (list Z) :=
  match l with
  | [] => Ok (replicate 6 0)
  | a :: r => if (a_type a =? 6) && (a_mac_len a =? 6) then rd_bytes (a_mac a) 0 6 else first_ethernet r
  end.
Definition dhcp_GetMacAddress : G W (list Z) :=
  adapters ← call a_adapters;
  check (match adapters with Some l => first_ethernet l | None => Ok (replicate 6 0) end).

Definition dhcp_option (o : DhcpOption) : G W () :=
  if code o =? 54 then
    if 4 <=? length_ o then
      siaddr ← check (rd_bytes (data o) 0 4);
      let ip := inet_ntop siaddr in
      cfg ← get_cfg;
      let cfg := set_server cfg ip (server_port cfg) in
      _ ← put_cfg (if bool_decide (primary_server cfg = []) then set_primary cfg ip (primary_port cfg) else cfg);
      log_Write DHCP_DISCOVER (zstr "Server: " ++ ip)
    else mret ()
  else if code o =? 67 then
    cfg ← get_cfg;
    _ ← put_cfg (set_script cfg (data o));
    log_Write DHCP_DISCOVER (zstr "Boot file: " ++ before_nul (data o))
  else if code o =? 1 then
    if 4 <=? length_ o then
      ip ← check (rd_bytes (data o) 0 4); log_Write DHCP_DISCOVER (zstr "Netmask: " ++ inet_ntop ip)
    else mret ()
  else if code o =? 3 then
    if 4 <=? length_ o then
      ip ← check (rd_bytes (data o) 0 4); log_Write DHCP_DISCOVER (zstr "Gateway: " ++ inet_ntop ip)
    else mret ()
  else mret ().

Fixpoint dhcp_options (os : list DhcpOption) : G W () :=
  match os with
  | [] => mret ()
  | o :: r => _ ← dhcp_option o; dhcp_options r
  end.

(** Close the socket, leave Winsock and fail. *)
Definition dhcp_abort (sock : Z) : G W bool :=
  _ ← call_ (a_closesocket sock); _ ← call_ a_cleanup; mret false.

(** From the datagram received, the first [n] bytes of the buffer, to the
    answer. *)
Definition handle_reply (sock : Z) (cfg : BootConfig) (recv_buf : list Z) (n : Z) : G W bool :=
  if n <=? 0 then
    _ ← log_WriteFail DHCP_FAIL (zstr "No DHCP response (timeout " ++ fmt_d (dhcp_timeout_ms cfg) ++ zstr "ms)"); dhcp_abort sock
  else if n <? PACKET_SIZE then
    _ ← log_WriteFail DHCP_FAIL (zstr "Response too short: " ++ fmt_d n); dhcp_abort sock
  else
  op ← check (rd 1 recv_buf 0);
  if negb (op =? DHCPOFFER) then
    _ ← log_WriteFail DHCP_FAIL (zstr "Not a DHCPOFFER: op=" ++ fmt_d op); dhcp_abort sock
  else
  options ← check (ParseOptions (drop (Z.to_nat PACKET_SIZE) recv_buf) (n - PACKET_SIZE));
  _ ← dhcp_options options;
  yiaddr ← check (rd_bytes recv_buf 16 4);
  _ ← log_Write DHCP_DISCOVER (zstr "Offered IP: " ++ inet_ntop yiaddr);
  _ ← call_ (a_closesocket sock);
  _ ← call_ a_cleanup;
  cfg ← get_cfg;
  if negb (bool_decide (server_address cfg = [])) then
    _ ← log_Write DHCP_DISCOVER (zstr "OK - server=" ++ server_address cfg); mret true
  else
    _ ← log_WriteFail DHCP_FAIL (zstr "No server address in DHCPOFFER"); mret false.

Definition Discover : G W bool :=
  up ← call a_startup;
  if negb up then
    err ← call a_last_error;
    _ ← log_WriteFail DHCP_FAIL (zstr "WSAStartup failed: " ++ fmt_d err); mret false
  else
  sock ← call (a_socket SOCK_DGRAM);
  match sock with
  | None => _ ← log_WriteFail DHCP_FAIL (zstr "socket() failed"); _ ← call_ a_cleanup; mret false
  | Some sock =>
      cfg ← get_cfg;
      _ ← call_ (a_setopt sock 0x20 1);
      _ ← call_ (a_setopt sock 0x1006 (dhcp_timeout_ms cfg));
      bound ← call (a_bind sock DHCP_CLIENT_PORT);
      if negb bound then
        err ← call a_last_error;
        _ ← log_WriteFail DHCP_FAIL (zstr "bind() failed: " ++ fmt_d err); dhcp_abort sock
      else
      xid ← call a_entropy;
      mac ← dhcp_GetMacAddress;
      _ ← log_Write DHCP_DISCOVER (zstr "Sending DHCP DISCOVER (xid=0x" ++ fmt_X 8 xid ++ zstr ")");
      buf ← check (wr (replicate (Z.to_nat (PACKET_SIZE + 256)) 0) 0 (discover_packet xid mac));
      buf ← check (wr buf PACKET_SIZE discover_options);
      bytes ← check (rd_bytes buf 0 (PACKET_SIZE + Z.of_nat (length discover_options)));
      sent ← call (a_sendto sock bytes DHCP_PORT);
      if negb sent then
        err ← call a_last_error;
        _ ← log_WriteFail DHCP_FAIL (zstr "sendto() failed: " ++ fmt_d err); dhcp_abort sock
      else
      got ← recv_block 1500 0 sock 1500;
      let recv_buf := got ++ replicate (1500 - length got) 0 in
      handle_reply sock cfg recv_buf (Z.of_nat (length got))
  end.
End Discover.

(** ** Lemmas: computations of the agent

    [owed n s l l']: the machine lends, in [l], [n] Winsock references and the
    socket [s], if any, more than in [l']. [lends n s c]: from every sane state
    that owes [n] references and [s], [c] runs to its end without a [Fault],
    leaves a sane state, and has given back exactly these. *)

Definition box_ok (ring_size : Z) (b : BlackBoxRecorder) : Prop := initialized b = true -> exists es, rec_inv ring_size b es.

Record cfg_ok (c : BootConfig) : Prop := {
  ck_server : (length (server_address c) <= 1500)%nat;
  ck_boot : (length (boot_id c) <= 36)%nat;
  ck_machine : (length (machine_id c) <= 36)%nat;
  ck_mac : (length (mac_address c) <= 36)%nat;
}.

Record sane {W} (ring_size : Z) (g : Globals W) : Prop := {
  sn_meta : meta_wf (meta_ (g_cache g));
  sn_box : box_ok ring_size (g_bb g);
  sn_cfg : cfg_ok (g_cfg g);
}.

Definition owed (n : nat) (s : option Z) (l l' : Loan) : Prop :=
  on_wsa l = (n + on_wsa l')%nat /\
  match s with
  | Some s => s ∉ on_socks l' /\ on_socks l = {[s]} ∪ on_socks l'
  | None => on_socks l = on_socks l'
  end.

Lemma owed_none l l' : owed 0 None l l' -> l = l'.
Proof. destruct l, l'. unfold owed. cbn. by intros [-> ->]. Qed.

Lemma owed_refl l : owed 0 None l l.
Proof. done. Qed.

Lemma G_bind_unfold {W A B} (c : G W A) (k : A -> G W B) g :
  mbind k c g = match c g with Ok (a, g') => k a g' | Fault => Fault | NoFuel => NoFuel end.
Proof. done. Qed.

Lemma zstr_length s : length (zstr s) = String.length s.
Proof. induction s as [|c s IH]; [done|]. cbn. by rewrite IH. Qed.

(** The logger's lines fit its buffer, whatever the text. *)
Lemma log_line_ok tag text : (String.length tag <= 20)%nat -> exists s, log_line tag text = Ok s.
Proof.
  intros Ht. unfold log_line, snprintf. cbv zeta. set (head := zstr "[HDx:" ++ zstr tag ++ zstr "] ").
  assert (length head <= 27)%nat as Hh by (unfold head; rewrite !length_app, !zstr_length; cbn [String.length]; lia).
  assert (forall k (l : list Z), (length (take k l ++ [0%Z]) <= k + 1)%nat) as Hl by (intros; rewrite length_app, length_take; cbn; lia).
  destruct (wr (replicate 512 0) 0 _) as [b1| |] eqn:E1; cbn [res_bind].
  2, 3: rewrite wr_ok in E1 by (rewrite ?length_replicate; try lia; pose proof (Hl (Z.to_nat (512 - 1)) head); lia); discriminate E1.
  apply wr_length in E1. rewrite length_replicate in E1.
  destruct (wr b1 _ _) as [b2| |] eqn:E2; cbn [res_bind].
  2, 3: rewrite wr_ok in E2 by (try lia; pose proof (Hl (Z.to_nat (512 - Z.of_nat (length head) - 1)) text); lia); discriminate E2.
  apply wr_length in E2. destruct (Z.ltb_spec (Z.of_nat (length (before_nul b2))) 510); [|by eexists].
  rewrite wr_ok by (cbn [length app crlf]; lia). by eexists.
Qed.

Lemma write_line p t : exists s, log_line (PhaseTag p) t = Ok s.
Proof. apply log_line_ok. destruct p; cbn; lia. Qed.
Lemma fail_line c t : exists s, log_line (FailTag c) t = Ok s.
Proof. apply log_line_ok. destruct c; cbn; lia. Qed.

Section Lends.
Context (ring_size : Z) {W : Type} `{AgentLaws W}.

Definition lends {A} (n : nat) (s : option Z) (c : G W A) : Prop := forall (g : Globals W) L,
  sane ring_size g -> owed n s (loan (g_os g)) L ->
  exists a g', c g = Ok (a, g') /\ sane ring_size g' /\ loan (g_os g') = L.

Lemma sane_os (g : Globals W) w : sane ring_size g -> sane ring_size (on_os g w).
Proof. intros []. by split. Qed.

Lemma lends_ret {A} (a : A) : lends 0 None (mret a).
Proof. intros g L Hg Ho. exists a, g. by rewrite (owed_none _ _ Ho). Qed.

Lemma lends_seq {A B} n s (c : G W A) (k : A -> G W B) :
  lends 0 None c -> (forall a, lends n s (k a)) -> lends n s (mbind k c).
Proof.
  intros Hc Hk g L Hg Ho. rewrite G_bind_unfold. destruct (Hc g _ Hg (owed_refl _)) as (a & g1 & -> & H1 & L1).
  apply Hk; [done|]. by rewrite L1.
Qed.

(** A call, with what is known about its answer and what it lends or takes. *)
Lemma lends_call {A B} n s (f : W -> A * W) (k : A -> G W B) :
  (forall w L, owed n s (loan w) L -> exists n' s', owed n' s' (loan (f w).2) L /\ lends n' s' (k (f w).1)) ->
  lends n s (mbind k (call f)).
Proof.
  intros Hf g L Hg Ho. rewrite G_bind_unfold. unfold call. destruct (Hf (g_os g) L Ho) as (n' & s' & Ho' & Hk).
  destruct (f (g_os g)) as [a w]. cbn [fst snd] in *. by apply Hk; [apply sane_os|].
Qed.

Lemma lends_quiet {A B} n s (f : W -> A * W) (k : A -> G W B) :
  (forall w, loan (f w).2 = loan w) -> (forall a, lends n s (k a)) -> lends n s (mbind k (call f)).
Proof. intros Hf Hk. apply lends_call. intros w L Ho. exists n, s. by rewrite Hf. Qed.

Lemma lends_call_ {B} n s n' s' (f : W -> W) (k : () -> G W B) :
  (forall w L, owed n s (loan w) L -> owed n' s' (loan (f w)) L) -> lends n' s' (k ()) -> lends n s (mbind k (call_ f)).
Proof.
  intros Hf Hk g L Hg Ho. rewrite G_bind_unfold. unfold call_. apply Hk; [by apply sane_os|]. cbn [on_os g_os]. by apply Hf.
Qed.

Lemma lends_quiet_ {B} n s (f : W -> W) (k : () -> G W B) :
  (forall w, loan (f w) = loan w) -> lends n s (k ()) -> lends n s (mbind k (call_ f)).
Proof. intros Hf. apply lends_call_. intros w L. by rewrite Hf. Qed.

Lemma lends_check {A B} wsa socks (r : res A) a (k : A -> G W B) :
  r = Ok a -> lends wsa socks (k a) -> lends wsa socks (mbind k (check r)).
Proof. intros -> Hk g L Hg Ho. rewrite G_bind_unfold. cbn [check]. by apply Hk. Qed.

Lemma lends_cfg {B} wsa socks (k : BootConfig -> G W B) :
  (forall c, cfg_ok c -> lends wsa socks (k c)) -> lends wsa socks (mbind k get_cfg).
Proof. intros Hk g L Hg Ho. rewrite G_bind_unfold. cbn [get_cfg]. by apply Hk; [apply Hg|..]. Qed.

Lemma lends_put_cfg {B} wsa socks c (k : () -> G W B) :
  cfg_ok c -> lends wsa socks (k ()) -> lends wsa socks (mbind k (put_cfg c)).
Proof.
  intros Hc Hk g L Hg Ho. rewrite G_bind_unfold. cbn [put_cfg].
  apply (Hk (mkGlobals (g_os g) (g_log g) (g_bb g) (g_cache g) c)); [|done]. destruct Hg. by split.
Qed.

Lemma lends_cache {B} wsa socks (k : BootMetaCache -> G W B) :
  (forall c, meta_wf (meta_ c) -> lends wsa socks (k c)) -> lends wsa socks (mbind k get_cache).
Proof. intros Hk g L Hg Ho. rewrite G_bind_unfold. cbn [get_cache]. by apply Hk; [apply Hg|..]. Qed.

Lemma lends_bb {B} wsa socks (k : BlackBoxRecorder -> G W B) :
  (forall b, box_ok ring_size b -> lends wsa socks (k b)) -> lends wsa socks (mbind k get_bb).
Proof. intros Hk g L Hg Ho. rewrite G_bind_unfold. cbn [get_bb]. by apply Hk; [apply Hg|..]. Qed.

Lemma lends_put_bb {B} wsa socks b (k : () -> G W B) :
  box_ok ring_size b -> lends wsa socks (k ()) -> lends wsa socks (mbind k (put_bb b)).
Proof. intros Hb Hk g L Hg Ho. rewrite G_bind_unfold. cbn [put_bb].
  apply (Hk (mkGlobals (g_os g) (g_log g) b (g_cache g) (g_cfg g))); [|done]. destruct Hg. by split. Qed.

Lemma lends_put_cache {B} wsa socks c (k : () -> G W B) :
  meta_wf (meta_ c) -> lends wsa socks (k ()) -> lends wsa socks (mbind k (put_cache c)).
Proof. intros Hb Hk g L Hg Ho. rewrite G_bind_unfold. cbn [put_cache].
  apply (Hk (mkGlobals (g_os g) (g_log g) (g_bb g) c (g_cfg g))); [|done]. destruct Hg. by split. Qed.

Lemma lends_log {B} wsa socks (k : Com1Logger -> G W B) :
  (forall l, lends wsa socks (k l)) -> lends wsa socks (mbind k get_log).
Proof. intros Hk g L Hg Ho. rewrite G_bind_unfold. cbn [get_log]. by apply Hk. Qed.

Lemma lends_put_log l : lends 0 None (put_log l).
Proof. intros g L Hg Ho. eexists _, _. split; [reflexivity|]. split; [destruct Hg; by split|]. by apply owed_none. Qed.

Lemma lends_WriteRaw s : lends 0 None (WriteRaw s).
Proof.
  unfold WriteRaw. apply lends_log. intros l. apply lends_seq.
  - destruct (log_initialized l); [apply lends_ret|]. unfold log_Initialize. apply lends_log. intros l'.
    destruct (log_initialized l'); [apply lends_ret|]. apply lends_quiet; [apply l_com1_open|]. intros b. apply lends_put_log.
  - intros _. apply lends_log. intros l'. destruct (com1_open l'); [|apply lends_ret].
    intros g L Hg Ho. eexists _, _. split; [reflexivity|]. split; [by apply sane_os|]. cbn. rewrite l_com1_write. by apply owed_none.
Qed.

Lemma lends_Write p t : lends 0 None (log_Write p t).
Proof. destruct (write_line p t) as [s E]. unfold log_Write. eapply lends_check; [exact E|]. apply lends_WriteRaw. Qed.
Lemma lends_WriteFail c t : lends 0 None (log_WriteFail c t).
Proof. destruct (fail_line c t) as [s E]. unfold log_WriteFail. eapply lends_check; [exact E|]. apply lends_WriteRaw. Qed.
End Lends.

(** ** Lemmas: the options *)

Lemma rd_byte pre b r : rd 1 (pre ++ b :: r) (Z.of_nat (length pre)) = Ok b.
Proof. rewrite (rd_app pre [b] r : rd 1 (pre ++ b :: r) _ = _). cbn. f_equal. lia. Qed.

Record option_wf (o : DhcpOption) : Prop := {
  ow_code : 1 <= code o <= 254;
  ow_length : length_ o = Z.of_nat (length (data o));
  ow_short : (length (data o) < 256)%nat;
  ow_bytes : Forall is_byte (data o);
}.

(** Options on the wire, each after some padding. *)
Fixpoint wire (os : list (nat * DhcpOption)) : list Z :=
  match os with
  | [] => []
  | (pad, o) :: r => replicate pad 0 ++ code o :: length_ o :: data o ++ wire r
  end.

Section Parse.
Variables (all : list Z).

Lemma parse_pad pad fuel pre rest acc :
  all = pre ++ replicate pad 0 ++ rest -> (2 <= length rest)%nat ->
  parse_loop (pad + fuel) all (Z.of_nat (length all)) (Z.of_nat (length pre)) acc =
  parse_loop fuel all (Z.of_nat (length all)) (Z.of_nat (length (pre ++ replicate pad 0))) acc.
Proof.
  revert pre. induction pad as [|pad IH]; intros pre Hall Hr; [by rewrite app_nil_r|]. cbn [replicate app Nat.add parse_loop] in *.
  pose proof (f_equal length Hall) as Hl. rewrite length_app in Hl. cbn [length] in Hl. rewrite length_app, length_replicate in Hl.
  rewrite (proj2 (Z.leb_le _ _)) by lia. rewrite Hall at 1. rewrite rd_byte. cbn [res_bind Z.eqb].
  replace (Z.of_nat (length pre) + 1) with (Z.of_nat (length (pre ++ [0]))) by (rewrite length_app; cbn; lia).
  rewrite (IH (pre ++ [0])); [|by rewrite <- app_assoc|done]. by rewrite <- app_assoc.
Qed.

Lemma parse_wire os fuel pre rest acc :
  Forall (fun p => option_wf p.2) os -> all = pre ++ wire os ++ 255 :: rest -> (length (wire os) + 2 <= fuel)%nat ->
  parse_loop fuel all (Z.of_nat (length all)) (Z.of_nat (length pre)) acc = Ok (acc ++ os.*2).
Proof.
  intros Hos. revert fuel pre acc. induction Hos as [|[pad o] os [Hc Hlen Hs Hb] _ IH]; intros fuel pre acc Hall Hfuel.
  { cbn [wire app fmap list_fmap] in *. rewrite app_nil_r. destruct fuel as [|fuel]; [lia|]. cbn [parse_loop].
    destruct (Z.of_nat (length pre) + 2 <=? _); [|done]. rewrite Hall, rd_byte. done. }
  cbn [snd] in *. cbn [wire] in Hall, Hfuel. rewrite length_app, length_replicate in Hfuel. cbn [length] in Hfuel. rewrite length_app in Hfuel.
  set (pre2 := pre ++ replicate pad 0).
  assert (all = pre2 ++ code o :: length_ o :: data o ++ wire os ++ 255 :: rest) as Hall2.
  { unfold pre2. rewrite Hall, <- !app_assoc. do 2 f_equal. cbn. by rewrite <- app_assoc. }
  replace fuel with (pad + (fuel - pad))%nat by lia.
  rewrite (parse_pad pad _ pre (code o :: length_ o :: data o ++ wire os ++ 255 :: rest)); [|by unfold pre2 in Hall2; rewrite <- app_assoc in Hall2|cbn; lia].
  fold pre2. destruct (fuel - pad)%nat as [|k] eqn:Ek; [lia|]. cbn [parse_loop].
  pose proof (f_equal length Hall2) as Hl. rewrite length_app in Hl. cbn [length] in Hl. rewrite !length_app in Hl. cbn [length] in Hl.
  rewrite (proj2 (Z.leb_le _ _)) by lia. rewrite Hall2 at 1. rewrite rd_byte. cbn [res_bind].
  rewrite (proj2 (Z.eqb_neq _ 255)), (proj2 (Z.eqb_neq _ 0)) by lia.
  assert (all = (pre2 ++ [code o]) ++ length_ o :: data o ++ wire os ++ 255 :: rest) as Hall3 by (by rewrite <- app_assoc).
  replace (Z.of_nat (length pre2) + 1) with (Z.of_nat (length (pre2 ++ [code o]))) by (rewrite length_app; cbn; lia).
  rewrite Hall3 at 1. rewrite rd_byte. cbn [res_bind].
  assert (all = ((pre2 ++ [code o]) ++ [length_ o]) ++ data o ++ wire os ++ 255 :: rest) as Hall4 by (by rewrite <- !app_assoc).
  replace (Z.of_nat (length (pre2 ++ [code o])) + 1) with (Z.of_nat (length ((pre2 ++ [code o]) ++ [length_ o])))
    by (rewrite !length_app; cbn; lia).
  rewrite (proj2 (Z.ltb_ge _ _)) by (rewrite !length_app; cbn [length]; lia).
  rewrite Hlen at 2. rewrite Hall4 at 1. rewrite rd_bytes_app. cbn [res_bind].
  replace (Z.of_nat (length ((pre2 ++ [code o]) ++ [length_ o])) + length_ o)
    with (Z.of_nat (length (((pre2 ++ [code o]) ++ [length_ o]) ++ data o))) by (rewrite (length_app _ (data o)); lia).
  rewrite IH; [|by rewrite <- app_assoc|lia]. rewrite <- app_assoc. cbn. by destruct o.
Qed.

(** The loop reads nothing beyond the length it is given. *)
Lemma parse_ext extra fuel len offset acc :
  0 <= offset -> len <= Z.of_nat (length all) -> Forall is_byte all ->
  parse_loop fuel (all ++ extra) len offset acc = parse_loop fuel all len offset acc.
Proof.
  intros Ho Hl Hb. assert (forall off n, 0 <= off -> 0 <= n -> off + n <= len -> rd_bytes (all ++ extra) off n = rd_bytes all off n) as Hrd.
  { intros off n H1 H2 H3. rewrite !rd_bytes_ok by (rewrite ?length_app; lia). f_equal. rewrite drop_app_le by lia.
    rewrite take_app_le; [done|]. rewrite length_drop. lia. }
  revert offset acc Ho. induction fuel as [|fuel IH]; intros offset acc Ho; [done|]. cbn [parse_loop].
  destruct (Z.leb_spec (offset + 2) len); [|done]. unfold rd. rewrite !Hrd by lia. rewrite rd_bytes_ok by lia. cbn [res_bind].
  destruct (_ =? 255); [done|]. destruct (_ =? 0); [apply IH; lia|]. rewrite rd_bytes_ok by lia. cbn [res_bind].
  set (l := le_val _). assert (0 <= l) by (apply le_val_bound, Forall_sub; done).
  destruct (Z.ltb_spec len (offset + 1 + 1 + l)); [done|]. rewrite Hrd by lia. rewrite rd_bytes_ok by lia. cbn [res_bind]. apply IH. lia.
Qed.

(** Whatever the bytes, the loop ends inside them. *)
Lemma parse_safe fuel len offset acc :
  Forall is_byte all -> 0 <= offset -> offset <= len -> len <= Z.of_nat (length all) -> (Z.to_nat (len - offset) < fuel)%nat ->
  exists os, parse_loop fuel all len offset acc = Ok (acc ++ os) /\ Forall option_wf os.
Proof.
  intros Hb. revert offset acc. induction fuel as [|fuel IH]; intros offset acc Ho Hl Hlen Hf; [lia|]. cbn [parse_loop].
  destruct (Z.leb_spec (offset + 2) len); [|exists []; by rewrite app_nil_r].
  assert (forall o, 0 <= o -> o + 1 <= len -> exists b, rd 1 all o = Ok b /\ is_byte b) as Hrd.
  { intros o H1 H2. rewrite rd_ok by lia. eexists. split; [reflexivity|].
    pose proof (le_val_bound (take (Z.to_nat 1) (drop (Z.to_nat o) all)) (Forall_sub _ _ _ _ Hb)) as Hv.
    rewrite length_take, length_drop, Nat.min_l in Hv by lia. exact Hv. }
  destruct (Hrd offset) as (c & -> & Hc); [lia..|]. cbn [res_bind].
  destruct (Z.eqb_spec c 255); [exists []; by rewrite app_nil_r|]. destruct (Z.eqb_spec c 0); [apply IH; lia|].
  destruct (Hrd (offset + 1)) as (l & -> & Hlb); [lia..|]. cbn [res_bind]. unfold is_byte in *.
  destruct (Z.ltb_spec len (offset + 1 + 1 + l)); [exists []; by rewrite app_nil_r|].
  rewrite rd_bytes_ok by lia. cbn [res_bind]. set (bs := take _ _).
  assert (length bs = Z.to_nat l) as Hbl by (unfold bs; rewrite length_take, length_drop; lia).
  destruct (IH (offset + 1 + 1 + l) (acc ++ [mkOption c l bs])) as (os & -> & Hos); [lia..|].
  exists (mkOption c l bs :: os). rewrite <- app_assoc. split; [done|]. constructor; [|done].
  split; cbn; try lia. by apply Forall_sub.
Qed.
End Parse.

(** ** Lemmas: the client *)

Lemma digits_length base fuel z acc : (length (digits_of base fuel z acc) <= fuel + length acc)%nat.
Proof.
  revert z acc; induction fuel as [|fuel IH]; intros z acc; cbn [digits_of]; [lia|]. cbv zeta.
  destruct (z <? base); [cbn; lia|]. specialize (IH (z / base) ((if z mod base <? 10 then 48 + z mod base else 55 + z mod base) :: acc)).
  cbn [length] in IH. lia.
Qed.

Lemma fmt_u_length20 z : (length (fmt_u z) <= 20)%nat.
Proof. pose proof (digits_length 10 20 z []). cbn [length] in *. unfold fmt_u. lia. Qed.

Lemma ntop_length b : (length (inet_ntop b) <= 83)%nat.
Proof.
  unfold inet_ntop. destruct b as [|b0 [|b1 [|b2 [|b3 b]]]]; try (cbn; lia). rewrite !length_app.
  pose proof (fmt_u_length20 b0). pose proof (fmt_u_length20 b1). pose proof (fmt_u_length20 b2). pose proof (fmt_u_length20 b3).
  change (length (zstr ".")) with 1%nat. lia.
Qed.

Lemma fmt_u_nonempty z : fmt_u z <> [].
Proof.
  unfold fmt_u. change 20%nat with (S 19). generalize 19%nat. intros n. assert (forall fuel z acc, acc <> [] -> digits_of 10 fuel z acc <> []) as Hd.
  { induction fuel as [|fuel IH]; intros z' acc Ha; cbn [digits_of]; [done|]. cbv zeta. destruct (z' <? 10); [done|]. by apply IH. }
  cbn [digits_of]. cbv zeta. destruct (z <? 10); [done|]. by apply Hd.
Qed.

Lemma ntop_nonempty b : (4 <= length b)%nat -> inet_ntop b <> [].
Proof.
  intros Hl. destruct b as [|b0 [|b1 [|b2 [|b3 b]]]]; cbn in Hl; try lia. cbn [inet_ntop]. intros [E _]%app_eq_nil.
  by apply (fmt_u_nonempty b0).
Qed.

(** What the options do to the configuration. *)
Definition apply_option (c : BootConfig) (o : DhcpOption) : BootConfig :=
  if code o =? 54 then
    if 4 <=? length_ o then
      let c := set_server c (inet_ntop (data o)) (server_port c) in
      if bool_decide (primary_server c = []) then set_primary c (inet_ntop (data o)) (primary_port c) else c
    else c
  else if code o =? 67 then set_script c (data o)
  else c.

Section DiscoverLemmas.
Context (ring_size : Z) {W : Type} `{AgentLaws W}.

Lemma cfg_ok_server c b p : cfg_ok c -> cfg_ok (set_server c (inet_ntop b) p).
Proof. intros []. pose proof (ntop_length b). split; cbn; try done. lia. Qed.

Lemma lends_option o : option_wf o -> lends ring_size 0 None (dhcp_option (W:=W) o).
Proof.
  intros Ho. unfold dhcp_option.
  assert (forall B n s (k : list Z -> G W B), 4 <= length_ o -> (forall b, lends ring_size n s (k b)) ->
    lends ring_size n s (mbind k (check (rd_bytes (data o) 0 4)))) as Hrd.
  { intros B n s k Hlen Hk. rewrite (ow_length _ Ho) in Hlen. eapply lends_check; [apply rd_bytes_ok; lia|]. apply Hk. }
  destruct (code o =? 54).
  { destruct (Z.leb_spec 4 (length_ o)); [|apply lends_ret]. apply Hrd; [done|]. intros b. cbv zeta.
    apply lends_cfg. intros c Hc. apply lends_put_cfg; [|apply lends_Write].
    pose proof (cfg_ok_server c b (server_port c) Hc) as Hs. case_bool_decide; [|done]. destruct Hs. by split. }
  destruct (code o =? 67).
  { apply lends_cfg. intros c Hc. apply lends_put_cfg; [|apply lends_Write]. destruct Hc. by split. }
  destruct (code o =? 1); [|destruct (code o =? 3)]; try destruct (Z.leb_spec 4 (length_ o)); try apply lends_ret;
    (apply Hrd; [done|]; intros b; apply lends_Write).
Qed.

Lemma lends_options os : Forall option_wf os -> lends ring_size 0 None (dhcp_options (W:=W) os).
Proof.
  induction 1 as [|o os Ho Hos IH]; [apply lends_ret|]. cbn [dhcp_options]. apply lends_seq; [by apply lends_option|]. by intros _.
Qed.

Lemma lends_fail {B} n s c t (k : () -> G W B) :
  lends ring_size n s (k ()) -> lends ring_size n s (mbind k (log_WriteFail c t)).
Proof. intros Hk. apply lends_seq; [apply lends_WriteFail|]. by intros []. Qed.

Lemma lends_write {B} n s p t (k : () -> G W B) :
  lends ring_size n s (k ()) -> lends ring_size n s (mbind k (log_Write p t)).
Proof. intros Hk. apply lends_seq; [apply lends_Write|]. by intros []. Qed.

Lemma lends_startup {B} n s (k : bool -> G W B) :
  lends ring_size (S n) s (k true) -> lends ring_size n s (k false) ->
  lends ring_size n s (mbind k (call a_startup)).
Proof.
  intros Ht Hf. apply lends_call. intros w L [Ho1 Ho2]. rewrite l_startup. destruct (a_startup w).1; [exists (S n), s|by exists n, s].
  split; [|done]. split; [cbn; lia|]. exact Ho2.
Qed.

Lemma lends_socket {B} n t (k : option Z -> G W B) :
  (forall s, lends ring_size n (Some s) (k (Some s))) -> lends ring_size n None (k None) ->
  lends ring_size n None (mbind k (call (a_socket t))).
Proof.
  intros Hs Hn. apply lends_call. intros w L [Ho1 Ho2]. pose proof (l_socket t w) as Hl. destruct (a_socket t w).1 as [s|].
  - destruct Hl as [Hf ->]. exists n, (Some s). split; [|done]. split; [done|]. cbn. by rewrite Ho2 in *.
  - exists n, None. by rewrite Hl.
Qed.

Lemma lends_recv {B} n s size off sock m (k : list Z -> G W B) :
  0 <= off -> 0 <= m -> off + m <= size ->
  (forall b, Forall is_byte b -> Z.of_nat (length b) <= m -> lends ring_size n s (k b)) ->
  lends ring_size n s (mbind k (recv_block size off sock m)).
Proof.
  intros Hoff Hm Hsz Hk g L Hg Ho. rewrite G_bind_unfold. unfold recv_block.
  destruct (recv_at_ok size off sock m (g_os g) Hoff Hm Hsz) as (b & w & -> & _ & Hl & Hb & Hlen).
  apply Hk; [done|done|by apply sane_os|]. cbn [on_os g_os]. by rewrite Hl.
Qed.

Lemma lends_close {B} n s (k : () -> G W B) :
  lends ring_size n None (k ()) -> lends ring_size n (Some s) (mbind k (call_ (a_closesocket s))).
Proof.
  apply lends_call_. intros w L (Ho1 & Ho2 & Ho3). rewrite l_closesocket. split; [done|]. cbn. rewrite Ho3. set_solver.
Qed.

Lemma lends_cleanup {B} n s (k : () -> G W B) :
  lends ring_size n s (k ()) -> lends ring_size (S n) s (mbind k (call_ a_cleanup)).
Proof. apply lends_call_. intros w L [Ho1 Ho2]. rewrite l_cleanup. split; [cbn; by rewrite Ho1|done]. Qed.

(** The ends of the failing paths. *)
Lemma lends_abort sock : lends ring_size 1 (Some sock) (dhcp_abort (W:=W) sock).
Proof. unfold dhcp_abort. apply lends_close, lends_cleanup, lends_ret. Qed.

Lemma ethernet_read l : Forall (fun a => length (a_mac a) = 8%nat) l -> exists m, first_ethernet l = Ok m /\ length m = 6%nat.
Proof.
  induction 1 as [|a l Ha Hl IH]; [by eexists|]. cbn [first_ethernet]. destruct (_ && _); [|done].
  rewrite rd_bytes_ok by lia. eexists. split; [done|]. rewrite length_take, length_drop. lia.
Qed.

Lemma lends_mac {B} n s (k : list Z -> G W B) :
  (forall m, length m = 6%nat -> lends ring_size n s (k m)) -> lends ring_size n s (mbind k dhcp_GetMacAddress).
Proof.
  intros Hk g L Hg Ho. rewrite G_bind_unfold. unfold dhcp_GetMacAddress. rewrite G_bind_unfold. unfold call.
  pose proof (l_adapters (g_os g)) as Hl. pose proof (adapters_law (g_os g)) as Ha. destruct (a_adapters (g_os g)) as [o w]. cbn [fst snd] in *.
  assert (exists m, (match o with Some l => first_ethernet l | None => Ok (replicate 6 0) end) = Ok m /\ length m = 6%nat)
    as (m & -> & Hm) by (destruct o as [l|]; [by apply ethernet_read, Ha|by eexists]).
  cbn [check]. apply Hk; [done|by apply sane_os|]. cbn [on_os g_os]. by rewrite Hl.
Qed.
End DiscoverLemmas.

(** One step of a computation of the agent; leaves the branches. *)
Ltac lend_step :=
  match goal with
  | |- lends _ _ _ (mret _) => apply lends_ret
  | |- lends _ _ _ (mbind _ (log_Write _ _)) => apply lends_write
  | |- lends _ _ _ (mbind _ (log_WriteFail _ _)) => apply lends_fail
  | |- lends _ _ _ (mbind _ (call a_startup)) => apply lends_startup
  | |- lends _ _ _ (mbind _ (call (a_socket _))) => apply lends_socket; [intros ?|]
  | |- lends _ _ _ (mbind _ (call_ (a_closesocket _))) => apply lends_close
  | |- lends _ _ _ (mbind _ (call_ a_cleanup)) => apply lends_cleanup
  | |- lends _ _ _ (mbind _ (call_ (a_setopt _ _ _))) => apply lends_quiet_; [intros; apply l_setopt|]
  | |- lends _ _ _ (mbind _ (call (a_bind _ _))) => apply lends_quiet; [intros; apply l_bind|intros []]
  | |- lends _ _ _ (mbind _ (call (a_connect _ _ _))) => apply lends_quiet; [intros; apply l_connect|intros []]
  | |- lends _ _ _ (mbind _ (call (a_sendto _ _ _))) => apply lends_quiet; [intros; apply l_sendto|intros []]
  | |- lends _ _ _ (mbind _ (call (a_send _ _))) => apply lends_quiet; [intros; apply l_send|intros ?]
  | |- lends _ _ _ (mbind _ (call a_last_error)) => apply lends_quiet; [intros; apply l_last_error|intros ?]
  | |- lends _ _ _ (mbind _ (call a_entropy)) => apply lends_quiet; [intros; apply l_entropy|intros ?]
  | |- lends _ _ _ (mbind _ (call a_random)) => apply lends_quiet; [intros; apply l_random|intros ?]
  | |- lends _ _ _ (mbind _ (call a_clock)) => apply lends_quiet; [intros; apply l_clock|intros ?]
  | |- lends _ _ _ (mbind _ (call a_adapters)) => apply lends_quiet; [intros; apply l_adapters|intros ?]
  | |- lends _ _ _ (mbind _ dhcp_GetMacAddress) => apply lends_mac; intros ? ?
  | |- lends _ _ _ (mbind _ get_cfg) => apply lends_cfg; intros ? ?
  end; cbn [negb].

Lemma ParseOptions_safe b len : Forall is_byte b -> 0 <= len <= Z.of_nat (length b) ->
  exists os, ParseOptions b len = Ok os /\ Forall option_wf os.
Proof. intros Hb Hl. unfold ParseOptions. apply (parse_safe b _ _ 0 []); [done|lia..]. Qed.

Lemma lends_handle_reply ring_size {W} `{AgentLaws W} sock cfg b n :
  Forall is_byte b -> n <= Z.of_nat (length b) -> lends ring_size 1 (Some sock) (handle_reply (W:=W) sock cfg b n).
Proof.
  intros Hb Hn. unfold handle_reply.
  destruct (n <=? 0); [lend_step; apply lends_abort|].
  destruct (Z.ltb_spec n PACKET_SIZE) as [|Hp]; [lend_step; apply lends_abort|]. unfold PACKET_SIZE in *.
  eapply lends_check; [apply rd_ok; lia|]. destruct (negb _); [lend_step; apply lends_abort|].
  destruct (ParseOptions_safe (drop (Z.to_nat 240) b) (n - 240)) as (os & Eo & Hos); [by apply Forall_drop|rewrite length_drop; lia|].
  eapply lends_check; [exact Eo|].
  apply lends_seq; [by apply lends_options|]. intros _. eapply lends_check; [apply rd_bytes_ok; lia|].
  do 4 lend_step. destruct (negb _); by repeat lend_step.
Qed.

(** The packet sent fills the front of its buffer. *)
Lemma packet_length id mac : length mac = 6%nat -> length (discover_packet id mac) = 240%nat.
Proof. intros Hm. unfold discover_packet. rewrite !length_app, Hm, le_bytes_length, !length_replicate. reflexivity. Qed.

Lemma packet_sent id mac : length mac = 6%nat ->
  exists buf1 buf2, wr (replicate (Z.to_nat (PACKET_SIZE + 256)) 0) 0 (discover_packet id mac) = Ok buf1 /\
    wr buf1 PACKET_SIZE discover_options = Ok buf2 /\
    rd_bytes buf2 0 (PACKET_SIZE + Z.of_nat (length discover_options)) = Ok (discover_packet id mac ++ discover_options).
Proof.
  intros Hm. pose proof (packet_length id mac Hm) as Hp. assert (length discover_options = 20%nat) as Ho by done.
  pose proof (wr_fill [] (discover_packet id mac) 496) as H1. cbn [app length] in H1. rewrite Hp in H1.
  pose proof (wr_fill (discover_packet id mac) discover_options 256) as H2. rewrite Hp, Ho in H2.
  eexists _, _. split; [apply H1; lia|]. split; [apply H2; lia|]. unfold PACKET_SIZE. rewrite Ho.
  rewrite rd_bytes_ok by (rewrite ?length_app, ?length_replicate, ?Hp, ?Ho; lia). f_equal.
  rewrite drop_0. rewrite take_app_length'; [done|]. rewrite length_app, Hp, Ho. done.
Qed.

Lemma lends_Discover ring_size {W} `{AgentLaws W} : lends ring_size 0 None (Discover (W:=W)).
Proof.
  unfold Discover. lend_step; [|repeat lend_step]. lend_step; [|repeat lend_step].
  do 4 lend_step; [|do 2 lend_step; apply lends_abort].
  do 3 lend_step.
  match goal with |- context [discover_packet ?id ?mac] => destruct (packet_sent id mac ltac:(done)) as (b1 & b2 & E1 & E2 & E3) end.
  eapply lends_check; [exact E1|]. eapply lends_check; [exact E2|]. eapply lends_check; [exact E3|]. lend_step.
  2: { do 2 lend_step. apply lends_abort. }
  apply lends_recv; [lia..|]. intros b Hb Hl. cbv zeta. apply lends_handle_reply.
  - apply Forall_app. split; [done|]. apply Forall_replicate. by split; vm_compute.
  - rewrite length_app, length_replicate. lia.
Qed.

(** ** Properties *)

(** Options survive the wire: for every list of options with codes from 1
    to 254 and at most 255 bytes of data, with any padding between them, the
    parser gives back exactly that list, up to the end marker and whatever
    follows it. *)
Theorem dhcp_options_roundtrip os rest :
  Forall (fun p => option_wf p.2) os ->
  ParseOptions (wire os ++ 255 :: rest) (Z.of_nat (length (wire os ++ 255 :: rest))) = Ok os.*2.
Proof.
  intros Hos. unfold ParseOptions. rewrite Nat2Z.id.
  apply (parse_wire _ os _ [] rest []); [done|done|]. rewrite length_app. cbn [length]. lia.
Qed.

(** C31. DHCP discovery is safe against any answer: whatever bytes arrive and
    whichever call fails, the client ends, no read or write leaves the adapter's
    address, the 496-byte packet, the 1500-byte receive buffer or the data of an
    option, the socket it opened and its Winsock reference are given back on
    every path and nothing else is, and the state left is one in which the rest of
    the agent is safe. *)
Theorem dhcp_discover_safe {W} `{AgentLaws W} ring_size (g : Globals W) :
  sane ring_size g ->
  exists ok g', Discover g = Ok (ok, g') /\ sane ring_size g' /\ loan (g_os g') = loan (g_os g).
Proof.
  intros Hg. destruct (lends_Discover ring_size g _ Hg (owed_refl _)) as (ok & g' & E & Hg' & Hl). by exists ok, g'.
Qed.

(** ** What an accepted answer does *)

(** On the scripted machine a logged line changes neither the configuration nor
    what is still to be received. *)
Lemma sim_log p t (g : Globals SimAgent) :
  exists g', log_Write p t g = Ok ((), g') /\ g_cfg g' = g_cfg g /\ s_inbox (g_os g') = s_inbox (g_os g) /\ g_cache g' = g_cache g.
Proof.
  destruct (write_line p t) as [s E]. unfold log_Write. rewrite G_bind_unfold, E. cbn [check].
  unfold WriteRaw. rewrite G_bind_unfold. cbn [get_log]. rewrite G_bind_unfold.
  destruct (log_initialized (g_log g)) eqn:Hi.
  - cbn [mret G_ret]. rewrite G_bind_unfold. cbn [get_log]. destruct (com1_open (g_log g)); by eexists.
  - unfold log_Initialize. rewrite G_bind_unfold. cbn [get_log]. rewrite Hi. cbn. by eexists.
Qed.

Lemma ntop_take b : (4 <= length b)%nat -> inet_ntop (take 4 b) = inet_ntop b.
Proof. intros Hl. destruct b as [|b0 [|b1 [|b2 [|b3 b]]]]; cbn in Hl; try lia. done. Qed.

Lemma sim_option o (g : Globals SimAgent) : option_wf o ->
  exists g', dhcp_option o g = Ok ((), g') /\ g_cfg g' = apply_option (g_cfg g) o /\ s_inbox (g_os g') = s_inbox (g_os g).
Proof.
  intros Hw. unfold dhcp_option, apply_option.
  assert (4 <= length_ o -> rd_bytes (data o) 0 4 = Ok (take 4 (data o)) /\ inet_ntop (take 4 (data o)) = inet_ntop (data o)) as Hrd.
  { rewrite (ow_length _ Hw). intros Hl. split; [apply (rd_bytes_ok _ 0 4); lia|apply ntop_take; lia]. }
  assert (forall p t (g : Globals SimAgent) c, exists g', (_ ← put_cfg c; log_Write p t) g = Ok ((), g') /\ g_cfg g' = c /\
    s_inbox (g_os g') = s_inbox (g_os g)) as Hput.
  { intros p t g0 c. rewrite G_bind_unfold. cbn [put_cfg]. edestruct sim_log as (g' & E & H1 & H2 & _). exists g'. by rewrite E, H1, H2. }
  assert (forall p t, exists g', log_Write p t g = Ok ((), g') /\ g_cfg g' = g_cfg g /\ s_inbox (g_os g') = s_inbox (g_os g)) as Hlog.
  { intros p t. destruct (sim_log p t g) as (g' & E & H1 & H2 & _). by exists g'. }
  destruct (code o =? 54).
  { destruct (Z.leb_spec 4 (length_ o)) as [Hl|]; [|by exists g]. destruct (Hrd Hl) as [E1 E2].
    rewrite G_bind_unfold, E1. cbn [check]. rewrite E2, G_bind_unfold. cbn [get_cfg]. apply Hput. }
  destruct (code o =? 67). { rewrite G_bind_unfold. cbn [get_cfg]. apply Hput. }
  destruct (code o =? 1); [|destruct (code o =? 3)]; try (destruct (Z.leb_spec 4 (length_ o)) as [Hl|]; [destruct (Hrd Hl) as [E1 E2]|]);
    try (by exists g); rewrite G_bind_unfold, E1; cbn [check]; apply Hlog.
Qed.

Lemma sim_options os (g : Globals SimAgent) : Forall option_wf os ->
  exists g', dhcp_options os g = Ok ((), g') /\ g_cfg g' = foldl apply_option (g_cfg g) os /\ s_inbox (g_os g') = s_inbox (g_os g).
Proof.
  intros Hos. revert g; induction Hos as [|o os Ho Hos IH]; intros g; [by exists g|]. cbn [dhcp_options foldl]. rewrite G_bind_unfold.
  destruct (sim_option o g Ho) as (g1 & -> & H1 & H2). destruct (IH g1) as (g2 & -> & H3 & H4). exists g2. rewrite H3, H4, H1, H2. done.
Qed.

(** The server address is known once some option named one. *)
Lemma apply_server os c o :
  Forall option_wf os -> server_address c <> [] \/ (o ∈ os /\ code o = 54 /\ (4 <= length (data o))%nat) ->
  server_address (foldl apply_option c os) <> [].
Proof.
  intros Hos. revert c. induction Hos as [|o' os Hw Hos IH]; intros c Hc; [destruct Hc as [|[[]%elem_of_nil _]]; done|]. cbn [foldl]. apply IH.
  assert (server_address c <> [] -> server_address (apply_option c o') <> []) as Hkeep.
  { intros Hne. unfold apply_option. destruct (code o' =? 54); [|by destruct (code o' =? 67)].
    destruct (Z.leb_spec 4 (length_ o')); [|done]. rewrite (ow_length _ Hw) in *.
    cbv zeta. destruct (bool_decide _); cbn; by apply ntop_nonempty; lia. }
  destruct Hc as [Hc|([->|Hin]%elem_of_cons & H54 & H4)]; [left; by apply Hkeep| |right; done].
  left. unfold apply_option. rewrite H54, Z.eqb_refl, (ow_length _ Hw), (proj2 (Z.leb_le _ _)) by lia. cbv zeta.
  destruct (bool_decide _); cbn; by apply ntop_nonempty.
Qed.

Lemma sim_reply sock cfg h tail extra os (g : Globals SimAgent) o :
  length h = 239%nat -> Forall is_byte tail -> ParseOptions tail (Z.of_nat (length tail)) = Ok os -> Forall option_wf os ->
  o ∈ os -> code o = 54 -> (4 <= length (data o))%nat ->
  exists g', handle_reply sock cfg ((2 :: h ++ tail) ++ extra) (Z.of_nat (length (2 :: h ++ tail))) g = Ok (true, g') /\
    g_cfg g' = foldl apply_option (g_cfg g) os.
Proof.
  intros Hh Hb Hp Hw Ho Hc Hd. set (reply := 2 :: h ++ tail).
  assert (length reply = 240 + length tail)%nat as Hlen by (unfold reply; cbn [length]; rewrite length_app; lia).
  assert (drop (Z.to_nat PACKET_SIZE) (reply ++ extra) = tail ++ extra) as Hdrop.
  { change (Z.to_nat PACKET_SIZE) with (S 239). unfold reply. cbn [drop app]. rewrite <- app_assoc. by rewrite drop_app_length'. }
  unfold handle_reply. unfold PACKET_SIZE in *.
  rewrite (proj2 (Z.leb_gt _ _)), (proj2 (Z.ltb_ge _ _)) by lia. rewrite G_bind_unfold.
  rewrite (rd_ok 1 (reply ++ extra) 0) by (rewrite ?length_app; lia). cbn [check].
  change (le_val (take (Z.to_nat 1) (drop (Z.to_nat 0) (reply ++ extra)))) with 2.
  cbn [Z.eqb DHCPOFFER Pos.eqb negb]. rewrite G_bind_unfold, Hdrop.
  replace (Z.of_nat (length reply) - 240) with (Z.of_nat (length tail)) by lia.
  unfold ParseOptions in Hp |- *. rewrite parse_ext, Hp by (done || lia). cbn [check].
  rewrite G_bind_unfold. destruct (sim_options os g Hw) as (g1 & -> & C1 & _). rewrite G_bind_unfold.
  rewrite rd_bytes_ok by (rewrite ?length_app; lia). cbn [check]. rewrite G_bind_unfold.
  match goal with |- context [log_Write ?p ?t g1] => destruct (sim_log p t g1) as (g2 & -> & C2 & _) end.
  rewrite !G_bind_unfold. cbn [call_]. rewrite G_bind_unfold. cbn [call_]. rewrite G_bind_unfold. cbn [get_cfg on_os g_cfg].
  rewrite C2, C1. rewrite bool_decide_eq_false_2 by (apply (apply_server os _ o); [done|by right]). cbn [negb].
  rewrite G_bind_unfold.
  match goal with |- context [log_Write ?p ?t ?x] => destruct (sim_log p t x) as (g3 & -> & C3 & _) end.
  exists g3. split; [done|]. rewrite C3. cbn. by rewrite C2.
Qed.

(** Any BOOTP reply is taken for an offer: on a machine whose network calls
    succeed, a datagram whose first byte is 2 and whose options name a server is
    accepted and its options are applied in order, whatever the rest of the
    240-byte header holds: the transaction number, the magic cookie and the
    message type option are not looked at. *)
Theorem dhcp_accepts_any_reply (g : Globals SimAgent) h os rest o :
  let reply := 2 :: h ++ wire os ++ 255 :: rest in
  length h = 239%nat -> Forall is_byte reply -> (length reply <= 1500)%nat -> Forall (fun p => option_wf p.2) os ->
  s_inbox (g_os g) = [reply] -> o ∈ os.*2 -> code o = 54 -> (4 <= length (data o))%nat ->
  exists g', Discover g = Ok (true, g') /\ g_cfg g' = foldl apply_option (g_cfg g) os.*2.
Proof.
  intros reply Hh Hb Hl Hos Hin Ho Hc Hd.
  assert (Forall option_wf os.*2) as Hw by (apply Forall_fmap; done).
  assert (ParseOptions (wire os ++ 255 :: rest) (Z.of_nat (length (wire os ++ 255 :: rest))) = Ok os.*2) as Hp.
  { unfold ParseOptions. rewrite Nat2Z.id. apply (parse_wire _ os _ [] rest []); [done|done|]. rewrite length_app. cbn [length]. lia. }
  unfold Discover. rewrite G_bind_unfold. cbn [call a_startup SimAgent_os negb].
  rewrite G_bind_unfold. cbn [call a_socket SimAgent_os].
  rewrite G_bind_unfold. cbn [get_cfg]. rewrite G_bind_unfold. cbn [call_ a_setopt SimAgent_os].
  rewrite G_bind_unfold. cbn [call_ a_setopt SimAgent_os]. rewrite G_bind_unfold. cbn [call a_bind SimAgent_os negb].
  rewrite G_bind_unfold. cbn [call a_entropy SimAgent_os]. rewrite G_bind_unfold. unfold dhcp_GetMacAddress.
  rewrite G_bind_unfold. cbn [call a_adapters SimAgent_os]. unfold check at 1. cbn [first_ethernet a_type a_mac_len Z.eqb Pos.eqb andb a_mac].
  change (rd_bytes [1; 2; 3; 4; 5; 6; 0; 0] 0 6) with (Ok [1; 2; 3; 4; 5; 6]). cbv iota. rewrite G_bind_unfold.
  match goal with |- context [log_Write ?p ?t ?x] => destruct (sim_log p t x) as (g1 & -> & C1 & I1 & _) end.
  destruct (packet_sent 42 [1; 2; 3; 4; 5; 6] eq_refl) as (b1 & b2 & E1 & E2 & E3).
  rewrite G_bind_unfold, E1. cbn [check]. rewrite G_bind_unfold, E2. cbn [check]. rewrite G_bind_unfold, E3. cbn [check].
  rewrite G_bind_unfold. cbn [call a_sendto SimAgent_os negb]. rewrite G_bind_unfold. unfold recv_block, recv_at.
  cbn [a_recv SimAgent_os]. unfold sim_recv. cbn [g_os on_os sim_send s_inbox]. rewrite I1. cbn [g_os on_os sim_loan s_inbox]. rewrite Hin.
  rewrite take_ge, as_byte_id by (done || lia).
  rewrite (proj2 (Z.leb_le _ 1500)) by lia. cbn [Z.leb Z.compare andb]. cbv zeta.
  match goal with |- context [handle_reply ?s ?c (_ ++ ?e) _ ?x] =>
    destruct (sim_reply s c h (wire os ++ 255 :: rest) e os.*2 x o Hh (proj2 (proj1 (Forall_app _ _ _) (proj2 (proj1 (Forall_cons _ _ _) Hb))))
      Hp Hw Ho Hc Hd) as (g' & E & C) end.
  exists g'. split; [exact E|]. rewrite C. cbn [g_cfg on_os]. by rewrite C1.
Qed.

(** ** Witnesses *)

Definition server_option : DhcpOption := mkOption 54 4 [10; 0; 0; 1].
Definition nak_option : DhcpOption := mkOption 53 1 [6].
Lemma sample_options_wf : Forall (fun p : nat * DhcpOption => option_wf p.2) [(0%nat, nak_option); (2%nat, server_option)].
Proof. repeat constructor; cbn; try lia; by apply bytesb_ok. Qed.

Definition start_globals (w : SimAgent) : Globals SimAgent :=
  mkGlobals w (mkLogger false false) recorder_start cache_start BootConfig_default.

Lemma start_sane w : sane 110 (start_globals w).
Proof. split; [apply zero_meta_wf|by intros [=]|split; cbn; lia]. Qed.

Lemma dhcp_options_roundtrip_witness :
  ParseOptions [53; 1; 6; 0; 0; 54; 4; 10; 0; 0; 1; 255; 9] 13 = Ok [nak_option; server_option].
Proof. exact (dhcp_options_roundtrip [(0%nat, nak_option); (2%nat, server_option)] [9] sample_options_wf). Defined.

Lemma dhcp_discover_safe_witness :
  exists ok g', Discover (start_globals sim_box) = Ok (ok, g') /\ loan (g_os g') = loan sim_box.
Proof.
  destruct (dhcp_discover_safe 110 (start_globals sim_box) (start_sane _)) as (ok & g' & E & _ & Hl).
  exists ok, g'. split; [exact E|exact Hl].
Defined.

(** A refusal (message type 6) with a foreign transaction number and no cookie. *)
Definition foreign_nak : list Z := 2 :: replicate 239 0 ++ wire [(0%nat, nak_option); (2%nat, server_option)] ++ 255 :: [].
Definition sim_nak : SimAgent := mkSimAgent (mkLoan 0 ∅) ∅ 5000000 (fun _ _ => true) [foreign_nak] [] [].

Lemma dhcp_accepts_any_reply_witness :
  exists g', Discover (start_globals sim_nak) = Ok (true, g') /\ server_address (g_cfg g') = zstr "10.0.0.1".
Proof.
  destruct (dhcp_accepts_any_reply (start_globals sim_nak) (replicate 239 0) [(0%nat, nak_option); (2%nat, server_option)] [] server_option)
    as (g' & E & C).
  - reflexivity.
  - by apply bytesb_ok.
  - vm_compute. lia.
  - apply sample_options_wf.
  - reflexivity.
  - right. left.
  - reflexivity.
  - cbn. lia.
  - exists g'. split; [exact E|]. by rewrite C.
Defined.
