(* ===== verification/DhcpPacket.v ===== *)
(** * The DHCP packet (struct DhcpPacket of
    src/client/boot_agent/dhcp_client.cpp)

    Dhcp.v builds the broadcast packet and reads the answer by offset. Here is
    the packed structure the source declares, the packet as the source fills it
    in field by field, and that the offsets are those of its fields. *)

From S2P Require Import Prelude Nt BootEnv Packed AgentEnv BootMeta BlackBox Dhcp.

Record DhcpPacket : Type := mkPacket {
  op : Z; htype : Z; hlen : Z; hops : Z; xid : Z; secs : Z; flags : Z;
  ciaddr : Z; yiaddr : Z; siaddr : Z; giaddr : Z;
  chaddr : list Z; sname : list Z; file : list Z; magic : list Z;
}.

Record packet_wf (p : DhcpPacket) : Prop := {
  pw_op : int_ok 1 (op p); pw_htype : int_ok 1 (htype p); pw_hlen : int_ok 1 (hlen p); pw_hops : int_ok 1 (hops p);
  pw_xid : int_ok 4 (xid p); pw_secs : int_ok 2 (secs p); pw_flags : int_ok 2 (flags p);
  pw_ciaddr : int_ok 4 (ciaddr p); pw_yiaddr : int_ok 4 (yiaddr p); pw_siaddr : int_ok 4 (siaddr p);
  pw_giaddr : int_ok 4 (giaddr p);
  pw_chaddr : arr_ok 16 (chaddr p); pw_sname : arr_ok 64 (sname p); pw_file : arr_ok 128 (file p); pw_magic : arr_ok 4 (magic p);
}.

Definition zero_packet : DhcpPacket :=
  mkPacket 0 0 0 0 0 0 0 0 0 0 0 (replicate 16 0) (replicate 64 0) (replicate 128 0) (replicate 4 0).

#[export, refine] Instance DhcpPacket_packed : Packed DhcpPacket := {
  p_sizes := [1; 1; 1; 1; 4; 2; 2; 4; 4; 4; 4; 16; 64; 128; 4]%nat;
  p_fields p := [le_bytes 1 (op p); le_bytes 1 (htype p); le_bytes 1 (hlen p); le_bytes 1 (hops p); le_bytes 4 (xid p);
    le_bytes 2 (secs p); le_bytes 2 (flags p); le_bytes 4 (ciaddr p); le_bytes 4 (yiaddr p); le_bytes 4 (siaddr p);
    le_bytes 4 (giaddr p); chaddr p; sname p; file p; magic p];
  p_make fs := match fs with
    | [a; b; c; d; e; f; g; h; i; j; k; l; m; n; o] =>
        mkPacket (le_val a) (le_val b) (le_val c) (le_val d) (le_val e) (le_val f) (le_val g) (le_val h) (le_val i)
          (le_val j) (le_val k) l m n o
    | _ => zero_packet end;
  p_wf := packet_wf;
}.
Proof. packed_ok. packed_read. packed_make. Defined.

(** [htons] on a little-endian machine. *)
Definition htons (z : Z) : Z := Z.lor (Z.shiftr z 8) (Z.shiftl (Z.land z 0xFF) 8).

(** The packet as [Discover] fills it in, from zeros. *)
Definition discover (id : Z) (mac : list Z) : DhcpPacket :=
  mkPacket DHCPDISCOVER 1 6 0 id 0 (htons 0x8000) 0 0 0 0 (mac ++ replicate 10 0) (replicate 64 0) (replicate 128 0)
    [Z.land (Z.shiftr DHCP_MAGIC 24) 0xFF; Z.land (Z.shiftr DHCP_MAGIC 16) 0xFF; Z.land (Z.shiftr DHCP_MAGIC 8) 0xFF;
     Z.land DHCP_MAGIC 0xFF].

(** ** Properties *)

(** The packet is its declaration: the bytes broadcast are the structure with
    the fields the source assigns, 240 of them; in a packet received, the byte
    examined first is the field [op] and the four bytes shown as the offered
    address are [yiaddr]; and the client's own broadcast, which other clients
    receive, is never taken for an offer. *)
Theorem dhcp_packet_layout id mac :
  length mac = 6%nat ->
  bytes_of (discover id mac) = discover_packet id mac /\ length (discover_packet id mac) = Z.to_nat PACKET_SIZE /\
  (forall buf, Forall is_byte buf -> PACKET_SIZE <= Z.of_nat (length buf) ->
     rd 1 buf 0 = Ok (op (of_bytes buf)) /\
     exists a, rd_bytes buf 16 4 = Ok a /\ le_val a = yiaddr (of_bytes buf)) /\
  op (discover id mac) <> DHCPOFFER.
Proof.
  intros Hm. split_and!; [| | |done].
  - unfold bytes_of, discover_packet. cbn -[le_bytes replicate]. rewrite <- !app_assoc. reflexivity.
  - unfold discover_packet. rewrite !length_app, Hm, le_bytes_length, !length_replicate. reflexivity.
  - intros buf Hb Hl. unfold PACKET_SIZE in Hl. split.
    + rewrite rd_ok by lia. reflexivity.
    + eexists. split; [apply rd_bytes_ok; lia|]. unfold of_bytes. cbn -[le_val drop take]. by rewrite !drop_drop.
Qed.

(** The options the client sends are read back, by its own reader, as the
    message type, the name and the list of what it asks for. *)
Example discover_options_read :
  ParseOptions discover_options (Z.of_nat (length discover_options)) =
    Ok [mkOption 53 1 [1]; mkOption 12 8 (zstr "HYPERDIS"); mkOption 55 4 [1; 3; 6; 60]].
Proof. by vm_compute. Qed.

Lemma dhcp_packet_layout_witness : length (discover_packet 77 [2; 0; 0; 0; 0; 1]) = 240%nat.
Proof. exact (proj1 (proj2 (dhcp_packet_layout 77 [2; 0; 0; 0; 0; 1] eq_refl))). Defined.
