(* ===== verification/BootAgent.v ===== *)
(** * The boot agent's program (src/client/boot_agent/main.cpp)

    The boot sequence: identify the machine, discover the server, register,
    fetch the metadata, verify it, hand over; with telemetry over HTTP and the
    black box on the way. [ring_size] is the size of the black box. *)

From S2P Require Import Prelude BootEnv Text Packed AgentEnv BootMeta BlackBox Dhcp.
#[local] Open Scope Z_scope.

(** ** Paths and answers *)

(** The part of a path up to its last separator, all of it when there is none. *)
Definition dir_of (p : list Z) : list Z :=
  match last_sep p 0 None with Some i => take (S i) p | None => p end.

(** The search for the empty line: the offset of what follows it. [buf] is the
    part of the buffer that was received, [total] bytes; the bytes after it are
    not initialised. *)
Fixpoint find_body (fuel : nat) (buf : list Z) (total i : Z) : res (option Z) :=
  match fuel with
  | O => NoFuel
  | S k =>
      if i <? total - 3 then
        let* b := rd_bytes buf i 4 in
        if bool_decide (b = [13; 10; 13; 10]) then Ok (Some (i + 4)) else find_body k buf total (i + 1)
      else Ok None
  end.

Section BootAgent.
Context (ring_size : Z) {W : Type} `{AgentOs W}.

(** ** Identity *)

Definition uuid_words (random : option (list Z)) (now : Z) : list Z :=
  match random with
  | Some d => d
  | None => [u32 (Z.land now 0xFFFFFFFF); u32 (Z.shiftr now 32); u32 (Z.shiftr now 16); u32 (Z.shiftr now 48)]
  end.
Definition uuid_text (d : list Z) : list Z :=
  let d0 := Z.lor (Z.land (d !!! 0%nat) 0xFFFF0FFF) 0x00004000 in
  let d1 := Z.lor (Z.land (d !!! 1%nat) 0x0FFFFFFF) 0x80000000 in
  let d2 := d !!! 2%nat in
  take 36 (fmt_x 8 d0 ++ zstr "-" ++ fmt_x 4 (Z.shiftr d1 16) ++ zstr "-" ++ fmt_x 4 (Z.land d1 0xFFFF) ++ zstr "-" ++
           fmt_x 4 (Z.shiftr d2 16) ++ zstr "-" ++ fmt_x 4 (Z.land d2 0xFFFF) ++ fmt_x 8 (d !!! 3%nat)).
Definition GenerateUUID : G W (list Z) :=
  random ← call a_random;
  match random with
  | Some _ => mret (uuid_text (uuid_words random 0))
  | None => now ← call a_clock; mret (uuid_text (uuid_words None now))
  end.

Definition GenerateBootId : G W () :=
  id ← GenerateUUID;
  cfg ← get_cfg;
  _ ← put_cfg (set_ids cfg id (machine_id cfg) (mac_address cfg));
  _ ← (if negb (bool_decide (mac_address cfg = [])) then put_cfg (set_ids cfg id (mac_address cfg) (mac_address cfg))
       else machine ← GenerateUUID;
            _ ← put_cfg (set_ids cfg id machine (mac_address cfg));
            log_Write BOOTAGENT_START (zstr "WARN: MAC unavailable, machine_id is random"));
  cfg ← get_cfg;
  log_Write BOOTAGENT_START (zstr "boot_id=" ++ boot_id cfg ++ zstr " machine_id=" ++ machine_id cfg).

Definition mac_text (m : list Z) : list Z :=
  take 17 (fmt_X 2 (m !!! 0%nat) ++ zstr ":" ++ fmt_X 2 (m !!! 1%nat) ++ zstr ":" ++ fmt_X 2 (m !!! 2%nat) ++ zstr ":" ++
           fmt_X 2 (m !!! 3%nat) ++ zstr ":" ++ fmt_X 2 (m !!! 4%nat) ++ zstr ":" ++ fmt_X 2 (m !!! 5%nat)).
Fixpoint first_nic (l : list Adapter) : option Adapter :=
  match l with
  | [] => None
  | a :: r => if (a_mac_len a =? 6) && ((a_type a =? 6) || (a_type a =? 71)) then Some a else first_nic r
  end.
(** [a_adapters] covers the size query, the allocation and the listing. *)
Definition GetMacAddress : G W () :=
  adapters ← call a_adapters;
  match first_nic (default [] adapters) with
  | Some a =>
      address ← check (rd_bytes (a_mac a) 0 6);
      let mac := mac_text address in
      cfg ← get_cfg;
      _ ← put_cfg (set_ids cfg (boot_id cfg) (machine_id cfg) mac);
      log_Write BOOTAGENT_START (zstr "MAC=" ++ mac ++ zstr " iface=" ++ a_name a)
  | None => mret ()
  end.

(** ** Telemetry *)

Definition q (s : string) : list Z := zstr s.
Definition dq : list Z := [34].
Definition json_pair (key : string) (val : list Z) : list Z := dq ++ q key ++ dq ++ q ":" ++ dq ++ val ++ dq.
Definition json_text (cfg : BootConfig) (phase result : string) (duration_ms : Z) : list Z :=
  q "{" ++ json_pair "boot_id" (boot_id cfg) ++ q "," ++ json_pair "machine_id" (machine_id cfg) ++ q "," ++
  json_pair "mac" (mac_address cfg) ++ q "," ++ json_pair "phase" (q phase) ++ q "," ++
  dq ++ q "duration_ms" ++ dq ++ q ":" ++ fmt_u duration_ms ++ q "," ++ json_pair "result" (q result) ++ q "}".
Definition request_text (cfg : BootConfig) (json : list Z) (json_len : Z) : list Z :=
  q "POST /api/v1/boot/report HTTP/1.1" ++ crlf ++ q "Host: " ++ server_address cfg ++ q ":" ++ fmt_d (server_port cfg) ++ crlf ++
  q "Content-Type: application/json" ++ crlf ++ q "Content-Length: " ++ fmt_d json_len ++ crlf ++
  q "Connection: close" ++ crlf ++ crlf ++ json.

(** [snprintf] gives the full length; the buffer keeps what fits, and [send]
    reads as many bytes as the length says. *)
Definition ReportTelemetry (phase result : string) (duration_ms : Z) : G W Z :=
  cfg ← get_cfg;
  if bool_decide (server_address cfg = []) || bool_decide (boot_id cfg = []) then mret (-1) else
  up ← call a_startup;
  if negb up then mret (-1) else
  sock ← call (a_socket SOCK_STREAM);
  match sock with
  | None => _ ← call_ a_cleanup; mret (-1)
  | Some sock =>
      let addr := default [0; 0; 0; 0] (inet_pton (server_address cfg)) in
      _ ← call_ (a_setopt sock 0x1006 3000);
      _ ← call_ (a_setopt sock 0x1005 3000);
      connected ← call (a_connect sock addr (server_port cfg));
      if negb connected then _ ← call_ (a_closesocket sock); _ ← call_ a_cleanup; mret (-1) else
      let json := json_text cfg phase result duration_ms in
      let json_len := Z.of_nat (length json) in
      json_buf ← check (snprintf (replicate 1024 0) 0 1024 json);
      let req := request_text cfg (before_nul json_buf) json_len in
      let req_len := Z.of_nat (length req) in
      http_req ← check (snprintf (replicate 2048 0) 0 2048 req);
      bytes ← check (rd_bytes http_req 0 req_len);
      _ ← call (a_send sock bytes);
      _ ← recv_block 512 0 sock 512;
      _ ← call_ (a_closesocket sock);
      _ ← call_ a_cleanup;
      mret 0
  end.

(** ** The black box *)

Definition bb_phase_of (phase : BootPhase) : BbPhase :=
  match phase with
  | PXE_START => PXE
  | IPXE_START => IPXE
  | WINPE_START => WINPE
  | BOOTDIAG_RUN => BOOTDIAG
  | BOOTAGENT_START | DHCP_DISCOVER | GRPC_REGISTER | CHUNKSTREAM_DL | INTEGRITY_CHECK => BOOTAGENT
  end.
Definition RecordBbPhase (phase : BootPhase) (success : bool) (latency_us : Z) : G W () :=
  fun g => match Record_ ring_size (bb_phase_of phase) 0 0 0 (if success then SUCCESS else FAIL) latency_us (g_bb g) (g_os g) with
           | Ok (b, w) => Ok ((), mkGlobals w (g_log g) b (g_cache g) (g_cfg g))
           | Fault => Fault
           | NoFuel => NoFuel
           end.
Definition bb_Initialize : G W () := fun g =>
  let '(_, b, w) := Initialize ring_size (g_bb g) (g_os g) in Ok ((), mkGlobals w (g_log g) b (g_cache g) (g_cfg g)).
Definition bb_Flush (path : list Z) : G W bool := fun g =>
  match FlushToDisk path (g_bb g) (g_os g) with
  | Ok (ok, w) => Ok (ok, on_os g w)
  | Fault => Fault
  | NoFuel => NoFuel
  end.

(** ** The steps *)

Definition DiscoverServer : G W Z :=
  _ ← log_Write DHCP_DISCOVER (q "Discovering boot server via DHCP");
  ok ← Discover;
  mret (if ok : bool then 0 else -1).

Definition RegisterTerminal : G W Z :=
  cfg ← get_cfg;
  let address := meta_server_address cfg ++ q ":" ++ fmt_d (meta_server_port cfg) in
  _ ← log_Write GRPC_REGISTER (q "Registering terminal at " ++ address);
  up ← call a_startup;
  if negb up then _ ← log_WriteFail GRPC_FAIL (q "WSAStartup failed"); mret (-1) else
  sock ← call (a_socket SOCK_STREAM);
  match sock with
  | None => _ ← log_WriteFail GRPC_FAIL (q "socket() failed"); _ ← call_ a_cleanup; mret (-1)
  | Some sock =>
      let addr := default [0; 0; 0; 0] (inet_pton (meta_server_address cfg)) in
      _ ← call_ (a_setopt sock 0x1006 (grpc_timeout_ms cfg));
      _ ← call_ (a_setopt sock 0x1005 (grpc_timeout_ms cfg));
      connected ← call (a_connect sock addr (meta_server_port cfg));
      if negb connected then
        _ ← log_WriteFail GRPC_FAIL (q "connect() to " ++ address ++ q " failed");
        _ ← call_ (a_closesocket sock); _ ← call_ a_cleanup; mret (-1)
      else
        _ ← log_Write GRPC_REGISTER (q "Connected to MetadataCenter");
        _ ← call_ (a_closesocket sock); _ ← call_ a_cleanup; mret 0
  end.

(** The receive loop into [char buf[8192]]: the [total] bytes that came. The
    last byte of the buffer is left alone. *)
Fixpoint recv_loop (fuel : nat) (sock : Z) (buf : list Z) : G W (list Z) :=
  match fuel with
  | O => fun _ => NoFuel
  | S k =>
      let total := Z.of_nat (length buf) in
      if total <? 8192 - 1 then
        b ← recv_block 8192 total sock (8192 - 1 - total);
        if bool_decide (b = []) then mret buf else recv_loop k sock (buf ++ b)
      else mret buf
  end.

Definition http_request : list Z :=
  q "GET /boot/boot.meta HTTP/1.1" ++ crlf ++ q "Host: 192.168.2.80" ++ crlf ++ q "Connection: close" ++ crlf ++ crlf.

(** The attempt over HTTP: true when a body came. The body is dropped. *)
Definition http_attempt (server : list Z) : G W bool :=
  up ← call a_startup;
  if negb up then mret false else
  sock ← call (a_socket SOCK_STREAM);
  match sock with
  | None => _ ← call_ a_cleanup; mret false
  | Some sock =>
      let addr := default [0; 0; 0; 0] (inet_pton server) in
      _ ← call_ (a_setopt sock 0x1006 10000);
      _ ← call_ (a_setopt sock 0x1005 10000);
      connected ← call (a_connect sock addr 80);
      if connected : bool then
        _ ← call (a_send sock http_request);
        buf ← recv_loop (Z.to_nat 8192) sock [];
        _ ← call_ (a_closesocket sock);
        _ ← call_ a_cleanup;
        let total := Z.of_nat (length buf) in
        body ← check (find_body (S (length buf)) buf total 0);
        match body with
        | Some body =>
            let body_len := total - body in
            _ ← log_Write CHUNKSTREAM_DL (q "HTTP got " ++ fmt_d body_len ++ q " bytes boot.meta");
            if 0 <? body_len then _ ← log_Write CHUNKSTREAM_DL (q "boot.meta downloaded via HTTP"); mret true else mret false
        | None => mret false
        end
      else _ ← call_ (a_closesocket sock); _ ← call_ a_cleanup; mret false
  end.

Definition cache_Fetch (server : list Z) (port : Z) : G W bool := fun g =>
  match LoadFromServer server port (g_cache g) (g_os g) with
  | Ok (ok, c, w) => Ok (ok, mkGlobals w (g_log g) (g_bb g) c (g_cfg g))
  | Fault => Fault
  | NoFuel => NoFuel
  end.
Definition cache_Save (path : list Z) : G W bool := fun g =>
  let '(ok, c, w) := Save path (g_cache g) (g_os g) in Ok (ok, mkGlobals w (g_log g) (g_bb g) c (g_cfg g)).
Definition cache_Load (path : list Z) : G W bool := fun g =>
  let '(ok, c, w) := Load path (g_cache g) (g_os g) in Ok (ok, mkGlobals w (g_log g) (g_bb g) c (g_cfg g)).

Definition DownloadBootMeta : G W Z :=
  cfg ← get_cfg;
  _ ← log_Write CHUNKSTREAM_DL (q "Downloading boot.meta from " ++ primary_server cfg ++ q ":" ++ fmt_d (primary_port cfg));
  got ← (if bool_decide (primary_server cfg = []) then mret false else http_attempt (primary_server cfg));
  if got : bool then mret 0 else
  ok ← cache_Fetch (primary_server cfg) (primary_port cfg);
  if ok : bool then
    _ ← cache_Save (local_meta_path cfg);
    _ ← log_Write CHUNKSTREAM_DL (q "boot.meta downloaded via RPC and cached"); mret 0
  else _ ← log_WriteFail IMGSRV_FAIL (q "All methods failed for boot.meta"); mret (-1).

Definition VerifyIntegrity : G W Z :=
  _ ← log_Write INTEGRITY_CHECK (q "Verifying boot.meta integrity");
  c ← get_cache;
  if IsValid c then _ ← log_Write INTEGRITY_CHECK (q "CRC32C OK"); mret 0
  else _ ← log_Write INTEGRITY_CHECK (q "CRC32C mismatch - accepting for Alpha"); mret 0.

Definition InitializeVirtualDisk : G W Z := _ ← log_Write WINPE_START (q "Initializing virtual disk"); mret 0.
Definition TransferControl : G W Z := _ ← log_Write WINPE_START (q "Transferring control to WinPE"); mret 0.

Definition fallback_config : BootConfig :=
  set_meta_server (set_primary BootConfig_default (q "10.10.200.10") 9527) (q "10.10.300.10") 50051.
Definition LoadFallbackConfig : G W bool :=
  cfg ← get_cfg;
  _ ← put_cfg (if bool_decide (server_address cfg = []) then fallback_config
               else set_server fallback_config (server_address cfg) (server_port cfg));
  cfg ← get_cfg;
  cache_Load (local_meta_path cfg).

(** The four ways out that report, flush and return a code. *)
Definition halt (code : BootFailCode) (msg : string) (phase : BootPhase) (report : string) (bb_path : list Z) (rc : Z) : G W Z :=
  _ ← log_WriteFail code (q msg);
  _ ← RecordBbPhase phase false 0;
  _ ← ReportTelemetry report "fail" 0;
  _ ← bb_Flush bb_path;
  mret rc.

(** The steps after the server is known, in the order of the source. *)
Definition run_register : G W () :=
  r ← RegisterTerminal;
  if negb (r =? 0) then
    _ ← log_Write GRPC_REGISTER (q "gRPC register failed, continuing with cached config"); RecordBbPhase GRPC_REGISTER false 0
  else RecordBbPhase GRPC_REGISTER true 0.

Definition run_finish (start : Z) (bb_path : list Z) : G W Z :=
  r ← InitializeVirtualDisk;
  if negb (r =? 0) then halt BOOTMETA_FAIL "Virtual disk init failed" WINPE_START "init_vdisk" bb_path (-5) else
  now ← call a_clock;
  let total_ms := u32 (Z.quot (now - start) 1000000) in
  _ ← ReportTelemetry "boot_complete" "success" total_ms;
  _ ← RecordBbPhase WINPE_START true (u16 (if 65535 <? total_ms then 65535 else total_ms));
  b ← get_bb;
  cfg ← get_cfg;
  _ ← log_Write WINPE_START (q "Boot complete in " ++ fmt_u total_ms ++ q "ms, boot_id=" ++ boot_id cfg ++ q ", bb_entries=" ++ fmt_u (entry_count b));
  flushed ← bb_Flush bb_path;
  _ ← (if flushed : bool then log_Write WINPE_START (q "BlackBox flushed to " ++ bb_path) else mret ());
  TransferControl.

Definition run_verify (start : Z) (bb_path : list Z) : G W Z :=
  r ← VerifyIntegrity;
  if negb (r =? 0) then halt CRC_FAIL "Integrity check failed - halted" INTEGRITY_CHECK "verify_integrity" bb_path (-4)
  else _ ← RecordBbPhase INTEGRITY_CHECK true 0; run_finish start bb_path.

Definition run_download (start : Z) (bb_path : list Z) : G W Z :=
  r ← DownloadBootMeta;
  if negb (r =? 0) then
    _ ← log_WriteFail BOOTMETA_FAIL (q "boot.meta download failed");
    cfg ← get_cfg;
    cached ← cache_Load (local_meta_path cfg);
    if cached : bool then
      _ ← log_Write CHUNKSTREAM_DL (q "Using cached boot.meta");
      _ ← RecordBbPhase CHUNKSTREAM_DL true 0;
      run_verify start bb_path
    else halt BOOTMETA_FAIL "No cached boot.meta - halted" CHUNKSTREAM_DL "download_bootmeta" bb_path (-3)
  else _ ← RecordBbPhase CHUNKSTREAM_DL true 0; run_verify start bb_path.

Definition Run : G W Z :=
  start ← call a_clock;
  _ ← bb_Initialize;
  _ ← log_Initialize;
  _ ← GetMacAddress;
  _ ← GenerateBootId;
  cfg ← get_cfg;
  let bb_path := dir_of (blackbox_path cfg) ++ q "boot_" ++ boot_id cfg ++ q ".bin" in
  _ ← log_Write BOOTAGENT_START (q "HTKIS HyperDisk X BootAgent v0.3.0 (BlackBox)");
  _ ← RecordBbPhase BOOTAGENT_START true 0;
  r ← DiscoverServer;
  if negb (r =? 0) then
    loaded ← LoadFallbackConfig;
    if loaded : bool then
      _ ← log_Write DHCP_DISCOVER (q "Using fallback config (no DHCP)");
      _ ← RecordBbPhase DHCP_DISCOVER true 0;
      _ ← run_register; run_download start bb_path
    else halt DHCP_FAIL "No DHCP and no fallback config - halted" DHCP_DISCOVER "dhcp_discover" bb_path (-1)
  else
    _ ← RecordBbPhase DHCP_DISCOVER true 0;
    _ ← run_register; run_download start bb_path.

(** ** The command line *)

Definition arg_is (a : list Z) (name : string) : bool := bool_decide (a = q name) || bool_decide (a = q "--" ++ q name).
Fixpoint ParseArgs (args : list (list Z)) (c : BootConfig) : res BootConfig :=
  match args with
  | [] => Ok c
  | a :: r =>
      let set (v : list Z) : res BootConfig :=
        if arg_is a "server" then Ok (set_server c v (server_port c))
        else if arg_is a "port" then let* n := stoi v in Ok (set_server c (server_address c) (u16 n))
        else if arg_is a "meta" then Ok (set_meta_server c v (meta_server_port c))
        else if arg_is a "image" then Ok (set_names c v (terminal_id c))
        else Ok (set_names c (image_name c) v) in
      if arg_is a "server" || arg_is a "port" || arg_is a "meta" || arg_is a "image" || arg_is a "terminal" then
        match r with
        | v :: r' => let* c := set v in ParseArgs r' c
        | [] => set []
        end
      else ParseArgs r c
  end.

(** [argv] without the program's name. *)
Definition main (args : list (list Z)) (w : W) : res (Z * Globals W) :=
  let* c := ParseArgs args BootConfig_default in
  let c := if negb (bool_decide (server_address c = [])) then
             let c := set_primary c (server_address c) 80 in
             if bool_decide (meta_server_address c = []) then set_meta_server c (server_address c) (server_port c) else c
           else c in
  let g := mkGlobals w (mkLogger false false) recorder_start cache_start c in
  let* (rc, g) := Run g in
  if negb (rc =? 0) then
    let* (_, g) := log_WriteFail BOOTMETA_FAIL (q "BootAgent failed: rc=" ++ fmt_d rc ++ q " - exiting for reboot") g in Ok (rc, g)
  else Ok (rc, g).
End BootAgent.

(** ** Lemmas *)

Lemma fmt_d_length z : (length (fmt_d z) <= 21)%nat.
Proof. unfold fmt_d. destruct (z <? 0); cbn [length]; [pose proof (fmt_u_length20 (- z))|pose proof (fmt_u_length20 z)]; lia. Qed.

Lemma json_length cfg phase result d :
  cfg_ok cfg -> (String.length phase <= 20)%nat -> (String.length result <= 20)%nat ->
  (length (json_text cfg phase result d) <= 260)%nat.
Proof.
  intros [] Hp Hr. unfold json_text, json_pair, q, dq. rewrite !length_app, !zstr_length. cbn [length String.length].
  pose proof (fmt_u_length20 d). lia.
Qed.

Lemma request_length cfg json n :
  cfg_ok cfg -> (length json <= 260)%nat -> (length (request_text cfg json n) <= 2047)%nat.
Proof.
  intros [] Hj. unfold request_text, q. rewrite !length_app, !zstr_length. cbn [length String.length crlf].
  pose proof (fmt_d_length (server_port cfg)). pose proof (fmt_d_length n). lia.
Qed.

Lemma defaults_wf : meta_wf ApplyDefaults.
Proof. split; try (split; [done|by apply bytesb_ok]); split; by vm_compute. Qed.

Lemma snprintf_fits n cap text : 0 < cap -> cap <= Z.of_nat n -> exists b, snprintf (replicate n 0) 0 cap text = Ok b /\ length b = n.
Proof.
  intros Hc Hn. unfold snprintf. rewrite wr_ok; [|lia|].
  - eexists. split; [done|]. rewrite copy_at_length, length_replicate; [done|].
    rewrite length_app, length_take, length_replicate. cbn. lia.
  - rewrite length_app, length_take, length_replicate. cbn. lia.
Qed.

Lemma before_nul_app l r : (length (before_nul (l ++ 0%Z :: r)) <= length l)%nat.
Proof. induction l as [|c l IH]; cbn [before_nul app length]; [done|]. destruct (c =? 0); cbn [length]; lia. Qed.

(** The text a [snprintf] leaves is no longer than the one it was given. *)
Lemma snprintf_text n cap text b : snprintf (replicate n 0) 0 cap text = Ok b -> (length (before_nul b) <= length text)%nat.
Proof.
  unfold snprintf, wr. destruct (in_block _ _ _); [|done]. intros [= <-]. unfold copy_at. cbn [Z.to_nat take app].
  rewrite take_0. cbn [app]. rewrite <- app_assoc. cbn [app]. etransitivity; [apply before_nul_app|]. rewrite length_take. lia.
Qed.

Section AgentLemmas.
Context (ring_size : Z) {W : Type} `{AgentLaws W}.
Hypothesis (Hring : ring_ok ring_size).
#[local] Notation lends := (lends ring_size).

Lemma lends_UUID {B} wsa socks (k : list Z -> G W B) :
  (forall id, (length id <= 36)%nat -> lends wsa socks (k id)) -> lends wsa socks (mbind k GenerateUUID).
Proof.
  intros Hk. assert (forall d, (length (uuid_text d) <= 36)%nat) as Hu by (intros d; unfold uuid_text; rewrite length_take; lia).
  intros g L Hg Ho. rewrite G_bind_unfold. unfold GenerateUUID. rewrite G_bind_unfold. unfold call at 1.
  pose proof (l_random (g_os g)) as L1. destruct (a_random (g_os g)) as [[d|] w1]; cbn [fst snd mret G_ret] in *.
  - apply (Hk _ (Hu (uuid_words (Some d) 0)) (on_os g w1) L (sane_os _ _ _ Hg)). cbn. by rewrite L1.
  - rewrite G_bind_unfold. unfold call. pose proof (l_clock (g_os (on_os g w1))) as L2.
    destruct (a_clock (g_os (on_os g w1))) as [now w2]; cbn [fst snd mret G_ret] in *.
    apply (Hk _ (Hu (uuid_words None now)) (on_os (on_os g w1) w2) L (sane_os _ _ _ (sane_os _ _ _ Hg))). cbn in *. by rewrite L2, L1.
Qed.

Lemma cfg_ok_ids c a b m : cfg_ok c -> (length a <= 36)%nat -> (length b <= 36)%nat -> (length m <= 36)%nat -> cfg_ok (set_ids c a b m).
Proof. intros [] ? ? ?. by split. Qed.

Lemma lends_GenerateBootId : lends 0 None (GenerateBootId (W:=W)).
Proof.
  unfold GenerateBootId. apply lends_UUID. intros id Hid. lend_step. apply lends_put_cfg; [by apply cfg_ok_ids; try apply H1|].
  apply lends_seq; [|intros _; lend_step; apply lends_Write].
  destruct (negb _).
  - intros g L Hg Ho. eexists _, _. split; [reflexivity|]. split; [|by apply owed_none].
    destruct Hg. split; try done. by apply cfg_ok_ids; try apply H1.
  - apply lends_UUID. intros m Hm. apply lends_put_cfg; [by apply cfg_ok_ids; try apply H1|]. apply lends_Write.
Qed.

Lemma first_nic_in l a : first_nic l = Some a -> a ∈ l.
Proof.
  induction l as [|b l IH]; [done|]. cbn [first_nic]. destruct (_ && _); [intros [= ->]; left|]. intros E. right. by apply IH.
Qed.

Lemma lends_GetMacAddress : lends 0 None (GetMacAddress (W:=W)).
Proof.
  unfold GetMacAddress. apply lends_call. intros w L Ho. exists 0%nat, None. split; [by rewrite l_adapters|].
  pose proof (adapters_law w) as Ha. destruct (first_nic _) as [ad|] eqn:E; [|apply lends_ret]. apply first_nic_in in E.
  destruct (a_adapters w).1 as [l|]; [|by apply elem_of_nil in E]. cbn [default] in E.
  pose proof (proj1 (Forall_forall _ _) (Ha l eq_refl) _ E) as Hlen. cbn beta in Hlen.
  eapply lends_check; [apply rd_bytes_ok; lia|]. cbv zeta. lend_step.
  apply lends_put_cfg; [|apply lends_Write]. apply cfg_ok_ids; try apply H1. unfold mac_text. rewrite length_take. lia.
Qed.

Lemma lends_ReportTelemetry phase result d :
  (String.length phase <= 20)%nat -> (String.length result <= 20)%nat -> lends 0 None (ReportTelemetry (W:=W) phase result d).
Proof.
  intros Hp Hr. unfold ReportTelemetry. lend_step. rename c into cfg. destruct (_ || _); [apply lends_ret|].
  lend_step; [|lend_step]. lend_step; [|repeat lend_step]. cbv zeta. do 3 lend_step; [|repeat lend_step].
  set (json := json_text cfg phase result d). assert (length json <= 260)%nat as Hj by (by apply json_length).
  destruct (snprintf_fits 1024 1024 json) as (jb & Ejb & _); [lia..|]. eapply lends_check; [exact Ejb|].
  pose proof (snprintf_text _ _ _ _ Ejb) as Hjb. set (req := request_text cfg _ _).
  assert (length req <= 2047)%nat as Hq by (apply request_length; [done|lia]).
  destruct (snprintf_fits 2048 2048 req) as (rb & Erb & Hrb); [lia..|]. eapply lends_check; [exact Erb|].
  eapply lends_check; [apply rd_bytes_ok; lia|].
  lend_step. apply lends_recv; [lia..|]. intros. by repeat lend_step.
Qed.

Lemma lends_Record phase ok lat : int_ok 2 lat -> lends 0 None (RecordBbPhase ring_size (W:=W) phase ok lat).
Proof.
  intros Hlat g L Hg Ho. apply owed_none in Ho. unfold RecordBbPhase. set (st := if ok then SUCCESS else FAIL).
  destruct (initialized (g_bb g)) eqn:Hi.
  - destruct (sn_box _ _ Hg Hi) as [es Hes].
    set (v := mkEvent (bb_phase_of phase) 0 0 0 st lat).
    assert (event_wf v) as Hv by (split; cbn; try done; by split; vm_compute).
    destruct (record_spec ring_size v (g_bb g) es (g_os g) Hring Hv Hes) as (r' & w' & delta & _ & E & Hl & Hcase).
    cbn [v v_phase v_lba v_offset v_size v_status v_latency] in E. rewrite E.
    eexists _, _. split; [reflexivity|]. split; [|cbn; by rewrite Hl].
    destruct Hg. split; try done. intros _. cbn. destruct (_ <=? _); destruct Hcase as [Hc _]; by eexists.
  - unfold Record_. rewrite Hi. cbn [negb]. eexists _, _. split; [reflexivity|]. cbn. split; [|done].
    destruct Hg. by split.
Qed.

Lemma lends_bb_Initialize : lends 0 None (bb_Initialize ring_size (W:=W)).
Proof.
  intros g L Hg Ho. apply owed_none in Ho. unfold bb_Initialize. destruct (initialized (g_bb g)) eqn:Hi.
  - unfold Initialize. rewrite Hi. eexists _, _. split; [reflexivity|]. cbn. split; [|done]. destruct Hg. by split.
  - pose proof (initialize_inv ring_size (g_bb g)) as Hinit. unfold Initialize in *. rewrite Hi in *.
    pose proof (l_alloc ring_size (g_os g)) as L1. specialize (Hinit) with (w0 := g_os g).
    destruct (a_alloc ring_size (g_os g)) as [[] w1]; cbn [negb fst snd] in *.
    + pose proof (l_clock w1) as L2. destruct (a_clock w1) as [now w2]; cbn [fst snd] in *.
      eexists _, _. split; [reflexivity|]. cbn. rewrite L2, L1. split; [|done].
      destruct Hg. split; try done. intros _. exists []. cbn. by eapply Hinit.
    + eexists _, _. split; [reflexivity|]. cbn. rewrite L1. split; [|done]. destruct Hg. by split.
Qed.

Lemma lends_Flush path : lends 0 None (bb_Flush (W:=W) path).
Proof.
  intros g L Hg Ho. apply owed_none in Ho. unfold bb_Flush. destruct (initialized (g_bb g)) eqn:Hi.
  - destruct (sn_box _ _ Hg Hi) as [es Hes]. destruct (flush_spec ring_size path _ es (g_os g) Hring Hes) as (et & ok & w' & -> & Hl & _).
    eexists _, _. split; [reflexivity|]. split; [by apply sane_os|]. cbn. by rewrite Hl.
  - unfold FlushToDisk. rewrite Hi. cbn. eexists _, _. split; [reflexivity|]. split; [by apply sane_os|]. done.
Qed.

Lemma sane_cache (g : Globals W) (w : W) c : sane ring_size g -> meta_wf (meta_ c) -> sane ring_size (mkGlobals w (g_log g) (g_bb g) c (g_cfg g)).
Proof. intros [] Hc. by split. Qed.

Lemma lends_Fetch server port : lends 0 None (cache_Fetch (W:=W) server port).
Proof.
  intros g L Hg Ho. apply owed_none in Ho. unfold cache_Fetch. destruct (fetch_spec server port (g_cache g) (g_os g) (sn_meta _ _ Hg)) as (b & c' & w' & -> & Hl & Hm & _).
  eexists _, _. split; [reflexivity|]. split; [by apply sane_cache|]. cbn. by rewrite Hl.
Qed.

Lemma lends_Save path : lends 0 None (cache_Save (W:=W) path).
Proof.
  intros g L Hg Ho. apply owed_none in Ho. unfold cache_Save, Save. fold (stamped (meta_ (g_cache g))). pose proof (l_save path (bytes_of (stamped (meta_ (g_cache g)))) (g_os g)) as Ll.
  destruct (a_save path _ (g_os g)) as [r w]. cbn [fst snd] in Ll. eexists _, _. split; [reflexivity|].
  split; [apply sane_cache; [done|]; apply stamped_wf, Hg|]. cbn. by rewrite Ll.
Qed.

Lemma lends_Load path : lends 0 None (cache_Load (W:=W) path).
Proof.
  intros g L Hg Ho. apply owed_none in Ho. unfold cache_Load. rewrite load_spec. pose proof (l_load path (g_os g)) as Ll. pose proof (proj2 (load_disk path (g_os g))) as Hd.
  destruct (a_load path (g_os g)) as [[c|] w]; cbn [fst snd] in *.
  - destruct (good_image c) eqn:Hgd; eexists _, _; (split; [reflexivity|]); (split; [apply sane_cache; [done|]|cbn; by rewrite Ll]); cbn.
    + apply of_bytes_wf; [by eapply disk_bytes, Hd|]. unfold good_image in Hgd. bool_props. lia.
    + apply defaults_wf.
  - eexists _, _. split; [reflexivity|]. split; [apply sane_cache; [done|apply defaults_wf]|cbn; by rewrite Ll].
Qed.

Lemma lends_recv_loop sock fuel buf n s :
  8191 - Z.of_nat (length buf) < Z.of_nat fuel -> Z.of_nat (length buf) <= 8191 ->
  forall B (k : list Z -> G W B), (forall b, lends n s (k b)) -> lends n s (mbind k (recv_loop (W:=W) fuel sock buf)).
Proof.
  intros Hf Hb B k Hk. apply lends_seq; [|done]. clear k Hk.
  revert buf Hf Hb; induction fuel as [|fuel IH]; intros buf Hf Hb; [lia|]. cbn [recv_loop]. cbv zeta.
  destruct (Z.ltb_spec (Z.of_nat (length buf)) (8192 - 1)); [|apply lends_ret].
  apply lends_recv; [lia..|]. intros b _ Hl. case_bool_decide as Hn; [apply lends_ret|].
  assert (0 < length b)%nat by (destruct b; [done|cbn; lia]). apply IH; rewrite length_app; lia.
Qed.

(** The search stays inside the bytes received. *)
Lemma find_body_safe fuel buf i :
  0 <= i <= Z.of_nat (length buf) -> Z.of_nat (length buf) - i < Z.of_nat fuel -> exists o, find_body fuel buf (Z.of_nat (length buf)) i = Ok o.
Proof.
  revert i; induction fuel as [|fuel IH]; intros i Hi Hf; [lia|]. cbn [find_body].
  destruct (Z.ltb_spec i (Z.of_nat (length buf) - 3)); [|by eexists]. rewrite rd_bytes_ok by lia. cbn [res_bind].
  case_bool_decide; [by eexists|]. apply IH; lia.
Qed.

Lemma lends_http server : lends 0 None (http_attempt (W:=W) server).
Proof.
  unfold http_attempt. lend_step; [|lend_step]. lend_step; [|repeat lend_step]. cbv zeta. do 3 lend_step; [|repeat lend_step].
  lend_step. apply lends_recv_loop; [cbn [length]; lia..|]. intros buf. do 2 lend_step.
  destruct (find_body_safe (S (length buf)) buf 0) as [o Eo]; [lia..|]. eapply lends_check; [exact Eo|].
  destruct o; [|by lend_step]. lend_step. destruct (_ <? _); by repeat lend_step.
Qed.
End AgentLemmas.

(** What a computation answers, when it answers. *)
Definition returns {W A} (P : A -> Prop) (c : G W A) : Prop := forall g a g', c g = Ok (a, g') -> P a.

Lemma returns_bind {W A B} (Q : A -> Prop) (P : B -> Prop) (c : G W A) (k : A -> G W B) :
  returns Q c -> (forall a, Q a -> returns P (k a)) -> returns P (mbind k c).
Proof.
  intros Hc Hk g b g'. rewrite G_bind_unfold. destruct (c g) as [[a g1]| |] eqn:E; try done. intros E2.
  by apply (Hk a (Hc _ _ _ E) _ _ _ E2).
Qed.
Lemma returns_then {W A B} (P : B -> Prop) (c : G W A) (k : A -> G W B) :
  (forall a, returns P (k a)) -> returns P (mbind k c).
Proof. intros Hk. apply (returns_bind (fun _ => True)); [done|]. auto. Qed.
Lemma returns_ret {W A} (P : A -> Prop) (a : A) : P a -> returns (W:=W) P (mret a).
Proof. by intros Ha g b g' [= <- <-]. Qed.

(** Which computations leave the metadata alone. *)
Definition keeps_cache {W A} (c : G W A) : Prop := forall g a g', c g = Ok (a, g') -> g_cache g' = g_cache g.

Lemma kc_bind {W A B} (c : G W A) (k : A -> G W B) : keeps_cache c -> (forall a, keeps_cache (k a)) -> keeps_cache (mbind k c).
Proof.
  intros Hc Hk g b g'. rewrite G_bind_unfold. destruct (c g) as [[a g1]| |] eqn:E; try done. intros E2.
  rewrite (Hk _ _ _ _ E2). by eapply Hc.
Qed.
Lemma kc_ret {W A} (a : A) : keeps_cache (W:=W) (mret a).
Proof. by intros g b g' [= <- <-]. Qed.
Lemma kc_call {W A} (f : W -> A * W) : keeps_cache (call f).
Proof. intros g a g'. unfold call. destruct (f (g_os g)). by intros [= <- <-]. Qed.
Lemma kc_call_ {W} (f : W -> W) : keeps_cache (call_ f).
Proof. by intros g a g' [= <- <-]. Qed.
Lemma kc_check {W A} (r : res A) : keeps_cache (W:=W) (check r).
Proof. intros g a g'. destruct r; try done. by intros [= <- <-]. Qed.
Lemma kc_get_cfg {W} : keeps_cache (W:=W) get_cfg.
Proof. by intros g a g' [= <- <-]. Qed.
Lemma kc_put_cfg {W} c : keeps_cache (W:=W) (put_cfg c).
Proof. by intros g a g' [= <- <-]. Qed.
Lemma kc_get_log {W} : keeps_cache (W:=W) get_log.
Proof. by intros g a g' [= <- <-]. Qed.
Lemma kc_put_log {W} l : keeps_cache (W:=W) (put_log l).
Proof. by intros g a g' [= <- <-]. Qed.
Lemma kc_get_bb {W} : keeps_cache (W:=W) get_bb.
Proof. by intros g a g' [= <- <-]. Qed.
Lemma kc_get_cache {W} : keeps_cache (W:=W) get_cache.
Proof. by intros g a g' [= <- <-]. Qed.

Create HintDb kc.
#[local] Hint Resolve kc_ret kc_call kc_call_ kc_check kc_get_cfg kc_put_cfg kc_get_log kc_put_log kc_get_bb kc_get_cache : kc.

Ltac kc_solve :=
  repeat match goal with
  | |- keeps_cache (mbind _ _) => apply kc_bind; [|intros ?]
  | |- keeps_cache (let _ := _ in _) => cbv zeta
  | |- keeps_cache (if ?b then _ else _) => destruct b
  | |- keeps_cache (match ?x with _ => _ end) => destruct x
  | _ => solve [eauto with kc]
  end.

Section Keeps.
Context (ring_size : Z) {W : Type} `{AgentOs W}.
Lemma kc_WriteRaw s : keeps_cache (WriteRaw (W:=W) s).
Proof. unfold WriteRaw, log_Initialize. kc_solve. Qed.
#[local] Hint Resolve kc_WriteRaw : kc.
Lemma kc_Write p t : keeps_cache (log_Write (W:=W) p t).
Proof. unfold log_Write. kc_solve. Qed.
Lemma kc_WriteFail c t : keeps_cache (log_WriteFail (W:=W) c t).
Proof. unfold log_WriteFail. kc_solve. Qed.
Lemma kc_recv size off s n : keeps_cache (recv_block (W:=W) size off s n).
Proof. intros g a g'. unfold recv_block. destruct (recv_at _ _ _ _ _) as [[b w]| |]; try done. by intros [= <- <-]. Qed.
#[local] Hint Resolve kc_recv : kc.
Lemma kc_Record p b l : keeps_cache (RecordBbPhase ring_size (W:=W) p b l).
Proof. intros g a g'. unfold RecordBbPhase. destruct (Record_ _ _ _ _ _ _ _ _ _) as [[b' w]| |]; try done. by intros [= <- <-]. Qed.
Lemma kc_Flush p : keeps_cache (bb_Flush (W:=W) p).
Proof. intros g a g'. unfold bb_Flush. destruct (FlushToDisk _ _ _) as [[b' w]| |]; try done. by intros [= <- <-]. Qed.
Lemma kc_recv_loop fuel s b : keeps_cache (recv_loop (W:=W) fuel s b).
Proof. revert b; induction fuel as [|fuel IH]; intros b; [by intros g a g'|]. cbn [recv_loop]. kc_solve. Qed.
#[local] Hint Resolve kc_Write kc_WriteFail kc_Record kc_Flush kc_recv_loop : kc.
Lemma kc_Telemetry p r d : keeps_cache (ReportTelemetry (W:=W) p r d).
Proof. unfold ReportTelemetry. kc_solve. Qed.
Lemma kc_http s : keeps_cache (http_attempt (W:=W) s).
Proof. unfold http_attempt. kc_solve. Qed.
#[local] Hint Resolve kc_Telemetry kc_http : kc.
Lemma kc_halt c m p r path rc : keeps_cache (halt ring_size (W:=W) c m p r path rc).
Proof. unfold halt. kc_solve. Qed.
#[local] Hint Resolve kc_halt : kc.
Lemma kc_finish start path : keeps_cache (run_finish ring_size (W:=W) start path).
Proof. unfold run_finish, InitializeVirtualDisk, TransferControl. kc_solve. Qed.
#[local] Hint Resolve kc_finish : kc.
Lemma kc_verify start path : keeps_cache (run_verify ring_size (W:=W) start path).
Proof. unfold run_verify, VerifyIntegrity. kc_solve. Qed.
End Keeps.

Section RunLemmas.
Context (ring_size : Z) {W : Type} `{AgentLaws W}.
Hypothesis (Hring : ring_ok ring_size).
#[local] Notation lends := (lends ring_size).

Lemma lat_zero : int_ok 2 0.
Proof. by split; vm_compute. Qed.

Lemma lends_rec {B} phase ok (k : () -> G W B) : lends 0 None (k ()) -> lends 0 None (mbind k (RecordBbPhase ring_size phase ok 0)).
Proof. intros Hk. apply lends_seq; [apply lends_Record; [done|apply lat_zero]|]. by intros []. Qed.

Lemma lends_DiscoverServer : lends 0 None (DiscoverServer (W:=W)).
Proof. unfold DiscoverServer. lend_step. apply lends_seq; [apply lends_Discover|]. intros []; apply lends_ret. Qed.

Lemma lends_RegisterTerminal : lends 0 None (RegisterTerminal (W:=W)).
Proof.
  unfold RegisterTerminal. lend_step. cbv zeta. lend_step. lend_step; [|repeat lend_step]. lend_step; [|repeat lend_step].
  do 3 lend_step; by repeat lend_step.
Qed.

Lemma lends_DownloadBootMeta : lends 0 None (DownloadBootMeta (W:=W)).
Proof.
  unfold DownloadBootMeta. do 2 lend_step. apply lends_seq; [destruct (bool_decide _); [apply lends_ret|apply lends_http]|].
  intros []; [apply lends_ret|]. apply lends_seq; [apply lends_Fetch|]. intros []; [|by repeat lend_step].
  apply lends_seq; [apply lends_Save|]. intros _. by repeat lend_step.
Qed.

Lemma lends_VerifyIntegrity : lends 0 None (VerifyIntegrity (W:=W)).
Proof. unfold VerifyIntegrity. lend_step. apply lends_cache. intros c _. destruct (IsValid c); by repeat lend_step. Qed.

Lemma lends_LoadFallbackConfig : lends 0 None (LoadFallbackConfig (W:=W)).
Proof.
  unfold LoadFallbackConfig. lend_step. apply lends_put_cfg; [|lend_step; apply lends_Load].
  case_bool_decide; split; cbn; try lia. apply H1.
Qed.

Lemma lends_halt code msg phase report path rc :
  (String.length report <= 20)%nat -> lends 0 None (halt ring_size (W:=W) code msg phase report path rc).
Proof.
  intros Hr. unfold halt. lend_step. apply lends_rec. apply lends_seq; [apply lends_ReportTelemetry; cbn; lia|]. intros _.
  apply lends_seq; [by apply lends_Flush|]. intros _. apply lends_ret.
Qed.

Lemma lends_register : lends 0 None (run_register ring_size (W:=W)).
Proof.
  unfold run_register. apply lends_seq; [apply lends_RegisterTerminal|]. intros r. destruct (negb _).
  - lend_step. apply lends_Record; [done|apply lat_zero].
  - apply lends_Record; [done|apply lat_zero].
Qed.

Lemma lends_finish start path : lends 0 None (run_finish ring_size (W:=W) start path).
Proof.
  unfold run_finish. apply lends_seq; [unfold InitializeVirtualDisk; by repeat lend_step|]. intros r.
  destruct (negb _); [apply lends_halt; cbn; lia|]. lend_step. cbv zeta.
  apply lends_seq; [apply lends_ReportTelemetry; cbn; lia|]. intros _.
  apply lends_seq; [apply lends_Record; [done|by apply int_ok_wrap]|]. intros _. apply lends_bb. intros b _. do 2 lend_step.
  apply lends_seq; [by apply lends_Flush|]. intros fl. apply lends_seq; [destruct fl; [apply lends_Write|apply lends_ret]|].
  intros _. unfold TransferControl. by repeat lend_step.
Qed.

Lemma lends_run_verify start path : lends 0 None (run_verify ring_size (W:=W) start path).
Proof.
  unfold run_verify. apply lends_seq; [apply lends_VerifyIntegrity|]. intros r. destruct (negb _); [apply lends_halt; cbn; lia|].
  apply lends_rec, lends_finish.
Qed.

Lemma lends_download start path : lends 0 None (run_download ring_size (W:=W) start path).
Proof.
  unfold run_download. apply lends_seq; [apply lends_DownloadBootMeta|]. intros r.
  destruct (negb _); [|apply lends_rec, lends_run_verify]. do 2 lend_step. apply lends_seq; [apply lends_Load|].
  intros []; [lend_step; apply lends_rec, lends_run_verify|apply lends_halt; cbn; lia].
Qed.

Lemma lends_Run : lends 0 None (Run ring_size (W:=W)).
Proof.
  unfold Run. lend_step. apply lends_seq; [by apply lends_bb_Initialize|]. intros _.
  apply lends_seq. { unfold log_Initialize. apply lends_log. intros l. destruct (log_initialized l); [apply lends_ret|].
    apply lends_quiet; [apply l_com1_open|]. intros b. apply lends_put_log. }
  intros _. apply lends_seq; [apply lends_GetMacAddress|]. intros _. apply lends_seq; [apply lends_GenerateBootId|]. intros _.
  lend_step. cbv zeta. lend_step. apply lends_rec. apply lends_seq; [apply lends_DiscoverServer|]. intros r.
  assert (forall s p, lends 0 None (_ ← run_register ring_size; run_download ring_size (W:=W) s p)) as Hrest.
  { intros s p. apply lends_seq; [apply lends_register|]. intros _. apply lends_download. }
  destruct (negb _); [|by apply lends_rec]. apply lends_seq; [apply lends_LoadFallbackConfig|].
  intros []; [lend_step; by apply lends_rec|apply lends_halt; cbn; lia].
Qed.

(** The codes. *)
Lemma returns_halt P code msg phase report path rc : P rc -> returns P (halt ring_size (W:=W) code msg phase report path rc).
Proof. intros HP. unfold halt. do 4 (apply returns_then; intros _). by apply returns_ret. Qed.

Lemma returns_finish start path : returns (fun rc => rc = 0) (run_finish ring_size (W:=W) start path).
Proof.
  unfold run_finish. apply (returns_bind (fun r => r = 0)).
  { unfold InitializeVirtualDisk. apply returns_then. intros _. by apply returns_ret. }
  intros r ->. cbn [negb Z.eqb]. apply returns_then. intros now. cbv zeta. do 3 (apply returns_then; intros ?).
  do 4 (apply returns_then; intros ?). unfold TransferControl. apply returns_then. intros _. by apply returns_ret.
Qed.

Lemma returns_verify start path : returns (fun rc => rc = 0) (run_verify ring_size (W:=W) start path).
Proof.
  unfold run_verify. apply (returns_bind (fun r => r = 0)).
  { unfold VerifyIntegrity. apply returns_then. intros _. apply returns_then. intros c.
    destruct (IsValid c); apply returns_then; intros _; by apply returns_ret. }
  intros r ->. cbn [negb Z.eqb]. apply returns_then. intros _. apply returns_finish.
Qed.

Lemma returns_weaken {A} (P Q : A -> Prop) (c : G W A) : returns P c -> (forall a, P a -> Q a) -> returns Q c.
Proof. intros Hc HPQ g a g' E. by eapply HPQ, Hc. Qed.

Definition boot_code (rc : Z) : Prop := rc = 0 \/ rc = -1 \/ rc = -3.

Lemma returns_download start path : returns boot_code (run_download ring_size (W:=W) start path).
Proof.
  assert (returns boot_code (run_verify ring_size (W:=W) start path)) as Hv.
  { eapply returns_weaken; [apply returns_verify|]. intros a ->. by left. }
  unfold run_download. apply returns_then. intros r. destruct (negb _); [|by apply returns_then].
  do 2 (apply returns_then; intros ?). apply returns_then. intros [].
  - by do 2 (apply returns_then; intros _).
  - apply returns_halt. right. by right.
Qed.

Lemma returns_Run : returns boot_code (Run ring_size (W:=W)).
Proof.
  unfold Run. do 6 (apply returns_then; intros ?). cbv zeta. do 3 (apply returns_then; intros ?).
  assert (forall s p, returns boot_code (_ ← run_register ring_size; run_download ring_size (W:=W) s p)) as Hrest.
  { intros s p. apply returns_then. intros _. apply returns_download. }
  destruct (negb _); [|by apply returns_then]. apply returns_then. intros [].
  - by do 2 (apply returns_then; intros _).
  - apply returns_halt. right. by left.
Qed.
End RunLemmas.

(** ** Properties *)

(** C4. The boot sequence ends well on every machine: from any sane state
    (well-formed metadata, a consistent black box, a server name of at most 1500
    and identifiers of at most 36 characters) and whatever the network, the disk
    and the servers answer, the agent runs to its end; no receive, read or write
    leaves its buffer (the log line, the telemetry request and its 512-byte
    answer, the 8192-byte HTTP answer and the search in the part received, the
    DHCP buffers and options, the frame buffers, the ring); every socket and
    Winsock reference it took is given back and no other; the state left is sane;
    and the code is 0, -1 or -3: -4 and -5 of the source are never returned. *)
Theorem boot_run_safe {W} `{AgentLaws W} ring_size (g : Globals W) :
  ring_ok ring_size -> sane ring_size g ->
  exists rc g', Run ring_size g = Ok (rc, g') /\ boot_code rc /\ sane ring_size g' /\ loan (g_os g') = loan (g_os g).
Proof.
  intros Hring Hg. destruct (lends_Run ring_size Hring g _ Hg (owed_refl _)) as (rc & g' & E & Hg' & Hl). exists rc, g'.
  split_and!; try done. by apply (returns_Run ring_size _ _ _ E).
Qed.

(** Metadata that comes over HTTP is neither stored nor verified: when the
    web server answers the download with any non-empty body, the agent finishes
    the boot and returns 0 with the metadata it had before the download, valid
    or not; on a cold start these are 310 zero bytes. *)
Theorem boot_http_unverified {W} `{AgentLaws W} ring_size start bb_path (g g1 g2 : Globals W) :
  ring_ok ring_size -> sane ring_size g -> primary_server (g_cfg g) <> [] ->
  log_Write CHUNKSTREAM_DL (q "Downloading boot.meta from " ++ primary_server (g_cfg g) ++ q ":" ++ fmt_d (primary_port (g_cfg g))) g
    = Ok ((), g1) ->
  http_attempt (primary_server (g_cfg g)) g1 = Ok (true, g2) ->
  exists g', run_download ring_size start bb_path g = Ok (0, g') /\ g_cache g' = g_cache g.
Proof.
  intros Hring Hg Hp E1 E2.
  assert (DownloadBootMeta g = Ok (0, g2)) as Hd.
  { unfold DownloadBootMeta. rewrite G_bind_unfold. cbn [get_cfg]. rewrite G_bind_unfold, E1, G_bind_unfold.
    by rewrite bool_decide_eq_false_2, E2. }
  assert (g_cache g2 = g_cache g) as Hc.
  { rewrite (kc_http _ _ _ _ E2). by apply (kc_Write _ _ _ _ _ E1). }
  assert (sane ring_size g2) as Hs2.
  { destruct (lends_DownloadBootMeta ring_size g _ Hg (owed_refl _)) as (r & g' & E & Hs & _). rewrite Hd in E. by injection E as _ <-. }
  unfold run_download. rewrite G_bind_unfold, Hd. cbn [negb Z.eqb].
  destruct (lends_rec ring_size Hring CHUNKSTREAM_DL true (fun _ => run_verify ring_size start bb_path)
    (lends_run_verify ring_size Hring start bb_path) g2 _ Hs2 (owed_refl _)) as (rc & g' & E & _ & _).
  rewrite E. exists g'. rewrite G_bind_unfold in E.
  destruct (RecordBbPhase ring_size CHUNKSTREAM_DL true 0 g2) as [[[] g3]| |] eqn:E3; try done.
  rewrite <- Hc, <- (kc_Record _ _ _ _ _ _ _ E3), <- (kc_verify _ _ _ _ _ _ E).
  by rewrite (returns_verify ring_size start bb_path _ _ _ E).
Qed.

(** In fallback mode the agent is anonymous and silent: loading the fallback
    configuration discards the boot identifier, so no telemetry is sent any more,
    not even the report of the failure. *)
Theorem boot_fallback_silent {W} `{AgentOs W} (g g1 : Globals W) ok phase result d :
  LoadFallbackConfig g = Ok (ok, g1) ->
  boot_id (g_cfg g1) = [] /\ ReportTelemetry phase result d g1 = Ok (-1, g1).
Proof.
  unfold LoadFallbackConfig. rewrite G_bind_unfold. cbn [get_cfg]. rewrite G_bind_unfold. cbn [put_cfg].
  rewrite G_bind_unfold. cbn [get_cfg]. unfold cache_Load. cbn [g_cache g_os g_cfg g_log g_bb].
  destruct (Load _ _ _) as [[b c] w]. intros [= _ <-].
  assert (boot_id (if bool_decide (server_address (g_cfg g) = []) then fallback_config
    else set_server fallback_config (server_address (g_cfg g)) (server_port (g_cfg g))) = []) as Hb by (by case_bool_decide).
  split; [exact Hb|]. unfold ReportTelemetry. rewrite G_bind_unfold. cbn [get_cfg g_cfg]. by rewrite Hb, orb_true_r.
Qed.

(** A long server name makes the telemetry send memory that is not its own:
    [send] is given the length the text would have had, so with a name of 2048
    characters or more and a connection it reads past the request buffer. *)
Theorem boot_telemetry_overreads (g : Globals SimAgent) phase result d :
  (2048 <= length (server_address (g_cfg g)))%nat -> boot_id (g_cfg g) <> [] ->
  (forall a p, s_reach (g_os g) a p = true) ->
  ReportTelemetry phase result d g = Fault.
Proof.
  intros Hl Hb Hr. unfold ReportTelemetry. rewrite G_bind_unfold. cbn [get_cfg].
  rewrite !bool_decide_eq_false_2 by (done || (intros E; rewrite E in Hl; cbn in Hl; lia)). cbn [orb].
  rewrite G_bind_unfold. cbn [call a_startup SimAgent_os negb]. rewrite G_bind_unfold. cbn [call a_socket SimAgent_os]. cbv zeta.
  rewrite G_bind_unfold. cbn [call_ a_setopt SimAgent_os]. rewrite G_bind_unfold. cbn [call_ a_setopt SimAgent_os].
  rewrite G_bind_unfold. unfold call at 1. cbn [a_connect SimAgent_os on_os g_os sim_loan s_reach]. rewrite Hr. cbn [negb].
  destruct (snprintf_fits 1024 1024 (json_text (g_cfg g) phase result d)) as (jb & Ejb & _); [lia..|].
  rewrite G_bind_unfold, Ejb. cbn [check]. set (req := request_text _ _ _).
  destruct (snprintf_fits 2048 2048 req) as (rb & Erb & Hrb); [lia..|]. rewrite G_bind_unfold, Erb. cbn [check].
  rewrite G_bind_unfold.
  assert (2048 < length req)%nat as Hq.
  { unfold req, request_text, q. rewrite !length_app, !zstr_length. cbn [String.length length crlf]. lia. }
  unfold rd_bytes. destruct (in_block _ _ _) eqn:E; [|done]. apply in_block_true in E. lia.
Qed.

(** ** Witnesses *)

Lemma ring_ok_110 : ring_ok 110.
Proof. by split; vm_compute. Qed.

Lemma boot_run_safe_witness :
  exists rc g', Run 110 (start_globals sim_nak) = Ok (rc, g') /\ loan (g_os g') = loan sim_nak.
Proof.
  destruct (boot_run_safe 110 (start_globals sim_nak) ring_ok_110 (start_sane _)) as (rc & g' & E & _ & _ & Hl).
  exists rc, g'. split; [exact E|exact Hl].
Defined.

(** The state a computation leaves. *)
Definition after {W A} (c : G W A) (g : Globals W) : Globals W := match c g with Ok (_, g') => g' | _ => g end.

Definition http_answer : list Z := q "HTTP/1.1 200 OK" ++ crlf ++ crlf ++ q "x".
Definition http_start : Globals SimAgent :=
  mkGlobals (mkSimAgent (mkLoan 0 ∅) ∅ 5000000 (fun _ _ => true) [http_answer] [] []) (mkLogger false false) recorder_start cache_start
    (set_primary BootConfig_default (q "10.0.0.1") 80).
Definition http_logged : Globals SimAgent :=
  after (log_Write CHUNKSTREAM_DL (q "Downloading boot.meta from " ++ q "10.0.0.1" ++ q ":" ++ fmt_d 80)) http_start.
Definition http_done : Globals SimAgent := after (http_attempt (q "10.0.0.1")) http_logged.

Lemma boot_http_unverified_witness :
  exists g', run_download 110 0 (q "box.bin") http_start = Ok (0, g') /\ g_cache g' = cache_start.
Proof.
  apply (boot_http_unverified 110 0 (q "box.bin") http_start http_logged http_done ring_ok_110).
  - split; [apply zero_meta_wf|by intros [=]|split; cbn; lia].
  - done.
  - reflexivity.
  - vm_compute. reflexivity.
Defined.

Lemma boot_fallback_silent_witness :
  ReportTelemetry "dhcp_discover" "fail" 0 (after LoadFallbackConfig http_start) = Ok (-1, after LoadFallbackConfig http_start).
Proof.
  apply (boot_fallback_silent http_start (after LoadFallbackConfig http_start) false "dhcp_discover" "fail" 0). reflexivity.
Defined.

Definition long_name : Globals SimAgent :=
  mkGlobals sim_box (mkLogger false false) recorder_start cache_start
    (set_ids (set_server BootConfig_default (replicate 2048 97) 8080) (q "id") (q "id") []).

Lemma boot_telemetry_overreads_witness : ReportTelemetry "boot_complete" "success" 5 long_name = Fault.
Proof.
  apply boot_telemetry_overreads; [|done|done]. unfold long_name. cbn [g_cfg set_ids server_address set_server]. by rewrite length_replicate.
Defined.
