(* ===== verification/Ids.v ===== *)
(** * Identifiers as text: GUIDs, UUIDs and hardware addresses

    [format_gpt_guid] of the boot diagnostic (tools/bootdiag/bootdiag_checks.c),
    and what the identifiers of the boot agent (GenerateUUID and GetMacAddress of
    client/boot_agent/main.cpp, modelled in BootAgent.v) are worth: printf's
    fixed-width hexadecimal conversions never print more than the buffers hold,
    and different values give different texts. *)

From S2P Require Import Prelude BootEnv Text BootAgent.

(** [guid[a] | (guid[b] << 8) | ...]: the operands are ints, the result is
    stored unsigned. *)
Definition gpt_p1 (guid : list Z) : Z :=
  u32 (Z.lor (Z.lor (Z.lor (guid !!! 0%nat) (Z.shiftl (guid !!! 1%nat) 8)) (Z.shiftl (guid !!! 2%nat) 16))
        (Z.shiftl (guid !!! 3%nat) 24)).
Definition gpt_p2 (guid : list Z) : Z := u16 (Z.lor (guid !!! 4%nat) (Z.shiftl (guid !!! 5%nat) 8)).
Definition gpt_p3 (guid : list Z) : Z := u16 (Z.lor (guid !!! 6%nat) (Z.shiftl (guid !!! 7%nat) 8)).
Definition gpt_guid_text (guid : list Z) : list Z :=
  fmt_X 8 (gpt_p1 guid) ++ zstr "-" ++ fmt_X 4 (gpt_p2 guid) ++ zstr "-" ++ fmt_X 4 (gpt_p3 guid) ++ zstr "-" ++
  fmt_X 2 (guid !!! 8%nat) ++ fmt_X 2 (guid !!! 9%nat) ++ zstr "-" ++ fmt_X 2 (guid !!! 10%nat) ++ fmt_X 2 (guid !!! 11%nat) ++
  fmt_X 2 (guid !!! 12%nat) ++ fmt_X 2 (guid !!! 13%nat) ++ fmt_X 2 (guid !!! 14%nat) ++ fmt_X 2 (guid !!! 15%nat).

(** [sprintf] into a block of memory: the text and its terminator. *)
Definition format_gpt_guid (guid : list Z) (out : list Z) : res (list Z) :=
  let* g := rd_bytes guid 0 16 in wr out 0 (gpt_guid_text g ++ [0]).

(** ** Fixed-width hexadecimal *)

Definition hex_digit (d : Z) : Z := if d <? 10 then 48 + d else 55 + d.
Fixpoint hexw (w : nat) (z : Z) : list Z :=
  match w with O => [] | S n => hexw n (z / 16) ++ [hex_digit (z mod 16)] end.

Lemma hexw_length w z : length (hexw w z) = w.
Proof. revert z; induction w as [|w IH]; intros z; [done|]. cbn. rewrite length_app, IH. cbn. lia. Qed.

Lemma hexw_0 w : hexw w 0 = replicate w 48.
Proof. induction w as [|w IH]; [done|]. cbn [hexw]. change (0 / 16) with 0. rewrite IH. by rewrite replicate_S_end. Qed.

Lemma digits_16_acc fuel z acc : digits_of 16 fuel z acc = digits_of 16 fuel z [] ++ acc.
Proof.
  revert z acc; induction fuel as [|n IH]; intros z acc; [done|]. cbn [digits_of]. cbv zeta.
  destruct (z <? 16); [done|]. rewrite IH, (IH _ [_]), <- app_assoc. done.
Qed.

Lemma fmt_X_hexw_gen w fuel z : (1 <= w <= fuel)%nat -> 0 <= z < 16 ^ Z.of_nat w ->
  replicate (w - length (digits_of 16 fuel z [])) 48 ++ digits_of 16 fuel z [] = hexw w z.
Proof.
  revert fuel z; induction w as [|w IH]; intros fuel z Hw Hz; [lia|]. destruct fuel as [|n]; [lia|]. cbn [digits_of hexw]. cbv zeta.
  fold (hex_digit (z mod 16)). destruct (Z.ltb_spec z 16) as [Hs|Hs].
  - rewrite Z.div_small, hexw_0 by lia. cbn [length]. by replace (S w - 1)%nat with w by lia.
  - rewrite digits_16_acc, length_app, app_assoc. cbn [length]. f_equal.
    replace (S w - (length (digits_of 16 n (z / 16) []) + 1))%nat with (w - length (digits_of 16 n (z / 16) []))%nat by lia.
    assert (Z.of_nat (S w) = 1 + Z.of_nat w) as E by lia. rewrite E, Z.pow_add_r in Hz by lia.
    destruct w as [|w']; [cbn in Hz; lia|]. apply IH; [lia|].
    split; [apply Z.div_pos; lia|apply Z.div_lt_upper_bound; lia].
Qed.

Lemma fmt_X_hexw w z : (1 <= w <= 16)%nat -> 0 <= z < 16 ^ Z.of_nat w -> fmt_X w z = hexw w z.
Proof. apply fmt_X_hexw_gen. Qed.

Lemma hex_digit_inj f a b : (forall i, 0 <= i < 16 -> f (hex_digit i) = hex_digit i \/ f (hex_digit i) = hex_digit i + 32 /\ 10 <= i) ->
  0 <= a < 16 -> 0 <= b < 16 -> f (hex_digit a) = f (hex_digit b) -> a = b.
Proof.
  intros Hf Ha Hb E. pose proof (Hf a Ha) as Fa. pose proof (Hf b Hb) as Fb. rewrite E in Fa.
  unfold hex_digit in *. destruct (Z.ltb_spec a 10), (Z.ltb_spec b 10); lia.
Qed.

Lemma hexw_inj f w a b : (forall i, 0 <= i < 16 -> f (hex_digit i) = hex_digit i \/ f (hex_digit i) = hex_digit i + 32 /\ 10 <= i) ->
  0 <= a < 16 ^ Z.of_nat w -> 0 <= b < 16 ^ Z.of_nat w -> f <$> hexw w a = f <$> hexw w b -> a = b.
Proof.
  intros Hf. revert a b; induction w as [|w IH]; intros a b Ha Hb E; [cbn in *; lia|]. cbn [hexw] in E.
  rewrite !fmap_app in E. apply app_inj_2 in E as [E1 E2]; [|done]. injection E2 as E2.
  assert (Z.of_nat (S w) = 1 + Z.of_nat w) as Ew by lia. rewrite Ew, Z.pow_add_r in Ha, Hb by lia.
  apply IH in E1; [|split; [apply Z.div_pos; lia|apply Z.div_lt_upper_bound; lia]..].
  apply (hex_digit_inj f) in E2; [|done|apply Z.mod_pos_bound; lia..].
  rewrite (Z.div_mod a 16), (Z.div_mod b 16) by lia. by rewrite E1, E2.
Qed.

Lemma lower_hex i : 0 <= i < 16 -> lower (hex_digit i) = hex_digit i \/ lower (hex_digit i) = hex_digit i + 32 /\ 10 <= i.
Proof. unfold lower, hex_digit. intros Hi. destruct (Z.ltb_spec i 10); case_match; lia. Qed.

Section Fixed.
Context (w : nat) (Hw : (1 <= w <= 16)%nat).

Lemma fmt_X_length z : 0 <= z < 16 ^ Z.of_nat w -> length (fmt_X w z) = w.
Proof. intros Hz. by rewrite fmt_X_hexw, hexw_length. Qed.
Lemma fmt_X_inj a b : 0 <= a < 16 ^ Z.of_nat w -> 0 <= b < 16 ^ Z.of_nat w -> fmt_X w a = fmt_X w b -> a = b.
Proof.
  intros Ha Hb. rewrite !fmt_X_hexw by done. intros E. apply (hexw_inj id w); [by left|done|done|]. by rewrite !list_fmap_id.
Qed.
Lemma fmt_x_length z : 0 <= z < 16 ^ Z.of_nat w -> length (fmt_x w z) = w.
Proof. intros Hz. unfold fmt_x. by rewrite length_fmap, fmt_X_length. Qed.
Lemma fmt_x_inj a b : 0 <= a < 16 ^ Z.of_nat w -> 0 <= b < 16 ^ Z.of_nat w -> fmt_x w a = fmt_x w b -> a = b.
Proof. intros Ha Hb. unfold fmt_x. rewrite !fmt_X_hexw by done. apply hexw_inj; [exact lower_hex|done|done]. Qed.
End Fixed.

(** ** Words out of bytes and bits *)

Lemma high_bits n a l : 0 <= n -> 0 <= a < 2 ^ n -> n <= l -> Z.testbit a l = false.
Proof. intros Hn Ha Hl. by apply (proj1 (Z.bounded_iff_bits_nonneg n a Hn (proj1 Ha)) (proj2 Ha)). Qed.

Lemma lor_shift k a b : 0 <= k -> 0 <= a < 2 ^ k -> Z.lor a (Z.shiftl b k) = a + b * 2 ^ k.
Proof.
  intros Hk Ha. rewrite <- Z.shiftl_mul_pow2 by done. symmetry. apply Z.add_nocarry_lor. apply Z.bits_inj'. intros n Hn.
  rewrite Z.land_spec, Z.bits_0. destruct (Z.lt_ge_cases n k).
  - by rewrite Z.shiftl_spec_low, andb_false_r.
  - by rewrite (high_bits k).
Qed.

Lemma lor_range n a b : 0 <= n -> 0 <= a < 2 ^ n -> 0 <= b < 2 ^ n -> 0 <= Z.lor a b < 2 ^ n.
Proof.
  intros Hn Ha Hb. assert (0 <= Z.lor a b) as H0 by (apply Z.lor_nonneg; lia). split; [done|].
  apply Z.bounded_iff_bits_nonneg; [done..|]. intros l Hl. by rewrite Z.lor_spec, !(high_bits n).
Qed.

Lemma land_range n a m : 0 <= n -> 0 <= a -> 0 <= m < 2 ^ n -> 0 <= Z.land a m < 2 ^ n.
Proof.
  intros Hn Ha Hm. assert (0 <= Z.land a m) as H0 by (apply Z.land_nonneg; lia). split; [done|].
  apply Z.bounded_iff_bits_nonneg; [done..|]. intros l Hl. by rewrite Z.land_spec, (high_bits n m), andb_false_r.
Qed.

Lemma shiftr_range n k a : 0 <= k -> 0 <= a < 2 ^ (k + n) -> 0 <= n -> 0 <= Z.shiftr a k < 2 ^ n.
Proof.
  intros Hk Ha Hn. rewrite Z.shiftr_div_pow2 by done. rewrite Z.pow_add_r in Ha by done.
  split; [apply Z.div_pos; lia|apply Z.div_lt_upper_bound; lia].
Qed.

(** A word with some bits forced determines the others. *)
Lemma forced_bits a m f : Z.land f m = 0 -> Z.land (Z.lor (Z.land a m) f) m = Z.land a m.
Proof. intros Hf. by rewrite Z.land_lor_distr_l, <- Z.land_assoc, Z.land_diag, Hf, Z.lor_0_r. Qed.

Lemma halves a b : 0 <= a -> 0 <= b -> Z.shiftr a 16 = Z.shiftr b 16 -> Z.land a 0xFFFF = Z.land b 0xFFFF -> a = b.
Proof.
  intros Ha Hb. change 0xFFFF with (Z.ones 16). rewrite !Z.land_ones, !Z.shiftr_div_pow2 by lia. intros E1 E2.
  rewrite (Z.div_mod a (2 ^ 16)), (Z.div_mod b (2 ^ 16)) by lia. by rewrite E1, E2.
Qed.

(** ** The texts *)

Definition guid_ok (g : list Z) : Prop := length g = 16%nat /\ Forall is_byte g.

Lemma byte_at g i : Forall is_byte g -> (i < length g)%nat -> 0 <= g !!! i < 16 ^ Z.of_nat 2.
Proof.
  intros Hb Hi. destruct (lookup_lt_is_Some_2 g i Hi) as [x Hx]. rewrite (list_lookup_total_correct _ _ _ Hx).
  exact (Forall_lookup_1 _ _ _ _ Hb Hx).
Qed.

Lemma gpt_words g : guid_ok g ->
  gpt_p1 g = g !!! 0%nat + 2 ^ 8 * g !!! 1%nat + 2 ^ 16 * g !!! 2%nat + 2 ^ 24 * g !!! 3%nat /\
  gpt_p2 g = g !!! 4%nat + 2 ^ 8 * g !!! 5%nat /\ gpt_p3 g = g !!! 6%nat + 2 ^ 8 * g !!! 7%nat.
Proof.
  intros [Hl Hb]. pose proof (fun i => byte_at g i Hb) as B. rewrite Hl in B. change (16 ^ Z.of_nat 2) with 256 in B.
  pose proof (B 0%nat ltac:(lia)). pose proof (B 1%nat ltac:(lia)). pose proof (B 2%nat ltac:(lia)). pose proof (B 3%nat ltac:(lia)).
  pose proof (B 4%nat ltac:(lia)). pose proof (B 5%nat ltac:(lia)). pose proof (B 6%nat ltac:(lia)). pose proof (B 7%nat ltac:(lia)).
  unfold gpt_p1, gpt_p2, gpt_p3, u32, u16. rewrite !(lor_shift 8), (lor_shift 16), (lor_shift 24) by lia.
  rewrite !wrap_small by lia. lia.
Qed.

Lemma gpt_p_range g :
  0 <= gpt_p1 g < 16 ^ Z.of_nat 8 /\ 0 <= gpt_p2 g < 16 ^ Z.of_nat 4 /\ 0 <= gpt_p3 g < 16 ^ Z.of_nat 4.
Proof.
  split; [apply (wrap_range 32); lia|split; apply (wrap_range 16); lia].
Qed.

Lemma gpt_text_length g : guid_ok g -> length (gpt_guid_text g) = 36%nat.
Proof.
  intros Hg. destruct (gpt_p_range g) as (H1 & H2 & H3). destruct Hg as [Hl Hb].
  unfold gpt_guid_text. rewrite !length_app, !fmt_X_length by (done || lia || (apply byte_at; [done|lia])). done.
Qed.

Lemma gpt_text_inj g g' : guid_ok g -> guid_ok g' -> gpt_guid_text g = gpt_guid_text g' -> g = g'.
Proof.
  intros Hg Hg' E. destruct (gpt_p_range g) as (H1 & H2 & H3). destruct (gpt_p_range g') as (H1' & H2' & H3').
  destruct (gpt_words g Hg) as (W1 & W2 & W3). destruct (gpt_words g' Hg') as (W1' & W2' & W3').
  destruct Hg as [Hl Hb], Hg' as [Hl' Hb']. pose proof (fun i => byte_at g i Hb) as B. pose proof (fun i => byte_at g' i Hb') as B'.
  rewrite Hl in B. rewrite Hl' in B'. unfold gpt_guid_text in E.
  assert (forall i j, (i < 16)%nat -> (j < 16)%nat -> length (fmt_X 2 (g !!! i)) = length (fmt_X 2 (g' !!! j))) as HL.
  { intros i j Hi Hj. rewrite !fmt_X_length; [done|lia|by apply B'|lia|by apply B]. }
  repeat (apply app_inj_1 in E as [? E]; [|first [done|by apply HL; lia|rewrite !fmt_X_length by (done || lia); done]]).
  apply fmt_X_inj in E; [|lia|apply B; lia|apply B'; lia].
  repeat match goal with
    | H : fmt_X 2 (g !!! ?i) = fmt_X 2 (g' !!! ?i) |- _ => apply (fmt_X_inj 2 ltac:(lia)) in H; [|apply B; lia|apply B'; lia]
    | H : fmt_X ?w _ = fmt_X ?w _ |- _ => apply (fmt_X_inj w ltac:(lia)) in H; [|done|done]
    end.
  rewrite W1, W1' in *. rewrite W2, W2' in *. rewrite W3, W3' in *.
  assert (forall i, (i < 8)%nat -> 0 <= g !!! i < 256 /\ 0 <= g' !!! i < 256) as C by (intros i Hi; split; [apply B|apply B']; lia).
  apply list_eq_same_length with 16%nat; [done..|]. intros i x y Hi Hx Hy.
  rewrite <- (list_lookup_total_correct _ _ _ Hx), <- (list_lookup_total_correct _ _ _ Hy).
  pose proof (C 0%nat ltac:(lia)). pose proof (C 1%nat ltac:(lia)). pose proof (C 2%nat ltac:(lia)). pose proof (C 3%nat ltac:(lia)).
  pose proof (C 4%nat ltac:(lia)). pose proof (C 5%nat ltac:(lia)). pose proof (C 6%nat ltac:(lia)). pose proof (C 7%nat ltac:(lia)).
  clear B B' C HL. do 16 (destruct i as [|i]; [lia|]). lia.
Qed.

Definition mac_ok (m : list Z) : Prop := length m = 6%nat /\ Forall is_byte m.

Lemma mac_text_whole m : mac_ok m -> mac_text m =
  fmt_X 2 (m !!! 0%nat) ++ zstr ":" ++ fmt_X 2 (m !!! 1%nat) ++ zstr ":" ++ fmt_X 2 (m !!! 2%nat) ++ zstr ":" ++
  fmt_X 2 (m !!! 3%nat) ++ zstr ":" ++ fmt_X 2 (m !!! 4%nat) ++ zstr ":" ++ fmt_X 2 (m !!! 5%nat).
Proof.
  intros [Hl Hb]. unfold mac_text. apply take_ge.
  rewrite !length_app, !fmt_X_length by (lia || (apply byte_at; [done|lia])). done.
Qed.

Lemma mac_text_inj m m' : mac_ok m -> mac_ok m' -> mac_text m = mac_text m' -> m = m'.
Proof.
  intros Hm Hm'. rewrite !mac_text_whole by done. intros E. destruct Hm as [Hl Hb], Hm' as [Hl' Hb'].
  pose proof (fun i => byte_at m i Hb) as B. pose proof (fun i => byte_at m' i Hb') as B'. rewrite Hl in B. rewrite Hl' in B'.
  assert (forall i j, (i < 6)%nat -> (j < 6)%nat -> length (fmt_X 2 (m !!! i)) = length (fmt_X 2 (m' !!! j))) as HL.
  { intros i j Hi Hj. rewrite !fmt_X_length; [done|lia|by apply B'|lia|by apply B]. }
  repeat (apply app_inj_1 in E as [? E]; [|first [done|by apply HL; lia]]).
  apply fmt_X_inj in E; [|lia|apply B; lia|apply B'; lia].
  repeat match goal with
    | H : fmt_X 2 (m !!! ?i) = fmt_X 2 (m' !!! ?i) |- _ => apply (fmt_X_inj 2 ltac:(lia)) in H; [|apply B; lia|apply B'; lia]
    end.
  apply list_eq_same_length with 6%nat; [done..|]. intros i x y Hi Hx Hy.
  rewrite <- (list_lookup_total_correct _ _ _ Hx), <- (list_lookup_total_correct _ _ _ Hy).
  clear B B' HL. do 6 (destruct i as [|i]; [lia|]). lia.
Qed.

(** The words of a UUID as printed, and their ranges. *)
Definition uuid_w0 (d : list Z) : Z := Z.lor (Z.land (d !!! 0%nat) 0xFFFF0FFF) 0x00004000.
Definition uuid_w1 (d : list Z) : Z := Z.lor (Z.land (d !!! 1%nat) 0x0FFFFFFF) 0x80000000.
Definition words_ok (d : list Z) : Prop := length d = 4%nat /\ Forall (fun z => 0 <= z < 2 ^ 32) d.

Lemma word_at d i : words_ok d -> (i < 4)%nat -> 0 <= d !!! i < 2 ^ 32.
Proof.
  intros [Hl Hd] Hi. destruct (lookup_lt_is_Some_2 d i) as [x Hx]; [lia|]. rewrite (list_lookup_total_correct _ _ _ Hx).
  exact (Forall_lookup_1 _ _ _ _ Hd Hx).
Qed.

Lemma uuid_ranges d : words_ok d ->
  0 <= uuid_w0 d < 2 ^ 32 /\ 0 <= uuid_w1 d < 2 ^ 32 /\
  0 <= Z.shiftr (uuid_w1 d) 16 < 2 ^ 16 /\ 0 <= Z.land (uuid_w1 d) 0xFFFF < 2 ^ 16 /\
  0 <= Z.shiftr (d !!! 2%nat) 16 < 2 ^ 16 /\ 0 <= Z.land (d !!! 2%nat) 0xFFFF < 2 ^ 16 /\ 0 <= d !!! 3%nat < 2 ^ 32.
Proof.
  intros Hd. pose proof (fun i => word_at d i Hd) as B. pose proof (B 0%nat ltac:(lia)). pose proof (B 1%nat ltac:(lia)).
  pose proof (B 2%nat ltac:(lia)). pose proof (B 3%nat ltac:(lia)).
  assert (0 <= uuid_w0 d < 2 ^ 32) by (apply lor_range; [lia|apply land_range; lia|lia]).
  assert (0 <= uuid_w1 d < 2 ^ 32) by (apply lor_range; [lia|apply land_range; lia|lia]).
  repeat match goal with |- (_ <= _ < _) /\ _ => split end;
    first [done | apply shiftr_range; lia | apply land_range; lia].
Qed.

Lemma uuid_text_whole d : words_ok d -> uuid_text d =
  fmt_x 8 (uuid_w0 d) ++ zstr "-" ++ fmt_x 4 (Z.shiftr (uuid_w1 d) 16) ++ zstr "-" ++ fmt_x 4 (Z.land (uuid_w1 d) 0xFFFF) ++
  zstr "-" ++ fmt_x 4 (Z.shiftr (d !!! 2%nat) 16) ++ zstr "-" ++ fmt_x 4 (Z.land (d !!! 2%nat) 0xFFFF) ++ fmt_x 8 (d !!! 3%nat).
Proof.
  intros Hd. destruct (uuid_ranges d Hd) as (R0 & _ & R1 & R2 & R3 & R4 & R5). unfold uuid_text. cbv zeta.
  fold (uuid_w0 d) (uuid_w1 d). apply take_ge. rewrite !length_app, !fmt_x_length by (done || lia). done.
Qed.

Lemma uuid_text_words d d' : words_ok d -> words_ok d' -> uuid_text d = uuid_text d' ->
  uuid_w0 d = uuid_w0 d' /\ uuid_w1 d = uuid_w1 d' /\ d !!! 2%nat = d' !!! 2%nat /\ d !!! 3%nat = d' !!! 3%nat.
Proof.
  intros Hd Hd'. rewrite !uuid_text_whole by done. destruct (uuid_ranges d Hd) as (R0 & R0' & R1 & R2 & R3 & R4 & R5).
  destruct (uuid_ranges d' Hd') as (S0 & S0' & S1 & S2 & S3 & S4 & S5). intros E.
  assert (forall w a b, (1 <= w <= 16)%nat -> 0 <= a < 16 ^ Z.of_nat w -> 0 <= b < 16 ^ Z.of_nat w ->
    length (fmt_x w a) = length (fmt_x w b)) as HL by (intros; by rewrite !fmt_x_length).
  repeat (apply app_inj_1 in E as [? E]; [|first [done|apply HL; done || lia]]).
  repeat match goal with
    | H : fmt_x ?w _ = fmt_x ?w _ |- _ => apply (fmt_x_inj w ltac:(lia)) in H; [|done|done]
    end.
  split_and!; [done|apply halves; try done; lia|apply halves; try done; apply (word_at _ 2); done || lia|done].
Qed.

(** The digits the forced bits fix. *)
Lemma uuid_fixed_digits d : words_ok d ->
  exists a b r, uuid_text d = a ++ [52] ++ b ++ [45; 56] ++ r /\ length a = 4%nat /\ length b = 3%nat.
Proof.
  intros Hd. destruct (uuid_ranges d Hd) as (R0 & R0' & R1 & _). rewrite uuid_text_whole by done.
  assert ((uuid_w0 d / 16 / 16 / 16) mod 16 = 4) as D0.
  { rewrite !Z.div_div by lia. change (16 * (16 * 16)) with (2 ^ 12). change 16 with (2 ^ 4).
    rewrite <- Z.shiftr_div_pow2, <- Z.land_ones by lia. unfold uuid_w0.
    by rewrite Z.shiftr_lor, Z.shiftr_land, Z.land_lor_distr_l, <- Z.land_assoc, Z.land_0_r. }
  assert ((Z.shiftr (uuid_w1 d) 16 / 16 / 16 / 16) mod 16 = 8) as D1.
  { rewrite !Z.div_div by lia. change (16 * (16 * 16)) with (2 ^ 12). change 16 with (2 ^ 4) at 2.
    rewrite <- Z.shiftr_div_pow2, <- Z.land_ones by lia. unfold uuid_w1.
    by rewrite !Z.shiftr_lor, !Z.shiftr_land, Z.land_lor_distr_l, <- Z.land_assoc, Z.land_0_r. }
  unfold fmt_x. rewrite (fmt_X_hexw 8 (uuid_w0 d)), (fmt_X_hexw 4 (Z.shiftr (uuid_w1 d) 16)) by (done || lia).
  cbn [hexw fmap list_fmap app]. rewrite D0, D1. by eexists [_; _; _; _], [_; _; _], _.
Qed.

(** ** Properties *)

(** A partition GUID is printed in 36 characters and a terminator, never more:
    an array of 37 bytes is enough and a smaller one is overrun; and the text
    determines the sixteen bytes. *)
Theorem gpt_guid_exact guid out : guid_ok guid ->
  format_gpt_guid guid out =
    (if 37 <=? Z.of_nat (length out) then Ok (gpt_guid_text guid ++ [0] ++ drop 37 out) else Fault) /\
  length (gpt_guid_text guid) = 36%nat /\
  forall guid', guid_ok guid' -> gpt_guid_text guid' = gpt_guid_text guid -> guid' = guid.
Proof.
  intros Hg. pose proof (gpt_text_length guid Hg) as Hl. split_and!; [|done|intros g' Hg'; by apply gpt_text_inj].
  destruct Hg as [Hn Hb]. unfold format_gpt_guid. rewrite rd_bytes_ok by lia. cbn [res_bind].
  change (Z.to_nat 0) with 0%nat. rewrite drop_0, take_ge by (rewrite Hn; cbn; lia).
  assert (length (gpt_guid_text guid ++ [0]) = 37%nat) as Hl' by (by rewrite length_app, Hl).
  destruct (Z.leb_spec 37 (Z.of_nat (length out))).
  - rewrite wr_ok by (rewrite ?Hl'; lia). change (Z.to_nat 0) with 0%nat. unfold copy_at. by rewrite take_0, Hl', <- app_assoc.
  - unfold wr, in_block. rewrite Hl'. rewrite (proj2 (Z.leb_gt (0 + Z.of_nat 37) _)) by lia. by rewrite ?andb_false_r.
Qed.

(** Machines are told apart by their hardware address: the text of a six-byte
    address has 17 characters, so the 18-byte buffer holds it whole, and two
    addresses have the same text only when they are the same. *)
Theorem mac_identity m m' : mac_ok m -> mac_ok m' ->
  length (mac_text m) = 17%nat /\ (mac_text m = mac_text m' <-> m = m').
Proof.
  intros Hm Hm'. split; [|split; [by apply mac_text_inj|by intros ->]]. rewrite mac_text_whole by done.
  destruct Hm as [Hl Hb]. rewrite !length_app, !fmt_X_length by (lia || (apply byte_at; [done|lia])). done.
Qed.

(** A boot identifier carries 120 of its 128 random bits: the text has 36
    characters, two words of random bits give the same text exactly when they
    agree outside the eight forced bits, and what the forced bits fix are the
    fifth digit of the text, a 4, and the first digit of its second group, an 8.
    The version and variant digits of a UUID are the first of the third and of
    the fourth group, which stay random. *)
Theorem uuid_identity d d' : words_ok d -> words_ok d' ->
  length (uuid_text d) = 36%nat /\
  (uuid_text d = uuid_text d' <->
     Z.land (d !!! 0%nat) 0xFFFF0FFF = Z.land (d' !!! 0%nat) 0xFFFF0FFF /\
     Z.land (d !!! 1%nat) 0x0FFFFFFF = Z.land (d' !!! 1%nat) 0x0FFFFFFF /\
     d !!! 2%nat = d' !!! 2%nat /\ d !!! 3%nat = d' !!! 3%nat) /\
  uuid_text d !! 4%nat = Some 52 /\ uuid_text d !! 9%nat = Some 56.
Proof.
  intros Hd Hd'. split_and!.
  - rewrite uuid_text_whole by done. destruct (uuid_ranges d Hd) as (R0 & _ & R1 & R2 & R3 & R4 & R5).
    rewrite !length_app, !fmt_x_length by (done || lia). done.
  - split.
    + intros E. destruct (uuid_text_words d d' Hd Hd' E) as (E0 & E1 & E2 & E3).
      rewrite <- (forced_bits (d !!! 0%nat) _ 0x4000), <- (forced_bits (d' !!! 0%nat) _ 0x4000) by done.
      rewrite <- (forced_bits (d !!! 1%nat) _ 0x80000000), <- (forced_bits (d' !!! 1%nat) _ 0x80000000) by done.
      fold (uuid_w0 d) (uuid_w0 d') (uuid_w1 d) (uuid_w1 d'). by rewrite E0, E1.
    + intros (E0 & E1 & E2 & E3). unfold uuid_text. cbv zeta. by rewrite E0, E1, E2, E3.
  - destruct (uuid_fixed_digits d Hd) as (a & b & r & -> & Ha & Hb).
    by destruct a as [|? [|? [|? [|? []]]]]; try discriminate Ha.
  - destruct (uuid_fixed_digits d Hd) as (a & b & r & -> & Ha & Hb).
    destruct a as [|? [|? [|? [|? []]]]]; try discriminate Ha. by destruct b as [|? [|? [|? []]]]; try discriminate Hb.
Qed.

(** ** Witnesses *)

Definition efi_bytes : list Z := [0x28; 0x73; 0x2A; 0xC1; 0x1F; 0xF8; 0xD2; 0x11; 0xBA; 0x4B; 0x00; 0xA0; 0xC9; 0x3E; 0xC9; 0x3B].
Definition words_a : list Z := [0x12345678; 0x9ABCDEF0; 0x0FEDCBA9; 0x87654321].
Definition words_b : list Z := [0x1234F678; 0x3ABCDEF0; 0x0FEDCBA9; 0x87654321].

Lemma words_ab_ok : words_ok words_a /\ words_ok words_b.
Proof. split; (split; [done|repeat constructor; lia]). Qed.

Lemma gpt_guid_exact_witness :
  format_gpt_guid efi_bytes (replicate 40 7) = Ok (zstr "C12A7328-F81F-11D2-BA4B-00A0C93EC93B" ++ [0; 7; 7; 7]).
Proof. exact (proj1 (gpt_guid_exact efi_bytes (replicate 40 7) (conj eq_refl (bytesb_ok efi_bytes eq_refl)))). Defined.

Lemma mac_identity_witness : mac_text [0; 0x1A; 0x2B; 0x3C; 0x4D; 0x5E] <> mac_text [0; 0x1A; 0x2B; 0x3C; 0x4D; 0x5F].
Proof.
  intros E. apply (mac_identity [0; 0x1A; 0x2B; 0x3C; 0x4D; 0x5E] [0; 0x1A; 0x2B; 0x3C; 0x4D; 0x5F]) in E; [done|..];
    (split; [done|by apply bytesb_ok]).
Defined.

Lemma uuid_identity_witness : uuid_text words_a = uuid_text words_b /\ uuid_text words_a <> uuid_text [0; 0; 0; 0].
Proof.
  split.
  - apply (uuid_identity words_a words_b); [apply words_ab_ok..|done].
  - done.
Defined.

(** The third group of this identifier starts with a D, not with a 4. *)
Example uuid_not_version_4 : uuid_text words_a = zstr "12344678-8abc-def0-0fed-cba987654321".
Proof. by vm_compute. Qed.
