(* ===== verification/Replay.v ===== *)
(** * The boot replay recorder (src/tools/replay_recorder/replay_recorder.cpp,
    the recording half)

    I/O events go to a ring of packed entries of 33 bytes; the ring is written to
    a file with a header and a footer, or to COM1 when the file cannot be
    created. [Write] is the composition of the steps a recording thread takes on
    the shared ring ([slot_for] to [note_overwrite]), so that the same steps can
    be interleaved. *)

From S2P Require Import Prelude Crc32c BootEnv Text Packed AgentEnv.
#[local] Open Scope Z_scope.

Definition REPLAY_MAGIC : Z := 0x48445852.
Definition REPLAY_FOOTER_MAGIC : Z := 0x48445846.
Definition REPLAY_VERSION : Z := 1.
Definition REPLAY_ENTRY_SIZE : Z := 33.
Definition REPLAY_HEADER_SIZE : Z := 16.
Definition REPLAY_FOOTER_SIZE : Z := 8.
Definition REPLAY_DEFAULT_CAPACITY : Z := 64 * 1024 * 1024.

(** ** The packed structures *)

Record ReplayEntry : Type := mkReplay {
  r_lba : Z;
  r_offset : Z;
  r_size : Z;
  r_latency_us : Z;
  r_status : Z;
  r_timestamp_ms : Z;
  r_reserved : Z;
}.
Record replay_wf (e : ReplayEntry) : Prop := {
  rw_lba : int_ok 8 (r_lba e);
  rw_offset : int_ok 8 (r_offset e);
  rw_size : int_ok 4 (r_size e);
  rw_latency_us : int_ok 4 (r_latency_us e);
  rw_status : int_ok 4 (r_status e);
  rw_timestamp_ms : int_ok 4 (r_timestamp_ms e);
  rw_reserved : int_ok 1 (r_reserved e);
}.
Definition replay_fields (e : ReplayEntry) : list (list Z) :=
  [le_bytes 8 (r_lba e); le_bytes 8 (r_offset e); le_bytes 4 (r_size e); le_bytes 4 (r_latency_us e);
   le_bytes 4 (r_status e); le_bytes 4 (r_timestamp_ms e); le_bytes 1 (r_reserved e)].
Definition replay_make (fs : list (list Z)) : ReplayEntry :=
  match fs with
  | [a; b; c; d; e; f; g] => mkReplay (le_val a) (le_val b) (le_val c) (le_val d) (le_val e) (le_val f) (le_val g)
  | _ => mkReplay 0 0 0 0 0 0 0
  end.
#[export, refine] Instance ReplayEntry_packed : Packed ReplayEntry := {
  p_sizes := [8; 8; 4; 4; 4; 4; 1]%nat;
  p_fields := replay_fields;
  p_make := replay_make;
  p_wf := replay_wf;
}.
Proof. packed_ok. packed_read. packed_make. Defined.

Record ReplayFileHeader : Type := mkReplayHeader {
  rh_magic : Z;
  rh_version : Z;
  rh_entry_count : Z;
  rh_header_crc32c : Z;
  rh_reserved : Z;
}.
Record replay_header_wf (h : ReplayFileHeader) : Prop := {
  rhw_magic : int_ok 4 (rh_magic h);
  rhw_version : int_ok 2 (rh_version h);
  rhw_entry_count : int_ok 4 (rh_entry_count h);
  rhw_header_crc32c : int_ok 4 (rh_header_crc32c h);
  rhw_reserved : int_ok 2 (rh_reserved h);
}.
Definition replay_header_fields (h : ReplayFileHeader) : list (list Z) :=
  [le_bytes 4 (rh_magic h); le_bytes 2 (rh_version h); le_bytes 4 (rh_entry_count h); le_bytes 4 (rh_header_crc32c h);
   le_bytes 2 (rh_reserved h)].
Definition replay_header_make (fs : list (list Z)) : ReplayFileHeader :=
  match fs with
  | [a; b; c; d; e] => mkReplayHeader (le_val a) (le_val b) (le_val c) (le_val d) (le_val e)
  | _ => mkReplayHeader 0 0 0 0 0
  end.
#[export, refine] Instance ReplayFileHeader_packed : Packed ReplayFileHeader := {
  p_sizes := [4; 2; 4; 4; 2]%nat;
  p_fields := replay_header_fields;
  p_make := replay_header_make;
  p_wf := replay_header_wf;
}.
Proof. packed_ok. packed_read. packed_make. Defined.

Record ReplayFileFooter : Type := mkReplayFooter { rf_total_crc32c : Z; rf_footer_magic : Z }.
Record replay_footer_wf (f : ReplayFileFooter) : Prop := {
  rfw_total_crc32c : int_ok 4 (rf_total_crc32c f);
  rfw_footer_magic : int_ok 4 (rf_footer_magic f);
}.
Definition replay_footer_fields (f : ReplayFileFooter) : list (list Z) :=
  [le_bytes 4 (rf_total_crc32c f); le_bytes 4 (rf_footer_magic f)].
Definition replay_footer_make (fs : list (list Z)) : ReplayFileFooter :=
  match fs with
  | [a; b] => mkReplayFooter (le_val a) (le_val b)
  | _ => mkReplayFooter 0 0
  end.
#[export, refine] Instance ReplayFileFooter_packed : Packed ReplayFileFooter := {
  p_sizes := [4; 4]%nat;
  p_fields := replay_footer_fields;
  p_make := replay_footer_make;
  p_wf := replay_footer_wf;
}.
Proof. packed_ok. packed_read. packed_make. Defined.

(** ** The checksum, with its table in static memory *)

Definition replay_crc_bit (crc : Z) : Z :=
  if negb (Z.land crc 1 =? 0) then Z.lxor (Z.shiftr crc 1) 0x82F63B78 else Z.shiftr crc 1.
Definition EnsureCrc32cInit (st : CrcStatic) : CrcStatic :=
  if crc32c_table_init st then st
  else mkCrcStatic (Nat.iter 8 replay_crc_bit <$> seqZ 0 256) true.
Definition replay_crc_step (table : list Z) (crc b : Z) : Z :=
  Z.lxor (Z.shiftr crc 8) (table !!! Z.to_nat (Z.land (Z.lxor crc b) 0xFF)).
Definition ComputeCrc32C (data : list Z) (st : CrcStatic) : Z * CrcStatic :=
  let st := EnsureCrc32cInit st in
  (Z.lxor (foldl (replay_crc_step (crc32c_table st)) 0xFFFFFFFF data) 0xFFFFFFFF, st).

(** ** The ring *)

Record ReplayRingBuffer : Type := mkRing {
  buffer : option (list Z);
  capacity : Z;
  write_count : Z;
  overwrite_count : Z;
  head : Z;
  active : bool;
  record_start : Z;
}.
Definition ReplayRingBuffer_new (cap : Z) : ReplayRingBuffer := mkRing None cap 0 0 0 false 0.

Definition set_buffer (b : option (list Z)) (r : ReplayRingBuffer) : ReplayRingBuffer :=
  mkRing b (capacity r) (write_count r) (overwrite_count r) (head r) (active r) (record_start r).
Definition set_head (h : Z) (r : ReplayRingBuffer) : ReplayRingBuffer :=
  mkRing (buffer r) (capacity r) (write_count r) (overwrite_count r) h (active r) (record_start r).
Definition set_counts (wc oc : Z) (r : ReplayRingBuffer) : ReplayRingBuffer :=
  mkRing (buffer r) (capacity r) wc oc (head r) (active r) (record_start r).
Definition set_recording (on : bool) (t : Z) (r : ReplayRingBuffer) : ReplayRingBuffer :=
  mkRing (buffer r) (capacity r) (write_count r) (overwrite_count r) (head r) on t.

(** The steps of [Write] on the shared ring. *)
Definition slot_for (r : ReplayRingBuffer) : Z :=
  let write_pos := head r in
  if capacity r <? u32 (write_pos + REPLAY_ENTRY_SIZE) then 0 else write_pos.
Definition put_entry (e : ReplayEntry) (write_pos : Z) (r : ReplayRingBuffer) : res ReplayRingBuffer :=
  let* b := of_opt (buffer r) in
  let* b := wr b write_pos (bytes_of e) in
  Ok (set_buffer (Some b) r).
Definition advance (write_pos : Z) (r : ReplayRingBuffer) : ReplayRingBuffer :=
  set_head (u32 (write_pos + REPLAY_ENTRY_SIZE) mod capacity r) r.
Definition count_write (r : ReplayRingBuffer) : ReplayRingBuffer :=
  set_counts (u64 (write_count r + 1)) (overwrite_count r) r.
Definition note_overwrite (r : ReplayRingBuffer) : ReplayRingBuffer :=
  let wc := write_count r in
  let max_entries := capacity r / REPLAY_ENTRY_SIZE in
  if max_entries <? wc then set_counts wc (u64 (wc - max_entries)) r else r.

Definition StopRecording (r : ReplayRingBuffer) : ReplayRingBuffer := set_recording false (record_start r) r.
Definition Destroy (r : ReplayRingBuffer) : ReplayRingBuffer := set_recording false (record_start r) (set_buffer None r).

Fixpoint res_map {A B} (f : A -> res B) (l : list A) : res (list B) :=
  match l with
  | [] => Ok []
  | a :: r => let* b := f a in let* bs := res_map f r in Ok (b :: bs)
  end.

Definition GetAllEntries (r : ReplayRingBuffer) : res (list ReplayEntry) :=
  match buffer r with
  | None => Ok []
  | Some b =>
      let wc := write_count r in
      let max_entries := capacity r / REPLAY_ENTRY_SIZE in
      let count := u32 (Z.min wc max_entries) in
      let read_start := if 0 <? overwrite_count r then head r else 0 in
      res_map (fun i =>
        let pos := u32 (read_start + u32 (i * REPLAY_ENTRY_SIZE)) mod capacity r in
        let* bs := rd_bytes b pos REPLAY_ENTRY_SIZE in Ok (of_bytes bs)) (seqZ 0 count)
  end.

(** The header as [FlushToFile] lays it out in [header_buf]: 12 bytes of the
    structure, the checksum at offset 12, and two bytes stored at offset 16, past
    the end of the array. [after] is the stack memory behind the array that the
    program can lose. *)
Definition header_bytes (after : list Z) (count : Z) (st : CrcStatic) : res (list Z * CrcStatic) :=
  let header := mkReplayHeader REPLAY_MAGIC REPLAY_VERSION count 0 0 in
  let header_buf := take 12 (bytes_of header) ++ replicate 4 0 in
  let '(crc, st) := ComputeCrc32C (take 12 header_buf) st in
  let* stack := wr (header_buf ++ after) 12 (le_bytes 4 crc) in
  let* stack := wr stack 16 (le_bytes 2 0) in
  Ok (take 16 stack, st).

Definition file_image (after : list Z) (entries : list ReplayEntry) (st : CrcStatic) : res (list Z * CrcStatic) :=
  let* (hb, st) := header_bytes after (u32 (Z.of_nat (length entries))) st in
  let file_buf := hb ++ concat (bytes_of <$> entries) in
  let '(crc, st) := ComputeCrc32C (take (Z.to_nat (u32 (Z.of_nat (length file_buf)))) file_buf) st in
  Ok (file_buf ++ bytes_of (mkReplayFooter crc REPLAY_FOOTER_MAGIC), st).

(** What only this program asks of the machine: the command interpreter, renaming
    a file, the local time as text and closing the port. *)
Class ReplayOs (W : Type) : Type := {
  r_system : list Z -> W -> W;
  r_rename : list Z -> list Z -> W -> W;
  r_time_suffix : W -> list Z * W;
  r_com1_close : W -> W;
}.

Definition mkdir_command (dir : list Z) : list Z :=
  zstr "if not exist " ++ [34] ++ dir ++ [34] ++ zstr " mkdir " ++ [34] ++ dir ++ [34].

(** [snprintf] into a buffer of [n] bytes, the text without its NUL. *)
Definition snprintf (n : nat) (text : list Z) : list Z := take (n - 1) text.

Section Ring.
Context {W : Type} `{AgentOs W, !ReplayOs W}.

Definition Initialize (r : ReplayRingBuffer) (w : W) : bool * ReplayRingBuffer * W :=
  match buffer r with
  | Some _ => (true, r, w)
  | None =>
      let '(got, w) := a_alloc (capacity r) w in
      if negb got then (false, r, w)
      else (true, set_buffer (Some (replicate (Z.to_nat (capacity r)) 0)) r, w)
  end.

Definition Write (lba offset size latency_us status reserved : Z) (r : ReplayRingBuffer) (w : W)
    : res (ReplayRingBuffer * W) :=
  if negb (active r) then Ok (r, w) else
  let '(now, w) := a_clock w in
  let timestamp_ms := u32 (Z.quot (now - record_start r) 1000000) in
  let entry := mkReplay lba offset size latency_us status timestamp_ms reserved in
  let write_pos := slot_for r in
  let* r := put_entry entry write_pos r in
  Ok (note_overwrite (count_write (advance write_pos r)), w).

Definition StartRecording (r : ReplayRingBuffer) (w : W) : ReplayRingBuffer * W :=
  let '(now, w) := a_clock w in (set_recording true now r, w).

(** Windows build. The stream is neither checked after the write nor after it
    is closed. *)
Definition FlushToFile (after path : list Z) (r : ReplayRingBuffer) (st : CrcStatic) (w : W)
    : res (bool * ReplayRingBuffer * CrcStatic * W) :=
  let r := StopRecording r in
  let* entries := GetAllEntries r in
  if bool_decide (entries = []) then Ok (false, r, st, w) else
  let* (file_buf, st) := file_image after entries st in
  let w := match last_sep path 0 None with
           | Some i => r_system (mkdir_command (take i path)) w
           | None => w
           end in
  let '(opened, w) := a_save path file_buf w in
  Ok (match opened with Some _ => true | None => false end, r, st, w).

Definition com1_event (i : nat) (e : ReplayEntry) : list Z :=
  snprintf 256 (zstr "[" ++ fmt_u (Z.of_nat i) ++ zstr "] LBA=" ++ fmt_u (r_lba e) ++ zstr " S=" ++ fmt_u (r_status e) ++
                zstr " L=" ++ fmt_u (r_latency_us e) ++ zstr "us T=" ++ fmt_u (r_timestamp_ms e) ++ zstr "ms" ++ crlf).
Definition com1_lines (entries : list ReplayEntry) : list (list Z) :=
  [snprintf 256 (zstr "Replay: EMERGENCY — " ++ fmt_u (Z.of_nat (length entries)) ++ zstr " entries" ++ crlf)] ++
  imap com1_event (take (Z.to_nat (Z.min (u32 (Z.of_nat (length entries))) 1000)) entries) ++
  [zstr "Replay: EMERGENCY dump complete" ++ crlf].

Definition FlushToCom1 (r : ReplayRingBuffer) (w : W) : res (bool * ReplayRingBuffer * W) :=
  let r := StopRecording r in
  let* entries := GetAllEntries r in
  let '(opened, w) := a_com1_open w in
  if negb opened then Ok (false, r, w) else
  Ok (true, r, r_com1_close (foldl (fun w l => a_com1_write l w) w (com1_lines entries))).

(** ** The recorder *)

Record BootReplayRecorder : Type := mkReplayRecorder { ring : ReplayRingBuffer; flushed : bool }.
Definition BootReplayRecorder_new : BootReplayRecorder := mkReplayRecorder (ReplayRingBuffer_new REPLAY_DEFAULT_CAPACITY) false.

Definition Start (b : BootReplayRecorder) (w : W) : bool * BootReplayRecorder * W :=
  let '(ok, r, w) := Initialize (ring b) w in
  if negb ok then (false, mkReplayRecorder r (flushed b), w) else
  let '(r, w) := StartRecording r w in
  (true, mkReplayRecorder r false, w).

Definition Stop (b : BootReplayRecorder) : BootReplayRecorder := mkReplayRecorder (StopRecording (ring b)) (flushed b).

Definition RecordIo (lba offset size latency_us status reserved : Z) (b : BootReplayRecorder) (w : W)
    : res (BootReplayRecorder * W) :=
  let* (r, w) := Write lba offset size latency_us status reserved (ring b) w in
  Ok (mkReplayRecorder r (flushed b), w).

Definition FlushNormal (after path : list Z) (b : BootReplayRecorder) (st : CrcStatic) (w : W)
    : res (bool * BootReplayRecorder * CrcStatic * W) :=
  if flushed b then Ok (true, b, st, w) else
  let* (ok, r, st, w) := FlushToFile after path (ring b) st w in
  Ok (ok, mkReplayRecorder r (if ok : bool then true else flushed b), st, w).

Definition emergency_path : list Z := zstr "C:\HyperDisk\replay\boot_replay.bin".

Definition FlushEmergency (after : list Z) (b : BootReplayRecorder) (st : CrcStatic) (w : W)
    : res (bool * BootReplayRecorder * CrcStatic * W) :=
  if flushed b then Ok (true, b, st, w) else
  let* (ok, r, st, w) := FlushToFile after emergency_path (ring b) st w in
  if ok : bool then Ok (true, mkReplayRecorder r true, st, w) else
  let* (ok, r, w) := FlushToCom1 r w in
  Ok (ok, mkReplayRecorder r (flushed b), st, w).

Definition incomplete_path (path suffix : list Z) : list Z :=
  match rfind 46 path with
  | Some dot => take dot path ++ zstr "_incomplete" ++ suffix ++ drop dot path
  | None => path ++ zstr "_incomplete" ++ suffix
  end.

Definition CheckAndRenameIncomplete (path : list Z) (w : W) : W :=
  let '(file, w) := a_load path w in
  match file with
  | None => w
  | Some bs =>
      if Z.of_nat (length bs) <? REPLAY_HEADER_SIZE + REPLAY_FOOTER_SIZE then
        let '(suffix, w) := r_time_suffix w in
        r_rename path (incomplete_path path suffix) w
      else w
  end.
End Ring.

(** ** Lemmas: the checksum and single entries *)

Lemma replay_crc_eq data st : ComputeCrc32C data st = bootdiag_compute_crc32c data st.
Proof. reflexivity. Qed.

Lemma replay_size e : replay_wf e -> length (bytes_of e) = 33%nat.
Proof. exact (bytes_of_length (A:=ReplayEntry) e). Qed.

Lemma res_map_ok {A B} (f : A -> res B) l bs :
  Forall2 (fun a b => f a = Ok b) l bs -> res_map f l = Ok bs.
Proof. induction 1 as [|a b l bs E _ IH]; [done|]. cbn. by rewrite E, IH. Qed.

(** A loop whose passes give a value or fault, one of them a fault. *)
Lemma res_map_fault {A B} (f : A -> res B) l a :
  (forall x, f x <> NoFuel) -> a ∈ l -> f a = Fault -> res_map f l = Fault.
Proof.
  intros Hf Ha Ea. induction l as [|b l IH]; [by apply elem_of_nil in Ha|]. cbn [res_map].
  apply elem_of_cons in Ha as [<-|Ha]; [by rewrite Ea|].
  destruct (f b) eqn:Eb; [|done|by destruct (Hf b)]. cbn [res_bind]. by rewrite IH.
Qed.

(** ** Lemmas: positions

    [slots cap] entries fit; write number [n] goes to slot [n mod slots cap];
    [head_at cap n] is the head after [n] writes. *)

Definition cap_ok (cap : Z) : Prop := 33 <= cap <= 2 ^ 31.
Definition slots (cap : Z) : Z := cap / 33.
Definition head_at (cap n : Z) : Z := if n =? 0 then 0 else 33 * ((n - 1) mod slots cap + 1) mod cap.

Section Positions.
Context (cap : Z) (Hcap : cap_ok cap).

Lemma slots_pos : 0 < slots cap /\ 33 * slots cap <= cap < 33 * slots cap + 33.
Proof using Hcap. unfold cap_ok, slots in *. Z.div_mod_to_equations. lia. Qed.

Lemma mod_succ n : 0 <= n ->
  (n + 1) mod slots cap = if (n mod slots cap + 1 =? slots cap) then 0 else n mod slots cap + 1.
Proof using Hcap.
  intros Hn. destruct slots_pos as [Hs _]. pose proof (Z.mod_pos_bound n (slots cap) Hs).
  rewrite <- Zplus_mod_idemp_l. destruct (Z.eqb_spec (n mod slots cap + 1) (slots cap)) as [->|].
  - by apply Z.mod_same; lia.
  - apply Z.mod_small. lia.
Qed.

Lemma head_step n : 0 <= n -> u32 (33 * (n mod slots cap) + 33) mod cap = head_at cap (n + 1).
Proof using Hcap.
  intros Hn. destruct slots_pos as [Hs ?]. pose proof (Z.mod_pos_bound n (slots cap) Hs). unfold head_at, cap_ok in *.
  rewrite (proj2 (Z.eqb_neq _ _)) by lia. unfold u32. rewrite wrap_small by lia. f_equal. replace (n + 1 - 1) with n by lia. lia.
Qed.

(** The head after [n] writes: the slot of the next write, or the end of the
    last slot when that leaves a remainder of the buffer behind it. *)
Lemma head_cases n : 0 <= n ->
  head_at cap n = 33 * (n mod slots cap) /\ (0 < n mod slots cap \/ n = 0 \/ cap = 33 * slots cap) \/
  0 < n /\ n mod slots cap = 0 /\ head_at cap n = 33 * slots cap /\ 33 * slots cap < cap.
Proof using Hcap.
  intros Hn. destruct slots_pos as [Hs ?]. unfold head_at. destruct (Z.eqb_spec n 0) as [->|]; [left; rewrite Z.mod_0_l by lia; lia|].
  pose proof (Z.mod_pos_bound (n - 1) (slots cap) Hs) as Hm. pose proof (mod_succ (n - 1)) as Hstep.
  replace (n - 1 + 1) with n in Hstep by lia. rewrite Hstep by lia.
  destruct (Z.eqb_spec ((n - 1) mod slots cap + 1) (slots cap)) as [->|]; [|left; rewrite Z.mod_small; lia].
  destruct (decide (33 * slots cap = cap)) as [E|]; [left; rewrite E, Z.mod_same; lia|].
  right. rewrite Z.mod_small by lia. lia.
Qed.

Lemma slot_next n : 0 <= n ->
  (if cap <? u32 (head_at cap n + 33) then 0 else head_at cap n) = 33 * (n mod slots cap).
Proof using Hcap.
  intros Hn. destruct slots_pos as [Hs ?]. pose proof (Z.mod_pos_bound n (slots cap) Hs). unfold cap_ok in *.
  destruct (head_cases n Hn) as [[-> _]|(_ & -> & -> & Hlt)]; unfold u32; rewrite wrap_small by lia.
  - by rewrite (proj2 (Z.ltb_ge _ _)) by lia.
  - rewrite (proj2 (Z.ltb_lt _ _)) by lia. lia.
Qed.
End Positions.

(** ** Lemmas: the ring as a log

    [ring_inv cap r es]: everything written so far is [es]; the last
    [slots cap] entries of it are in their slots. *)

Record ring_inv (cap : Z) (r : ReplayRingBuffer) (es : list ReplayEntry) : Prop := {
  gi_cap : capacity r = cap;
  gi_count : write_count r = Z.of_nat (length es);
  gi_over : overwrite_count r = Z.max 0 (Z.of_nat (length es) - slots cap);
  gi_head : head r = head_at cap (Z.of_nat (length es));
  gi_wf : Forall replay_wf es;
  gi_mem : exists m, buffer r = Some m /\ Z.of_nat (length m) = cap /\
    forall j e, es !! j = Some e -> Z.of_nat (length es) <= Z.of_nat j + slots cap ->
      rd_bytes m (33 * (Z.of_nat j mod slots cap)) 33 = Ok (bytes_of e);
}.

Lemma put_inv cap r es e :
  cap_ok cap -> ring_inv cap r es -> replay_wf e -> Z.of_nat (length es) + 1 < 2 ^ 64 ->
  exists r', put_entry e (slot_for r) r = Ok r' /\ active r' = active r /\ record_start r' = record_start r /\
    ring_inv cap (note_overwrite (count_write (advance (slot_for r) r'))) (es ++ [e]).
Proof.
  intros Hcap [Hc Hn Ho Hh Hwf (m & Hm & Hml & Hslots)] He Hlen. destruct (slots_pos cap Hcap) as [Hs Hsc].
  set (n := Z.of_nat (length es)) in *. assert (0 <= n) as Hn0 by lia. pose proof (Z.mod_pos_bound n (slots cap) Hs) as Hnm.
  assert (slot_for r = 33 * (n mod slots cap)) as Hslot.
  { unfold slot_for, REPLAY_ENTRY_SIZE. rewrite Hc, Hh. by apply slot_next. }
  unfold put_entry. rewrite Hm, Hslot. cbn [of_opt res_bind]. pose proof (replay_size e He) as Hsz.
  destruct (wr m (33 * (n mod slots cap)) (bytes_of e)) as [m'| |] eqn:Ew.
  2,3: rewrite wr_ok in Ew by lia; discriminate.
  eexists. split; [reflexivity|]. split; [done|]. split; [done|].
  assert (forall r', capacity r' = cap -> write_count r' = n + 1 -> overwrite_count r' = Z.max 0 (n - slots cap) ->
    overwrite_count (note_overwrite r') = Z.max 0 (n + 1 - slots cap) /\ write_count (note_overwrite r') = n + 1 /\
    buffer (note_overwrite r') = buffer r' /\ head (note_overwrite r') = head r' /\ capacity (note_overwrite r') = cap) as Hnote.
  { intros r' H1 H2 H3. unfold note_overwrite, REPLAY_ENTRY_SIZE. fold (slots (capacity r')). rewrite H1, H2. cbv zeta.
    destruct (Z.ltb_spec (slots cap) (n + 1)); cbn; [|split_and!; try done; lia]. split_and!; try done.
    unfold u64. rewrite wrap_small; lia. }
  destruct (Hnote (count_write (advance (33 * (n mod slots cap)) (set_buffer (Some m') r)))) as (N1 & N2 & N3 & N4 & N5).
  { done. } { cbn. rewrite Hn. unfold u64. apply wrap_small. lia. } { done. }
  assert (Z.of_nat (length (es ++ [e])) = n + 1) as Hlen' by (rewrite length_app; cbn; lia).
  split; rewrite ?Hlen'; try done.
  - rewrite N4. cbn. rewrite Hc. by apply head_step.
  - apply Forall_app. by split; [|constructor].
  - exists m'. rewrite N3. split; [done|]. split; [by rewrite (wr_length _ _ _ _ Ew)|].
    intros j e' [Hj|[Hj [Hj0 <-]%list_lookup_singleton_Some]]%lookup_app_Some Hle.
    + apply lookup_lt_Some in Hj as Hjl. rewrite (rd_wr_other _ _ _ _ _ _ Ew); [apply Hslots; [done|lia]|].
      pose proof (mod_apart (slots cap) (Z.of_nat j) n Hs). pose proof (Z.mod_pos_bound (Z.of_nat j) (slots cap) Hs). lia.
    + replace (Z.of_nat j) with n by lia. rewrite <- (rd_wr_same _ _ _ _ Ew). by rewrite Hsz.
Qed.

(** What the reader makes of the ring after the entries [es]. *)
Definition ring_reading (cap : Z) (es : list ReplayEntry) : res (list ReplayEntry) :=
  if Z.of_nat (length es) <=? slots cap then Ok es
  else if cap mod 33 =? 0 then Ok (lastn (Z.to_nat (slots cap)) es)
  else Fault.

Lemma pos_small start i : 0 <= start -> 0 <= i -> start + 33 * i < 2 ^ 32 -> u32 (start + u32 (i * 33)) = start + 33 * i.
Proof. intros. unfold u32. rewrite (wrap_small 32 (i * 33)) by lia. rewrite wrap_small; lia. Qed.

Lemma reads_entries m cap (es : list ReplayEntry) start k :
  Forall replay_wf es ->
  (forall i e, es !! i = Some e -> rd_bytes m (u32 (start + u32 (Z.of_nat i * 33)) mod cap) 33 = Ok (bytes_of e)) ->
  k = Z.of_nat (length es) ->
  res_map (fun i => let* bs := rd_bytes m (u32 (start + u32 (i * 33)) mod cap) 33 in Ok (of_bytes (A:=ReplayEntry) bs)) (seqZ 0 k)
  = Ok es.
Proof.
  intros Hwf Hrd ->. apply res_map_ok. apply Forall2_same_length_lookup_2.
  { rewrite length_seqZ. lia. }
  intros i z e [-> Hi]%lookup_seqZ He. rewrite Z.add_0_l, (Hrd i e He). cbn [res_bind]. f_equal.
  apply (of_bytes_of' (A:=ReplayEntry)). by apply (Forall_lookup_1 _ _ _ _ Hwf He).
Qed.

(** A remainder behind the last slot: reading [slots cap] entries from any slot
    boundary leaves the block. *)
Lemma reads_past m cap p :
  cap_ok cap -> Z.of_nat (length m) = cap -> 33 * slots cap < cap -> 0 < p <= slots cap ->
  res_map (fun i => let* bs := rd_bytes m (u32 (33 * p + u32 (i * 33)) mod cap) 33 in Ok (of_bytes (A:=ReplayEntry) bs))
    (seqZ 0 (slots cap)) = Fault.
Proof.
  intros Hcap Hm Hrem Hp. destruct (slots_pos cap Hcap) as [Hs Hsc]. unfold cap_ok in Hcap.
  apply (res_map_fault _ _ (slots cap - p)); [|apply elem_of_seqZ; lia|].
  - intros i. pose proof (rd_bytes_fuel m (u32 (33 * p + u32 (i * 33)) mod cap) 33). by destruct (rd_bytes _ _ _).
  - rewrite pos_small by lia. rewrite Z.mod_small by lia. unfold rd_bytes.
    destruct (in_block _ _ _) eqn:E; [|done]. apply in_block_true in E. lia.
Qed.

Lemma get_all_spec cap r es : cap_ok cap -> ring_inv cap r es -> GetAllEntries r = ring_reading cap es.
Proof.
  intros Hcap [Hc Hn Ho Hh Hwf (m & Hm & Hml & Hslots)]. destruct (slots_pos cap Hcap) as [Hs Hsc].
  unfold GetAllEntries. rewrite Hm, Hn, Ho, Hh, Hc. unfold REPLAY_ENTRY_SIZE. fold (slots cap). cbv zeta.
  set (n := Z.of_nat (length es)) in *. assert (0 <= n) as Hn0 by lia. unfold cap_ok in Hcap. unfold ring_reading. fold n.
  assert (u32 (Z.min n (slots cap)) = Z.min n (slots cap)) as -> by (unfold u32; apply wrap_small; lia).
  destruct (Z.leb_spec n (slots cap)) as [Hle|Hgt].
  - rewrite (proj2 (Z.ltb_ge _ _)) by lia. apply reads_entries; [done| |lia].
    intros i e Hi. apply lookup_lt_Some in Hi as Hil. rewrite <- (Hslots i e Hi) by lia. f_equal.
    rewrite pos_small, !Z.mod_small by lia. lia.
  - rewrite (proj2 (Z.ltb_lt _ _)) by lia. replace (Z.min n (slots cap)) with (slots cap) by lia.
    destruct (head_cases cap Hcap n Hn0) as [[Hd Hp]|(_ & Hz & Hd & Hlt)]; rewrite Hd.
    + destruct (Z.eqb_spec (cap mod 33) 0) as [Hdiv|Hdiv].
      * assert (cap = 33 * slots cap) as Hcs by (unfold slots in *; Z.div_mod_to_equations; lia).
        pose proof (Z.mod_pos_bound n (slots cap) Hs). apply reads_entries; [by apply Forall_drop| |rewrite lastn_length; lia].
        intros i e Hi. apply lookup_lt_Some in Hi as Hil. rewrite lastn_length in Hil. unfold lastn in Hi. rewrite lookup_drop in Hi.
        rewrite <- (Hslots _ e Hi) by lia. rewrite pos_small by lia. f_equal.
        rewrite <- Z.mul_add_distr_l. replace (_ mod cap) with ((33 * (n mod slots cap + Z.of_nat i)) mod (33 * slots cap)) by (f_equal; lia).
        rewrite Zmult_mod_distr_l. f_equal. rewrite Zplus_mod_idemp_l. replace (Z.of_nat (length es - Z.to_nat (slots cap) + i)) with (n + Z.of_nat i + -1 * slots cap) by lia. by rewrite Z_mod_plus_full.
      * pose proof (Z.mod_pos_bound n (slots cap) Hs).
        assert (33 * slots cap < cap) by (unfold slots; clear -Hdiv; Z.div_mod_to_equations; lia). apply reads_past; [done|done|done|lia].
    + rewrite (proj2 (Z.eqb_neq _ _)) by (unfold slots in *; Z.div_mod_to_equations; lia). apply reads_past; [done|done|done|lia].
Qed.

(** ** Lemmas: recordings *)

(** The arguments of one [RecordIo]. *)
Record Io : Type := mkIo { io_lba : Z; io_offset : Z; io_size : Z; io_latency : Z; io_status : Z; io_reserved : Z }.
Record io_wf (o : Io) : Prop := {
  ow_lba : int_ok 8 (io_lba o);
  ow_offset : int_ok 8 (io_offset o);
  ow_size : int_ok 4 (io_size o);
  ow_latency : int_ok 4 (io_latency o);
  ow_status : int_ok 4 (io_status o);
  ow_reserved : int_ok 1 (io_reserved o);
}.
Definition entry_at (ts : Z) (o : Io) : ReplayEntry :=
  mkReplay (io_lba o) (io_offset o) (io_size o) (io_latency o) (io_status o) ts (io_reserved o).
(** The entries of the recorded calls, each with some time stamp. *)
Definition stamps (os : list Io) (es : list ReplayEntry) : Prop :=
  Forall2 (fun o e => exists ts, int_ok 4 ts /\ e = entry_at ts o) os es.

Fixpoint write_all {W} `{AgentOs W} (os : list Io) (r : ReplayRingBuffer) (w : W) : res (ReplayRingBuffer * W) :=
  match os with
  | [] => Ok (r, w)
  | o :: os' =>
      let* (r, w) := Write (io_lba o) (io_offset o) (io_size o) (io_latency o) (io_status o) (io_reserved o) r w in
      write_all os' r w
  end.

Lemma entry_at_wf ts o : int_ok 4 ts -> io_wf o -> replay_wf (entry_at ts o).
Proof. intros Ht []. by split. Qed.

Section Recordings.
Context {W : Type} `{AgentLaws W} (cap : Z) (Hcap : cap_ok cap).

Lemma ring_write_spec o r es (w : W) :
  io_wf o -> ring_inv cap r es -> active r = true -> Z.of_nat (length es) + 1 < 2 ^ 64 ->
  exists ts r' w', int_ok 4 ts /\
    Write (io_lba o) (io_offset o) (io_size o) (io_latency o) (io_status o) (io_reserved o) r w = Ok (r', w') /\
    active r' = true /\ ring_inv cap r' (es ++ [entry_at ts o]) /\ loan w' = loan w.
Proof using Hcap.
  intros Ho Hr Ha Hn. unfold Write. rewrite Ha. cbn [negb]. pose proof (l_clock w) as Lc. destruct (a_clock w) as [now w1]. cbn [fst snd] in *.
  set (ts := u32 (Z.quot (now - record_start r) 1000000)). assert (int_ok 4 ts) as Ht by (unfold int_ok; by apply wrap_range).
  fold (entry_at ts o). destruct (put_inv cap r es (entry_at ts o) Hcap Hr (entry_at_wf ts o Ht Ho) Hn) as (r' & E & Ha' & _ & Hi).
  rewrite E. cbn [res_bind]. eexists ts, _, w1. split_and!; try done.
  unfold note_overwrite. cbv zeta. destruct (_ <? _); cbn; congruence.
Qed.

Lemma write_all_spec os r es (w : W) :
  Forall io_wf os -> ring_inv cap r es -> active r = true -> Z.of_nat (length es + length os) < 2 ^ 64 ->
  exists r' w' new, write_all os r w = Ok (r', w') /\ stamps os new /\ active r' = true /\ ring_inv cap r' (es ++ new) /\ loan w' = loan w.
Proof using Hcap.
  intros Hos. revert r es w. induction Hos as [|o os Ho Hos IH]; intros r es w Hr Ha Hn.
  { exists r, w, []. rewrite app_nil_r. by split_and!; [|constructor|..]. }
  cbn [length] in Hn. destruct (ring_write_spec o r es w) as (ts & r1 & w1 & Ht & E & Ha1 & Hi1 & L1); [done|done|done|lia|].
  destruct (IH r1 _ w1 Hi1 Ha1) as (r2 & w2 & new & E2 & Hf & Ha2 & Hi2 & L2); [rewrite length_app; cbn; lia|].
  cbn [write_all]. rewrite E. cbn [res_bind]. exists r2, w2, (entry_at ts o :: new). rewrite <- app_assoc in Hi2.
  split_and!; try done; [|congruence]. constructor; [by exists ts|done].
Qed.

Lemma start_inv r w0 (w1 : W) :
  Initialize (ReplayRingBuffer_new cap) w0 = (true, r, w1) -> ring_inv cap (StartRecording r w1).1 [] /\ active (StartRecording r w1).1 = true.
Proof using Hcap.
  unfold Initialize. cbn [buffer ReplayRingBuffer_new capacity]. destruct (a_alloc cap w0) as [[] w]; [|done]. cbn [negb]. intros [= <- <-].
  unfold StartRecording. destruct (a_clock w) as [now w']. cbn [fst]. split; [|done]. destruct (slots_pos cap Hcap). split; try done.
  - cbn. lia.
  - eexists. split; [reflexivity|]. split; [rewrite length_replicate; unfold cap_ok in *; lia|done].
Qed.
End Recordings.

(** ** Lemmas: the file *)

Definition replay_log (es : list ReplayEntry) : list Z := concat (bytes_of <$> es).
(** The 12 bytes of the header that are copied from the structure. *)
Definition head12 (count : Z) : list Z := take 12 (bytes_of (mkReplayHeader REPLAY_MAGIC REPLAY_VERSION count 0 0)).
Definition head16 (count : Z) : list Z := head12 count ++ le_bytes 4 (crc32c_ref (head12 count)).
Definition replay_image (es : list ReplayEntry) : list Z :=
  let body := head16 (Z.of_nat (length es)) ++ replay_log es in
  body ++ bytes_of (mkReplayFooter (crc32c_ref body) REPLAY_FOOTER_MAGIC).

Lemma header_ok count : int_ok 4 count -> p_wf (mkReplayHeader REPLAY_MAGIC REPLAY_VERSION count 0 0).
Proof. intros Hc. split; [by split; vm_compute|by split; vm_compute|done|by split; vm_compute|by split; vm_compute]. Qed.

Lemma head12_length count : int_ok 4 count -> length (head12 count) = 12%nat.
Proof.
  intros Hc. unfold head12. rewrite length_take.
  by rewrite (bytes_of_length (A:=ReplayFileHeader) _ (header_ok count Hc)).
Qed.

Lemma head12_bytes count : int_ok 4 count -> Forall is_byte (head12 count).
Proof. intros Hc. apply Forall_take. exact (bytes_of_bytes (A:=ReplayFileHeader) _ (header_ok count Hc)). Qed.

Lemma head16_length count : int_ok 4 count -> length (head16 count) = 16%nat.
Proof. intros Hc. unfold head16. by rewrite length_app, head12_length, le_bytes_length. Qed.

Lemma replay_log_length es : Forall replay_wf es -> length (replay_log es) = (33 * length es)%nat.
Proof.
  unfold replay_log. induction 1 as [|e es He _ IH]; [done|].
  cbn [fmap list_fmap concat length]. rewrite length_app, replay_size, IH by done. lia.
Qed.

Lemma replay_log_bytes es : Forall replay_wf es -> Forall is_byte (replay_log es).
Proof.
  intros Hes. apply Forall_concat, Forall_fmap. eapply Forall_impl; [exact Hes|].
  intros e He. exact (bytes_of_bytes (A:=ReplayEntry) e He).
Qed.

Lemma replay_crc_spec data st : Forall is_byte data -> crc_static_ok st ->
  exists st', ComputeCrc32C data st = (crc32c_ref data, st') /\ crc_static_ok st'.
Proof.
  intros Hd Hst. rewrite replay_crc_eq. destruct (crc32c_correct data st Hd Hst) as [H1 H2].
  destruct (bootdiag_compute_crc32c data st) as [c st']. cbn in *. subst c. by exists st'.
Qed.

Lemma header_bytes_spec after count st :
  int_ok 4 count -> crc_static_ok st ->
  if (length after <? 2)%nat then header_bytes after count st = Fault
  else exists st', header_bytes after count st = Ok (head16 count, st') /\ crc_static_ok st'.
Proof.
  intros Hc Hst. unfold header_bytes. fold (head12 count). pose proof (head12_length count Hc) as Hl.
  rewrite (take_app_length' (head12 count)) by done.
  destruct (replay_crc_spec (head12 count) st (head12_bytes count Hc) Hst) as (st' & -> & Hst').
  set (crc := crc32c_ref (head12 count)). rewrite <- app_assoc.
  rewrite wr_ok by (rewrite ?length_app, ?length_replicate, ?le_bytes_length; lia). cbn [res_bind]. unfold copy_at.
  change (Z.to_nat 12) with 12%nat. rewrite take_app_length', le_bytes_length by done.
  rewrite drop_app_ge, Hl by lia. change (12 + 4 - 12)%nat with 4%nat. rewrite drop_app_length' by done.
  assert (Z.of_nat (length (head12 count ++ le_bytes 4 crc ++ after)) = 16 + Z.of_nat (length after)) as Hlen
    by (rewrite !length_app, le_bytes_length; lia).
  destruct (Nat.ltb_spec (length after) 2) as [Hs|Hs].
  - unfold wr. destruct (in_block _ _ _) eqn:E; [|done]. apply in_block_true in E. rewrite le_bytes_length, Hlen in E. lia.
  - rewrite wr_ok by (rewrite ?Hlen, ?le_bytes_length; lia). cbn [res_bind]. exists st'. split; [|done]. do 2 f_equal.
Qed.

Lemma file_image_spec after es st :
  Forall replay_wf es -> 33 * Z.of_nat (length es) < 2 ^ 31 -> crc_static_ok st ->
  if (length after <? 2)%nat then file_image after es st = Fault
  else exists st', file_image after es st = Ok (replay_image es, st') /\ crc_static_ok st'.
Proof.
  intros Hes Hn Hst. assert (int_ok 4 (Z.of_nat (length es))) as Hc by (unfold int_ok; change (8 * Z.of_nat 4) with 32; lia).
  unfold file_image. assert (u32 (Z.of_nat (length es)) = Z.of_nat (length es)) as -> by (unfold u32; apply wrap_small; lia).
  pose proof (header_bytes_spec after _ st Hc Hst) as Hh. destruct (length after <? 2)%nat; [by rewrite Hh|].
  destruct Hh as (st1 & -> & Hst1). cbn [res_bind]. fold (replay_log es). set (body := head16 _ ++ replay_log es).
  assert (Z.of_nat (length body) = 16 + 33 * Z.of_nat (length es)) as Hb
    by (unfold body; rewrite length_app, head16_length, replay_log_length by done; lia).
  assert (Forall is_byte body) as Hby.
  { unfold body, head16. rewrite !Forall_app. split_and!; [by apply head12_bytes|apply le_bytes_bytes|by apply replay_log_bytes]. }
  unfold u32. rewrite wrap_small by lia. rewrite Nat2Z.id, take_ge by done.
  destruct (replay_crc_spec body st1 Hby Hst1) as (st2 & -> & Hst2). by exists st2.
Qed.

Lemma replay_footer_ok crc : int_ok 4 crc -> p_wf (mkReplayFooter crc REPLAY_FOOTER_MAGIC).
Proof. intros Hc. split; [done|by split; vm_compute]. Qed.

(** ** Concurrent recording

    [RecordIo] takes no lock: the calls of several threads interleave at the
    accesses to the shared ring. A writer is a call of [Write] that has passed
    the test of [active_], at the access it makes next; a copy is taken as one
    step. *)

Inductive writer : Type :=
| AtLoad (e : ReplayEntry)
| AtCopy (e : ReplayEntry) (pos : Z)
| AtStore (pos : Z)
| AtCount
| AtNote
| Finished.

Definition writer_step (r : ReplayRingBuffer) (p : writer) : res (ReplayRingBuffer * writer) :=
  match p with
  | AtLoad e => Ok (r, AtCopy e (slot_for r))
  | AtCopy e pos => let* r := put_entry e pos r in Ok (r, AtStore pos)
  | AtStore pos => Ok (advance pos r, AtCount)
  | AtCount => Ok (count_write r, AtNote)
  | AtNote => Ok (note_overwrite r, Finished)
  | Finished => Ok (r, Finished)
  end.

Inductive race_step : ReplayRingBuffer * list writer -> ReplayRingBuffer * list writer -> Prop :=
| race_one i p r r' p' ts : ts !! i = Some p -> writer_step r p = Ok (r', p') -> race_step (r, ts) (r', <[i := p']> ts).

(** A writer that is not disturbed does what [Write] does. *)
Fixpoint run_alone (n : nat) (r : ReplayRingBuffer) (p : writer) : res (ReplayRingBuffer * writer) :=
  match n with
  | O => Ok (r, p)
  | S n => let* (r, p) := writer_step r p in run_alone n r p
  end.

Lemma write_alone {W} `{AgentOs W} o r (w : W) :
  active r = true ->
  let ts := u32 (Z.quot ((a_clock w).1 - record_start r) 1000000) in
  Write (io_lba o) (io_offset o) (io_size o) (io_latency o) (io_status o) (io_reserved o) r w =
    (let* (r, _) := run_alone 5 r (AtLoad (entry_at ts o)) in Ok (r, (a_clock w).2)).
Proof.
  intros Ha ts. unfold Write, ts. rewrite Ha. destruct (a_clock w) as [now w']. cbn [negb fst snd run_alone writer_step res_bind].
  fold (entry_at (u32 (Z.quot (now - record_start r) 1000000)) o). by destruct (put_entry _ _ _).
Qed.

Definition counted (p : writer) : bool := match p with AtNote | Finished => true | _ => false end.
Definition writer_ok (cap : Z) (p : writer) : Prop :=
  match p with
  | AtLoad e => replay_wf e
  | AtCopy e pos => replay_wf e /\ 0 <= pos <= cap - 33
  | AtStore pos => 0 <= pos <= cap - 33
  | _ => True
  end.
(** What holds under every interleaving, [n0] calls having been counted before. *)
Record race_inv (cap n0 : Z) (c : ReplayRingBuffer * list writer) : Prop := {
  ci_cap : capacity c.1 = cap;
  ci_head : 0 <= head c.1 < cap;
  ci_mem : exists m, buffer c.1 = Some m /\ Z.of_nat (length m) = cap;
  ci_writers : Forall (writer_ok cap) c.2;
  ci_count : write_count c.1 = u64 (n0 + Z.of_nat (length (filter counted c.2)));
}.

Lemma writer_runs cap n0 r ts i p :
  cap_ok cap -> race_inv cap n0 (r, ts) -> ts !! i = Some p ->
  exists r' p', writer_step r p = Ok (r', p') /\ race_inv cap n0 (r', <[i := p']> ts).
Proof.
  intros Hcap [Hc Hh (m & Hm & Hml) Hw Hn] Hi. cbn [fst snd] in *.
  pose proof (Forall_lookup_1 _ _ _ _ Hw Hi) as Hp. unfold cap_ok in Hcap.
  destruct p as [e|e pos|pos| | |]; cbn [writer_step writer_ok] in *.
  - assert (0 <= slot_for r <= cap - 33) as Hpos.
    { unfold slot_for, REPLAY_ENTRY_SIZE. rewrite Hc. cbv zeta. unfold u32. rewrite wrap_small by lia.
      destruct (Z.ltb_spec cap (head r + 33)); lia. }
    eexists _, _. split; [done|]. split; cbn [fst snd]; try done; [by eauto| |].
    + by apply Forall_insert.
    + pose proof (filter_insert counted ts i _ (AtCopy e (slot_for r)) Hi) as Hf. cbn [counted] in Hf. cbn. rewrite Hn. do 2 f_equal. lia.
  - destruct Hp as [He Hpos]. unfold put_entry. rewrite Hm. cbn [of_opt res_bind].
    destruct (wr m pos (bytes_of e)) as [m'| |] eqn:Ew; [|rewrite wr_ok in Ew by (rewrite ?replay_size by done; lia); done..].
    eexists _, _. split; [done|]. split; cbn [fst snd]; try done.
    + exists m'. split; [done|]. by rewrite (wr_length _ _ _ _ Ew).
    + by apply Forall_insert.
    + pose proof (filter_insert counted ts i _ (AtStore pos) Hi) as Hf. cbn [counted] in Hf. cbn. rewrite Hn. do 2 f_equal. lia.
  - eexists _, _. split; [done|]. split; cbn [fst snd]; try done; [|by eauto|by apply Forall_insert|].
    + cbn. rewrite Hc. apply Z.mod_pos_bound. lia.
    + pose proof (filter_insert counted ts i _ AtCount Hi) as Hf. cbn [counted] in Hf. cbn. rewrite Hn. do 2 f_equal. lia.
  - eexists _, _. split; [done|]. split; cbn [fst snd]; try done; [by eauto|by apply Forall_insert|].
    pose proof (filter_insert counted ts i _ AtNote Hi) as Hf. cbn [counted] in Hf. cbn. rewrite Hn. unfold u64. rewrite wrap_add_l. f_equal. lia.
  - assert (forall r', r' = note_overwrite r -> capacity r' = capacity r /\ head r' = head r /\ buffer r' = buffer r /\ write_count r' = write_count r) as Hsame.
    { intros r' ->. unfold note_overwrite. cbv zeta. by destruct (_ <? _). }
    destruct (Hsame _ eq_refl) as (E1 & E2 & E3 & E4).
    eexists _, _. split; [done|]. split; cbn [fst snd]; rewrite ?E1, ?E2, ?E4; try done; [exists m; by rewrite E3|by apply Forall_insert|].
    pose proof (filter_insert counted ts i _ Finished Hi) as Hf. cbn [counted] in Hf. cbn. rewrite Hn. do 2 f_equal. lia.
  - eexists _, _. split; [done|]. rewrite list_insert_id by done. by split; eauto.
Qed.

Lemma race_reaches cap n0 c c' : cap_ok cap -> race_inv cap n0 c -> rtc race_step c c' -> race_inv cap n0 c'.
Proof.
  intros Hcap Hc. induction 1 as [|c1 c2 c3 [i p r r' p' ts Hi E] _ IH]; [done|]. apply IH.
  destruct (writer_runs cap n0 r ts i p Hcap Hc Hi) as (r1 & p1 & E1 & Hinv). congruence.
Qed.

Lemma ring_inv_race cap r es ps :
  cap_ok cap -> ring_inv cap r es -> Forall (fun p => counted p = false /\ writer_ok cap p) ps ->
  Z.of_nat (length es) < 2 ^ 64 -> race_inv cap (Z.of_nat (length es)) (r, ps).
Proof.
  intros Hcap [Hc Hn _ Hh _ (m & Hm & Hml & _)] Hps Hlen. split; cbn [fst snd].
  - done.
  - rewrite Hh. unfold head_at, cap_ok in *. destruct (_ =? 0); [lia|]. apply Z.mod_pos_bound. lia.
  - by exists m.
  - eapply Forall_impl; [exact Hps|]. by intros p [_ Hp].
  - replace (filter counted ps) with (@nil writer); [rewrite Hn; unfold u64; rewrite wrap_small; cbn; lia|].
    symmetry. induction Hps as [|p ps [Hp _] _ IH]; [done|]. rewrite filter_cons_False; [done|]. rewrite Hp. by intros [].
Qed.

(** ** Properties *)

(** C22. What the replay ring gives back, exactly: after any recording of [n]
    events into a fresh ring of [cap] bytes, no write having faulted, the
    entries read are all of them in order when they fit ([n <= cap / 33]); when
    the ring has wrapped, the last [cap / 33] in order if [cap] is a multiple
    of the entry size, and otherwise the reader leaves the buffer (as it does
    for the default 64 MiB). *)
Theorem replay_ring_exact {W} `{AgentLaws W} cap os r0 (w0 w1 : W) :
  cap_ok cap -> Forall io_wf os -> Z.of_nat (length os) < 2 ^ 64 ->
  Initialize (ReplayRingBuffer_new cap) w0 = (true, r0, w1) ->
  let '(r1, w2) := StartRecording r0 w1 in
  exists r2 w3 es, write_all os r1 w2 = Ok (r2, w3) /\ stamps os es /\
    GetAllEntries r2 =
      if Z.of_nat (length os) <=? cap / 33 then Ok es
      else if cap mod 33 =? 0 then Ok (lastn (Z.to_nat (cap / 33)) es)
      else Fault.
Proof.
  intros Hcap Hos Hn Ei. pose proof (start_inv cap Hcap r0 w0 w1 Ei) as [Hs Ha]. destruct (StartRecording r0 w1) as [r1 w2]. cbn [fst] in *.
  destruct (write_all_spec cap Hcap os r1 [] w2 Hos Hs Ha) as (r2 & w3 & es & E & Hst & _ & Hi & _); [cbn; lia|].
  exists r2, w3, es. split; [done|]. split; [done|]. rewrite (get_all_spec cap r2 es Hcap Hi). unfold ring_reading. fold (slots cap).
  by rewrite (Forall2_length _ _ _ Hst).
Qed.

Definition io0 : Io := mkIo 7 0 512 3 0 0.
Definition replay_world : SimAgent := mkSimAgent (mkLoan 0 ∅) ∅ 0 (fun _ _ => false) [] [] [].

Lemma io0_wf : io_wf io0.
Proof. by split; split; vm_compute. Qed.

Lemma replay_ring_exact_witness :
  let r0 := set_buffer (Some (replicate 100 0)) (ReplayRingBuffer_new 100) in
  let '(r1, w2) := StartRecording r0 replay_world in
  exists r2 w3 es, write_all (replicate 4 io0) r1 w2 = Ok (r2, w3) /\ stamps (replicate 4 io0) es /\ GetAllEntries r2 = Fault.
Proof.
  intros r0. pose proof (replay_ring_exact 100 (replicate 4 io0) r0 replay_world replay_world) as H.
  destruct (StartRecording r0 replay_world) as [r1 w2]. apply H.
  - split; vm_compute; discriminate.
  - repeat constructor; apply io0_wf.
  - vm_compute. reflexivity.
  - reflexivity.
Defined.

(** Concurrent recording is memory safe: however the steps of any number of
    recording threads interleave, no thread's next step leaves the buffer, the
    head stays inside it, and the write counter is the number of calls that
    have counted themselves. *)
Theorem replay_race_safe cap r es ps c :
  cap_ok cap -> ring_inv cap r es -> Forall (fun e => replay_wf e) ps -> Z.of_nat (length es) < 2 ^ 64 ->
  rtc race_step (r, AtLoad <$> ps) c ->
  (forall i p, c.2 !! i = Some p -> exists r' p', writer_step c.1 p = Ok (r', p')) /\
  0 <= head c.1 < cap /\ write_count c.1 = u64 (Z.of_nat (length es) + Z.of_nat (length (filter counted c.2))).
Proof.
  intros Hcap Hr Hps Hn Hs. assert (race_inv cap (Z.of_nat (length es)) (r, AtLoad <$> ps)) as H0.
  { apply ring_inv_race; try done. apply Forall_fmap. eapply Forall_impl; [exact Hps|]. by intros e He. }
  pose proof (race_reaches _ _ _ _ Hcap H0 Hs) as Hc. destruct c as [r' ts]. split_and!; try apply Hc.
  intros i p Hi. destruct (writer_runs _ _ r' ts i p Hcap Hc Hi) as (r1 & p1 & E & _). by exists r1, p1.
Qed.

Definition ring100 : ReplayRingBuffer := set_recording true 0 (set_buffer (Some (replicate 100 0)) (ReplayRingBuffer_new 100)).

Lemma ring100_inv : ring_inv 100 ring100 [].
Proof. split; try reflexivity; [constructor|]. eexists. split; [reflexivity|]. split; [reflexivity|]. intros j e Hj. by rewrite lookup_nil in Hj. Qed.

Lemma replay_race_safe_witness :
  exists r', writer_step ring100 (AtLoad (entry_at 0 io0)) = Ok (r', AtCopy (entry_at 0 io0) 0) /\ 0 <= head ring100 < 100.
Proof.
  destruct (replay_race_safe 100 ring100 [] [entry_at 0 io0; entry_at 1 io0] (ring100, AtLoad <$> [entry_at 0 io0; entry_at 1 io0])) as (H1 & H2 & _).
  - split; vm_compute; discriminate.
  - apply ring100_inv.
  - repeat constructor; vm_compute; congruence.
  - vm_compute. reflexivity.
  - apply rtc_refl.
  - exists ring100. split; [reflexivity|exact H2].
Defined.

(** One step of writer [i]. *)
Ltac race i eqs :=
  eapply rtc_l; [eapply (race_one i); [reflexivity|cbn [writer_step]; eqs; reflexivity]|cbn [insert list_insert]].

Definition no_entry : ReplayEntry := mkReplay 0 0 0 0 0 0 0.

(** Concurrent recording loses events: two threads that load the head before
    either stores it write to the same slot; both calls are counted, so the
    reader returns two entries, the second thread's and one made of the zeroes
    of the empty slot, while the first thread's event is gone. *)
Theorem replay_race_loses cap e1 e2 start :
  66 <= cap <= 2 ^ 31 -> replay_wf e1 -> replay_wf e2 ->
  let fresh := set_recording true start (set_buffer (Some (replicate (Z.to_nat cap) 0)) (ReplayRingBuffer_new cap)) in
  exists r, rtc race_step (fresh, [AtLoad e1; AtLoad e2]) (r, [Finished; Finished]) /\
    write_count r = 2 /\ GetAllEntries r = Ok [e2; no_entry].
Proof.
  intros Hcap H1 H2 fresh. set (m0 := replicate (Z.to_nat cap) 0).
  assert (Z.of_nat (length m0) = cap) as Hm0 by (unfold m0; rewrite length_replicate; lia).
  pose proof (replay_size e1 H1) as Hz1. pose proof (replay_size e2 H2) as Hz2.
  destruct (wr m0 0 (bytes_of e1)) as [m1| |] eqn:E1; [|rewrite wr_ok in E1 by lia; done..].
  pose proof (wr_length _ _ _ _ E1) as Hm1.
  destruct (wr m1 0 (bytes_of e2)) as [m2| |] eqn:E2; [|rewrite wr_ok in E2 by lia; done..].
  assert (slot_for fresh = 0) as Hs.
  { unfold slot_for, fresh, REPLAY_ENTRY_SIZE. cbn [head capacity set_recording set_buffer ReplayRingBuffer_new].
    change (u32 (0 + 33)) with 33. by rewrite (proj2 (Z.ltb_ge _ _)) by lia. }
  assert (slots cap >= 2) as Hsl by (unfold slots; Z.div_mod_to_equations; lia).
  set (r := mkRing (Some m2) cap 2 0 33 true start).
  exists r. split; [|split; [done|]].
  - assert (forall k, k <= 2 -> (slots cap <? k) = false) as Hle by (intros; apply Z.ltb_ge; lia).
    assert (u32 (0 + REPLAY_ENTRY_SIZE) mod cap = 33) as Hadv by (change (u32 (0 + REPLAY_ENTRY_SIZE)) with 33; apply Z.mod_small; lia).
    race 0%nat ltac:(rewrite Hs). race 1%nat ltac:(rewrite Hs).
    race 0%nat ltac:(unfold put_entry, fresh; cbn [buffer set_recording set_buffer of_opt res_bind]; fold m0; rewrite E1; cbn [res_bind]).
    race 1%nat ltac:(unfold put_entry; cbn [buffer set_buffer of_opt res_bind]; rewrite E2; cbn [res_bind]).
    race 0%nat idtac. race 1%nat idtac. race 0%nat idtac. race 1%nat idtac. race 0%nat idtac. race 1%nat idtac.
    replace (note_overwrite _) with r; [apply rtc_refl|]. unfold advance, set_head, set_buffer, count_write, set_counts.
    cbn [buffer capacity write_count overwrite_count head active record_start set_recording ReplayRingBuffer_new]. rewrite Hadv.
    unfold note_overwrite. cbn [capacity write_count]. change (u64 (u64 (0 + 1) + 1)) with 2. unfold REPLAY_ENTRY_SIZE. fold (slots cap).
    by rewrite !Hle by done.
  - unfold GetAllEntries, r. cbn [buffer capacity write_count overwrite_count head]. unfold REPLAY_ENTRY_SIZE. fold (slots cap).
    cbv zeta. replace (Z.min 2 (slots cap)) with 2 by lia. change (seqZ 0 (u32 2)) with [0; 1]. change (0 <? 0) with false. cbv iota.
    cbn [res_map]. change (u32 (0 + u32 (0 * 33))) with 0. change (u32 (0 + u32 (1 * 33))) with 33. rewrite !Z.mod_small by lia.
    change 33 with (Z.of_nat 33) at 1. rewrite <- Hz2, (rd_wr_same _ _ _ _ E2). cbn [res_bind].
    rewrite (rd_wr_other _ _ _ _ 33 33 E2), (rd_wr_other _ _ _ _ 33 33 E1) by lia. rewrite rd_bytes_ok by lia. cbn [res_bind].
    rewrite (of_bytes_of' (A:=ReplayEntry)) by done. unfold m0. rewrite drop_replicate, take_replicate.
    by replace (Nat.min _ _) with 33%nat by lia.
Qed.

Lemma replay_race_loses_witness :
  exists r, rtc race_step (ring100, [AtLoad (entry_at 0 io0); AtLoad (entry_at 1 io0)]) (r, [Finished; Finished]) /\
    GetAllEntries r = Ok [entry_at 1 io0; no_entry].
Proof.
  destruct (replay_race_loses 100 (entry_at 0 io0) (entry_at 1 io0) 0) as (r & H1 & _ & H3).
  - split; vm_compute; discriminate.
  - split; split; vm_compute; congruence.
  - split; split; vm_compute; congruence.
  - exists r. split; [exact H1|exact H3].
Defined.
