(* ===== verification/ReplayTool.v ===== *)
(** * The replay analyzer (src/tools/replay_recorder/replay_recorder.cpp, the
    analyzer; replay_analyzer_main.cpp)

    Reading a recording, its statistics, and the list of hot blocks made from
    several recordings. Latencies are kept in microseconds (the program divides
    by 1000 for printing); the average is a sum and a count. [memory] bounds what
    a vector can hold (beyond it [std::bad_alloc] ends the program, a [Fault]);
    [hot_sort] is [std::sort] with the comparison on frequencies, which leaves
    the order of equals open. *)

From stdpp Require Import sorting.
From S2P Require Import Prelude Crc32c BootEnv Text Stats Packed AgentEnv Replay.
#[local] Open Scope Z_scope.

(** ** Reading *)

Fixpoint read_loop (n : nat) (bs : list Z) : list ReplayEntry :=
  match n with
  | O => []
  | S n => if Z.of_nat (length bs) <? REPLAY_ENTRY_SIZE then [] else of_bytes bs :: read_loop n (drop 33 bs)
  end.

(** The entries, and the header when one was read. *)
Definition ReadEntries (memory : Z) (file : option (list Z)) : res (list ReplayEntry * option ReplayFileHeader) :=
  match file with
  | None => Ok ([], None)
  | Some bs =>
      if Z.of_nat (length bs) <? REPLAY_HEADER_SIZE then Ok ([], None) else
      let header := of_bytes (A:=ReplayFileHeader) bs in
      if negb (rh_magic header =? REPLAY_MAGIC) || negb (rh_version header =? REPLAY_VERSION) then Ok ([], Some header) else
      if memory <? rh_entry_count header * REPLAY_ENTRY_SIZE then Fault else
      Ok (read_loop (Z.to_nat (rh_entry_count header)) (drop 16 bs), Some header)
  end.

(** ** Statistics *)

Record ParseResult : Type := mkParse {
  pr_entry_count : Z;
  pr_overwrite_count : Z;
  pr_time_range_ms : Z;
  pr_lba_min : Z;
  pr_lba_max : Z;
  pr_success : Z;
  pr_timeout : Z;
  pr_error : Z;
  pr_retry : Z;
}.
Definition no_result : ParseResult := mkParse 0 0 0 0 0 0 0 0 0.

Definition bump (here : bool) (n : Z) : Z := if here then u32 (n + 1) else n.
(** One pass of the loop; the time range holds the running maximum. *)
Definition parse_entry (p : ParseResult) (e : ReplayEntry) : ParseResult :=
  mkParse (pr_entry_count p) (pr_overwrite_count p) (Z.max (pr_time_range_ms p) (r_timestamp_ms e))
    (Z.min (pr_lba_min p) (r_lba e)) (Z.max (pr_lba_max p) (r_lba e))
    (bump (r_status e =? 0) (pr_success p)) (bump (r_status e =? 1) (pr_timeout p))
    (bump (r_status e =? 2) (pr_error p)) (bump (r_status e =? 3) (pr_retry p)).

Definition Parse (memory : Z) (file : option (list Z)) : res ParseResult :=
  let* (entries, _) := ReadEntries memory file in
  if bool_decide (entries = []) then Ok no_result else
  Ok (foldl parse_entry (mkParse (u32 (Z.of_nat (length entries))) 0 0 (2 ^ 64 - 1) 0 0 0 0 0) entries).

Record PerfStage : Type := mkStage {
  ps_name : string;
  ps_count : Z;
  ps_sum_us : Z;
  ps_n : Z;
  ps_p50_us : Z;
  ps_p95_us : Z;
  ps_p99_us : Z;
}.
Definition ranges : list (string * Z * Z) :=
  [("BootStart", 0, 10000); ("DriverLoad", 10000, 15000); ("DesktopInit", 15000, 30000)].
Definition in_range (lo hi : Z) (e : ReplayEntry) : Prop := lo <= r_timestamp_ms e < hi.
#[export] Instance in_range_dec lo hi e : Decision (in_range lo hi e).
Proof. unfold in_range. apply _. Defined.

(** One pass of the loop over the ranges: no stage for a range without entries. *)
Definition stage_of (entries : list ReplayEntry) (range : string * Z * Z) : res (list PerfStage) :=
  let '(name, lo, hi) := range in
  let latencies := r_latency_us <$> filter (in_range lo hi) entries in
  if bool_decide (latencies = []) then Ok [] else
  let n := Z.of_nat (length latencies) in
  let sorted := merge_sort Z.le latencies in
  let* p50 := of_opt (sorted !! Z.to_nat (n * 50 / 100)) in
  let* p95 := of_opt (sorted !! Z.to_nat (n * 95 / 100)) in
  let* p99 := of_opt (sorted !! Z.to_nat (n * 99 / 100)) in
  Ok [mkStage name (u32 n) (foldr Z.add 0 latencies) n p50 p95 p99].

Definition AnalyzePerf (memory : Z) (file : option (list Z)) : res (list PerfStage) :=
  let* (entries, _) := ReadEntries memory file in
  if bool_decide (entries = []) then Ok [] else
  let* stages := res_map (stage_of entries) ranges in
  Ok (concat stages).

(** ** Hot blocks *)

(** [find_if] and the increment, or a new element at the end. *)
Fixpoint add_freq (freqs : list (Z * Z)) (lba : Z) : list (Z * Z) :=
  match freqs with
  | [] => [(lba, 1)]
  | (l, f) :: r => if l =? lba then (l, u32 (f + 1)) :: r else (l, f) :: add_freq r lba
  end.
Definition freqs_of (entries : list ReplayEntry) : list (Z * Z) := foldl (fun m e => add_freq m (r_lba e)) [] entries.

(** The phase of a block: by the time of its first entry. *)
Fixpoint phase_of (lba : Z) (entries : list ReplayEntry) : string :=
  match entries with
  | [] => "bootstart"
  | e :: r => if r_lba e =? lba then
                if 15000 <? r_timestamp_ms e then "desktop"
                else if 10000 <? r_timestamp_ms e then "driverload" else "bootstart"
              else phase_of lba r
  end.

Definition hot_line (all_entries : list ReplayEntry) (top_k : Z) (i : nat) (f : Z * Z) : list Z :=
  fmt_u f.1 ++ zstr ",4096," ++ fmt_u (u32 (top_k - Z.of_nat i)) ++ zstr "," ++ zstr (phase_of f.1 all_entries) ++ [10].
Definition train_text (hot_sort : list (Z * Z) -> list (Z * Z)) (all_entries : list ReplayEntry) : list Z :=
  let freqs := hot_sort (freqs_of all_entries) in
  let top_k := Z.min (u32 (Z.of_nat (length freqs))) 500 in
  zstr "# HTKIS HyperDisk X Static Prefetch Hot Block List" ++ [10] ++
  zstr "# Format: lba,size,priority,phase" ++ [10] ++
  concat (imap (hot_line all_entries top_k) (take (Z.to_nat top_k) freqs)).

(** A text stream of Windows stores a line end as two bytes. *)
Definition text_mode (s : list Z) : list Z := s ≫= fun c => if c =? 10 then [13; 10] else [c].

(** ** The program *)

Inductive out : Type :=
| OText (text : string)
| OTotal (n : Z)
| OTime (ms : Z)
| OLba (lo hi : Z)
| OStatus (success timeout error retry : Z)
| ONoEntries (path : list Z)
| OStage (s : PerfStage)
| OReplay (count : option Z) (server : list Z) (port : Z)
| OTrained (path : list Z)
| OUnknown (command : list Z).

Definition print_usage : list out :=
  [OText "boot_replay_analyzer — HTKIS HyperDisk X Replay Analysis Tool"; OText "Usage:";
   OText "  boot_replay_analyzer parse <boot_replay.bin>";
   OText "  boot_replay_analyzer analyze <boot_replay.bin> [--report=perf]";
   OText "  boot_replay_analyzer replay <boot_replay.bin> --target=<server:port>";
   OText "  boot_replay_analyzer train <file1.bin> [file2.bin ...] --output=<prefetch_list.txt>"].

Section Tool.
Context {W : Type} `{AgentOs W} (memory : Z) (hot_sort : list (Z * Z) -> list (Z * Z)).

Definition cmd_parse (path : list Z) (w : W) : res (Z * list out * W) :=
  let '(file, w) := a_load path w in
  let* p := Parse memory file in
  Ok (0, [OText "=== boot_replay.bin Parse Result ==="; OTotal (pr_entry_count p); OTime (pr_time_range_ms p);
          OLba (pr_lba_min p) (pr_lba_max p); OStatus (pr_success p) (pr_timeout p) (pr_error p) (pr_retry p)], w).

(** The file is read three times. *)
Definition cmd_analyze (path : list Z) (w : W) : res (Z * list out * W) :=
  let '(file, w) := a_load path w in
  let* p := Parse memory file in
  if pr_entry_count p =? 0 then Ok (1, [ONoEntries path], w) else
  let* (_, shown, w) := cmd_parse path w in
  let '(file, w) := a_load path w in
  let* stages := AnalyzePerf memory file in
  Ok (0, [OText "=== boot_replay.bin Performance Analysis ==="] ++ shown ++ [OText ""] ++ (OStage <$> stages), w).

(** [BootReplayAnalyzer::Replay]: the announcement only. *)
Definition ReplayTo (path server : list Z) (port : Z) (w : W) : res (bool * list out * W) :=
  let '(file, w) := a_load path w in
  let* (entries, header) := ReadEntries memory file in
  if bool_decide (entries = []) then Ok (false, [], w) else
  Ok (true, [OReplay (rh_entry_count <$> header) server port;
             OText "Replay: stub — requires ImageServer TCP connection implementation"], w).

Definition cmd_replay (path target : list Z) (w : W) : res (Z * list out * W) :=
  let* (server, port) :=
    match rfind 58 target with
    | Some colon => let* p := stoi (drop (S colon) target) in Ok (take colon target, u16 p)
    | None => Ok (target, 9527)
    end in
  let* (ok, shown, w) := ReplayTo path server port w in
  Ok (if ok : bool then 0 else 1, shown, w).

Fixpoint train_read (paths : list (list Z)) (w : W) : res (list ReplayEntry * W) :=
  match paths with
  | [] => Ok ([], w)
  | p :: r =>
      let '(file, w) := a_load p w in
      let* (entries, _) := ReadEntries memory file in
      let* (others, w) := train_read r w in
      Ok (entries ++ others, w)
  end.

Definition Train (paths : list (list Z)) (output_path : list Z) (w : W) : res (bool * W) :=
  let* (all_entries, w) := train_read paths w in
  if memory <? Z.of_nat (length all_entries) * REPLAY_ENTRY_SIZE then Fault else
  if bool_decide (all_entries = []) then Ok (false, w) else
  let '(opened, w) := a_save output_path (text_mode (train_text hot_sort all_entries)) w in
  Ok (match opened with Some _ => true | None => false end, w).

Definition cmd_train (files : list (list Z)) (output_path : list Z) (w : W) : res (Z * list out * W) :=
  let* (ok, w) := Train files output_path w in
  Ok (if ok : bool then (0, [OTrained output_path], w) else (1, [OText "Training failed."], w)).

Definition has_prefix (t s : list Z) : bool := bool_decide (take (length t) s = t).

(** The last option wins; the files are what stands before it. *)
Fixpoint find_option (opt : list Z) (i : nat) (args : list (list Z)) (found : option (nat * list Z)) : option (nat * list Z) :=
  match args with
  | [] => found
  | a :: r => find_option opt (S i) r (if has_prefix opt a then Some (i, drop (length opt) a) else found)
  end.

Definition replay_main (argv : list (list Z)) (w : W) : res (Z * list out * W) :=
  match argv with
  | _ :: command :: path :: rest =>
      if bool_decide (command = zstr "parse") then cmd_parse path w
      else if bool_decide (command = zstr "analyze") then cmd_analyze path w
      else if bool_decide (command = zstr "replay") then
        cmd_replay path (match find_option (zstr "--target=") 0 rest None with
                         | Some (_, t) => t
                         | None => zstr "10.10.200.10:9527"
                         end) w
      else if bool_decide (command = zstr "train") then
        let '(files, output) := match find_option (zstr "--output=") 0 (path :: rest) None with
                                | Some (i, o) => (take i (path :: rest), o)
                                | None => (path :: rest, zstr "prefetch_list.txt")
                                end in
        if bool_decide (files = []) then Ok (1, [OText "Error: No replay files specified for training"], w)
        else cmd_train files output w
      else Ok (1, OUnknown command :: print_usage, w)
  | _ => Ok (1, print_usage, w)
  end.
End Tool.

(** ** Lemmas: reading *)

#[export] Instance ReplayEntry_eq : EqDecision ReplayEntry.
Proof. solve_decision. Defined.

Lemma read_log es n tail :
  Forall replay_wf es -> n = length es -> read_loop n (replay_log es ++ tail) = es.
Proof.
  intros Hes ->. induction Hes as [|e es He Hes IH]; [done|]. pose proof (replay_size e He) as Hl.
  cbn [length read_loop replay_log fmap list_fmap concat]. fold (replay_log es). rewrite <- app_assoc.
  rewrite (proj2 (Z.ltb_ge _ _)) by (unfold REPLAY_ENTRY_SIZE; rewrite length_app; lia).
  rewrite drop_app_length' by done. f_equal; [|apply IH]. by apply (of_bytes_of (A:=ReplayEntry)).
Qed.

(** A recording cut after [k] bytes of its entries. *)
Lemma read_log_cut es n tail k :
  Forall replay_wf es -> n = length es ->
  read_loop n (take k (replay_log es ++ tail)) = take (k / 33) es.
Proof.
  intros Hes ->. revert k. induction Hes as [|e es He Hes IH]; intros k; [by rewrite take_nil|]. pose proof (replay_size e He) as Hl.
  cbn [length read_loop replay_log fmap list_fmap concat]. fold (replay_log es). rewrite <- app_assoc. unfold REPLAY_ENTRY_SIZE.
  destruct (decide (33 <= k)%nat) as [Hk|Hk].
  - rewrite (proj2 (Z.ltb_ge _ _)) by (rewrite length_take, length_app; lia).
    rewrite take_app_ge, Hl by lia. rewrite drop_app_length' by done. rewrite IH.
    pose proof (Nat.div_add (k - 33) 1 33) as Hd. replace (k - 33 + 1 * 33)%nat with k in Hd by lia. rewrite Hd, Nat.add_1_r by lia.
    cbn [take]. f_equal. by apply (of_bytes_of (A:=ReplayEntry)).
  - rewrite (proj2 (Z.ltb_lt _ _)) by (rewrite length_take; lia). by rewrite Nat.div_small by lia.
Qed.

(** The header of a file is what its first ten bytes say, and only they. *)
Lemma header_fields a b c rest :
  int_ok 4 a -> int_ok 2 b -> int_ok 4 c ->
  let h := of_bytes (A:=ReplayFileHeader) (le_bytes 4 a ++ le_bytes 2 b ++ le_bytes 4 c ++ rest) in
  rh_magic h = a /\ rh_version h = b /\ rh_entry_count h = c.
Proof.
  intros Ha Hb Hc h. split_and!.
  - transitivity (le_val (le_bytes 4 a)); [reflexivity|by apply int_ok_read].
  - transitivity (le_val (le_bytes 2 b)); [reflexivity|by apply int_ok_read].
  - transitivity (le_val (le_bytes 4 c)); [reflexivity|by apply int_ok_read].
Qed.

Lemma head12_split count : int_ok 4 count ->
  head12 count = le_bytes 4 REPLAY_MAGIC ++ le_bytes 2 REPLAY_VERSION ++ le_bytes 4 count ++ [0; 0].
Proof. intros Hc. reflexivity. Qed.

Lemma read_entries_spec memory count rest n :
  int_ok 4 count -> 33 * count <= memory -> (6 <= length rest)%nat -> n = Z.to_nat count ->
  let file := le_bytes 4 REPLAY_MAGIC ++ le_bytes 2 REPLAY_VERSION ++ le_bytes 4 count ++ rest in
  ReadEntries memory (Some file) = Ok (read_loop n (drop 6 rest), Some (of_bytes file)).
Proof.
  intros Hc Hm Hr -> file. unfold ReadEntries, REPLAY_HEADER_SIZE, REPLAY_ENTRY_SIZE.
  assert (length file = 10 + length rest)%nat as Hl by (unfold file; rewrite !length_app, !le_bytes_length; lia).
  rewrite (proj2 (Z.ltb_ge _ _)) by lia. cbv zeta.
  destruct (header_fields REPLAY_MAGIC REPLAY_VERSION count rest) as (E1 & E2 & E3); [by split; vm_compute|by split; vm_compute|done|].
  fold file in E1, E2, E3. rewrite E1, E2, E3, !Z.eqb_refl. cbn [negb orb]. rewrite (proj2 (Z.ltb_ge _ _)) by lia. do 2 f_equal.
Qed.

Lemma image_read memory es k :
  Forall replay_wf es -> 33 * Z.of_nat (length es) < 2 ^ 31 -> 33 * Z.of_nat (length es) <= memory ->
  exists h, ReadEntries memory (Some (take k (replay_image es))) = Ok (take ((k - 16) / 33) es, h).
Proof.
  intros Hes Hn Hm. set (count := Z.of_nat (length es)). assert (int_ok 4 count) as Hc by (unfold int_ok, count; change (8 * Z.of_nat 4) with 32; lia).
  destruct (decide (16 <= k)%nat) as [Hk|Hk].
  - set (body := head16 count ++ replay_log es). set (foot := bytes_of (mkReplayFooter (crc32c_ref body) REPLAY_FOOTER_MAGIC)).
    assert (take k (replay_image es) = le_bytes 4 REPLAY_MAGIC ++ le_bytes 2 REPLAY_VERSION ++ le_bytes 4 count ++
      ([0; 0] ++ le_bytes 4 (crc32c_ref (head12 count))) ++ take (k - 16) (replay_log es ++ foot)) as ->.
    { unfold replay_image. fold count. fold body. fold foot. unfold body. rewrite <- app_assoc, take_app_ge, (head16_length count Hc) by (rewrite (head16_length count Hc); lia).
      unfold head16. rewrite (head12_split count Hc), <- !app_assoc. reflexivity. }
    eexists. rewrite (read_entries_spec memory count _ (length es)); [|done|unfold count; lia|rewrite !length_app, le_bytes_length; cbn; lia|unfold count; lia].
    do 2 f_equal. rewrite drop_app_length' by (rewrite length_app, le_bytes_length; done). by apply read_log_cut.
  - exists None. unfold ReadEntries, REPLAY_HEADER_SIZE. rewrite (proj2 (Z.ltb_lt _ _)) by (rewrite length_take; lia).
    replace (k - 16)%nat with 0%nat by lia. done.
Qed.

Lemma image_length es :
  Forall replay_wf es -> 33 * Z.of_nat (length es) < 2 ^ 31 -> length (replay_image es) = (24 + 33 * length es)%nat.
Proof.
  intros Hwf Hn. assert (int_ok 4 (Z.of_nat (length es))) as Hc by (unfold int_ok; change (8 * Z.of_nat 4) with 32; lia).
  assert (length (replay_log es) = 33 * length es)%nat as Hl.
  { clear Hn Hc. induction Hwf as [|e es He _ IH]; [done|]. unfold replay_log in *. rewrite fmap_cons. cbn [concat length].
    rewrite length_app, (replay_size e He), IH. lia. }
  unfold replay_image. cbv zeta. rewrite !length_app, (head16_length _ Hc), Hl. cbn. lia.
Qed.

Section FlushLemmas.
Context {W : Type} `{AgentLaws W, !ReplayOs W} (cap : Z) (Hcap : cap_ok cap).

Lemma stop_inv r es : ring_inv cap r es -> ring_inv cap (StopRecording r) es.
Proof. by intros []. Qed.

Lemma reading_wf es out : Forall replay_wf es -> ring_reading cap es = Ok out ->
  Forall replay_wf out /\ 33 * Z.of_nat (length out) < 2 ^ 31 /\ Z.of_nat (length out) <= slots cap.
Proof using Hcap.
  destruct (slots_pos cap Hcap) as [Hs Hsc]. unfold cap_ok, ring_reading in *. intros Hes.
  assert (cap < 2 ^ 31 \/ cap = 2 ^ 31) as Hc31 by lia.
  assert (33 * slots cap < 2 ^ 31) as Hlt by (destruct Hc31 as [? | ->]; [lia|by vm_compute]).
  destruct (Z.leb_spec (Z.of_nat (length es)) (slots cap)); [intros [= <-]; split_and!; [done|lia|lia]|].
  destruct (_ =? 0); [|done]. intros [= <-]. split; [by apply Forall_drop|]. rewrite lastn_length. lia.
Qed.

(** [FlushToFile] when the ring can be read. *)
Lemma flush_file_spec after path r es out st (w : W) :
  ring_inv cap r es -> ring_reading cap es = Ok out -> out <> [] -> crc_static_ok st ->
  if (length after <? 2)%nat then FlushToFile after path r st w = Fault
  else exists ok st' w', FlushToFile after path r st w = Ok (ok, StopRecording r, st', w') /\ crc_static_ok st' /\
    (ok = true -> exists k, disk w' !! path = Some (take k (replay_image out))) /\
    (saves_all W -> ok = true /\ disk w' !! path = Some (replay_image out)).
Proof using Hcap.
  intros Hr Hout Hne Hst. destruct (reading_wf es out (gi_wf _ _ _ Hr) Hout) as (Hwf & Hlen & _).
  unfold FlushToFile. cbv zeta. rewrite (get_all_spec cap (StopRecording r) es Hcap (stop_inv r es Hr)), Hout. cbn [res_bind].
  rewrite bool_decide_eq_false_2 by done. pose proof (file_image_spec after out st Hwf Hlen Hst) as Hf.
  destruct (length after <? 2)%nat; [by rewrite Hf|]. destruct Hf as (st' & -> & Hst'). cbn [res_bind].
  set (w1 := match last_sep path 0 None with Some i => _ | None => w end).
  assert (Forall is_byte (replay_image out)) as Hb.
  { assert (int_ok 4 (Z.of_nat (length out))) as Hc by (unfold int_ok; change (8 * Z.of_nat 4) with 32; lia).
    unfold replay_image. cbv zeta. set (body := head16 _ ++ replay_log out).
    assert (Forall is_byte body) as Hby.
    { unfold body, head16. rewrite !Forall_app. split_and!; [by apply head12_bytes|apply le_bytes_bytes|by apply replay_log_bytes]. }
    apply Forall_app. split; [done|]. apply (bytes_of_bytes (A:=ReplayFileFooter)), replay_footer_ok. by apply crc32c_ref_range. }
  pose proof (save_disk path (replay_image out) w1 Hb) as Hd.
  assert (saves_all W -> snd <$> (a_save path (replay_image out) w1).1 = Some (Z.of_nat (length (replay_image out)))) as Hall.
  { intros Ha. by destruct (Ha path (replay_image out) w1) as [good ->]. }
  set (img := replay_image out) in *. clearbody img.
  destruct (a_save path img w1) as [[[good k]|] w2]; cbn [fst snd] in *; eexists _, st', w2; (split; [reflexivity|]; split; [done|]).
  - rewrite (proj2 Hd). unfold saved. rewrite lookup_insert_eq. split; [by eexists|]. intros Ha. specialize (Hall Ha) as [= ->].
    by rewrite take_ge by lia.
  - split; [done|]. intros Ha. by specialize (Hall Ha).
Qed.
End FlushLemmas.

(** ** Lemmas: statistics *)

(** How many entries satisfy a test. *)
Definition tally (P : ReplayEntry -> bool) (es : list ReplayEntry) : Z := Z.of_nat (length (filter P es)).

Lemma tally_snoc P es e : tally P (es ++ [e]) = tally P es + if P e then 1 else 0.
Proof.
  unfold tally. rewrite filter_app, length_app, filter_cons. destruct (P e); [rewrite decide_True by done|rewrite decide_False by (by intros [])]; cbn; lia.
Qed.

Lemma tally_le P es : 0 <= tally P es <= Z.of_nat (length es).
Proof. unfold tally. pose proof (length_filter P es). lia. Qed.

Lemma bump_spec P es e : bump (P e) (u32 (tally P es)) = u32 (tally P (es ++ [e])).
Proof. rewrite tally_snoc. unfold bump. destruct (P e); [unfold u32; by rewrite wrap_add_l|by rewrite Z.add_0_r]. Qed.

Definition has_status (s : Z) (e : ReplayEntry) : bool := r_status e =? s.

(** The result of [Parse] on the entries read so far. *)
Record parse_inv (n : Z) (es : list ReplayEntry) (p : ParseResult) : Prop := {
  pi_count : pr_entry_count p = n;
  pi_success : pr_success p = u32 (tally (has_status 0) es);
  pi_timeout : pr_timeout p = u32 (tally (has_status 1) es);
  pi_error : pr_error p = u32 (tally (has_status 2) es);
  pi_retry : pr_retry p = u32 (tally (has_status 3) es);
  pi_bounds : Forall (fun e => pr_lba_min p <= r_lba e <= pr_lba_max p /\ r_timestamp_ms e <= pr_time_range_ms p) es;
  pi_min : pr_lba_min p = 2 ^ 64 - 1 \/ pr_lba_min p ∈ r_lba <$> es;
  pi_max : pr_lba_max p = 0 \/ pr_lba_max p ∈ r_lba <$> es;
  pi_time : pr_time_range_ms p = 0 \/ pr_time_range_ms p ∈ r_timestamp_ms <$> es;
}.

Lemma parse_fold n es :
  parse_inv n es (foldl parse_entry (mkParse n 0 0 (2 ^ 64 - 1) 0 0 0 0 0) es).
Proof.
  induction es as [|e es IH] using rev_ind; [split; try done; by left|]. rewrite foldl_app. cbn [foldl].
  set (p := foldl parse_entry _ es) in *. destruct IH as [H1 H2 H3 H4 H5 H6 H7 H8 H9].
  split; cbn [parse_entry pr_entry_count pr_success pr_timeout pr_error pr_retry pr_lba_min pr_lba_max pr_time_range_ms]; rewrite ?fmap_app, ?elem_of_app.
  - done.
  - rewrite H2. apply (bump_spec (has_status 0)).
  - rewrite H3. apply (bump_spec (has_status 1)).
  - rewrite H4. apply (bump_spec (has_status 2)).
  - rewrite H5. apply (bump_spec (has_status 3)).
  - apply Forall_app. split; [eapply Forall_impl; [exact H6|]; cbn; lia|]. constructor; [lia|constructor].
  - destruct (Z.min_spec (pr_lba_min p) (r_lba e)) as [[_ ->]|[_ ->]]; [tauto|]. right. right. by left.
  - destruct (Z.max_spec (pr_lba_max p) (r_lba e)) as [[_ ->]|[_ ->]]; [|tauto]. right. right. by left.
  - destruct (Z.max_spec (pr_time_range_ms p) (r_timestamp_ms e)) as [[_ ->]|[_ ->]]; [|tauto]. right. right. by left.
Qed.

(** What [AnalyzePerf] says of one range. *)
Definition stage_report (es : list ReplayEntry) (range : string * Z * Z) (ls : list PerfStage) : Prop :=
  let '(name, lo, hi) := range in
  let lats := r_latency_us <$> filter (in_range lo hi) es in
  lats = [] /\ ls = [] \/
  exists p50 p95 p99, percentile 50 p50 lats /\ percentile 95 p95 lats /\ percentile 99 p99 lats /\
    ls = [mkStage name (u32 (Z.of_nat (length lats))) (foldr Z.add 0 lats) (Z.of_nat (length lats)) p50 p95 p99].

Lemma stage_spec es range : exists ls, stage_of es range = Ok ls /\ stage_report es range ls.
Proof.
  destruct range as [[name lo] hi]. unfold stage_of, stage_report. set (lats := r_latency_us <$> filter (in_range lo hi) es). cbv zeta.
  case_bool_decide as Hl; [exists []; split; [done|by left]|].
  destruct (percentile_found 50 lats Hl) as (p50 & -> & H50); [lia|].
  destruct (percentile_found 95 lats Hl) as (p95 & -> & H95); [lia|].
  destruct (percentile_found 99 lats Hl) as (p99 & -> & H99); [lia|]. cbn [of_opt res_bind].
  eexists. split; [reflexivity|]. right. by exists p50, p95, p99.
Qed.

Lemma stages_spec es rs : exists ls, res_map (stage_of es) rs = Ok ls /\ Forall2 (stage_report es) rs ls.
Proof.
  induction rs as [|x rs (ls & E & Hf)]; [by exists []|]. destruct (stage_spec es x) as (l & E1 & H1).
  exists (l :: ls). cbn [res_map]. rewrite E1. cbn [res_bind]. rewrite E. by split; [|constructor].
Qed.

(** ** Lemmas: frequencies *)

Definition is_lba (lba : Z) (e : ReplayEntry) : bool := r_lba e =? lba.

Lemma add_freq_keys m lba l : l ∈ (add_freq m lba).*1 <-> l = lba \/ l ∈ m.*1.
Proof.
  induction m as [|[k f] m IH]; cbn [add_freq]; [set_solver|]. destruct (Z.eqb_spec k lba) as [->|]; [set_solver|].
  rewrite !fmap_cons, !elem_of_cons, IH. tauto.
Qed.

Lemma add_freq_nodup m lba : NoDup m.*1 -> NoDup (add_freq m lba).*1.
Proof.
  induction m as [|[k f] m IH]; cbn [add_freq]; [intros _; apply NoDup_singleton|].
  rewrite fmap_cons. intros [Hk Hm]%NoDup_cons. destruct (Z.eqb_spec k lba) as [->|]; [by apply NoDup_cons|].
  rewrite fmap_cons. apply NoDup_cons. split; [rewrite add_freq_keys; cbn; tauto|by apply IH].
Qed.

Lemma add_freq_elem m lba l f :
  NoDup m.*1 -> (l, f) ∈ add_freq m lba ->
  if l =? lba then (exists g, (l, g) ∈ m /\ f = u32 (g + 1)) \/ l ∉ m.*1 /\ f = 1 else (l, f) ∈ m.
Proof.
  induction m as [|[k g] m IH]; cbn [add_freq].
  { intros _ [= -> ->]%list_elem_of_singleton. rewrite Z.eqb_refl. right. split; [apply not_elem_of_nil|done]. }
  rewrite fmap_cons. intros [Hk Hm]%NoDup_cons. cbn [fst] in Hk. destruct (Z.eqb_spec k lba) as [->|Hne].
  - intros [[= -> ->]|Hin]%elem_of_cons; [rewrite Z.eqb_refl; left; exists g; split; [left|done]|].
    rewrite (proj2 (Z.eqb_neq _ _)); [by right|]. intros ->. apply Hk. by apply (list_elem_of_fmap_2 fst) in Hin.
  - intros [[= -> ->]|Hin]%elem_of_cons; [rewrite (proj2 (Z.eqb_neq _ _)) by done; left|]. specialize (IH Hm Hin).
    destruct (Z.eqb_spec l lba) as [->|]; [|by right]. destruct IH as [(g' & Hg & ->)|[Hn ->]]; [left; exists g'; split; [by right|done]|].
    right. split; [|done]. cbn. apply not_elem_of_cons. by split.
Qed.

Lemma freqs_spec es :
  NoDup (freqs_of es).*1 /\ (forall l, l ∈ (freqs_of es).*1 <-> l ∈ r_lba <$> es) /\
  (forall l f, (l, f) ∈ freqs_of es -> f = u32 (tally (is_lba l) es)).
Proof.
  unfold freqs_of. induction es as [|e es (H1 & H2 & H3)] using rev_ind.
  { split_and!; [constructor|done|]. intros l f Hin. by apply elem_of_nil in Hin. }
  rewrite foldl_app. cbn [foldl]. set (m := foldl _ [] es) in *. split_and!.
  - by apply add_freq_nodup.
  - intros l. rewrite add_freq_keys, H2, fmap_app. set_solver.
  - intros l f Hin. apply add_freq_elem in Hin; [|done]. rewrite tally_snoc. unfold is_lba at 2. rewrite Z.eqb_sym.
    destruct (Z.eqb_spec l (r_lba e)) as [->|]; [|rewrite Z.add_0_r; by apply H3].
    destruct Hin as [(g & Hg & ->)|[Hn ->]]; [rewrite (H3 _ _ Hg); unfold u32; by rewrite wrap_add_l|].
    replace (tally (is_lba (r_lba e)) es) with 0; [done|]. unfold tally.
    destruct (filter (is_lba (r_lba e)) es) as [|x l] eqn:Ef; [done|]. exfalso. apply Hn, H2.
    assert (x ∈ filter (is_lba (r_lba e)) es) as Hx by (rewrite Ef; left). apply list_elem_of_filter in Hx as [Hx Hin].
    unfold is_lba in Hx. apply Is_true_eq_true, Z.eqb_eq in Hx. rewrite <- Hx. by apply list_elem_of_fmap_2.
Qed.

Lemma freqs_length es : (length (freqs_of es) <= length es)%nat.
Proof.
  assert (forall m lba, length (add_freq m lba) <= S (length m))%nat as Ha.
  { intros m lba. induction m as [|[k f] m IH]; cbn; [done|]. destruct (k =? lba); cbn; lia. }
  unfold freqs_of. induction es as [|e es IH] using rev_ind; [done|]. rewrite foldl_app, length_app. cbn [foldl length].
  specialize (Ha (foldl (fun m e => add_freq m (r_lba e)) [] es) (r_lba e)). lia.
Qed.

(** ** Properties *)

(** C14. A recording can be read back: flushing a ring that can be read stops the
    recording; on a disk with room it answers true and leaves in the file an
    image of 24 bytes and 33 for each entry the ring holds, from which the
    analyzer reads exactly those entries, in order. On any disk, when it
    answers true the file holds the first [k] bytes of that image, and the analyzer
    reads the entries that are complete in them. All of this if two bytes of
    stack behind the header buffer can be lost, since the header is stored two
    bytes past its end; otherwise the flush faults. *)
Theorem replay_round_trip {W} `{AgentLaws W, !ReplayOs W} cap memory after path r es out st (w : W) :
  cap_ok cap -> ring_inv cap r es -> ring_reading cap es = Ok out -> out <> [] -> crc_static_ok st -> cap <= memory ->
  if (length after <? 2)%nat then FlushToFile after path r st w = Fault
  else exists ok r' st' w' image h, FlushToFile after path r st w = Ok (ok, r', st', w') /\ active r' = false /\
    length image = (24 + 33 * length out)%nat /\ ReadEntries memory (Some image) = Ok (out, h) /\
    (saves_all W -> ok = true /\ disk w' !! path = Some image) /\
    (ok = true -> exists k h, disk w' !! path = Some (take k image) /\
       ReadEntries memory (disk w' !! path) = Ok (take ((k - 16) / 33) out, h)).
Proof.
  intros Hcap Hr Hout Hne Hst Hm. pose proof (flush_file_spec cap Hcap after path r es out st w Hr Hout Hne Hst) as Hf.
  destruct (length after <? 2)%nat; [done|]. destruct Hf as (ok & st' & w' & E & _ & Hd & Hall).
  destruct (reading_wf cap Hcap es out (gi_wf _ _ _ Hr) Hout) as (Hwf & Hlen & Hsl). destruct (slots_pos cap Hcap).
  pose proof (image_length out Hwf Hlen) as Hl.
  destruct (image_read memory out (length (replay_image out)) Hwf Hlen) as (h & Hh); [lia|].
  rewrite (take_ge out), firstn_all in Hh by (rewrite Hl; apply Nat.div_le_lower_bound; lia).
  eexists ok, _, st', w', (replay_image out), h. split_and!; [exact E|done|done|exact Hh|exact Hall|].
  intros Hok. destruct (Hd Hok) as (k & Hk). destruct (image_read memory out k Hwf Hlen) as (h' & Hh'); [lia|].
  exists k, h'. split; [done|]. by rewrite Hk.
Qed.

#[export] Instance SimAgent_replay : ReplayOs SimAgent := {
  r_system _ w := w;
  r_rename _ _ w := w;
  r_time_suffix w := (zstr "_20260101_000000", w);
  r_com1_close w := w;
}.

Definition ring_one : ReplayRingBuffer :=
  match run_alone 5 ring100 (AtLoad (entry_at 0 io0)) with Ok (r, _) => r | _ => ring100 end.

Lemma ring_one_inv : ring_inv 100 ring_one [entry_at 0 io0].
Proof.
  destruct (put_inv 100 ring100 [] (entry_at 0 io0)) as (r & E & _ & _ & Hi).
  - split; vm_compute; discriminate.
  - apply ring100_inv.
  - split; split; vm_compute; congruence.
  - vm_compute. reflexivity.
  - unfold ring_one. cbn [run_alone writer_step res_bind]. rewrite E. exact Hi.
Qed.

Lemma replay_round_trip_witness :
  exists r' st' w' image h, FlushToFile [1; 2] (zstr "r.bin") ring_one crc_cold replay_world = Ok (true, r', st', w') /\
    disk w' !! zstr "r.bin" = Some image /\ length image = 57%nat /\ ReadEntries 1000 (Some image) = Ok ([entry_at 0 io0], h).
Proof.
  assert (saves_all SimAgent) as Ha by (intros p bs w; by exists true).
  destruct (replay_round_trip 100 1000 [1; 2] (zstr "r.bin") ring_one [entry_at 0 io0] [entry_at 0 io0] crc_cold replay_world)
    as (ok & r' & st' & w' & image & h & E & _ & Hl & Hr & Hs & _).
  - split; vm_compute; discriminate.
  - apply ring_one_inv.
  - reflexivity.
  - discriminate.
  - apply crc_cold_ok.
  - lia.
  - destruct (Hs Ha) as [-> Hd]. exists r', st', w', image, h. split_and!; [exact E|exact Hd|exact Hl|exact Hr].
Defined.

(** Neither checksum of a recording is ever compared: a file with the right
    magic, version and count is read as the entries it holds, whatever stands in
    the six header bytes that carry the header's checksum and whatever follows
    the entries. Damage to a recording is not noticed. *)
Theorem replay_checksums_ignored memory es six tail :
  Forall replay_wf es -> Z.of_nat (length es) < 2 ^ 32 -> 33 * Z.of_nat (length es) <= memory -> length six = 6%nat ->
  exists h, ReadEntries memory (Some (le_bytes 4 REPLAY_MAGIC ++ le_bytes 2 REPLAY_VERSION ++ le_bytes 4 (Z.of_nat (length es)) ++
                                      six ++ replay_log es ++ tail)) = Ok (es, h).
Proof.
  intros Hes Hn Hm Hs. eexists. rewrite (read_entries_spec memory _ _ (length es)).
  - do 2 f_equal. rewrite drop_app_length' by done. by apply read_log.
  - unfold int_ok. change (8 * Z.of_nat 4) with 32. lia.
  - done.
  - rewrite length_app. lia.
  - lia.
Qed.

Lemma replay_checksums_ignored_witness :
  exists h, ReadEntries 1000 (Some (le_bytes 4 REPLAY_MAGIC ++ le_bytes 2 REPLAY_VERSION ++ le_bytes 4 1 ++
                                    [0; 0; 0; 0; 0; 0] ++ replay_log [entry_at 5 io0] ++ [])) = Ok ([entry_at 5 io0], h).
Proof.
  apply (replay_checksums_ignored 1000 [entry_at 5 io0] [0; 0; 0; 0; 0; 0] []).
  - constructor; [split; split; vm_compute; congruence|constructor].
  - vm_compute. reflexivity.
  - vm_compute. discriminate.
  - reflexivity.
Defined.

(** The summary of a recording is exact: for the entries read from a file,
    [Parse] gives their number, the smallest and largest block address and the
    latest time stamp, each of them of some entry, and the number of entries of
    each status; and [AnalyzePerf] never leaves the sorted latencies: each
    stage with entries is reported with its percentiles, and no other. *)
Theorem replay_summary_exact memory file es h :
  ReadEntries memory file = Ok (es, h) -> es <> [] -> Forall replay_wf es -> Z.of_nat (length es) < 2 ^ 32 ->
  (exists p, Parse memory file = Ok p /\ pr_entry_count p = Z.of_nat (length es) /\
    Forall (fun e => pr_lba_min p <= r_lba e <= pr_lba_max p /\ r_timestamp_ms e <= pr_time_range_ms p) es /\
    pr_lba_min p ∈ r_lba <$> es /\ pr_lba_max p ∈ r_lba <$> es /\ pr_time_range_ms p ∈ r_timestamp_ms <$> es /\
    pr_success p = tally (has_status 0) es /\ pr_timeout p = tally (has_status 1) es /\
    pr_error p = tally (has_status 2) es /\ pr_retry p = tally (has_status 3) es) /\
  exists ls, AnalyzePerf memory file = Ok (concat ls) /\ Forall2 (stage_report es) ranges ls.
Proof.
  intros Hr Hne Hwf Hn. split.
  - unfold Parse. rewrite Hr. cbn [res_bind]. rewrite bool_decide_eq_false_2 by done. eexists. split; [reflexivity|].
    destruct (parse_fold (u32 (Z.of_nat (length es))) es) as [H1 H2 H3 H4 H5 H6 H7 H8 H9].
    set (p := foldl _ _ es) in *. assert (forall P, u32 (tally P es) = tally P es) as Hu.
    { intros P. pose proof (tally_le P es). unfold u32. apply wrap_small. lia. }
    rewrite Hu in H2, H3, H4, H5. split; [rewrite H1; unfold u32; apply wrap_small; lia|]. split; [done|].
    destruct es as [|e es]; [done|]. apply Forall_cons in H6 as [He _]. apply Forall_cons in Hwf as [[Hl _ _ _ _ Ht _] _].
    unfold int_ok in Hl, Ht. change (8 * Z.of_nat 8) with 64 in Hl. change (8 * Z.of_nat 4) with 32 in Ht.
    split_and!; try done.
    + destruct H7 as [E|]; [|done]. rewrite fmap_cons. apply elem_of_cons. left. lia.
    + destruct H8 as [E|]; [|done]. rewrite fmap_cons. apply elem_of_cons. left. lia.
    + destruct H9 as [E|]; [|done]. rewrite fmap_cons. apply elem_of_cons. left. lia.
  - unfold AnalyzePerf. rewrite Hr. cbn [res_bind]. rewrite bool_decide_eq_false_2 by done.
    destruct (stages_spec es ranges) as (ls & -> & Hf). by exists ls.
Qed.

Definition sample_file : list Z :=
  le_bytes 4 REPLAY_MAGIC ++ le_bytes 2 REPLAY_VERSION ++ le_bytes 4 1 ++ replicate 6 0 ++ replay_log [entry_at 5 io0].

Lemma replay_summary_exact_witness :
  exists p, Parse 1000 (Some sample_file) = Ok p /\ pr_lba_min p ∈ [7].
Proof.
  destruct (replay_summary_exact 1000 (Some sample_file) [entry_at 5 io0] (Some (of_bytes sample_file))) as [(p & E & _ & _ & H & _) _].
  - reflexivity.
  - discriminate.
  - constructor; [split; split; vm_compute; congruence|constructor].
  - vm_compute. reflexivity.
  - exists p. split; [exact E|exact H].
Defined.

(** Any sorting by decreasing frequency. *)
Class HotSort (hot_sort : list (Z * Z) -> list (Z * Z)) : Prop := {
  hs_perm m : hot_sort m ≡ₚ m;
  hs_sorted m : StronglySorted (fun a b : Z * Z => b.2 <= a.2) (hot_sort m);
}.

Lemma sorted_split (a b : list (Z * Z)) x y :
  StronglySorted (fun a b : Z * Z => b.2 <= a.2) (a ++ b) -> x ∈ a -> y ∈ b -> y.2 <= x.2.
Proof.
  induction a as [|z a IH]; [by intros _ ?%elem_of_nil|]. rewrite <- app_comm_cons. intros [Hs Hz]%StronglySorted_inv [->|Hx]%elem_of_cons Hy.
  - rewrite Forall_forall in Hz. apply Hz, elem_of_app. by right.
  - by apply IH.
Qed.

(** The number of entries for a block. *)
Definition accesses (es : list ReplayEntry) (lba : Z) : nat := length (filter (fun e => r_lba e = lba) es).

(** The phase a block belongs to: by the time of its first access. *)
Definition first_phase (es : list ReplayEntry) (lba : Z) (phase : string) : Prop :=
  exists before e after, es = before ++ e :: after /\ r_lba e = lba /\ lba ∉ r_lba <$> before /\
    (r_timestamp_ms e <= 10000 /\ phase = "bootstart" \/
     10000 < r_timestamp_ms e <= 15000 /\ phase = "driverload" \/
     15000 < r_timestamp_ms e /\ phase = "desktop").

Lemma tally_accesses es lba : tally (is_lba lba) es = Z.of_nat (accesses es lba).
Proof.
  unfold tally, accesses. do 2 f_equal. apply list_filter_iff. intros e. unfold is_lba. rewrite Is_true_true. apply Z.eqb_eq.
Qed.

Lemma phase_of_first es lba : lba ∈ r_lba <$> es -> first_phase es lba (phase_of lba es).
Proof.
  induction es as [|e es IH]; [by intros ?%elem_of_nil|]. rewrite fmap_cons. intros Hin. cbn [phase_of].
  destruct (Z.eqb_spec (r_lba e) lba) as [He|Hne].
  - exists [], e, es. split_and!; [done|done|apply not_elem_of_nil|].
    destruct (Z.ltb_spec 15000 (r_timestamp_ms e)), (Z.ltb_spec 10000 (r_timestamp_ms e)); try lia; auto.
  - apply elem_of_cons in Hin as [->|Hin]; [done|]. destruct (IH Hin) as (before & x & after & -> & Hx & Hnot & Hp).
    exists (e :: before), x, after. split_and!; try done. rewrite fmap_cons. apply not_elem_of_cons. by split.
Qed.

(** As many blocks are counted as there are different addresses. *)
Lemma freqs_distinct es : length (freqs_of es) = length (remove_dups (r_lba <$> es)).
Proof.
  destruct (freqs_spec es) as (Hnd & Hkeys & _). rewrite <- (length_fmap fst). apply Permutation_length, NoDup_Permutation; [done|apply NoDup_remove_dups|].
  intros l. by rewrite Hkeys, elem_of_remove_dups.
Qed.

Lemma sorted_take {A} (R : A -> A -> Prop) n l : StronglySorted R l -> StronglySorted R (take n l).
Proof.
  intros Hs. revert n. induction Hs as [|x l _ IH Hx]; intros [|n]; cbn [take]; constructor; [apply IH|]. by apply Forall_take.
Qed.

(** C34. The prefetch list, from fewer than 2^32 recorded entries: whatever
    sorting by frequency is used, training writes the two heading lines and one
    line for each of the most accessed blocks, as many as there are different
    blocks but at most 500, from the most to the least accessed, with
    priorities that count down to 1 and the phase of the block's first access
    (up to 10 s bootstart, up to 15 s driverload, then desktop). The blocks are
    distinct, occur in the recordings, and no block left out was accessed more
    often than one listed. *)
Theorem replay_train_hottest hot_sort `{!HotSort hot_sort} es :
  Z.of_nat (length es) < 2 ^ 32 ->
  exists (hot : list Z) (phase : Z -> string), let k := Z.of_nat (length hot) in
    train_text hot_sort es = zstr "# HTKIS HyperDisk X Static Prefetch Hot Block List" ++ [10] ++
      zstr "# Format: lba,size,priority,phase" ++ [10] ++
      concat (imap (fun i lba => fmt_u lba ++ zstr ",4096," ++ fmt_u (k - Z.of_nat i) ++ zstr "," ++ zstr (phase lba) ++ [10]) hot) /\
    k = Z.min 500 (Z.of_nat (length (remove_dups (r_lba <$> es)))) /\ NoDup hot /\
    (forall lba, lba ∈ hot -> lba ∈ r_lba <$> es /\ first_phase es lba (phase lba)) /\
    StronglySorted (fun a b => accesses es b <= accesses es a)%nat hot /\
    (forall lba e, lba ∈ hot -> e ∈ es -> r_lba e ∉ hot -> (accesses es (r_lba e) <= accesses es lba)%nat).
Proof.
  intros Hn. destruct (freqs_spec es) as (Hnd & Hkeys & Hcount). set (m := freqs_of es) in *. set (s := hot_sort m).
  pose proof (hs_perm m) as Hp. fold s in Hp. assert (length s = length m) as Hlen by (by rewrite Hp).
  pose proof (freqs_length es) as Hm. fold m in Hm.
  set (k := Z.min (u32 (Z.of_nat (length s))) 500). assert (k = Z.min 500 (Z.of_nat (length m))) as Hk.
  { unfold k, u32. rewrite Hlen, wrap_small; lia. }
  exists (take (Z.to_nat k) s).*1, (fun l => phase_of l es). cbv zeta. rewrite length_fmap, length_take.
  replace (Z.of_nat (Z.to_nat k `min` length s)) with k by lia.
  set (hot := take (Z.to_nat k) s). assert (s = hot ++ drop (Z.to_nat k) s) as Hs by (symmetry; apply take_drop).
  assert (forall l f, (l, f) ∈ s -> f = tally (is_lba l) es) as Hf.
  { intros l f Hin. rewrite Hp in Hin. rewrite (Hcount l f Hin). pose proof (tally_le (is_lba l) es). unfold u32. apply wrap_small. lia. }
  assert (NoDup s.*1) as Hns by (by rewrite Hp). assert (forall l, l ∈ s.*1 <-> l ∈ r_lba <$> es) as Hks by (intros l; by rewrite Hp).
  split_and!.
  - unfold train_text. fold m. fold s. cbv zeta. fold k. fold hot. do 4 f_equal. rewrite imap_fmap. f_equal.
    apply imap_ext. intros i [l f] Hi. unfold hot_line. cbn [fst compose]. apply lookup_lt_Some in Hi. unfold hot in Hi. rewrite length_take in Hi.
    unfold u32. rewrite wrap_small by lia. done.
  - by rewrite <- freqs_distinct.
  - rewrite Hs, fmap_app in Hns. by apply NoDup_app in Hns as [? _].
  - intros l Hl. assert (l ∈ r_lba <$> es) as Hin; [|split; [done|by apply phase_of_first]].
    apply Hks. rewrite Hs, fmap_app. apply elem_of_app. by left.
  - pose proof (sorted_take _ (Z.to_nat k) _ (hs_sorted m)) as Hsort. fold s in Hsort. fold hot in Hsort.
    assert (forall x, x ∈ hot -> x.2 = Z.of_nat (accesses es x.1)) as Hc.
    { intros [l f] Hin. rewrite <- tally_accesses. apply Hf. rewrite Hs. apply elem_of_app. by left. }
    clearbody hot. clear -Hsort Hc. induction Hsort as [|x l _ IH Hx]; rewrite ?fmap_nil, ?fmap_cons; constructor.
    + apply IH. intros y Hy. apply Hc. by right.
    + apply Forall_fmap. rewrite Forall_forall in Hx |- *. intros y Hy. cbn. specialize (Hx y Hy).
      rewrite (Hc x), (Hc y) in Hx by (by left + by right). lia.
  - intros l e Hl He Hnot. apply list_elem_of_fmap in Hl as ([l' f] & -> & Hl). cbn [fst].
    assert (r_lba e ∈ s.*1) as Hin by (apply Hks; by apply list_elem_of_fmap_2). rewrite Hs, fmap_app in Hin.
    apply elem_of_app in Hin as [?|Hin]; [done|]. apply list_elem_of_fmap in Hin as ([x g] & Hx & Hin). cbn in Hx. subst x.
    pose proof (hs_sorted m) as Hsort. fold s in Hsort. rewrite Hs in Hsort.
    pose proof (sorted_split hot _ (l', f) (r_lba e, g) Hsort Hl Hin) as Hle. cbn in Hle.
    apply Nat2Z.inj_le. rewrite <- !tally_accesses.
    rewrite <- (Hf l' f), <- (Hf (r_lba e) g); [done|rewrite Hs; apply elem_of_app; by right|rewrite Hs; apply elem_of_app; by left].
Qed.

(** Merge sort is such a sorting. *)
Definition by_freq (a b : Z * Z) : Prop := b.2 <= a.2.
#[export] Instance by_freq_dec a b : Decision (by_freq a b).
Proof. unfold by_freq. apply _. Defined.
#[export] Instance merge_hot : HotSort (merge_sort by_freq).
Proof.
  split; [intros m; apply merge_sort_Permutation|]. intros m. apply StronglySorted_merge_sort.
  - intros a b c. unfold by_freq. lia.
  - intros a b. unfold by_freq. lia.
Qed.

Lemma replay_train_hottest_witness :
  exists (hot : list Z) (phase : Z -> string), Z.of_nat (length hot) = 1 /\
    forall lba, lba ∈ hot -> lba ∈ [7; 7] /\ first_phase [entry_at 5 io0; entry_at 12000 io0] lba (phase lba).
Proof.
  destruct (replay_train_hottest (merge_sort by_freq) [entry_at 5 io0; entry_at 12000 io0]) as (hot & phase & _ & Hk & _ & Hin & _).
  - vm_compute. reflexivity.
  - exists hot, phase. split; [exact Hk|exact Hin].
Defined.
