(* ===== verification/BootTrace.v ===== *)
(** * The boot I/O trace (src/client/common/hd_boot_trace.h, hd_boot_trace.cpp)

    A ring of events with atomic counters. [buf_size] is the number of slots
    (65536 in the program). [RecordEvent] is the composition of the three accesses
    a thread makes to the shared trace, so that the same accesses can be
    interleaved. *)

From S2P Require Import Prelude.
#[local] Open Scope Z_scope.

Definition BOOT_TRACE_BUF_SIZE : Z := 65536.

Inductive BootIoType : Type := Read | Write | CacheHit | CacheMiss | NetSend | NetRecv | OverlayHit | Prefetch.
Definition io_type_val (t : BootIoType) : Z :=
  match t with
  | Read => 0 | Write => 1 | CacheHit => 2 | CacheMiss => 3 | NetSend => 4 | NetRecv => 5 | OverlayHit => 6 | Prefetch => 7
  end.

Record BootIoEvent : Type := mkEvent {
  timestamp_ns : Z;
  io_type : Z;
  layer_id : Z;
  cache_level : Z;
  reserved : Z;
  status : Z;
  block_addr : Z;
  block_count : Z;
  latency_us : Z;
  image_id : Z;
  request_id : Z;
  padding : list Z;
}.
Definition zero_event : BootIoEvent := mkEvent 0 0 0 0 0 0 0 0 0 0 0 (replicate 16 0).

Record BootIoTrace : Type := mkTrace {
  buffer : list BootIoEvent;
  write_pos : Z;
  count : Z;
  next_request_id : Z;
}.

Section Trace.
Context (buf_size : Z).

Definition BootIoTrace_new : BootIoTrace := mkTrace (replicate (Z.to_nat buf_size) zero_event) 0 0 1.

(** The accesses of [RecordEvent]: reserve a slot, fill it, count. *)
Definition reserve (t : BootIoTrace) : Z * BootIoTrace :=
  (write_pos t mod buf_size, mkTrace (buffer t) (u32 (write_pos t + 1)) (count t) (next_request_id t)).
Definition store (pos : Z) (e : BootIoEvent) (t : BootIoTrace) : BootIoTrace :=
  mkTrace (<[Z.to_nat pos := e]> (buffer t)) (write_pos t) (count t) (next_request_id t).
Definition count_one (t : BootIoTrace) : BootIoTrace :=
  mkTrace (buffer t) (write_pos t) (u32 (count t + 1)) (next_request_id t).

Definition RecordEvent (e : BootIoEvent) (t : BootIoTrace) : BootIoTrace :=
  let '(pos, t) := reserve t in count_one (store pos e t).

(** [now] is the steady clock in nanoseconds. *)
Definition RecordIo (now : Z) (type : BootIoType) (addr blocks latency level st : Z) (t : BootIoTrace) : BootIoTrace :=
  let id := next_request_id t in
  let t := mkTrace (buffer t) (write_pos t) (count t) (u64 (id + 1)) in
  RecordEvent (mkEvent (u64 now) (io_type_val type) 0 level 0 st addr blocks latency 0 id (replicate 16 0)) t.

Definition src_idx (pos to_copy i : Z) : Z := u32 (u32 (pos - to_copy) + i) mod buf_size.

(** The number of events and the caller's buffer afterwards. *)
Definition GetEvents (out_buffer : list BootIoEvent) (max_count : Z) (t : BootIoTrace) : res (Z * list BootIoEvent) :=
  let total := count t in
  let to_copy := if total <? max_count then total else max_count in
  let pos := write_pos t in
  if Z.of_nat (length out_buffer) <? to_copy then Fault else
  Ok (to_copy, ((fun i => default zero_event (buffer t !! Z.to_nat (src_idx pos to_copy i))) <$> seqZ 0 to_copy)
                 ++ drop (Z.to_nat to_copy) out_buffer).

Definition Reset (t : BootIoTrace) : BootIoTrace := mkTrace (buffer t) 0 0 (next_request_id t).
Definition Count (t : BootIoTrace) : Z := count t.
End Trace.

(** ** Lemmas: one recording thread *)

(** A size for which the wrap-around of the 32-bit position does no harm. *)
Definition size_ok (n : Z) : Prop := 0 < n < 2 ^ 32 /\ (n | 2 ^ 32).

(** The trace after the events [es] since it was made or reset. *)
Record trace_inv (n : Z) (t : BootIoTrace) (es : list BootIoEvent) : Prop := {
  ti_pos : write_pos t = u32 (Z.of_nat (length es));
  ti_count : count t = u32 (Z.of_nat (length es));
  ti_len : Z.of_nat (length (buffer t)) = n;
  ti_slots : forall j e, es !! j = Some e -> Z.of_nat (length es) <= Z.of_nat j + n ->
    buffer t !! Z.to_nat (Z.of_nat j mod n) = Some e;
}.

Lemma u32_mod n z : size_ok n -> u32 z mod n = z mod n.
Proof. intros [Hn [k Hk]]. unfold u32, wrap. apply Z.mod_mod_divide. by exists k. Qed.

Lemma record_inv n t es e : size_ok n -> trace_inv n t es -> trace_inv n (RecordEvent n e t) (es ++ [e]).
Proof.
  intros Hn [Hp Hc Hl Hs]. assert (0 < n) as Hn0 by apply Hn. set (k := Z.of_nat (length es)) in *.
  assert (Z.of_nat (length (es ++ [e])) = k + 1) as Hk by (rewrite length_app; cbn; lia).
  assert (write_pos t mod n = k mod n) as Hpos by (rewrite Hp; by apply u32_mod).
  pose proof (Z.mod_pos_bound k n Hn0).
  split; cbn [RecordEvent reserve store count_one write_pos count buffer]; rewrite ?Hk.
  - rewrite Hp. unfold u32. by rewrite wrap_add_l.
  - rewrite Hc. unfold u32. by rewrite wrap_add_l.
  - by rewrite length_insert.
  - intros j e' [Hj|[Hj [Hj0 <-]%list_lookup_singleton_Some]]%lookup_app_Some Hle; rewrite Hpos.
    + apply lookup_lt_Some in Hj as Hjl. rewrite list_lookup_insert_ne; [apply Hs; [done|lia]|].
      pose proof (Z.mod_pos_bound (Z.of_nat j) n Hn0). pose proof (mod_apart n (Z.of_nat j) k Hn0). lia.
    + replace (Z.of_nat j) with k by lia. apply list_lookup_insert_eq. lia.
Qed.

Lemma record_all_inv n t es new :
  size_ok n -> trace_inv n t es -> trace_inv n (foldl (fun t e => RecordEvent n e t) t new) (es ++ new).
Proof.
  intros Hn. revert t es. induction new as [|e new IH]; intros t es Ht; cbn [foldl]; [by rewrite app_nil_r|].
  rewrite cons_middle, app_assoc. by apply IH, record_inv.
Qed.

Lemma trace_new_inv n : 0 < n -> trace_inv n (BootIoTrace_new n) [].
Proof. intros Hn. split; try done. cbn. rewrite length_replicate. lia. Qed.

Lemma reset_inv n t es : trace_inv n t es -> trace_inv n (Reset t) [].
Proof. by intros []. Qed.

Lemma src_idx_mod n pos c i k : size_ok n -> pos = u32 k -> src_idx n pos c i = (k - c + i) mod n.
Proof.
  intros Hn ->. unfold src_idx. assert (forall a b, (u32 a + b) mod n = (a + b) mod n) as Hadd.
  { intros a b. by rewrite <- Zplus_mod_idemp_l, u32_mod, Zplus_mod_idemp_l. }
  rewrite u32_mod, Hadd by done. replace (u32 k - c + i) with (u32 k + (i - c)) by lia. rewrite Hadd. f_equal. lia.
Qed.

(** The event in the slot of index [j]. *)
Lemma slot_event n t es j :
  trace_inv n t es -> Z.of_nat (length es) - n <= j < Z.of_nat (length es) -> 0 <= j ->
  Some (default zero_event (buffer t !! Z.to_nat (j mod n))) = es !! Z.to_nat j.
Proof.
  intros Ht Hj Hj0. destruct (lookup_lt_is_Some_2 es (Z.to_nat j)) as [e He]; [lia|]. pose proof (ti_slots _ _ _ Ht _ _ He) as Hb.
  rewrite Z2Nat.id in Hb by lia. rewrite He, Hb; [done|lia].
Qed.

(** ** Concurrent recording *)

Inductive tracer : Type :=
| AtReserve (e : BootIoEvent)
| AtStore (e : BootIoEvent) (pos : Z)
| AtCount
| Done.

Definition tracer_step (n : Z) (t : BootIoTrace) (p : tracer) : BootIoTrace * tracer :=
  match p with
  | AtReserve e => let '(pos, t) := reserve n t in (t, AtStore e pos)
  | AtStore e pos => (store pos e t, AtCount)
  | AtCount => (count_one t, Done)
  | Done => (t, Done)
  end.

Inductive trace_step (n : Z) : BootIoTrace * list tracer -> BootIoTrace * list tracer -> Prop :=
| trace_one i p t ts : ts !! i = Some p -> trace_step n (t, ts) ((tracer_step n t p).1, <[i := (tracer_step n t p).2]> ts).

(** A thread that is not disturbed records its event. *)
Lemma record_alone n t e :
  let '(t1, p1) := tracer_step n t (AtReserve e) in
  let '(t2, p2) := tracer_step n t1 p1 in
  tracer_step n t2 p2 = (RecordEvent n e t, Done).
Proof. done. Qed.

(** The event a thread has still to store, if any. *)
Definition pending (p : tracer) : list BootIoEvent := match p with AtReserve e => [e] | _ => [] end.

(** [owner] is the list of events in the order in which they reserved their
    slots: each is in its slot or about to be stored there. *)
Record shared_inv (n : Z) (all : list BootIoEvent) (c : BootIoTrace * list tracer) (owner : list BootIoEvent) : Prop := {
  si_len : Z.of_nat (length (buffer c.1)) = n;
  si_pos : write_pos c.1 = Z.of_nat (length owner);
  si_all : owner ++ (c.2 ≫= pending) ≡ₚ all;
  si_slots : forall j e, owner !! j = Some e ->
    buffer c.1 !! j = Some e \/ exists i, c.2 !! i = Some (AtStore e (Z.of_nat j));
  si_store : forall i e pos, c.2 !! i = Some (AtStore e pos) -> 0 <= pos /\ owner !! Z.to_nat pos = Some e;
}.

Lemma pending_insert (ts : list tracer) i p p' :
  ts !! i = Some p -> pending p ++ (<[i := p']> ts ≫= pending) ≡ₚ pending p' ++ (ts ≫= pending).
Proof.
  revert i. induction ts as [|q ts IH]; intros [|i] Hi; [done|done| |].
  - injection Hi as ->. change (<[0%nat := p']> (p :: ts)) with (p' :: ts). rewrite !bind_cons. rewrite !app_assoc.
    by rewrite (Permutation_app_comm (pending p)).
  - change (<[S i := p']> (q :: ts)) with (q :: <[i := p']> ts). rewrite !bind_cons. specialize (IH i Hi).
    rewrite (Permutation_app_swap_app (pending p)), IH. by rewrite (Permutation_app_swap_app (pending q)).
Qed.

Definition is_done (p : tracer) : bool := match p with Done => true | _ => false end.

Lemma shared_step n all t ts i p owner :
  0 < n < 2 ^ 32 -> Z.of_nat (length all) <= n -> shared_inv n all (t, ts) owner -> ts !! i = Some p ->
  exists owner', shared_inv n all ((tracer_step n t p).1, <[i := (tracer_step n t p).2]> ts) owner'.
Proof.
  intros Hn Hall [Hl Hp Ha Hs Ht] Hi. cbn [fst snd] in *. pose proof (lookup_lt_Some _ _ _ Hi) as Hil.
  assert (forall q, pending p = [] -> pending q = [] -> owner ++ (<[i := q]> ts ≫= pending) ≡ₚ all) as Hsame.
  { intros q Hpp Hq. pose proof (pending_insert ts i p q Hi) as HP. rewrite Hpp, Hq in HP. cbn in HP. by rewrite HP. }
  assert (forall q e pos i', (<[i := q]> ts) !! i' = Some (AtStore e pos) -> q <> AtStore e pos -> ts !! i' = Some (AtStore e pos)) as Hback.
  { intros q e pos i' H Hq. apply list_lookup_insert_Some in H as [(_ & -> & _)|[_ H]]; done. }
  destruct p as [e|e pos| |]; cbn [tracer_step reserve fst snd].
  - assert (Z.of_nat (length owner) < n) as Hlt.
    { apply Permutation_length in Ha. rewrite length_app in Ha.
      assert (e ∈ ts ≫= pending) as He by (apply list_elem_of_bind; exists (AtReserve e); split; [left|by eapply list_elem_of_lookup_2]).
      destruct (ts ≫= pending); [by apply elem_of_nil in He|cbn in Ha; lia]. }
    exists (owner ++ [e]). rewrite Hp, (Z.mod_small _ n) by lia. split; cbn [fst snd buffer write_pos].
    + done.
    + rewrite length_app. cbn [length]. unfold u32. rewrite wrap_small; lia.
    + pose proof (pending_insert ts i (AtReserve e) (AtStore e (Z.of_nat (length owner))) Hi) as HP. cbn [pending app] in HP.
      rewrite <- app_assoc. cbn [app]. by rewrite HP.
    + intros j e' [Hj|[Hj [Hj0 <-]%list_lookup_singleton_Some]]%lookup_app_Some.
      * destruct (Hs j e' Hj) as [|[i' Hi']]; [by left|]. right. exists i'. rewrite list_lookup_insert_ne; [done|]. intros ->. by rewrite Hi in Hi'.
      * right. exists i. replace j with (length owner) by lia. by apply list_lookup_insert_eq.
    + intros i' e' pos H. apply list_lookup_insert_Some in H as [(_ & [= <- <-] & _)|[_ H]].
      * rewrite Nat2Z.id. split; [lia|]. by apply list_lookup_middle.
      * destruct (Ht _ _ _ H) as [? Ho]. split; [done|]. by apply lookup_app_l_Some.
  - destruct (Ht i e pos Hi) as [Hpos Ho]. exists owner. split; cbn [fst snd store buffer write_pos]; try done.
    + by rewrite length_insert.
    + by apply Hsame.
    + intros j e' Hj. destruct (decide (j = Z.to_nat pos)) as [->|Hne].
      * left. rewrite Hj in Ho. injection Ho as ->. apply list_lookup_insert_eq.
        assert (length owner <= length all)%nat by (apply Permutation_length in Ha; rewrite length_app in Ha; lia).
        apply lookup_lt_Some in Hj. lia.
      * rewrite list_lookup_insert_ne by done. destruct (Hs j e' Hj) as [|[i' Hi']]; [by left|]. right. exists i'.
        rewrite list_lookup_insert_ne; [done|]. intros ->. rewrite Hi in Hi'. injection Hi' as _ E. lia.
    + intros i' e' pos' H. apply Hback in H; [by apply (Ht i')|done].
  - exists owner. split; cbn [fst snd count_one buffer write_pos]; try done.
    + by apply Hsame.
    + intros j e' Hj. destruct (Hs j e' Hj) as [|[i' Hi']]; [by left|]. right. exists i'.
      rewrite list_lookup_insert_ne; [done|]. intros ->. by rewrite Hi in Hi'.
    + intros i' e' pos' H. apply Hback in H; [by apply (Ht i')|done].
  - exists owner. by rewrite list_insert_id.
Qed.

Lemma shared_reach n all c c' owner :
  0 < n < 2 ^ 32 -> Z.of_nat (length all) <= n -> shared_inv n all c owner -> rtc (trace_step n) c c' ->
  exists owner', shared_inv n all c' owner'.
Proof.
  intros Hn Hall Hc Hs. revert owner Hc. induction Hs as [|c1 c2 c3 [i p t ts Hi] _ IH]; intros owner Hc; [by exists owner|].
  destruct (shared_step n all t ts i p owner Hn Hall Hc Hi) as (owner' & H'). by apply (IH owner').
Qed.

Lemma done_count n c c' :
  rtc (trace_step n) c c' -> count c.1 = u32 (Z.of_nat (length (filter is_done c.2))) ->
  count c'.1 = u32 (Z.of_nat (length (filter is_done c'.2))).
Proof.
  induction 1 as [|c1 c2 c3 [i p t ts Hi] _ IH]; [done|]. intros Hc. apply IH. cbn [fst snd] in *.
  pose proof (filter_insert is_done ts i p (tracer_step n t p).2 Hi) as Hf.
  destruct p; cbn [tracer_step reserve fst snd is_done count store count_one] in *; rewrite Hc.
  1,2,4: do 2 f_equal; lia.
  unfold u32. rewrite wrap_add_l. f_equal. lia.
Qed.

(** ** Properties *)

(** What the trace gives back, exactly: after any number of events since the
    trace was made or reset, asking for [max_count] copies the last
    [c = min (count, max_count)] events in order, as long as the ring holds that
    many; asking for more than the ring holds gives [c] entries in which the
    events of the ring repeat with the period of its size. *)
Theorem trace_get_exact n t es out max_count :
  size_ok n -> trace_inv n t es -> 0 <= max_count ->
  let c := Z.min (u32 (Z.of_nat (length es))) max_count in
  c <= Z.of_nat (length out) ->
  exists copied, GetEvents n out max_count t = Ok (c, copied ++ drop (Z.to_nat c) out) /\ Z.of_nat (length copied) = c /\
    (c <= n -> copied = lastn (Z.to_nat c) es) /\
    (n < c -> forall i, (i < length copied)%nat ->
       copied !! i = es !! Z.to_nat (Z.of_nat (length es) - n + (Z.of_nat i - c) mod n)).
Proof.
  intros Hn Ht Hmax c Hc. set (k := Z.of_nat (length es)) in *. assert (0 < n) as Hn0 by apply Hn.
  assert (0 <= u32 k <= k) as Hk.
  { split; [apply wrap_range; lia|]. unfold u32, wrap. apply Z.mod_le; lia. }
  unfold GetEvents. rewrite (ti_count _ _ _ Ht). fold k. cbv zeta.
  replace (if u32 k <? max_count then u32 k else max_count) with c by (unfold c; destruct (Z.ltb_spec (u32 k) max_count); lia).
  rewrite (proj2 (Z.ltb_ge _ _)) by lia. eexists. split; [reflexivity|].
  assert (length ((fun i => default zero_event (buffer t !! Z.to_nat (src_idx n (write_pos t) c i))) <$> seqZ 0 c) = Z.to_nat c) as Hlen
    by (by rewrite length_fmap, length_seqZ).
  assert (forall i j, (i < Z.to_nat c)%nat -> j mod n = (k - c + Z.of_nat i) mod n -> k - n <= j < k -> 0 <= j ->
    ((fun i => default zero_event (buffer t !! Z.to_nat (src_idx n (write_pos t) c i))) <$> seqZ 0 c) !! i = es !! Z.to_nat j) as Hget.
  { intros i j Hi Hj Hr Hj0. rewrite list_lookup_fmap, lookup_seqZ_lt by lia. cbn [fmap option_fmap option_map].
    rewrite (src_idx_mod n _ c _ k Hn (ti_pos _ _ _ Ht)), Z.add_0_l, <- Hj. by apply slot_event. }
  split; [rewrite Hlen; lia|]. split.
  - intros Hcn. apply list_eq_same_length with (n := Z.to_nat c); [by rewrite lastn_length; lia|done|].
    intros i x y Hi Hx Hy. rewrite (Hget i (k - c + Z.of_nat i)) in Hx by (done || lia). unfold lastn in Hy. rewrite lookup_drop in Hy.
    replace (length es - Z.to_nat c + i)%nat with (Z.to_nat (k - c + Z.of_nat i)) in Hy by lia. congruence.
  - intros Hcn i Hi. rewrite Hlen in Hi. pose proof (Z.mod_pos_bound (Z.of_nat i - c) n Hn0). apply Hget; [done| |lia|lia].
    replace (k - n + (Z.of_nat i - c) mod n) with ((Z.of_nat i - c) mod n + (k + -1 * n)) by lia.
    rewrite Zplus_mod_idemp_l. replace (Z.of_nat i - c + (k + -1 * n)) with (k - c + Z.of_nat i + -1 * n) by lia. by rewrite Z_mod_plus_full.
Qed.

Definition event_no (i : Z) : BootIoEvent := mkEvent i 0 0 0 0 0 0 0 0 0 i (replicate 16 0).
Definition trace3 : BootIoTrace := foldl (fun t e => RecordEvent 2 e t) (BootIoTrace_new 2) [event_no 1; event_no 2; event_no 3].

Lemma trace_get_exact_witness :
  exists copied, GetEvents 2 (replicate 2 zero_event) 2 trace3 = Ok (2, copied ++ []) /\ copied = [event_no 2; event_no 3].
Proof.
  destruct (trace_get_exact 2 trace3 [event_no 1; event_no 2; event_no 3] (replicate 2 zero_event) 2) as (copied & E & _ & H & _).
  - split; [split; vm_compute; reflexivity|]. exists (2 ^ 31). reflexivity.
  - apply (record_all_inv 2 (BootIoTrace_new 2) []); [split; [split; vm_compute; reflexivity|exists (2 ^ 31); reflexivity]|].
    apply trace_new_inv. reflexivity.
  - discriminate.
  - vm_compute. discriminate.
  - exists copied. split; [exact E|]. apply H. vm_compute. discriminate.
Defined.

(** C15. Concurrent recording loses nothing: however the steps of at most [n]
    recording threads interleave, once they are done the first slots hold their
    events, each exactly once, and the count is their number. *)
Theorem trace_race_keeps n all t ts :
  0 < n < 2 ^ 32 -> Z.of_nat (length all) <= n ->
  rtc (trace_step n) (BootIoTrace_new n, AtReserve <$> all) (t, ts) -> Forall (fun p => p = Done) ts ->
  take (length all) (buffer t) ≡ₚ all /\ count t = Z.of_nat (length all).
Proof.
  intros Hn Hall Hs Hd. assert (length ts = length all) as Hlen.
  { assert (forall c c', rtc (trace_step n) c c' -> length c'.2 = length c.2) as H.
    { induction 1 as [|c1 c2 c3 [i p u us Hi] _ IH]; [done|]. rewrite IH. cbn. by rewrite length_insert. }
    pose proof (H _ _ Hs) as Hl. cbn [snd] in Hl. by rewrite Hl, length_fmap. }
  split.
  - destruct (shared_reach n all (BootIoTrace_new n, AtReserve <$> all) (t, ts) [] Hn Hall) as (owner & [Hl Hp Ha Ho _]); [|done|].
    { split; cbn [fst snd]; try done.
      - cbn. rewrite length_replicate. lia.
      - cbn [app]. clear. induction all as [|e all IH]; [done|]. rewrite fmap_cons, bind_cons. cbn [pending app]. by constructor.
      - intros i e pos Hi. rewrite list_lookup_fmap in Hi. by destruct (all !! i). }
    cbn [fst snd] in *. assert (ts ≫= pending = []) as Hno.
    { clear -Hd. induction Hd as [|p ts -> _ IH]; [done|]. by rewrite bind_cons. }
    rewrite Hno, app_nil_r in Ha. rewrite <- Ha at 2. apply Permutation_length in Ha as Hla. rewrite <- Hla.
    replace (take (length owner) (buffer t)) with owner; [done|]. apply list_eq_same_length with (n := length owner); [rewrite length_take; lia|done|].
    intros j x y Hj Hx Hy. rewrite lookup_take_lt in Hy by done. destruct (Ho j x Hx) as [|[i Hi]]; [congruence|].
    by pose proof (Forall_lookup_1 _ _ _ _ Hd Hi).
  - pose proof (done_count n _ _ Hs) as Hc. cbn [fst snd] in Hc. rewrite Hc.
    + replace (filter is_done ts) with ts; [rewrite Hlen; unfold u32; apply wrap_small; lia|].
      clear -Hd. induction Hd as [|p ts -> _ IH]; [done|]. rewrite filter_cons_True by done. by rewrite <- IH.
    + cbn. clear. induction all as [|e all IH]; [done|]. rewrite fmap_cons, filter_cons_False; [done|]. by intros [].
Qed.

Lemma trace_race_keeps_witness :
  exists t, take 1 (buffer t) ≡ₚ [event_no 1] /\ count t = 1.
Proof.
  exists (RecordEvent 4 (event_no 1) (BootIoTrace_new 4)). apply (trace_race_keeps 4 [event_no 1] _ [Done]).
  - split; vm_compute; reflexivity.
  - vm_compute. discriminate.
  - do 3 (eapply rtc_l; [apply (trace_one 4 0%nat); reflexivity|]). apply rtc_refl.
  - constructor; [reflexivity|constructor].
Defined.
