(* ===== verification/HttpBoot.v ===== *)
(** * The HTTP boot client (src/client/boot_agent/http_boot.cpp)

    One GET over a fresh connection. The answer is collected in a vector and its
    body is sought with [strstr], which stops at a NUL and not at the end of the
    vector: [beyond] is the memory behind the data. The loop that receives has no
    bound in the source and takes fuel. *)

From S2P Require Import Prelude BootEnv Text AgentEnv.
#[local] Open Scope Z_scope.

(** Host, port and path; [None] when there is no scheme. A port that is not a
    number is an exception nobody catches. *)
Definition ParseUrl (url : list Z) : res (option (list Z * Z * list Z)) :=
  match find_str (zstr "://") url with
  | None => Ok None
  | Some pos =>
      let rest := drop (pos + 3) url in
      let '(authority, path) := match find 47 rest with
                                | Some slash => (take slash rest, drop slash rest)
                                | None => (rest, zstr "/")
                                end in
      match find 58 authority with
      | Some colon => let* port := stoi (drop (S colon) authority) in Ok (Some (take colon authority, port, path))
      | None => Ok (Some (authority, 80, path))
      end
  end.

(** [strstr] on memory: where [t] starts, [None] when a NUL comes first, a fault
    when the memory ends before either. *)
Fixpoint strstr (t s : list Z) : res (option nat) :=
  match s with
  | [] => Fault
  | c :: r =>
      if bool_decide (take (length t) s = t) then Ok (Some 0%nat)
      else if c =? 0 then Ok None
      else let* p := strstr t r in Ok (S <$> p)
  end.

Definition blank_line : list Z := crlf ++ crlf.

(** The body of the answer. A match that ends behind the data makes the length
    wrap, and the copy runs through memory. *)
Definition answer_body (beyond response : list Z) : res (list Z) :=
  if bool_decide (response = []) then Ok [] else
  let* found := strstr blank_line (response ++ beyond) in
  match found with
  | None => Ok []
  | Some i => if (length response <? i + 4)%nat then Fault else Ok (drop (i + 4) response)
  end.

Definition get_request (host path : list Z) : list Z :=
  zstr "GET " ++ path ++ zstr " HTTP/1.1" ++ crlf ++ zstr "Host: " ++ host ++ crlf ++ zstr "Connection: close" ++ crlf ++ crlf.

Section Client.
Context {W : Type} `{AgentOs W}.

Fixpoint recv_all (fuel : nat) (sock : Z) (response : list Z) (w : W) : res (list Z * W) :=
  match fuel with
  | O => NoFuel
  | S k =>
      let* (b, w) := recv_at 4096 0 sock 4096 w in
      if bool_decide (b = []) then Ok (response, w) else recv_all k sock (response ++ b) w
  end.

(** [send] is given the length the request would have had. *)
Definition DownloadScript (fuel : nat) (beyond url : list Z) (timeout_ms : Z) (w : W) : res (list Z * W) :=
  let '(up, w) := a_startup w in
  if negb up then Ok ([], w) else
  let* parsed := ParseUrl url in
  match parsed with
  | None => Ok ([], a_cleanup w)
  | Some (host, port, path) =>
      let '(sock, w) := a_socket SOCK_STREAM w in
      match sock with
      | None => Ok ([], a_cleanup w)
      | Some sock =>
          let '(addr, w) := a_resolve host (fmt_d port) w in
          match addr with
          | None => Ok ([], a_cleanup (a_closesocket sock w))
          | Some addr =>
              let w := a_setopt sock 0x1006 (u32 timeout_ms) w in
              let w := a_setopt sock 0x1005 (u32 timeout_ms) w in
              let '(connected, w) := a_connect sock addr (u16 port) w in
              if negb connected then Ok ([], a_cleanup (a_closesocket sock w)) else
              let req := get_request host path in
              let* buf := snprintf (replicate 2048 0) 0 2048 req in
              let* bytes := rd_bytes buf 0 (Z.of_nat (length req)) in
              let '(_, w) := a_send sock bytes w in
              let* (response, w) := recv_all fuel sock [] w in
              let w := a_cleanup (a_closesocket sock w) in
              let* body := answer_body beyond response in
              Ok (body, w)
          end
      end
  end.

Definition DownloadFile (fuel : nat) (beyond url : list Z) (timeout_ms : Z) (w : W) : res (list Z * W) :=
  DownloadScript fuel beyond url timeout_ms w.
End Client.

(** ** Lemmas: the URL *)

Lemma take_behind (x : Z) a t b : take (length t) (x :: a ++ t ++ b) = take (length t) (x :: a ++ t).
Proof.
  replace (x :: a ++ t ++ b) with ((x :: a ++ t) ++ b) by (cbn; by rewrite app_assoc).
  apply take_app_le. cbn. rewrite length_app. lia.
Qed.

Lemma find_str_app t a b : t <> [] -> find_str t (a ++ t) = Some (length a) -> find_str t (a ++ t ++ b) = Some (length a).
Proof.
  intros Ht. induction a as [|x a IH]; intros Hf.
  - cbn [app]. destruct t as [|c t]; [done|]. cbn [find_str app]. rewrite bool_decide_eq_true_2; [done|].
    change (c :: t ++ b) with ((c :: t) ++ b). by rewrite take_app_length.
  - cbn [app find_str] in *. case_bool_decide as H1; [done|]. case_bool_decide as H2.
    + exfalso. apply H1. by rewrite <- (take_behind x a t b).
    + destruct (find_str t (a ++ t)) as [k|] eqn:E; [|done]. cbn in Hf. injection Hf as ->. by rewrite IH.
Qed.

(** ** Lemmas: the answer *)

Lemma strstr_found t a b :
  t <> [] -> 0 ∉ a -> find_str t (a ++ t) = Some (length a) -> strstr t (a ++ t ++ b) = Ok (Some (length a)).
Proof.
  intros Ht. induction a as [|x a IH]; intros H0 Hf.
  - cbn [app]. destruct t as [|c t]; [done|]. cbn [strstr app]. rewrite bool_decide_eq_true_2; [done|].
    change (c :: t ++ b) with ((c :: t) ++ b). by rewrite take_app_length.
  - apply not_elem_of_cons in H0 as [Hx H0]. cbn [app find_str strstr] in *. case_bool_decide as H1; [done|]. case_bool_decide as H2.
    + exfalso. apply H1. by rewrite <- (take_behind x a t b).
    + rewrite (proj2 (Z.eqb_neq _ _)) by done. destruct (find_str t (a ++ t)) as [k|] eqn:E; [|done]. cbn in Hf. injection Hf as ->. by rewrite IH.
Qed.

(** A NUL before the text ends the search. *)
Lemma strstr_nul t a b :
  0 ∉ t -> 0 ∉ a -> find_str t a = None -> t <> [] -> strstr t (a ++ 0 :: b) = Ok None.
Proof.
  intros Ht0 Ha Hf Ht. induction a as [|x a IH].
  - cbn [app strstr]. rewrite bool_decide_eq_false_2; [done|]. intros E. destruct t as [|c t]; [done|]. injection E as <- _. set_solver.
  - apply not_elem_of_cons in Ha as [Hx Ha]. cbn [app find_str strstr] in *. case_bool_decide as H1; [done|].
    rewrite bool_decide_eq_false_2.
    + rewrite (proj2 (Z.eqb_neq _ _)) by done. rewrite IH; [done|done|]. by destruct (find_str t a).
    + intros E. change (x :: a ++ 0 :: b) with ((x :: a) ++ 0 :: b) in E. destruct (decide (length t <= length (x :: a))%nat).
      * by rewrite take_app_le in E.
      * apply Ht0. rewrite <- E. apply list_elem_of_lookup. exists (length (x :: a)). rewrite lookup_take_lt by lia.
        by rewrite list_lookup_middle.
Qed.

(** Without the text and without a NUL the search leaves the memory. *)
Lemma strstr_runs_off t s : t <> [] -> 0 ∉ s -> find_str t s = None -> strstr t s = Fault.
Proof.
  intros Ht. induction s as [|x s IH]; intros H0 Hf; [done|]. apply not_elem_of_cons in H0 as [Hx H0].
  cbn [find_str strstr] in *. case_bool_decide; [done|]. rewrite (proj2 (Z.eqb_neq _ _)) by done.
  rewrite IH; [done|done|]. by destruct (find_str t s).
Qed.

(** What a connection delivers: chunks, then nothing. *)
Inductive delivers {W} `{AgentOs W} (sock : Z) : W -> list (list Z) -> W -> Prop :=
| delivers_end w w' : a_recv sock 4096 w = ([], w') -> delivers sock w [] w'
| delivers_more w b w1 cs w' : a_recv sock 4096 w = (b, w1) -> b <> [] -> delivers sock w1 cs w' -> delivers sock w (b :: cs) w'.

Lemma recv_all_spec {W} `{AgentLaws W} sock w cs w' fuel got :
  delivers sock w cs w' -> (length cs < fuel)%nat -> recv_all fuel sock got w = Ok (got ++ concat cs, w').
Proof.
  intros Hd. revert fuel got. induction Hd as [w w' E|w b w1 cs w' E Hb Hd IH]; intros [|k] got Hk; cbn in Hk; try lia; cbn [recv_all];
    destruct (recv_at_ok 4096 0 sock 4096 w) as (b' & w2 & -> & E' & _); [lia..| | lia| lia| lia|]; rewrite E in E'; injection E' as <- <-; cbn [res_bind].
  - rewrite bool_decide_eq_true_2 by done. by rewrite app_nil_r.
  - rewrite bool_decide_eq_false_2 by done. rewrite IH by lia. by rewrite <- app_assoc.
Qed.

Lemma delivers_loan {W} `{AgentLaws W} sock w cs w' : delivers sock w cs w' -> loan w' = loan w.
Proof.
  induction 1 as [w w' E|w b w1 cs w' E Hb Hd IH]; pose proof (l_recv sock 4096 w) as L; rewrite E in L; cbn in L; congruence.
Qed.

(** A connection for [url] was made: [req] is the text of the request, [sock]
    the socket, and every call so far succeeded. *)
Definition connected {W} `{AgentOs W} (url : list Z) (timeout_ms : Z) (w : W) (req : list Z) (sock : Z) (w' : W) : Prop :=
  exists w1 host port path w2 addr w3,
    a_startup w = (true, w1) /\ ParseUrl url = Ok (Some (host, port, path)) /\ req = get_request host path /\
    a_socket SOCK_STREAM w1 = (Some sock, w2) /\ a_resolve host (fmt_d port) w2 = (Some addr, w3) /\
    a_connect sock addr (u16 port) (a_setopt sock 0x1005 (u32 timeout_ms) (a_setopt sock 0x1006 (u32 timeout_ms) w3)) = (true, w').

(** The request was sent, as much of it as the buffer holds, and the chunks [cs]
    arrived. *)
Definition exchanged {W} `{AgentOs W} (req : list Z) (sock : Z) (w : W) (cs : list (list Z)) (w' : W) : Prop :=
  exists n w1 w2, a_send sock (take (length req) (take 2047 req ++ [0])) w = (n, w1) /\ delivers sock w1 cs w2 /\
    w' = a_cleanup (a_closesocket sock w2).

Lemma request_buffer req : exists buf, snprintf (replicate 2048 0) 0 2048 req = Ok buf /\ length buf = 2048%nat /\
  take 2048 buf = take 2047 req ++ [0] ++ replicate (2047 - length (take 2047 req)) 0.
Proof.
  unfold snprintf. set (t := take (Z.to_nat (2048 - 1)) req ++ [0]).
  assert (length t <= 2048)%nat as Ht by (unfold t; rewrite length_app, length_take; cbn; lia).
  pose proof (wr_fill [] t 2048 Ht) as E. cbn [app length] in E. eexists. split; [exact E|].
  rewrite length_app, length_replicate. split; [lia|]. rewrite take_ge by (rewrite length_app, length_replicate; lia).
  unfold t. rewrite <- app_assoc. change (Z.to_nat (2048 - 1)) with 2047%nat. do 3 f_equal. rewrite length_app.
  change (length [0]) with 1%nat. lia.
Qed.

Lemma connected_run {W} `{AgentLaws W} fuel beyond url timeout_ms (w : W) req sock w1 :
  connected url timeout_ms w req sock w1 ->
  ((2048 < length req)%nat -> DownloadScript fuel beyond url timeout_ms w = Fault) /\
  forall cs w', (length req <= 2048)%nat -> exchanged req sock w1 cs w' -> (length cs < fuel)%nat ->
  DownloadScript fuel beyond url timeout_ms w = (let* body := answer_body beyond (concat cs) in Ok (body, w')).
Proof.
  intros (v1 & host & port & path & v2 & addr & v3 & E1 & E2 & Er & E3 & E4 & E5). destruct (request_buffer req) as (buf & Eb & Hl & Hbuf).
  unfold DownloadScript. rewrite E1. cbn [negb]. rewrite E2. cbn [res_bind]. rewrite E3, E4. cbv zeta. rewrite E5. cbn [negb].
  rewrite <- Er, Eb. cbn [res_bind]. split.
  - intros Hlong. unfold rd_bytes. destruct (in_block _ _ _) eqn:E; [|done]. apply in_block_true in E. lia.
  - intros cs w' Hs (n & w2 & w3 & E6 & Hd & ->) Hf. rewrite rd_bytes_ok by lia. cbn [res_bind]. rewrite Nat2Z.id, drop_0.
    replace (take (length req) buf) with (take (length req) (take 2047 req ++ [0])); [rewrite E6, (recv_all_spec sock w2 cs w3 fuel [] Hd Hf); done|].
    replace (take (length req) buf) with (take (length req) (take 2048 buf)) by (rewrite take_take; f_equal; lia).
    rewrite Hbuf, app_assoc. symmetry. apply take_app_le. rewrite length_app, length_take. change (length [0]) with 1%nat. lia.
Qed.

Lemma exchange_loan {W} `{AgentLaws W} url timeout_ms (w : W) req sock w1 cs w' :
  connected url timeout_ms w req sock w1 -> exchanged req sock w1 cs w' -> loan w' = loan w.
Proof.
  intros (v1 & host & port & path & v2 & addr & v3 & E1 & _ & _ & E3 & E4 & E5) (n & w2 & w3 & E6 & Hd & ->).
  rewrite l_cleanup, l_closesocket, (delivers_loan _ _ _ _ Hd).
  pose proof (l_send sock (take (length req) (take 2047 req ++ [0])) w1) as L6. rewrite E6 in L6. cbn in L6. rewrite L6.
  pose proof (l_connect sock addr (u16 port) (a_setopt sock 0x1005 (u32 timeout_ms) (a_setopt sock 0x1006 (u32 timeout_ms) v3))) as L5.
  rewrite E5 in L5. cbn [snd] in L5. rewrite L5, !l_setopt. pose proof (l_resolve host (fmt_d port) v2) as L4. rewrite E4 in L4. cbn in L4. rewrite L4.
  pose proof (l_startup w) as L1. rewrite E1 in L1. cbn in L1.
  pose proof (l_socket SOCK_STREAM v1) as L3. rewrite E3, L1 in L3. cbn in L3. destruct L3 as [Hf ->]. by apply all_back.
Qed.

(** ** Properties *)

(** A URL parses to its parts: for a host without a colon or a slash, a port
    below 2{^31} in decimal and a path, the parser gives back the three; without
    a port it gives 80. *)
Theorem url_round_trip scheme host port path :
  find_str (zstr "://") (scheme ++ zstr "://") = Some (length scheme) -> 47 ∉ host -> 58 ∉ host -> 0 <= port < 2 ^ 31 ->
  ParseUrl (scheme ++ zstr "://" ++ host ++ [58] ++ fmt_d port ++ 47 :: path) = Ok (Some (host, port, 47 :: path)) /\
  ParseUrl (scheme ++ zstr "://" ++ host ++ 47 :: path) = Ok (Some (host, 80, 47 :: path)).
Proof.
  intros Hs H47 H58 Hp. assert (forall rest, ParseUrl (scheme ++ zstr "://" ++ rest) =
    let '(authority, path) := match find 47 rest with Some slash => (take slash rest, drop slash rest) | None => (rest, zstr "/") end in
    match find 58 authority with
    | Some colon => let* port := stoi (drop (S colon) authority) in Ok (Some (take colon authority, port, path))
    | None => Ok (Some (authority, 80, path))
    end) as Hrest.
  { intros rest. unfold ParseUrl. rewrite find_str_app by done.
    replace (drop (length scheme + 3) (scheme ++ zstr "://" ++ rest)) with rest; [done|].
    rewrite app_assoc, drop_app_length'; [done|]. by rewrite length_app. }
  assert (47 ∉ fmt_d port) as Hd.
  { rewrite fmt_d_pos by lia. intros Hin. pose proof (fmt_u_ne port 47) as Hf. rewrite Forall_forall in Hf. by apply (Hf ltac:(lia) ltac:(lia) 47). }
  rewrite !Hrest. split.
  - replace (host ++ [58] ++ fmt_d port ++ 47 :: path) with ((host ++ [58] ++ fmt_d port) ++ 47 :: path) by (by rewrite <- !app_assoc).
    rewrite find_char_app by set_solver. rewrite take_app_length, drop_app_length. cbn [app]. rewrite find_char_app by done.
    rewrite take_app_length. change (host ++ 58 :: fmt_d port) with (host ++ [58] ++ fmt_d port). rewrite app_assoc, drop_app_length' by (rewrite length_app; cbn; lia).
    by rewrite stoi_fmt_d.
  - rewrite find_char_app by done. rewrite take_app_length, drop_app_length. by rewrite find_char_none.
Qed.

Lemma url_round_trip_witness :
  ParseUrl (zstr "http" ++ zstr "://" ++ zstr "10.0.0.1" ++ [58] ++ fmt_d 8080 ++ 47 :: zstr "boot.ipxe") =
    Ok (Some (zstr "10.0.0.1", 8080, zstr "/boot.ipxe")).
Proof.
  apply (url_round_trip (zstr "http") (zstr "10.0.0.1") 8080 (zstr "boot.ipxe")).
  - reflexivity.
  - apply (bool_decide_unpack _). vm_compute. exact I.
  - apply (bool_decide_unpack _). vm_compute. exact I.
  - split; vm_compute; [discriminate|reflexivity].
Defined.

(** C33. What a download returns, once the connection is made. A request of more
    than 2048 characters is sent from beyond its buffer: the client faults. A
    shorter one is answered by any chunks; with enough passes of the loop, the
    socket and the Winsock reference are given back, and the result is decided by
    what comes first in the answer and, when it has neither, in the memory behind
    it ([beyond]): an empty line inside the answer, then the result is exactly
    what follows it, whatever the head says (a status of 404 included); a NUL,
    then the result is empty; an empty line that ends behind the answer, or
    neither of the two anywhere: the client faults. An empty answer gives an
    empty result. *)
Theorem http_fetch_exact {W} `{AgentLaws W} fuel beyond url timeout_ms (w : W) req sock w1 :
  connected url timeout_ms w req sock w1 ->
  ((2048 < length req)%nat -> DownloadScript fuel beyond url timeout_ms w = Fault) /\
  (forall cs w', (length req <= 2048)%nat -> exchanged req sock w1 cs w' -> (length cs < fuel)%nat ->
    let answer := concat cs in
    let result := DownloadScript fuel beyond url timeout_ms w in
    loan w' = loan w /\
    (answer = [] -> result = Ok ([], w')) /\
    (answer <> [] ->
      (forall head rest, answer ++ beyond = head ++ blank_line ++ rest -> 0 ∉ head ->
         find_str blank_line (head ++ blank_line) = Some (length head) ->
         result = if (length head + 4 <=? length answer)%nat then Ok (drop (length head + 4) answer, w') else Fault) /\
      (forall head rest, answer ++ beyond = head ++ 0 :: rest -> 0 ∉ head -> find_str blank_line head = None ->
         result = Ok ([], w')) /\
      (0 ∉ answer ++ beyond -> find_str blank_line (answer ++ beyond) = None -> result = Fault))).
Proof.
  intros Hc. destruct (connected_run fuel beyond url timeout_ms w req sock w1 Hc) as [Hlong Hrun]. split; [done|].
  intros cs w' Hs He Hf. cbv zeta. rewrite (Hrun cs w' Hs He Hf). split; [by eapply exchange_loan|]. unfold answer_body.
  split; [intros ->; by rewrite bool_decide_eq_true_2|]. intros Hne. rewrite bool_decide_eq_false_2 by done. split_and!.
  - intros head rest E Hz Hfind. rewrite E, strstr_found by done. cbn [res_bind]. rewrite Nat.ltb_antisym.
    by destruct (_ <=? _)%nat.
  - intros head rest E Hz Hfind. rewrite E, strstr_nul; [done| |done..]. apply (bool_decide_unpack _). by vm_compute.
  - intros Hz Hfind. by rewrite strstr_runs_off.
Qed.

Definition answering : SimAgent :=
  mkSimAgent (mkLoan 0 ∅) ∅ 0 (fun _ _ => true) [zstr "HTTP/1.1 404" ++ crlf; crlf ++ zstr "no"] [] [].
Definition answered : SimAgent :=
  mkSimAgent (mkLoan 0 ∅) ∅ 0 (fun _ _ => true) [] [] [get_request (zstr "10.0.0.1") (zstr "/x")].
Definition answering2 : SimAgent := sim_loan (sock_up 3) (sim_loan wsa_up answering).
Definition x_request : list Z := get_request (zstr "10.0.0.1") (zstr "/x").

Lemma answering_connected : connected (zstr "http://10.0.0.1/x") 1000 answering x_request 3 answering2.
Proof.
  exists (sim_loan wsa_up answering), (zstr "10.0.0.1"), 80, (zstr "/x"), answering2, [10; 0; 0; 1], answering2.
  by split_and!.
Qed.

Lemma answering_exchanged :
  exchanged x_request 3 answering2 [zstr "HTTP/1.1 404" ++ crlf; crlf ++ zstr "no"] answered.
Proof.
  exists (Z.of_nat (length x_request)), (sim_send x_request answering2),
    (mkSimAgent (mkLoan 1 {[3]}) ∅ 0 (fun _ _ => true) [] [] [x_request]).
  split; [reflexivity|]. split; [|reflexivity].
  eapply delivers_more; [reflexivity|done|]. eapply delivers_more; [reflexivity|done|]. apply delivers_end. reflexivity.
Qed.

Lemma http_fetch_exact_witness :
  DownloadScript 9 [] (zstr "http://10.0.0.1/x") 1000 answering = Ok (zstr "no", answered).
Proof.
  destruct (http_fetch_exact 9 [] (zstr "http://10.0.0.1/x") 1000 answering x_request 3 answering2 answering_connected) as (_ & H).
  destruct (H [zstr "HTTP/1.1 404" ++ crlf; crlf ++ zstr "no"] answered) as (_ & _ & Ha).
  - apply Nat.leb_le. reflexivity.
  - apply answering_exchanged.
  - apply Nat.ltb_lt. reflexivity.
  - destruct Ha as (Hb & _); [discriminate|].
    apply (Hb (zstr "HTTP/1.1 404") (zstr "no")); [reflexivity| |reflexivity]. apply (bool_decide_unpack _). vm_compute. exact I.
Defined.
