(* ===== verification/ImageService.v ===== *)
(** * The image service (src/server/image_server/image_service.h,
    image_service.cpp)

    Disk images as files of 4096-byte blocks, one per identifier, opened while
    they are known to the service. On top of the file interface of [Files] it
    needs positioned reads and writes, truncation and removal ([BlockFiles]).
    [memory] bounds what a vector can hold: beyond it [std::bad_alloc] leaves the
    handler, a [Fault]. *)

From S2P Require Import Prelude BootEnv Text Files.
#[local] Open Scope Z_scope.

Definition BLOCK_SIZE : Z := 4096.

(** [b_pread] is [None] for -1; [b_pwrite] gives the count or -1; [b_ftruncate]
    answers whether it succeeded. *)
Class BlockFiles (W : Type) : Type := {
  b_pread : Z -> Z -> Z -> W -> option (list Z) * W;
  b_pwrite : Z -> list Z -> Z -> W -> Z * W;
  b_ftruncate : Z -> Z -> W -> bool * W;
  b_unlink : list Z -> W -> W;
}.

Record BlockRequest : Type := mkRequest { q_image_id : Z; q_block_offset : Z; q_block_count : Z; q_layer_id : Z }.
Record BlockResponse : Type := mkResponse {
  p_image_id : Z; p_block_offset : Z; p_block_count : Z; p_status : Z; p_data : list Z;
}.
Record ImageFile : Type := mkImage {
  i_image_id : Z; i_name : list Z; i_path : list Z; i_total_size : Z; i_block_count : Z; i_fd : Z;
}.
Record ImageService : Type := mkService { data_dir : list Z; images : gmap Z ImageFile }.

Definition ImageService_new (dir : list Z) : ImageService := mkService dir ∅.

Definition image_path (dir : list Z) (id : Z) : list Z := dir ++ zstr "/" ++ fmt_u id ++ zstr ".img".
(** [static_cast<off_t>(block_offset * BLOCK_SIZE)] *)
Definition byte_offset (block_offset : Z) : Z := s64 (u64 (block_offset * BLOCK_SIZE)).

Definition FindImage (id : Z) (s : ImageService) : option ImageFile := images s !! id.

Section Service.
Context {W : Type} `{Posix W, !BlockFiles W} (memory : Z).

Definition CreateImage (id : Z) (name : list Z) (size : Z) (s : ImageService) (w : W) : bool * ImageService * W :=
  if bool_decide (is_Some (images s !! id)) then (false, s, w) else
  let path := image_path (data_dir s) id in
  let '(fd, w) := p_open path O_RDWR_CREAT_TRUNC w in
  match fd with
  | None => (false, s, w)
  | Some fd =>
      let '(ok, w) := b_ftruncate fd (s64 size) w in
      if negb ok then (false, s, p_close fd w) else
      let img := mkImage id name path size (u32 (size / BLOCK_SIZE)) fd in
      (true, mkService (data_dir s) (<[id := img]> (images s)), w)
  end.

Definition DeleteImage (id : Z) (s : ImageService) (w : W) : bool * ImageService * W :=
  match images s !! id with
  | None => (false, s, w)
  | Some img =>
      let w := if 0 <=? i_fd img then p_close (i_fd img) w else w in
      (true, mkService (data_dir s) (delete id (images s)), b_unlink (i_path img) w)
  end.

Definition ReadBlocks (req : BlockRequest) (s : ImageService) (w : W) : res (BlockResponse * W) :=
  let answer := mkResponse (q_image_id req) (q_block_offset req) (q_block_count req) in
  match FindImage (q_image_id req) s with
  | None => Ok (answer (-1) [], w)
  | Some img =>
      let total_bytes := q_block_count req * BLOCK_SIZE in
      if memory <? total_bytes then Fault else
      let '(got, w) := b_pread (i_fd img) total_bytes (byte_offset (q_block_offset req)) w in
      match got with
      | None => Ok (answer (-2) [], w)
      | Some bs => Ok (answer 0 bs, w)
      end
  end.

Definition WriteBlocks (req : BlockRequest) (data : list Z) (s : ImageService) (w : W) : bool * W :=
  match FindImage (q_image_id req) s with
  | None => (false, w)
  | Some img =>
      let '(n, w) := b_pwrite (i_fd img) data (byte_offset (q_block_offset req)) w in
      (n =? Z.of_nat (length data), w)
  end.

(** In the order of a hash table: as a set. *)
Definition ListImages (s : ImageService) : list ImageFile := (map_to_list (images s)).*2.

(** The destructor. *)
Definition ImageService_delete (s : ImageService) (w : W) : W :=
  foldr (fun img w => if 0 <=? i_fd img then p_close (i_fd img) w else w) w (ListImages s).
End Service.

(** ** What the calls promise *)

Definition fs_put (p : list Z) (c : list Z) (v : Fs) : Fs := mkFs (<[p := c]> (files v)) (fds v).
Definition fs_remove (p : list Z) (v : Fs) : Fs := mkFs (delete p (files v)) (fds v).
Definition resize (n : nat) (c : list Z) : list Z := take n c ++ replicate (n - length c) 0.

Class BlockLaws (W : Type) `{PosixLaws W, !BlockFiles W} : Prop := {
  pread_law fd n off w : view (b_pread fd n off w).2 = view w /\
    forall bs, (b_pread fd n off w).1 = Some bs -> 0 <= off /\
      exists c o, fs_contents fd (view w) = Some (c, o) /\ bs `prefix_of` take (Z.to_nat n) (drop (Z.to_nat off) c);
  pwrite_law fd bs off w k w' : b_pwrite fd bs off w = (k, w') ->
    (-1 <= k <= 0 /\ view w' = view w) \/
    (0 <= off /\ 0 < k <= Z.of_nat (length bs) /\ exists p o, fds (view w) !! fd = Some (p, o) /\
       view w' = fs_put p (fs_patch (default [] (files (view w) !! p)) (Z.to_nat off) (take (Z.to_nat k) bs)) (view w));
  ftruncate_law fd n w ok w' : b_ftruncate fd n w = (ok, w') ->
    if ok then 0 <= n /\ exists p o, fds (view w) !! fd = Some (p, o) /\
                 view w' = fs_put p (resize (Z.to_nat n) (default [] (files (view w) !! p))) (view w)
    else view w' = view w;
  unlink_law p w : view (b_unlink p w) = fs_remove p (view w) \/ view (b_unlink p w) = view w;
}.

(** A machine on which the calls do all that is asked. *)
Class BlockReliable (W : Type) `{BlockLaws W} : Prop := {
  reliable_create p w : is_Some (p_open p O_RDWR_CREAT_TRUNC w).1;
  reliable_ftruncate fd n w : 0 <= n -> is_Some (fds (view w) !! fd) -> (b_ftruncate fd n w).1 = true;
  reliable_pread fd n off w c o : 0 <= off -> fs_contents fd (view w) = Some (c, o) ->
    (b_pread fd n off w).1 = Some (take (Z.to_nat n) (drop (Z.to_nat off) c));
  reliable_pwrite fd bs off w : 0 <= off -> is_Some (fds (view w) !! fd) -> (b_pwrite fd bs off w).1 = Z.of_nat (length bs);
}.

#[export] Instance SimFs_blocks : BlockFiles (SimFs None) := {
  b_pread fd n off w :=
    match fs_contents fd (sf_view w) with
    | Some (c, _) => if 0 <=? off then (Some (take (Z.to_nat n) (drop (Z.to_nat off) c)), w) else (None, w)
    | None => (None, w)
    end;
  b_pwrite fd bs off w :=
    match fds (sf_view w) !! fd with
    | Some (p, _) =>
        if 0 <=? off then
          (Z.of_nat (length bs),
           match bs with
           | [] => w
           | _ => with_view w (fs_put p (fs_patch (default [] (files (sf_view w) !! p)) (Z.to_nat off) bs) (sf_view w))
           end)
        else (-1, w)
    | None => (-1, w)
    end;
  b_ftruncate fd n w :=
    match fds (sf_view w) !! fd with
    | Some (p, _) =>
        if 0 <=? n then (true, with_view w (fs_put p (resize (Z.to_nat n) (default [] (files (sf_view w) !! p))) (sf_view w)))
        else (false, w)
    | None => (false, w)
    end;
  b_unlink p w := with_view w (fs_remove p (sf_view w));
}.

#[export] Instance SimFs_block_laws : BlockLaws (SimFs None).
Proof.
  split; cbn.
  - intros fd n off w. destruct (fs_contents fd (sf_view w)) as [[c o]|] eqn:E; [|by split].
    destruct (Z.leb_spec 0 off); [|by split]. split; [done|]. intros bs [= <-]. split; [done|]. by exists c, o.
  - intros fd bs off w k w'. destruct (fds (sf_view w) !! fd) as [[p o]|] eqn:E; [|intros [= <- <-]; by left].
    destruct (Z.leb_spec 0 off); intros [= <- <-]; [|by left]. destruct bs as [|b bs]; [by left|]. right.
    split; [done|]. split; [cbn [length]; lia|]. exists p, o. split; [done|]. by rewrite Nat2Z.id, firstn_all.
  - intros fd n w ok w'. destruct (fds (sf_view w) !! fd) as [[p o]|] eqn:E; [|by intros [= <- <-]].
    destruct (Z.leb_spec 0 n); intros [= <- <-]; [|done]. split; [done|]. by exists p, o.
  - by left.
Qed.

#[export] Instance SimFs_block_reliable : BlockReliable (SimFs None).
Proof.
  split; cbn.
  - intros p w. exact (reliable_open p O_RDWR_CREAT_TRUNC w ltac:(done)).
  - intros fd n w Hn [[p o] E]. by rewrite E, (proj2 (Z.leb_le _ _)).
  - intros fd n off w c o Hoff E. by rewrite E, (proj2 (Z.leb_le _ _)).
  - intros fd bs off w Hoff [[p o] E]. by rewrite E, (proj2 (Z.leb_le _ _)).
Qed.

(** ** The abstract store

    What the service promises: a map from identifiers to contents. [holds] ties
    the service and the file system to it. *)

Definition store (s : ImageService) (v : Fs) (id : Z) : option (list Z) :=
  img ← images s !! id; files v !! i_path img.

Record svc_inv (s : ImageService) (v : Fs) : Prop := {
  sv_image id img : images s !! id = Some img ->
    0 <= id < 2 ^ 64 /\ i_path img = image_path (data_dir s) id /\ 0 <= i_fd img /\
    is_Some (files v !! i_path img) /\ exists off, fds v !! i_fd img = Some (i_path img, off);
}.

Lemma fmt_u_inj a b : 0 <= a < 2 ^ 64 -> 0 <= b < 2 ^ 64 -> fmt_u a = fmt_u b -> a = b.
Proof. intros Ha Hb E. destruct (fmt_u_spec a Ha) as (_ & _ & <-), (fmt_u_spec b Hb) as (_ & _ & <-). by rewrite E. Qed.

Lemma image_path_inj dir a b :
  0 <= a < 2 ^ 64 -> 0 <= b < 2 ^ 64 -> image_path dir a = image_path dir b -> a = b.
Proof.
  intros Ha Hb E. unfold image_path in E. apply app_inv_head, app_inv_head in E. apply app_inv_tail in E. by apply fmt_u_inj.
Qed.

Lemma inv_paths s v i j a b :
  svc_inv s v -> images s !! i = Some a -> images s !! j = Some b -> i <> j -> i_path a <> i_path b.
Proof.
  intros Hs Ha Hb Hne E. destruct (sv_image _ _ Hs _ _ Ha) as (Hi & Pa & _), (sv_image _ _ Hs _ _ Hb) as (Hj & Pb & _).
  apply Hne. rewrite Pa, Pb in E. by apply image_path_inj in E.
Qed.

Lemma inv_fds s v i j a b :
  svc_inv s v -> images s !! i = Some a -> images s !! j = Some b -> i <> j -> i_fd a <> i_fd b.
Proof.
  intros Hs Ha Hb Hne E. apply (inv_paths s v i j a b Hs Ha Hb Hne).
  destruct (sv_image _ _ Hs _ _ Ha) as (_ & _ & _ & _ & o1 & F1), (sv_image _ _ Hs _ _ Hb) as (_ & _ & _ & _ & o2 & F2). congruence.
Qed.

Lemma fds_put p c v : fds (fs_put p c v) = fds v.
Proof. done. Qed.

(** The parts of [sv_image]: the contents and the descriptor are left. *)
Ltac img_split := split; [done|]; split; [done|]; split; [done|]; split.

(** Changing the contents of one image changes the store at its identifier. *)
Lemma store_put s v id img c :
  svc_inv s v -> images s !! id = Some img ->
  svc_inv s (fs_put (i_path img) c v) /\
  forall j, store s (fs_put (i_path img) c v) j = if decide (j = id) then Some c else store s v j.
Proof.
  intros Hs Hi. split.
  - split. intros j b Hb. destruct (sv_image _ _ Hs _ _ Hb) as (Hr & Hp & Hf & Hc & Ho). img_split; [|exact Ho].
    unfold fs_put. cbn [files]. destruct (decide (i_path img = i_path b)) as [->|]; [rewrite lookup_insert_eq; by eexists|by rewrite lookup_insert_ne].
  - intros j. unfold store. destruct (decide (j = id)) as [->|Hne].
    + rewrite Hi. cbn. by rewrite lookup_insert_eq.
    + destruct (images s !! j) as [b|] eqn:Hb; [|done]. cbn. rewrite lookup_insert_ne; [done|].
      by apply (inv_paths s v id j).
Qed.

Section Refinement.
Context {W : Type} `{BlockLaws W}.

Lemma create_refines id name size s (w : W) :
  svc_inv s (view w) -> 0 <= id < 2 ^ 64 ->
  let '(ok, s', w') := CreateImage id name size s w in
  svc_inv s' (view w') /\ (ok = true -> store s (view w) id = None /\ 0 <= s64 size) /\
  (BlockReliable W -> store s (view w) id = None -> 0 <= s64 size -> ok = true) /\
  forall j, store s' (view w') j =
    if decide (j = id) then (if ok then Some (replicate (Z.to_nat (s64 size)) 0) else store s (view w) id) else store s (view w) j.
Proof.
  intros Hs Hid. unfold CreateImage. case_bool_decide as Hknown.
  { split; [done|]. split; [done|]. split; [|intros j; by destruct (decide (j = id)) as [->|]].
    intros _ Hn. destruct Hknown as [img Hi]. destruct (sv_image _ _ Hs _ _ Hi) as (_ & _ & _ & [c Hc] & _).
    unfold store in Hn. rewrite Hi in Hn. cbn in Hn. by rewrite Hc in Hn. }
  assert (images s !! id = None) as Hnone by (by apply eq_None_not_Some).
  assert (store s (view w) id = None) as Hsn by (unfold store; by rewrite Hnone).
  assert (forall j b, images s !! j = Some b -> i_path b <> image_path (data_dir s) id) as Hother.
  { intros j b Hb E. destruct (sv_image _ _ Hs _ _ Hb) as (Hj & Pb & _). rewrite Pb in E. apply image_path_inj in E; [|done|done].
    subst j. congruence. }
  destruct (p_open (image_path (data_dir s) id) O_RDWR_CREAT_TRUNC w) as [[fd|] w1] eqn:Eo.
  2: { rewrite (open_none _ _ _ _ Eo). split; [done|]. split; [done|]. split; [|intros j; by destruct (decide (j = id)) as [->|]].
       intros Hrel. destruct (reliable_create (image_path (data_dir s) id) w) as [fd Hfd]. by rewrite Eo in Hfd. }
  destruct (open_some _ _ _ _ _ Eo) as (Hfd & Hfree & _ & Hv1). set (path := image_path (data_dir s) id) in *.
  assert (svc_inv s (view w1) /\ forall j, store s (view w1) j = store s (view w) j) as [Hs1 Hst1].
  { split.
    - split. intros j b Hb. destruct (sv_image _ _ Hs _ _ Hb) as (Hr & Hp & Hf & Hc & o & Ho). rewrite Hv1. cbn. img_split.
      + rewrite lookup_insert_ne; [done|]. intros E. by apply (Hother j b Hb).
      + exists o. rewrite lookup_insert_ne; [done|]. intros ->. congruence.
    - intros j. unfold store. destruct (images s !! j) as [b|] eqn:Hb; [|done]. cbn. rewrite Hv1. cbn. rewrite lookup_insert_ne; [done|].
      intros E. by apply (Hother j b Hb). }
  assert (is_Some (fds (view w1) !! fd)) as Hopen by (rewrite Hv1; cbn; rewrite lookup_insert_eq; by eexists).
  pose proof (fun (R : BlockReliable W) Hz => reliable_ftruncate fd (s64 size) w1 Hz Hopen) as Hrt.
  destruct (b_ftruncate fd (s64 size) w1) as [ok w2] eqn:Et. apply ftruncate_law in Et. destruct ok; cbn [negb].
  - destruct Et as (Hsz & p & o & Hp & Hv2). rewrite Hv1 in Hp. cbn in Hp. rewrite lookup_insert_eq in Hp. injection Hp as <- <-.
    assert (resize (Z.to_nat (s64 size)) (default [] (files (view w1) !! path)) = replicate (Z.to_nat (s64 size)) 0) as Hz.
    { rewrite Hv1. cbn. rewrite lookup_insert_eq. cbn. unfold resize. rewrite take_nil. cbn. by rewrite Nat.sub_0_r. }
    rewrite Hz in Hv2. set (img := mkImage id name path size (u32 (size / BLOCK_SIZE)) fd).
    split; [|split; [done|split; [done|]]].
    + split. intros j b Hb. cbn [images data_dir] in *. rewrite Hv2. cbn. destruct (decide (j = id)) as [->|Hne].
      * rewrite lookup_insert_eq in Hb. injection Hb as <-. img_split.
        -- cbn. rewrite lookup_insert_eq. by eexists.
        -- exists 0%nat. rewrite Hv1. cbn. by rewrite lookup_insert_eq.
      * rewrite lookup_insert_ne in Hb by done. destruct (sv_image _ _ Hs1 _ _ Hb) as (Hr & Hp & Hf & Hc & Ho). img_split; [|exact Ho].
        rewrite lookup_insert_ne; [done|]. intros E. by apply (Hother j b Hb).
    + intros j. unfold store. cbn [images]. destruct (decide (j = id)) as [->|Hne].
      * rewrite lookup_insert_eq. cbn. rewrite Hv2. cbn. by rewrite lookup_insert_eq.
      * rewrite lookup_insert_ne by done. pose proof (Hst1 j) as Hj. unfold store in Hj. destruct (images s !! j) as [b|] eqn:Hb; [|done].
        cbn in *. rewrite Hv2. cbn. rewrite lookup_insert_ne; [done|]. intros E. by apply (Hother j b Hb).
  - rewrite close_law, Et. split; [|split; [done|split; [intros R _ Hz; by apply Hrt|]]].
    + split. intros j b Hb. destruct (sv_image _ _ Hs1 _ _ Hb) as (Hr & Hp & Hf & Hc & o & Ho). img_split; [exact Hc|]. exists o. cbn.
      rewrite lookup_delete_ne; [done|]. intros ->. rewrite Hv1 in Ho. cbn in Ho. rewrite lookup_insert_eq in Ho. injection Ho as E _.
      by apply (Hother j b Hb).
    + intros j. transitivity (store s (view w1) j); [done|]. rewrite Hst1. by destruct (decide (j = id)) as [->|].
Qed.

Lemma delete_refines id s (w : W) :
  svc_inv s (view w) ->
  let '(ok, s', w') := DeleteImage id s w in
  ok = bool_decide (is_Some (store s (view w) id)) /\ svc_inv s' (view w') /\
  forall j, store s' (view w') j = if decide (j = id) then None else store s (view w) j.
Proof.
  intros Hs. unfold DeleteImage. destruct (images s !! id) as [img|] eqn:Hi.
  2: { assert (store s (view w) id = None) as Hn by (unfold store; by rewrite Hi). rewrite Hn. split_and!; [done|done|].
       intros j. by destruct (decide (j = id)) as [->|]. }
  destruct (sv_image _ _ Hs _ _ Hi) as (Hr & Hp & Hfd & [c Hc] & o & Ho). rewrite (proj2 (Z.leb_le _ _)) by done.
  split; [symmetry; apply bool_decide_eq_true_2; unfold store; rewrite Hi; cbn; by eexists|].
  set (w' := b_unlink (i_path img) (p_close (i_fd img) w)).
  assert ((forall q, q <> i_path img -> files (view w') !! q = files (view w) !! q) /\
          fds (view w') = delete (i_fd img) (fds (view w))) as [Hv1 Hv2].
  { destruct (unlink_law (i_path img) (p_close (i_fd img) w)) as [E|E]; unfold w'; rewrite E, close_law; (split; [|done]); [|done].
    intros q Hq. cbn. by rewrite lookup_delete_ne. }
  split.
  - split. intros j b Hb. cbn [images data_dir] in *. apply lookup_delete_Some in Hb as [Hne Hb].
    destruct (sv_image _ _ Hs _ _ Hb) as (Hr' & Hp' & Hf' & Hc' & o' & Ho'). img_split.
    + rewrite Hv1; [done|]. apply not_eq_sym. by apply (inv_paths s (view w) id j).
    + exists o'. rewrite Hv2, lookup_delete_ne; [done|]. by apply (inv_fds s (view w) id j).
  - intros j. unfold store. cbn [images]. destruct (decide (j = id)) as [->|Hne]; [by rewrite lookup_delete_eq|].
    rewrite lookup_delete_ne by done. destruct (images s !! j) as [b|] eqn:Hb; [|done]. cbn. apply Hv1, not_eq_sym.
    by apply (inv_paths s (view w) id j).
Qed.

(** The contents and the descriptor of a known image. *)
Lemma store_found s (w : W) id img :
  svc_inv s (view w) -> images s !! id = Some img ->
  exists c o, store s (view w) id = Some c /\ fds (view w) !! i_fd img = Some (i_path img, o) /\
    fs_contents (i_fd img) (view w) = Some (c, o) /\ files (view w) !! i_path img = Some c.
Proof.
  intros Hs Hi. destruct (sv_image _ _ Hs _ _ Hi) as (Hr & Hp & Hfd & [c Hc] & o & Ho). exists c, o.
  unfold store, fs_contents. rewrite Hi, Ho. cbn. by rewrite Hc.
Qed.

(** What a read of a known image gives, on the bytes it asks for. *)
Definition read_spec (strict : Prop) (off : Z) (want : list Z) (r : BlockResponse) : Prop :=
  p_status r = -2 /\ p_data r = [] /\ (strict -> off < 0) \/
  p_status r = 0 /\ 0 <= off /\ p_data r `prefix_of` want /\ (strict -> p_data r = want).

Lemma read_refines memory req s (w : W) :
  svc_inv s (view w) ->
  match store s (view w) (q_image_id req) with
  | None => ReadBlocks memory req s w = Ok (mkResponse (q_image_id req) (q_block_offset req) (q_block_count req) (-1) [], w)
  | Some c =>
      let n := q_block_count req * BLOCK_SIZE in
      if memory <? n then ReadBlocks memory req s w = Fault
      else exists r w', ReadBlocks memory req s w = Ok (r, w') /\ view w' = view w /\
        p_image_id r = q_image_id req /\ p_block_offset r = q_block_offset req /\ p_block_count r = q_block_count req /\
        read_spec (BlockReliable W) (byte_offset (q_block_offset req))
          (take (Z.to_nat n) (drop (Z.to_nat (byte_offset (q_block_offset req))) c)) r
  end.
Proof.
  intros Hs. unfold ReadBlocks, FindImage. destruct (images s !! q_image_id req) as [img|] eqn:Hi.
  2: { unfold store. by rewrite Hi. }
  destruct (store_found s w _ img Hs Hi) as (c & o & -> & _ & Hc & _). cbv zeta. destruct (memory <? _); [done|].
  destruct (pread_law (i_fd img) (q_block_count req * BLOCK_SIZE) (byte_offset (q_block_offset req)) w) as [Hv Hb].
  pose proof (fun (R : BlockReliable W) Hz => reliable_pread (i_fd img) (q_block_count req * BLOCK_SIZE)
    (byte_offset (q_block_offset req)) w c o Hz Hc) as Hrel.
  destruct (b_pread _ _ _ w) as [[bs|] w'] eqn:E; cbn [fst snd] in *; eexists _, w';
    (split; [reflexivity|]; split; [done|]; split; [done|]; split; [done|]; split; [done|]).
  - right. destruct (Hb bs eq_refl) as (Hoff & c' & o' & Hc' & Hpre). rewrite Hc in Hc'. injection Hc' as <- <-.
    split_and!; [done|done|done|]. intros R. specialize (Hrel R Hoff). by injection Hrel.
  - left. split_and!; [done|done|]. intros R. destruct (Z.lt_ge_cases (byte_offset (q_block_offset req)) 0); [done|].
    by specialize (Hrel R ltac:(done)).
Qed.

(** What a write to a known image does: [k] bytes of the data reach it. *)
Definition write_spec (strict : Prop) (off : Z) (data : list Z) (ok : bool) (k : nat) : Prop :=
  (k <= length data)%nat /\ (ok = true -> k = length data) /\ ((0 < k)%nat -> 0 <= off /\ ok = bool_decide (k = length data)) /\
  (strict -> 0 <= off -> ok = true).
Definition patched (c : list Z) (off : Z) (bs : list Z) : list Z :=
  match bs with [] => c | _ => fs_patch c (Z.to_nat off) bs end.

Lemma write_refines req data s (w : W) :
  svc_inv s (view w) ->
  let '(ok, w') := WriteBlocks req data s w in
  svc_inv s (view w') /\
  match store s (view w) (q_image_id req) with
  | None => ok = false /\ view w' = view w
  | Some c => exists k, write_spec (BlockReliable W) (byte_offset (q_block_offset req)) data ok k /\
        forall j, store s (view w') j = if decide (j = q_image_id req)
          then Some (patched c (byte_offset (q_block_offset req)) (take k data)) else store s (view w) j
  end.
Proof.
  intros Hs. unfold WriteBlocks, FindImage. destruct (images s !! q_image_id req) as [img|] eqn:Hi.
  2: { split; [done|]. unfold store. by rewrite Hi. }
  destruct (store_found s w _ img Hs Hi) as (c & o & Hst & Ho & _ & Hc). rewrite Hst.
  pose proof (fun (R : BlockReliable W) Hz => reliable_pwrite (i_fd img) data (byte_offset (q_block_offset req)) w Hz
    ltac:(by rewrite Ho)) as Hrel.
  destruct (b_pwrite (i_fd img) data (byte_offset (q_block_offset req)) w) as [k w'] eqn:E. cbn [fst] in Hrel.
  assert (BlockReliable W -> 0 <= byte_offset (q_block_offset req) -> (k =? Z.of_nat (length data)) = true) as Hstrict
    by (intros R Hz; apply Z.eqb_eq; by apply Hrel).
  destruct (pwrite_law _ _ _ _ _ _ E) as [[Hk Hv]|(Hoff & Hk & p & o' & Hp & Hv)].
  - rewrite Hv. split; [done|]. exists O. split; [split_and!; try done; try lia; intros Hx; apply Z.eqb_eq in Hx; lia|].
    intros j. destruct (decide (j = q_image_id req)) as [->|]; [by rewrite take_0|done].
  - rewrite Ho in Hp. injection Hp as <- <-. rewrite Hc in Hv. cbn [default] in Hv. rewrite Hv.
    destruct (store_put s (view w) _ img (fs_patch c (Z.to_nat (byte_offset (q_block_offset req))) (take (Z.to_nat k) data)) Hs Hi) as [Q1 Q2].
    split; [done|]. exists (Z.to_nat k). split.
    + split_and!; [lia|intros Hx; apply Z.eqb_eq in Hx; lia| |done]. intros _. split; [done|].
      destruct (Z.eqb_spec k (Z.of_nat (length data))); symmetry; [apply bool_decide_eq_true_2|apply bool_decide_eq_false_2]; lia.
    + intros j. rewrite Q2. destruct (decide _); [|done]. f_equal. unfold patched.
      destruct (take (Z.to_nat k) data) eqn:Et; [|done]. apply (f_equal length) in Et. rewrite length_take in Et. cbn in Et. lia.
Qed.
End Refinement.

(** ** Sequences of requests *)

Inductive op : Type :=
| OCreate (id : Z) (name : list Z) (size : Z)
| ODelete (id : Z)
| ORead (req : BlockRequest)
| OWrite (req : BlockRequest) (data : list Z).
Inductive answer : Type := ABool (b : bool) | AData (r : BlockResponse).

Definition exec {W} `{Posix W, !BlockFiles W} (memory : Z) (o : op) (s : ImageService) (w : W) : res (answer * ImageService * W) :=
  match o with
  | OCreate id name size => let '(ok, s, w) := CreateImage id name size s w in Ok (ABool ok, s, w)
  | ODelete id => let '(ok, s, w) := DeleteImage id s w in Ok (ABool ok, s, w)
  | ORead req => let* (r, w) := ReadBlocks memory req s w in Ok (AData r, s, w)
  | OWrite req data => let '(ok, w) := WriteBlocks req data s w in Ok (ABool ok, s, w)
  end.

(** The identifiers are 64 bits wide. *)
Definition op_ok (o : op) : Prop :=
  match o with
  | OCreate id _ _ => 0 <= id < 2 ^ 64
  | _ => True
  end.

(** The contract of one request on the map of images. [strict] stands for a
    machine whose calls do all that is asked: there a request fails only for a
    reason of its own. *)
Definition op_spec (strict : Prop) (memory : Z) (o : op) (a : answer) (m m' : Z -> option (list Z)) : Prop :=
  match o with
  | OCreate id _ size => exists ok, a = ABool ok /\ (ok = true -> m id = None /\ 0 <= s64 size) /\
      (strict -> m id = None -> 0 <= s64 size -> ok = true) /\
      forall j, m' j = if decide (j = id) then (if ok then Some (replicate (Z.to_nat (s64 size)) 0) else m id) else m j
  | ODelete id => a = ABool (bool_decide (is_Some (m id))) /\ forall j, m' j = if decide (j = id) then None else m j
  | ORead req => (forall j, m' j = m j) /\ exists r, a = AData r /\
      p_image_id r = q_image_id req /\ p_block_offset r = q_block_offset req /\ p_block_count r = q_block_count req /\
      match m (q_image_id req) with
      | None => p_status r = -1 /\ p_data r = []
      | Some c => q_block_count req * BLOCK_SIZE <= memory /\
          read_spec strict (byte_offset (q_block_offset req))
            (take (Z.to_nat (q_block_count req * BLOCK_SIZE)) (drop (Z.to_nat (byte_offset (q_block_offset req))) c)) r
      end
  | OWrite req data => exists ok, a = ABool ok /\
      match m (q_image_id req) with
      | None => ok = false /\ forall j, m' j = m j
      | Some c => exists k, write_spec strict (byte_offset (q_block_offset req)) data ok k /\
            forall j, m' j = if decide (j = q_image_id req)
              then Some (patched c (byte_offset (q_block_offset req)) (take k data)) else m j
      end
  end.

(** The request the service does not survive: a read of a known image that
    wants more bytes than a vector can hold. *)
Definition kills (memory : Z) (o : op) (m : Z -> option (list Z)) : Prop :=
  match o with
  | ORead req => is_Some (m (q_image_id req)) /\ memory < q_block_count req * BLOCK_SIZE
  | _ => False
  end.

Fixpoint exec_all {W} `{Posix W, !BlockFiles W} (memory : Z) (os : list op) (s : ImageService) (w : W)
    : res (list answer * ImageService * W) :=
  match os with
  | [] => Ok ([], s, w)
  | o :: os =>
      let* (a, s, w) := exec memory o s w in
      let* (l, s, w) := exec_all memory os s w in
      Ok (a :: l, s, w)
  end.

(** A run of the specification: the answers and the last map, or [None] when a
    request killed the service. *)
Inductive spec_run (strict : Prop) (memory : Z) : list op -> option (list answer * (Z -> option (list Z))) ->
    (Z -> option (list Z)) -> Prop :=
| spec_nil m : spec_run strict memory [] (Some ([], m)) m
| spec_cons o os a l m m1 m2 : op_spec strict memory o a m m1 -> spec_run strict memory os (Some (l, m2)) m1 ->
    spec_run strict memory (o :: os) (Some (a :: l, m2)) m
| spec_later o os a m m1 : op_spec strict memory o a m m1 -> spec_run strict memory os None m1 ->
    spec_run strict memory (o :: os) None m
| spec_killed o os m : kills memory o m -> spec_run strict memory (o :: os) None m.

Lemma exec_refines {W} `{BlockLaws W} memory o s (w : W) :
  svc_inv s (view w) -> op_ok o ->
  match exec memory o s w with
  | Ok (a, s', w') => svc_inv s' (view w') /\ op_spec (BlockReliable W) memory o a (store s (view w)) (store s' (view w'))
  | Fault => kills memory o (store s (view w))
  | NoFuel => False
  end.
Proof.
  intros Hs Ho. destruct o as [id name size|id|req|req data]; cbn [exec op_spec op_ok kills] in *.
  - pose proof (create_refines id name size s w Hs Ho) as Hc. destruct (CreateImage id name size s w) as [[ok s'] w'].
    destruct Hc as (Q1 & Q2 & Q3 & Q4). split; [done|]. by exists ok.
  - pose proof (delete_refines id s w Hs) as Hd. destruct (DeleteImage id s w) as [[ok s'] w']. by destruct Hd as (-> & Q1 & Q2).
  - pose proof (read_refines memory req s w Hs) as Hr. destruct (store s (view w) (q_image_id req)) as [c|].
    + cbv zeta in Hr. destruct (Z.ltb_spec memory (q_block_count req * BLOCK_SIZE)).
      { rewrite Hr. cbn [res_bind]. split; [by eexists|done]. }
      destruct Hr as (r & w' & -> & Hv & Q1 & Q2 & Q3 & Q4). cbn [res_bind]. rewrite Hv. split; [done|]. split; [done|].
      by exists r.
    + rewrite Hr. cbn [res_bind]. split; [done|]. split; [done|]. by eexists.
  - pose proof (write_refines req data s w Hs) as Hw. destruct (WriteBlocks req data s w) as [ok w']. destruct Hw as [Q1 Q2].
    split; [done|]. exists ok. split; [done|]. destruct (store s (view w) (q_image_id req)); [done|].
    destruct Q2 as [-> Hv]. split; [done|]. intros j. by rewrite Hv.
Qed.

Lemma exec_all_refines {W} `{BlockLaws W} memory os s (w : W) :
  svc_inv s (view w) -> Forall op_ok os ->
  match exec_all memory os s w with
  | Ok (l, s', w') => svc_inv s' (view w') /\ spec_run (BlockReliable W) memory os (Some (l, store s' (view w'))) (store s (view w))
  | Fault => spec_run (BlockReliable W) memory os None (store s (view w))
  | NoFuel => False
  end.
Proof.
  intros Hs Hos. revert s w Hs. induction Hos as [|o os Ho Hos IH]; intros s w Hs; [split; [done|constructor]|].
  cbn [exec_all]. pose proof (exec_refines memory o s w Hs Ho) as He.
  destruct (exec memory o s w) as [[[a s1] w1]| |]; cbn [res_bind]; [|by apply spec_killed|done].
  destruct He as [Hs1 Hop]. specialize (IH s1 w1 Hs1).
  destruct (exec_all memory os s1 w1) as [[[l s2] w2]| |]; cbn [res_bind]; [|by eapply spec_later|done].
  destruct IH as [Hs2 Hrun]. split; [done|]. by econstructor.
Qed.

(** A new service knows no image. *)
Lemma new_svc_inv dir v : svc_inv (ImageService_new dir) v.
Proof. split. intros id img Hi. cbn [images ImageService_new] in Hi. by rewrite lookup_empty in Hi. Qed.

(** Reading a patch back. *)
Lemma patch_read c off bs : take (length bs) (drop off (fs_patch c off bs)) = bs.
Proof.
  unfold fs_patch. rewrite app_assoc, drop_app_length'; [by apply take_app_length'|].
  rewrite length_app, length_take, length_replicate. lia.
Qed.

(** ** Properties *)

(** C3. The service is a store of images: from a new service, any sequence of
    create, delete, read and write requests answers as a map from identifiers to
    contents does, on every file system in which calls may fail or fall short,
    unlink included (a refused create or delete then changes no contents, a read
    gives a prefix, a write stores a prefix and says so). On a machine whose calls
    do all that is asked ([BlockReliable]) the answers are exact: a request fails
    only for an identifier that is known (create) or not (the others), or a
    negative size or position. A read of a known image that wants more bytes than a
    vector can hold ends the process, and nothing else does. *)
Theorem image_service_refines {W} `{BlockLaws W} memory dir os (w : W) :
  Forall op_ok os ->
  match exec_all memory os (ImageService_new dir) w with
  | Ok (l, s', w') => svc_inv s' (view w') /\ spec_run (BlockReliable W) memory os (Some (l, store s' (view w'))) (fun _ => None)
  | Fault => spec_run (BlockReliable W) memory os None (fun _ => None)
  | NoFuel => False
  end.
Proof. exact (exec_all_refines memory os (ImageService_new dir) w (new_svc_inv dir (view w))). Qed.

Definition request (id off n : Z) : BlockRequest := mkRequest id off n 0.
Definition image_ops : list op := [OCreate 7 (zstr "win") 8192; OWrite (request 7 1 1) [1; 2; 3]; ORead (request 7 1 1); ODelete 7].

Lemma image_service_refines_witness :
  (exists l s' w', exec_all 65536 image_ops (ImageService_new (zstr "d")) (sim_fs None ∅) = Ok (l, s', w') /\
    spec_run (BlockReliable (SimFs None)) 65536 image_ops (Some (l, store s' (sf_view w'))) (fun _ => None)) /\
  spec_run (BlockReliable (SimFs None)) 4095 image_ops None (fun _ => None).
Proof.
  assert (Forall op_ok image_ops) as Hok by (repeat constructor; vm_compute; congruence).
  split.
  - pose proof (image_service_refines 65536 (zstr "d") image_ops (sim_fs None ∅) Hok) as H.
    destruct (exec_all 65536 image_ops (ImageService_new (zstr "d")) (sim_fs None ∅)) as [[[l s'] w']| |] eqn:E;
      [|vm_compute in E; discriminate E..].
    exists l, s', w'. split; [reflexivity|exact (proj2 H)].
  - pose proof (image_service_refines 4095 (zstr "d") image_ops (sim_fs None ∅) Hok) as H.
    destruct (exec_all 4095 image_ops (ImageService_new (zstr "d")) (sim_fs None ∅)) as [[[l s'] w']| |] eqn:E;
      [vm_compute in E; discriminate E|exact H|vm_compute in E; discriminate E].
Defined.

(** What was written is read back: on a file system that does what it is asked,
    a write to a known image succeeds and a read of as many bytes at the same
    block gives the data; the position is the block offset times 4096 modulo
    2{^64}, so a block offset of 2{^52} or more hits another block. *)
Theorem image_write_read {W} `{BlockReliable W} memory s (w : W) id c off n data :
  svc_inv s (view w) -> store s (view w) id = Some c -> 0 <= off -> off mod 2 ^ 52 < 2 ^ 51 -> data <> [] ->
  Z.of_nat (length data) = n * BLOCK_SIZE -> n * BLOCK_SIZE <= memory ->
  exists w1 r w2, WriteBlocks (mkRequest id off n 0) data s w = (true, w1) /\
    store s (view w1) id = Some (fs_patch c (Z.to_nat ((off mod 2 ^ 52) * BLOCK_SIZE)) data) /\
    ReadBlocks memory (mkRequest id off n 0) s w1 = Ok (r, w2) /\ p_status r = 0 /\ p_data r = data.
Proof.
  intros Hs Hst Hoff Hsmall Hne Hn Hm. set (req := mkRequest id off n 0).
  assert (byte_offset off = (off mod 2 ^ 52) * BLOCK_SIZE) as Hbo.
  { unfold byte_offset, BLOCK_SIZE. pose proof (Z.mod_pos_bound off (2 ^ 52) eq_refl).
    assert (u64 (off * 4096) = (off mod 2 ^ 52) * 4096) as ->.
    { unfold u64, wrap. change (2 ^ 64) with (2 ^ 52 * 4096). rewrite Zmult_mod_distr_r. done. }
    unfold s64. apply sgn_small; lia. }
  pose proof (Z.mod_pos_bound off (2 ^ 52) eq_refl) as Hmb. assert (0 <= byte_offset off) as Hb0 by (rewrite Hbo; unfold BLOCK_SIZE; lia).
  destruct (images s !! id) as [img|] eqn:Hi; [|unfold store in Hst; by rewrite Hi in Hst].
  destruct (store_found s w id img Hs Hi) as (c' & o & Hc' & Ho & _ & _). rewrite Hst in Hc'. injection Hc' as <-.
  pose proof (write_refines req data s w Hs) as Hw. cbn [q_image_id q_block_offset req] in Hw. rewrite Hst in Hw.
  destruct (WriteBlocks req data s w) as [ok w1] eqn:Ew. destruct Hw as [Hs1 (k & (Hk & Hfull & _ & Hok) & Hj)].
  assert (ok = true) as -> by (by apply Hok). rewrite (Hfull eq_refl), firstn_all in Hj.
  assert (store s (view w1) id = Some (fs_patch c (Z.to_nat (byte_offset off)) data)) as Hst1.
  { rewrite Hj, decide_True by done. unfold patched. by destruct data. }
  destruct (store_found s w1 id img Hs1 Hi) as (c1 & o1 & Hc1 & _ & Hf & _). rewrite Hst1 in Hc1. injection Hc1 as <-.
  pose proof (reliable_pread (i_fd img) (n * BLOCK_SIZE) (byte_offset off) w1 _ _ Hb0 Hf) as Hr.
  exists w1. unfold ReadBlocks, FindImage. cbn [q_image_id q_block_offset q_block_count req]. rewrite Hi. cbv zeta. rewrite (proj2 (Z.ltb_ge _ _)) by lia.
  destruct (b_pread (i_fd img) (n * BLOCK_SIZE) (byte_offset off) w1) as [got w2]. cbn [fst] in Hr. subst got.
  eexists _, w2. split; [done|]. split; [by rewrite <- Hbo|]. split; [reflexivity|]. split; [done|]. cbn [p_data].
  rewrite <- Hn, Nat2Z.id. apply patch_read.
Qed.

Definition svc7 : ImageService := mkService (zstr "d") {[ 7 := mkImage 7 [] (image_path (zstr "d") 7) 8192 2 3 ]}.
Definition fs7 : SimFs None := mkSimFs (mkFs {[ image_path (zstr "d") 7 := replicate 8192 0 ]} {[ 3 := (image_path (zstr "d") 7, 0%nat) ]}) 0.

Lemma svc7_inv : svc_inv svc7 (view fs7).
Proof.
  split. intros id img Hi. cbn [images svc7] in Hi. apply lookup_singleton_Some in Hi as [<- <-]. cbn [i_path i_fd data_dir svc7].
  split; [lia|]. split; [done|]. split; [done|]. split; [by eexists|]. by exists 0%nat.
Qed.

Lemma image_write_read_witness :
  exists w1 r w2, WriteBlocks (mkRequest 7 (2 ^ 52 + 1) 1 0) (replicate 4096 9) svc7 fs7 = (true, w1) /\
    ReadBlocks 65536 (mkRequest 7 (2 ^ 52 + 1) 1 0) svc7 w1 = Ok (r, w2) /\ p_data r = replicate 4096 9.
Proof.
  destruct (image_write_read 65536 svc7 fs7 7 (replicate 8192 0) (2 ^ 52 + 1) 1 (replicate 4096 9)) as (w1 & r & w2 & E1 & _ & E2 & _ & E3).
  - apply svc7_inv.
  - reflexivity.
  - vm_compute. discriminate.
  - vm_compute. reflexivity.
  - discriminate.
  - rewrite length_replicate. reflexivity.
  - vm_compute. discriminate.
  - exists w1, r, w2. split; [exact E1|]. split; [exact E2|exact E3].
Defined.
