(* ===== verification/ServerMain.v ===== *)
(** * The server programs (src/server/image_server/main.cpp,
    src/server/cache_engine/main.cpp)

    Both construct one object on the stack of [main] and sleep in a loop. The
    image server installs a handler for SIGINT and SIGTERM that deletes the
    object through a global pointer. Objects created with [new] are a set of
    addresses, so that [delete] of any other object is a [Fault]; what interrupts
    the loop, the end of a sleep or a signal, is an event; whether the default
    action of a signal ends the process is a parameter. *)

From S2P Require Import Prelude BootEnv Text Files ImageService Caches.

Definition SIGINT : Z := 2.
Definition SIGTERM : Z := 15.

Inductive event : Type := Woke | Signal (sig : Z).

(** The process: the service of [main] and its address, the objects made with
    [new], [g_service], and the signals with the handler installed. *)
Record Process : Type := mkProcess {
  service : ImageService; service_addr : Z; heap : gset Z; g_service : option Z; handled : gset Z; printed : list (list Z);
}.

Inductive outcome : Type := Running (p : Process) | Exited (code : Z) | Killed (sig : Z).

Definition default_dir : list Z := zstr "./data/images".

Definition start_main (argv : list (list Z)) (addr : Z) (h : gset Z) : Process :=
  let data_dir := default default_dir (argv !! 1%nat) in
  mkProcess (ImageService_new data_dir) addr h (Some addr) {[SIGINT; SIGTERM]}
    [zstr "HD Image Server started, data_dir=" ++ data_dir].

Section Server.
Context {W : Type} `{Posix W} (fatal : Z -> bool).

(** [delete g_service]: nothing for a null pointer; otherwise the destructor,
    then the memory goes back to the heap. *)
Definition delete_service (p : Process) (w : W) : res (Process * W) :=
  match g_service p with
  | None => Ok (p, w)
  | Some a =>
      let w := ImageService_delete (service p) w in
      if bool_decide (a ∈ heap p)
      then Ok (mkProcess (service p) (service_addr p) (heap p ∖ {[a]}) (g_service p) (handled p) (printed p), w)
      else Fault
  end.

Definition signal_handler (sig : Z) (p : Process) (w : W) : res (outcome * W) :=
  if (sig =? SIGINT) || (sig =? SIGTERM) then
    let* x := delete_service p w in
    Ok (Exited 0, x.2)
  else Ok (Running p, w).

(** One event in the loop of [main]. A signal without the handler takes its
    default action. *)
Definition loop_step (e : event) (p : Process) (w : W) : res (outcome * W) :=
  match e with
  | Woke => Ok (Running p, w)
  | Signal sig => if bool_decide (sig ∈ handled p) then signal_handler sig p w
                  else Ok (if fatal sig then Killed sig else Running p, w)
  end.

Fixpoint main_loop (es : list event) (p : Process) (w : W) : res (outcome * W) :=
  match es with
  | [] => Ok (Running p, w)
  | e :: es =>
      let* x := loop_step e p w in
      match x.1 with
      | Running p => main_loop es p x.2
      | o => Ok (o, x.2)
      end
  end.
End Server.

(** The cache engine: the object, and nothing that uses it. *)
Definition cache_main : Caches.L3.L3SsdCache := Caches.L3.new (1024 * 1024 * 1024 * 64).

(** ** Properties *)

Definition stops (e : event) : bool :=
  match e with Woke => false | Signal s => (s =? SIGINT) || (s =? SIGTERM) end.

(** The events whose default action ends the process. *)
Definition kills (fatal : Z -> bool) (e : event) : bool :=
  match e with Woke => false | Signal s => negb (stops e) && fatal s end.

Lemma step_cases {W} `{Posix W} fatal argv addr h e (w : W) :
  addr ∉ h ->
  loop_step fatal e (start_main argv addr h) w =
    if stops e then Fault
    else Ok (match e with
             | Signal s => if fatal s then Killed s else Running (start_main argv addr h)
             | Woke => Running (start_main argv addr h)
             end, w).
Proof.
  intros Ha. destruct e as [|sig]; [done|]. unfold loop_step, signal_handler. cbn [stops].
  assert (delete_service (start_main argv addr h) w = Fault) as Hd.
  { unfold delete_service. cbn [g_service start_main heap]. by rewrite bool_decide_eq_false_2. }
  assert (bool_decide (sig ∈ handled (start_main argv addr h)) = (sig =? SIGINT) || (sig =? SIGTERM)) as ->.
  { unfold start_main. cbn [handled]. case_bool_decide as Hs; symmetry.
    - apply orb_true_iff. rewrite !Z.eqb_eq. set_solver.
    - apply orb_false_iff. rewrite !Z.eqb_neq. set_solver. }
  destruct ((sig =? SIGINT) || (sig =? SIGTERM)); [by rewrite Hd|by destruct (fatal sig)].
Qed.

(** The image server never ends in order: whatever signals arrive, the exit
    with status 0 is not reached; as long as no signal with a fatal default
    action arrives, it runs, with a service that holds no image since nothing
    calls it, until the first SIGINT or SIGTERM makes the handler delete an
    object that was not made with [new]. *)
Theorem image_server_never_exits {W} `{Posix W} fatal argv addr h es (w : W) :
  addr ∉ h ->
  (forall c w', main_loop fatal es (start_main argv addr h) w <> Ok (Exited c, w')) /\
  (existsb (kills fatal) es = false ->
   main_loop fatal es (start_main argv addr h) w =
     if existsb stops es then Fault else Ok (Running (start_main argv addr h), w)).
Proof.
  intros Ha. induction es as [|e es [IH1 IH2]]; [done|]. cbn [main_loop existsb]. rewrite step_cases by done.
  destruct (stops e) eqn:Es; [done|]. cbn [res_bind fst snd orb]. destruct e as [|sig]; [done|].
  unfold kills at 1. rewrite Es. cbn [negb andb]. by destruct (fatal sig).
Qed.

Lemma image_server_never_exits_witness :
  main_loop (fun _ => true) [Woke; Signal SIGTERM; Woke] (start_main [zstr "hd_image_server"] 4096 ∅) (sim_fs None ∅) = Fault.
Proof.
  apply (image_server_never_exits (fun _ => true) [zstr "hd_image_server"] 4096 ∅ [Woke; Signal SIGTERM; Woke] _
    (not_elem_of_empty 4096)). reflexivity.
Defined.

(** The engine's cache is empty and 64 GiB large, a size that does not wrap. *)
Example cache_engine_starts :
  Caches.L3.capacity_bytes cache_main = 64 * 2 ^ 30 /\ Caches.L3.capacity_bytes cache_main < 2 ^ 64 /\
  Caches.L3.used_bytes cache_main = 0.
Proof. by vm_compute. Qed.
