(* ===== verification/HdTools.v ===== *)
(** * Two command line helpers (src/tools/hd_dl.c, src/tools/hd_ld.c)

    [Dl] fetches files over WinINet; [Ld] loads drivers through the native API.
    The system is a class for each; its laws for WinINet keep the handles and the
    files that are open. *)

From S2P Require Import Prelude BootEnv.
#[local] Open Scope Z_scope.

(** ** The downloader *)

Module Dl.

Inductive line : Type :=
| CrackFailed (err : Z)
| SendFailed (err : Z)
| HttpStatus (code : Z)
| CannotCreate (file : list Z)
| Done (total : Z) (file : list Z)
| Usage.

(** [crack] is InternetCrackUrlA with the buffers of the program: host, path,
    port and whether the scheme is https. [i_status] is the status code, 0 when
    the query fails. [i_read] is [None] when the call fails. [f_create] opens a
    file for writing. *)
Class WinInet (W : Type) : Type := {
  crack : list Z -> option (list Z * list Z * Z * bool);
  i_error : W -> Z * W;
  i_open : W -> option Z * W;
  i_connect : Z -> list Z -> Z -> W -> option Z * W;
  i_request : Z -> list Z -> bool -> W -> option Z * W;
  i_send : Z -> W -> bool * W;
  i_status : Z -> W -> Z * W;
  i_read : Z -> Z -> W -> option (list Z) * W;
  i_close : Z -> W -> W;
  f_create : list Z -> W -> option Z * W;
  f_write : Z -> list Z -> W -> W;
  f_close : Z -> W -> W;
}.

Section Download.
Context {W : Type} `{WinInet W}.

(** The reading loop; [total] is a C long. *)
Fixpoint read_loop (fuel : nat) (hreq fp total : Z) (w : W) : res (Z * W) :=
  match fuel with
  | O => NoFuel
  | S k =>
      let '(got, w) := i_read hreq 8192 w in
      match got with
      | None => Ok (total, w)
      | Some b => if bool_decide (b = []) then Ok (total, w)
                  else read_loop k hreq fp (s32 (total + Z.of_nat (length b))) (f_write fp b w)
      end
  end.

Definition download (fuel : nat) (url outfile : list Z) (w : W) : res (Z * list line * W) :=
  match crack url with
  | None => let '(e, w) := i_error w in Ok (1, [CrackFailed e], w)
  | Some (host, path, port, https) =>
      let '(hinet, w) := i_open w in
      match hinet with
      | None => Ok (1, [], w)
      | Some hinet =>
          let '(hconn, w) := i_connect hinet host port w in
          match hconn with
          | None => Ok (1, [], i_close hinet w)
          | Some hconn =>
              let '(hreq, w) := i_request hconn path https w in
              match hreq with
              | None => Ok (1, [], i_close hinet (i_close hconn w))
              | Some hreq =>
                  let close_all w := i_close hinet (i_close hconn (i_close hreq w)) in
                  let '(sent, w) := i_send hreq w in
                  if negb sent then let '(e, w) := i_error w in Ok (1, [SendFailed e], close_all w) else
                  let '(status_code, w) := i_status hreq w in
                  if negb (status_code =? 200) then Ok (1, [HttpStatus status_code], close_all w) else
                  let '(fp, w) := f_create outfile w in
                  match fp with
                  | None => Ok (1, [CannotCreate outfile], close_all w)
                  | Some fp =>
                      let* (total, w) := read_loop fuel hreq fp 0 w in
                      Ok (0, [Done total outfile], close_all (f_close fp w))
                  end
              end
          end
      end
  end.

(** Pairs of arguments; an odd one at the end is ignored. *)
Fixpoint fetch_all (fuel : nat) (args : list (list Z)) (rc : Z) (w : W) : res (Z * list line * W) :=
  match args with
  | url :: out :: rest =>
      let* (r, l, w) := download fuel url out w in
      let* (rc, l', w) := fetch_all fuel rest (if negb (r =? 0) then r else rc) w in
      Ok (rc, l ++ l', w)
  | _ => Ok (rc, [], w)
  end.

Definition main (fuel : nat) (argv : list (list Z)) (w : W) : res (Z * list line * W) :=
  if (length argv <? 3)%nat then Ok (1, [Usage], w) else fetch_all fuel (drop 1 argv) 0 w.
End Download.

(** A call that opens something: a new handle, or none. *)
Definition gains (r : option Z) (before after : gset Z) : Prop :=
  match r with
  | Some h => h ∉ before /\ after = {[h]} ∪ before
  | None => after = before
  end.

(** The handles and the files that are open; closing one closes no other. No
    request delivers more than [chunks] blocks. *)
Class WinInetLaws (W : Type) `{WinInet W} : Type := {
  handles : W -> gset Z;
  files : W -> gset Z;
  h_error w : handles (i_error w).2 = handles w;
  h_open w : gains (i_open w).1 (handles w) (handles (i_open w).2);
  h_connect h s p w : gains (i_connect h s p w).1 (handles w) (handles (i_connect h s p w).2);
  h_request h p s w : gains (i_request h p s w).1 (handles w) (handles (i_request h p s w).2);
  h_send h w : handles (i_send h w).2 = handles w;
  h_status h w : handles (i_status h w).2 = handles w;
  h_read h n w : handles (i_read h n w).2 = handles w;
  h_close h w : handles (i_close h w) = handles w ∖ {[h]};
  h_create p w : handles (f_create p w).2 = handles w;
  h_write fp b w : handles (f_write fp b w) = handles w;
  h_fclose fp w : handles (f_close fp w) = handles w;
  fl_error w : files (i_error w).2 = files w;
  fl_open w : files (i_open w).2 = files w;
  fl_connect h s p w : files (i_connect h s p w).2 = files w;
  fl_request h p s w : files (i_request h p s w).2 = files w;
  fl_send h w : files (i_send h w).2 = files w;
  fl_status h w : files (i_status h w).2 = files w;
  fl_read h n w : files (i_read h n w).2 = files w;
  fl_close h w : files (i_close h w) = files w;
  fl_create p w : gains (f_create p w).1 (files w) (files (f_create p w).2);
  fl_write fp b w : files (f_write fp b w) = files w;
  fl_fclose fp w : files (f_close fp w) = files w ∖ {[fp]};
  chunks : nat;
  left : Z -> W -> nat;
  left_start h w : (left h w <= chunks)%nat;
  left_read h n w b w' fp : i_read h n w = (Some b, w') -> b <> [] -> (left h (f_write fp b w') < left h w)%nat;
}.

Section Laws.
Context {W : Type} `{WinInetLaws W}.

Definition same_open (w w' : W) : Prop := handles w' = handles w /\ files w' = files w.

Lemma read_loop_ends fuel h fp total (w : W) :
  (left h w < fuel)%nat -> exists t w', read_loop fuel h fp total w = Ok (t, w') /\ same_open w w'.
Proof.
  revert total w. induction fuel as [|k IH]; intros total w Hf; [lia|]. cbn [read_loop].
  pose proof (h_read h 8192 w) as Hn. pose proof (fl_read h 8192 w) as Hm.
  destruct (i_read h 8192 w) as [[b|] w1] eqn:E; cbn [snd] in Hn, Hm; [|by exists total, w1].
  case_bool_decide as Hb; [by exists total, w1|]. pose proof (left_read h 8192 w b w1 fp E Hb).
  destruct (IH (s32 (total + Z.of_nat (length b))) (f_write fp b w1)) as (t & w' & E' & [Hw1 Hw2]); [lia|].
  exists t, w'. split; [done|]. split; [by rewrite Hw1, h_write|by rewrite Hw2, fl_write].
Qed.

Lemma gains_drop (O : gset Z) h : h ∉ O -> ({[h]} ∪ O) ∖ {[h]} = O.
Proof. intros Hh. apply set_eq. set_solver. Qed.

(** What a path that fails or succeeds after opening does: it closes in the
    opposite order. *)
Definition closed_all (w w' : W) (l : list Z) : Prop :=
  handles w' = foldr (fun h O => {[h]} ∪ O) (handles w) l /\ NoDup l /\ Forall (fun h => h ∉ handles w) l /\ files w' = files w.

Lemma close_last w w' h l : closed_all w w' (h :: l) -> closed_all w (i_close h w') l.
Proof.
  intros (Hh & [Hn Hd]%NoDup_cons & Hf & Hfl). apply Forall_cons in Hf as [Hh0 Hf].
  split_and!; [|done|done|by rewrite fl_close]. rewrite h_close, Hh. cbn [foldr]. apply gains_drop.
  clear -Hn Hh0. induction l as [|x l IH]; cbn [foldr]; set_solver.
Qed.

Lemma open_more w w' w2 h l : closed_all w w' l -> gains (Some h) (handles w') (handles w2) -> files w2 = files w' -> closed_all w w2 (h :: l).
Proof.
  intros (Hh & Hd & Hf & Hfl) [Hnew E] E2. rewrite Hh in Hnew. assert (h ∉ l /\ h ∉ handles w) as [Hl Hw].
  { clear -Hnew. induction l as [|x l IH]; cbn [foldr] in *; set_solver. }
  split_and!; [by rewrite E, Hh|by constructor|by constructor|congruence].
Qed.

Lemma closed_frame w w' w2 l : closed_all w w' l -> handles w2 = handles w' -> files w2 = files w' -> closed_all w w2 l.
Proof. intros (Hh & Hd & Hf & Hfl) E1 E2. by split_and!; [rewrite E1| | |rewrite E2]. Qed.

Lemma closed_same w w' : closed_all w w' [] -> same_open w w'.
Proof. by intros (Hh & _ & _ & Hfl). Qed.

Lemma download_returns fuel url outfile (w : W) :
  (chunks < fuel)%nat -> exists rc l w', download fuel url outfile w = Ok (rc, l, w') /\ (rc = 0 \/ rc = 1) /\ same_open w w'.
Proof.
  intros Hf. unfold download. assert (closed_all w w []) as C0 by (by split_and!; [|constructor|constructor|]).
  destruct (crack url) as [[[[host path] port] https]|].
  2: { pose proof (h_error w). pose proof (fl_error w). destruct (i_error w) as [e w1]. by eexists 1, _, w1; split; [|split; [right|]]. }
  pose proof (h_open w) as L1. pose proof (fl_open w) as F1. destruct (i_open w) as [[hinet|] w1]; cbn [fst snd] in *;
    [|eexists 1, _, w1; by split; [done|]; split; [right|]].
  pose proof (open_more _ _ _ _ _ C0 L1 F1) as C1.
  pose proof (h_connect hinet host port w1) as L2. pose proof (fl_connect hinet host port w1) as F2.
  destruct (i_connect hinet host port w1) as [[hconn|] w2]; cbn [fst snd] in *.
  2: { eexists 1, _, _. split; [reflexivity|]. split; [by right|]. by apply closed_same, close_last, (closed_frame _ w1). }
  pose proof (open_more _ _ _ _ _ C1 L2 F2) as C2.
  pose proof (h_request hconn path https w2) as L3. pose proof (fl_request hconn path https w2) as F3.
  destruct (i_request hconn path https w2) as [[hreq|] w3]; cbn [fst snd] in *.
  2: { eexists 1, _, _. split; [reflexivity|]. split; [by right|]. by apply closed_same, close_last, close_last, (closed_frame _ w2). }
  pose proof (open_more _ _ _ _ _ C2 L3 F3) as C3. cbv zeta.
  assert (forall w', handles w' = handles w3 -> files w' = files w3 ->
    same_open w (i_close hinet (i_close hconn (i_close hreq w')))) as Hall.
  { intros w' E1 E2. by apply closed_same, close_last, close_last, close_last, (closed_frame _ w3). }
  pose proof (h_send hreq w3) as L4. pose proof (fl_send hreq w3) as F4. destruct (i_send hreq w3) as [[] w4]; cbn [snd negb] in *.
  2: { pose proof (h_error w4) as L. pose proof (fl_error w4) as F. destruct (i_error w4) as [e w5]. cbn [snd] in *. eexists 1, _, _.
       split; [reflexivity|]. split; [by right|]. apply Hall; congruence. }
  pose proof (h_status hreq w4) as L5. pose proof (fl_status hreq w4) as F5. destruct (i_status hreq w4) as [code w5]. cbn [snd] in *.
  destruct (code =? 200); cbn [negb].
  2: { eexists 1, _, _. split; [reflexivity|]. split; [by right|]. apply Hall; congruence. }
  pose proof (h_create outfile w5) as L6. pose proof (fl_create outfile w5) as F6. destruct (f_create outfile w5) as [[fp|] w6]; cbn [fst snd] in *.
  2: { eexists 1, _, _. split; [reflexivity|]. split; [by right|]. apply Hall; cbn in F6; congruence. }
  destruct (read_loop_ends fuel hreq fp 0 w6) as (t & w7 & E & [L7 F7]); [pose proof (left_start hreq w6); lia|]. rewrite E. cbn [res_bind].
  eexists 0, _, _. split; [reflexivity|]. split; [by left|]. destruct F6 as [Hnew F6].
  apply Hall; [rewrite h_fclose; congruence|]. rewrite fl_fclose, F7, F6, gains_drop by done. congruence.
Qed.

Lemma fetch_all_returns fuel : (chunks < fuel)%nat -> forall args rc (w : W),
  (rc = 0 \/ rc = 1) ->
  exists rc' l w', fetch_all fuel args rc w = Ok (rc', l, w') /\ (rc' = 0 \/ rc' = 1) /\ (rc = 1 -> rc' = 1) /\ same_open w w'.
Proof.
  intros Hf. fix IH 1. intros [|url [|out rest]] rc w Hrc; cbn [fetch_all].
  - exists rc, [], w. split_and!; done.
  - exists rc, [], w. split_and!; done.
  - destruct (download_returns fuel url out w Hf) as (r & l & w1 & E & Hr & [L L']). rewrite E. cbn [res_bind].
    destruct (IH rest (if negb (r =? 0) then r else rc) w1) as (rc' & l' & w2 & E2 & Hrc' & Hmono & [L2 L2']).
    { destruct Hr as [-> | ->]; cbn; [done|by right]. }
    rewrite E2. cbn [res_bind]. exists rc', (l ++ l'), w2. split; [done|]. split; [done|]. split; [|split; congruence].
    intros ->. apply Hmono. by destruct Hr as [-> | ->].
Qed.
End Laws.

(** ** Properties *)

(** C39. The downloader ends and gives back what it took: for any arguments and
    whatever calls fail, on a network on which no answer has more than [chunks]
    pieces, it returns 0 or 1, and on every path the handles and the files that
    are open at the end are exactly those that were open at the start. *)
Theorem dl_gives_back {W} `{WinInetLaws W} fuel argv (w : W) :
  (chunks < fuel)%nat ->
  exists rc l w', main fuel argv w = Ok (rc, l, w') /\ (rc = 0 \/ rc = 1) /\
    handles w' = handles w /\ files w' = files w.
Proof.
  intros Hf. unfold main. destruct (length argv <? 3)%nat; [by exists 1, [Usage], w; split; [|split; [right|]]|].
  destruct (fetch_all_returns fuel Hf (drop 1 argv) 0 w) as (rc & l & w' & E & Hrc & _ & L); [by left|]. by exists rc, l, w'.
Qed.

(** A machine with one small file to serve. *)
Record SimNet : Type := mkSimNet { sn_handles : gset Z; sn_files : gset Z; sn_out : list Z; sn_left : nat }.
Definition sn_gain (w : SimNet) : option Z * SimNet :=
  let h := fresh (sn_handles w) in (Some h, mkSimNet ({[h]} ∪ sn_handles w) (sn_files w) (sn_out w) (sn_left w)).
#[export] Instance SimNet_inet : WinInet SimNet := {
  crack url := Some (url, zstr "/", 80, false);
  i_error w := (0, w);
  i_open w := sn_gain w;
  i_connect _ _ _ w := sn_gain w;
  i_request _ _ _ w := sn_gain w;
  i_send _ w := (true, w);
  i_status _ w := (200, w);
  i_read _ _ w := match (sn_left w `min` 4)%nat with
                  | O => (None, w)
                  | S k => (Some [7], mkSimNet (sn_handles w) (sn_files w) (sn_out w) k)
                  end;
  i_close h w := mkSimNet (sn_handles w ∖ {[h]}) (sn_files w) (sn_out w) (sn_left w);
  f_create _ w := let f := fresh (sn_files w) in
                  (Some f, mkSimNet (sn_handles w) ({[f]} ∪ sn_files w) [] (sn_left w));
  f_write _ b w := mkSimNet (sn_handles w) (sn_files w) (sn_out w ++ b) (sn_left w);
  f_close f w := mkSimNet (sn_handles w) (sn_files w ∖ {[f]}) (sn_out w) (sn_left w);
}.
#[export, refine] Instance SimNet_laws : WinInetLaws SimNet := {
  handles := sn_handles; files := sn_files; chunks := 4%nat; left _ w := (sn_left w `min` 4)%nat;
}.
Proof.
  all: cbn; try done; try (intros; lia); try (intros; split; [apply is_fresh|done]).
  - intros _ _ w. by destruct (sn_left w `min` 4)%nat.
  - intros _ _ w. by destruct (sn_left w `min` 4)%nat.
  - intros _ _ w b w' fp. destruct (sn_left w `min` 4)%nat as [|k] eqn:E; [done|]. intros [= <- <-] _. cbn. lia.
Defined.

Lemma dl_gives_back_witness :
  exists rc l w', main 9 [zstr "hd_dl"; zstr "http://a/b"; zstr "out"] (mkSimNet {[5]} ∅ [] 2) = Ok (rc, l, w') /\
    sn_handles w' = {[5]} /\ sn_files w' = ∅.
Proof.
  destruct (dl_gives_back 9 [zstr "hd_dl"; zstr "http://a/b"; zstr "out"] (mkSimNet {[5]} ∅ [] 2)) as (rc & l & w' & E & _ & L).
  - vm_compute. lia.
  - exists rc, l, w'. split; [exact E|exact L].
Defined.

(** A broken transfer counts as a download: when reading fails after some
    blocks, the program writes the blocks it got and reports success. *)
Example dl_truncated_is_ok :
  main 9 [zstr "hd_dl"; zstr "http://a/b"; zstr "out"] (mkSimNet ∅ ∅ [] 2) = Ok (0, [Done 2 (zstr "out")], mkSimNet ∅ ∅ [7; 7] 0).
Proof. vm_compute. reflexivity. Qed.
End Dl.

(** ** The driver loader *)

Module Ld.

Inductive line : Type :=
| Usage
| RegDone
| RegError (err : Z)
| NoNtdll
| Privilege (st : Z)
| CiQuery (st options : Z)
| CiSet (st : Z)
| CiLocked (st : Z)
| NoCi
| NoLoader
| Loaded (name : list Z) (st : Z).

(** The registry, the exports of ntdll.dll and the calls made through them.
    [to_wide] is the conversion into a buffer of 512 characters, [None] when it
    does not fit. Statuses are as the system gives them, 32 bits unsigned. *)
Class NativeApi (W : Type) : Type := {
  reg_create : W -> Z * W;
  reg_set : string -> Z -> W -> W;
  reg_close : W -> W;
  has_ntdll : W -> bool * W;
  has_proc : string -> W -> bool * W;
  adjust_privilege : Z -> W -> Z * W;
  query_ci : W -> (Z * Z) * W;
  set_ci : Z -> W -> Z * W;
  to_wide : list Z -> option (list Z);
  nt_load_driver : list Z -> list Z -> W -> Z * W;
}.

Definition NT_SUCCESS (st : Z) : bool := 0 <=? s32 st.
Definition SE_DEBUG_PRIVILEGE : Z := 20.
Definition CODEINTEGRITY_OPTION_ENABLED : Z := 0x01.
Definition CODEINTEGRITY_OPTION_TESTSIGN : Z := 0x02.

Section Load.
Context {W : Type} `{NativeApi W}.

Definition set_policy (w : W) : list line * W :=
  let '(err, w) := reg_create w in
  if err =? 0 then ([RegDone], reg_close (reg_set "TestSign" 3 (reg_set "Enabled" 0 w))) else ([RegError err], w).

Definition raise_privilege (w : W) : list line * W :=
  let '(there, w) := has_proc "RtlAdjustPrivilege" w in
  if there : bool then let '(st, w) := adjust_privilege SE_DEBUG_PRIVILEGE w in ([Privilege st], w) else ([], w).

Definition new_options (options : Z) : Z :=
  Z.lor (Z.land options (u32 (Z.lnot CODEINTEGRITY_OPTION_ENABLED))) CODEINTEGRITY_OPTION_TESTSIGN.

Definition set_options (w : W) : list line * W :=
  let '(set_there, w) := has_proc "NtSetSystemInformation" w in
  let '(query_there, w) := has_proc "NtQuerySystemInformation" w in
  if set_there && query_there then
    let '(st, options, w) := query_ci w in
    if NT_SUCCESS st then
      let '(st', w) := set_ci (new_options options) w in
      ([CiQuery st options; CiSet st'] ++ (if negb (NT_SUCCESS st') then [CiLocked st'] else []), w)
    else ([CiQuery st options], w)
  else ([NoCi], w).

Definition relax_ci (w : W) : Z * list line * W :=
  let '(l1, w) := set_policy w in
  let '(there, w) := has_ntdll w in
  if negb there then (-1, l1 ++ [NoNtdll], w) else
  let '(l2, w) := raise_privilege w in
  let '(l3, w) := set_options w in
  (0, l1 ++ l2 ++ l3, w).

(** Names that do not fit leave the buffer without a terminator. *)
Definition load_driver (name reg_path : list Z) (w : W) : res (Z * list line * W) :=
  let '(there, w) := has_ntdll w in
  if negb there then Ok (1, [NoNtdll], w) else
  let '(init_there, w) := has_proc "RtlInitUnicodeString" w in
  let '(load_there, w) := has_proc "NtLoadDriver" w in
  if negb load_there || negb init_there then Ok (1, [NoLoader], w) else
  let* wname := of_opt (to_wide name) in
  let* wreg := of_opt (to_wide reg_path) in
  let '(status, w) := nt_load_driver wname wreg w in
  Ok (if negb (status =? 0) then 1 else 0, [Loaded name status], w).

Fixpoint load_all (args : list (list Z)) (rc : Z) (w : W) : res (Z * list line * W) :=
  match args with
  | [] => Ok (rc, [], w)
  | a :: rest =>
      let* (r, l, w) := load_driver a a w in
      let* (rc, l', w) := load_all rest (if negb (r =? 0) then r else rc) w in
      Ok (rc, l ++ l', w)
  end.

Definition main (argv : list (list Z)) (w : W) : res (Z * list line * W) :=
  if (length argv <? 2)%nat then Ok (1, [Usage], w) else
  let '(_, l, w) := relax_ci w in
  let* (rc, l', w) := load_all (drop 1 argv) 0 w in
  Ok (rc, l ++ l', w).

(** The services that were loaded. *)
Definition loaded_ok (l : line) : option (list Z) := match l with Loaded n st => if st =? 0 then Some n else None | _ => None end.

Lemma load_all_spec args rc (w : W) :
  Forall (fun a => is_Some (to_wide a)) args -> (rc = 0 \/ rc = 1) ->
  exists rc' l w', load_all args rc w = Ok (rc', l, w') /\ (rc' = 0 \/ rc' = 1) /\ (rc' = 0 <-> rc = 0 /\ omap loaded_ok l = args) /\
    (length (omap loaded_ok l) <= length args)%nat.
Proof.
  intros Ha. revert rc w. induction Ha as [|a rest [wa Hwa] _ IH]; intros rc w Hrc; cbn [load_all].
  { exists rc, [], w. split_and!; [done|done| |done]. cbn. tauto. }
  assert (exists r l w1, load_driver a a w = Ok (r, l, w1) /\ (r = 0 \/ r = 1) /\
    (r = 0 /\ omap loaded_ok l = [a] \/ r = 1 /\ omap loaded_ok l = [])) as (r & l & w1 & E & Hr & Hl).
  { unfold load_driver. destruct (has_ntdll w) as [[] w1]; cbn [negb]; [|eexists 1, _, _; split; [reflexivity|]; split; by right].
    destruct (has_proc "RtlInitUnicodeString" w1) as [[] w2], (has_proc "NtLoadDriver" w2) as [[] w3]; cbn [negb orb];
      try (eexists 1, _, _; split; [reflexivity|]; split; by right).
    rewrite Hwa. cbn [of_opt res_bind]. destruct (nt_load_driver wa wa w3) as [st w4]. destruct (Z.eqb_spec st 0) as [->|Hst]; cbn [negb].
    - eexists 0, _, _. split; [reflexivity|]. split; by left.
    - eexists 1, _, _. split; [reflexivity|]. split; [by right|]. right. cbn. by rewrite (proj2 (Z.eqb_neq _ _)). }
  rewrite E. cbn [res_bind]. destruct (IH (if negb (r =? 0) then r else rc) w1) as (rc' & l' & w2 & E2 & Hrc' & Hiff & Hle).
  { destruct Hr as [-> | ->]; cbn; [done|by right]. }
  rewrite E2. cbn [res_bind]. exists rc', (l ++ l'), w2. split; [done|]. split; [done|]. rewrite omap_app.
  destruct Hl as [[-> Hl]|[-> Hl]]; rewrite Hl; cbn in *; (split; [|lia]).
  - rewrite Hiff. split; [intros [-> ->]; done|]. intros [-> E']. by injection E' as ->.
  - split; [rewrite Hiff; intros [? _]; lia|]. intros [_ E']. rewrite E' in Hle. cbn in Hle. lia.
Qed.
End Load.

(** ** Properties *)

(** The exit code of the loader says whether every driver was loaded: with
    names that fit its buffers it always returns, whatever relaxing the policy
    did, and it returns 0 exactly when NtLoadDriver answered 0 for each of the
    services named, in order. *)
Theorem ld_exit_code {W} `{NativeApi W} argv (w : W) :
  (2 <= length argv)%nat -> Forall (fun a => is_Some (to_wide a)) (drop 1 argv) ->
  exists rc l w', main argv w = Ok (rc, l, w') /\ (rc = 0 \/ rc = 1) /\ (rc = 0 <-> omap loaded_ok l = drop 1 argv).
Proof.
  intros Hl Ha. unfold main. rewrite (proj2 (Nat.ltb_ge _ _)) by done.
  assert (forall w', omap loaded_ok (relax_ci w').1.2 = []) as Hquiet.
  { intros w'. unfold relax_ci, set_policy, raise_privilege, set_options. repeat case_match; simplify_eq; done. }
  specialize (Hquiet w). destruct (relax_ci w) as [[r0 l0] w0]. cbn in Hquiet.
  destruct (load_all_spec (drop 1 argv) 0 w0 Ha) as (rc & l & w' & E & Hrc & Hiff & _); [by left|].
  rewrite E. cbn [res_bind]. exists rc, (l0 ++ l), w'. split; [done|]. split; [done|]. rewrite omap_app, Hquiet. cbn. tauto.
Qed.

(** A machine that loads every driver but one. *)
#[export] Instance unit_native : NativeApi unit := {
  reg_create w := (5, w);
  reg_set _ _ w := w;
  reg_close w := w;
  has_ntdll w := (true, w);
  has_proc _ w := (true, w);
  adjust_privilege _ w := (0, w);
  query_ci w := ((0, 1), w);
  set_ci _ w := (0xC0000022, w);
  to_wide s := if (length s <? 512)%nat then Some s else None;
  nt_load_driver n _ w := (if bool_decide (n = zstr "bad") then 0xC0000034 else 0, w);
}.

Lemma ld_exit_code_witness :
  exists rc l w', main [zstr "hd_ld"; zstr "good"; zstr "bad"] tt = Ok (rc, l, w') /\ (rc = 0 <-> omap loaded_ok l = [zstr "good"; zstr "bad"]).
Proof.
  destruct (ld_exit_code [zstr "hd_ld"; zstr "good"; zstr "bad"] tt) as (rc & l & w' & E & _ & Hiff).
  - vm_compute. lia.
  - repeat constructor; by eexists.
  - exists rc, l, w'. split; [exact E|exact Hiff].
Defined.
End Ld.
